(** * OrderMatch: the matching engine of [app/matcher.py]

    A shallow embedding of [MatchingEngine] and of the properties its
    specification states about it.

    Modelling conventions.
    - Python [float] values are exact rationals ([Q]) in the model of the
      engine; [float('inf')] is the extra point [Inf] of [SortKey].  What is
      stated of the engine compares floats, copies them and repeats the
      code's own expressions, so that it holds of the rounded values as
      well.  Where rounding decides, the functions concerned are given once
      more on IEEE doubles, in [Doubles].
    - [datetime] values are integers ([Z]); every entry point receives the
      value [now] that [datetime.utcnow()] returns during the call.
    - Python objects are shared and mutated in place.  [Order] objects live in
      an object store ([heap]) and are named by references; the engine's
      dictionaries and lists hold references, as in the source.
    - Python dictionaries are insertion ordered association lists ([dict]).
    - Exceptions are values of [Exn]; a computation that raises keeps the
      mutations it made before raising.
    - [logger] calls have no effect on the engine and are left out. *)

From Stdlib Require Import QArith Qminmax ZArith String List Bool Lia Lqa.
From Stdlib Require Import Sorted Permutation.
From Stdlib Require Import Ascii.
From Stdlib Require Import SpecFloat.
From stdpp Require Import base list.

Local Open Scope Z_scope.
Local Open Scope string_scope.
Local Open Scope list_scope.

(** ** Data model ([app/models.py], as [matcher.py] uses it)

    The members of the three enumerations carry the names under which
    [matcher.py] refers to them ([OrderStatus.PENDING], [OrderType.LIMIT],
    ...); [Order] has the fields of the model class.  The field constraints
    of the model class ([quantity > 0], [price > 0]) are not part of the
    type: [_validate_order] tests them again, and the engine is specified on
    every order it can be handed. *)

Inductive OrderType := LIMIT | MARKET | STOP.
Inductive OrderSide := BUY | SELL.
Inductive OrderStatus := PENDING | PARTIAL | FILLED | CANCELLED | REJECTED.

Definition OrderType_eqb (a b : OrderType) : bool :=
  match a, b with
  | LIMIT, LIMIT | MARKET, MARKET | STOP, STOP => true
  | _, _ => false
  end.

Definition OrderSide_eqb (a b : OrderSide) : bool :=
  match a, b with
  | BUY, BUY | SELL, SELL => true
  | _, _ => false
  end.

Definition OrderStatus_eqb (a b : OrderStatus) : bool :=
  match a, b with
  | PENDING, PENDING | PARTIAL, PARTIAL | FILLED, FILLED
  | CANCELLED, CANCELLED | REJECTED, REJECTED => true
  | _, _ => false
  end.

(** Truth value of an [Optional[float]]: [None] and [0.0] are false. *)
Definition truthy (p : option Q) : bool :=
  match p with
  | Some q => negb (Qeq_bool q 0)
  | None => false
  end.

(** [a > 0] on floats. *)
Definition Qpos_bool (a : Q) : bool := negb (Qle_bool a 0).

(** Python's [min(a, b)]: the first argument unless the second is smaller. *)
Definition py_min (a b : Q) : Q := if negb (Qle_bool a b) then b else a.

Module Order.
Record t := mk {
  id : string;
  symbol : string;
  side : OrderSide;
  order_type : OrderType;
  quantity : Q;
  price : option Q;
  stop_price : option Q;
  status : OrderStatus;
  filled_quantity : Q;
  average_price : option Q;
  created_at : Z;
  updated_at : Z;
  user_id : string;
  client_order_id : string
}.

Definition set_status (v : OrderStatus) (o : t) : t :=
  mk (id o) (symbol o) (side o) (order_type o) (quantity o) (price o)
     (stop_price o) v (filled_quantity o) (average_price o)
     (created_at o) (updated_at o) (user_id o) (client_order_id o).

Definition set_filled_quantity (v : Q) (o : t) : t :=
  mk (id o) (symbol o) (side o) (order_type o) (quantity o) (price o)
     (stop_price o) (status o) v (average_price o)
     (created_at o) (updated_at o) (user_id o) (client_order_id o).

Definition set_average_price (v : option Q) (o : t) : t :=
  mk (id o) (symbol o) (side o) (order_type o) (quantity o) (price o)
     (stop_price o) (status o) (filled_quantity o) v
     (created_at o) (updated_at o) (user_id o) (client_order_id o).

Definition set_updated_at (v : Z) (o : t) : t :=
  mk (id o) (symbol o) (side o) (order_type o) (quantity o) (price o)
     (stop_price o) (status o) (filled_quantity o) (average_price o)
     (created_at o) v (user_id o) (client_order_id o).

(** [quantity - filled_quantity] *)
Definition remaining (o : t) : Q := (quantity o - filled_quantity o)%Q.
End Order.

(** Modelled from the spec: class [Trade] is imported from [models.py] but
    its declaration is not part of the sources.  The record has the fields
    [_execute_trade] passes to the constructor, plus the timestamp the
    specification lists; [price] is whatever [_execute_trade] computed, which
    is [None] when the order it is read from carries no price.  The
    constructor is taken to accept what it is given. *)
Module Trade.
Record t := mk {
  symbol : string;
  buy_order_id : string;
  sell_order_id : string;
  buyer_id : string;
  seller_id : string;
  quantity : Q;
  price : option Q;
  timestamp : Z
}.
End Trade.

(** One entry of [OrderBook.bids] / [OrderBook.asks]:
    [{"price": price, "quantity": quantity}]. *)
Module Level.
Record t := mk { price : Q; quantity : Q }.
End Level.

(** Modelled from the spec: class [OrderBook] is not part of the sources; the
    fields are those [matcher.py] reads and writes. *)
Module OrderBook.
Record t := mk {
  symbol : string;
  bids : list Level.t;
  asks : list Level.t;
  last_updated : Z
}.
End OrderBook.

(** Modelled from the spec: class [MarketData] is not part of the sources; the
    fields are those [_update_market_data] passes, reads and writes. *)
Module MarketData.
Record t := mk {
  symbol : string;
  last_price : option Q;
  bid : Q;
  ask : Q;
  volume_24h : Q;
  change_24h : Q;
  timestamp : Z
}.

Definition set_last_price (v : option Q) (m : t) : t :=
  mk (symbol m) v (bid m) (ask m) (volume_24h m) (change_24h m) (timestamp m).
Definition set_bid (v : Q) (m : t) : t :=
  mk (symbol m) (last_price m) v (ask m) (volume_24h m) (change_24h m) (timestamp m).
Definition set_ask (v : Q) (m : t) : t :=
  mk (symbol m) (last_price m) (bid m) v (volume_24h m) (change_24h m) (timestamp m).
Definition set_change_24h (v : Q) (m : t) : t :=
  mk (symbol m) (last_price m) (bid m) (ask m) (volume_24h m) v (timestamp m).
Definition set_timestamp (v : Z) (m : t) : t :=
  mk (symbol m) (last_price m) (bid m) (ask m) (volume_24h m) (change_24h m) v.
End MarketData.

(** ** Python dictionaries with string keys *)

Section Dict.
Context {V : Type}.

Definition dict := list (string * V).

Fixpoint dict_get (k : string) (d : dict) : option V :=
  match d with
  | [] => None
  | (k', v) :: d' => if String.eqb k k' then Some v else dict_get k d'
  end.

(** [d[k] = v]: an existing key keeps its position. *)
Fixpoint dict_set (k : string) (v : V) (d : dict) : dict :=
  match d with
  | [] => [(k, v)]
  | (k', v') :: d' =>
      if String.eqb k k' then (k, v) :: d' else (k', v') :: dict_set k v d'
  end.

Definition dict_mem (k : string) (d : dict) : bool :=
  match dict_get k d with Some _ => true | None => false end.

Definition dict_values (d : dict) : list V := map snd d.
End Dict.
Arguments dict V : clear implicits.

(** ** Engine state *)

(** A reference to an [Order] object: its index in the object store. *)
Abbreviation ref := nat (only parsing).

(** [{"buy_orders": [...], "sell_orders": [...]}] *)
Record SymbolOrders := mkSymbolOrders {
  buy_orders : list ref;
  sell_orders : list ref
}.

Record State := mkState {
  heap : list Order.t;                       (* the Order objects *)
  order_books : dict OrderBook.t;            (* self.order_books *)
  active_orders : dict ref;                  (* self.active_orders *)
  orders_by_symbol : dict SymbolOrders;      (* self.orders_by_symbol *)
  trades : list Trade.t;                     (* self.trades *)
  market_data : dict MarketData.t            (* self.market_data *)
}.

(** [MatchingEngine.__init__]: every container empty; no object exists yet. *)
Definition init : State := mkState [] [] [] [] [] [].

Definition set_heap (v : list Order.t) (s : State) : State :=
  mkState v (order_books s) (active_orders s) (orders_by_symbol s) (trades s) (market_data s).
Definition set_order_books (v : dict OrderBook.t) (s : State) : State :=
  mkState (heap s) v (active_orders s) (orders_by_symbol s) (trades s) (market_data s).
Definition set_active_orders (v : dict ref) (s : State) : State :=
  mkState (heap s) (order_books s) v (orders_by_symbol s) (trades s) (market_data s).
Definition set_orders_by_symbol (v : dict SymbolOrders) (s : State) : State :=
  mkState (heap s) (order_books s) (active_orders s) v (trades s) (market_data s).
Definition set_trades (v : list Trade.t) (s : State) : State :=
  mkState (heap s) (order_books s) (active_orders s) (orders_by_symbol s) v (market_data s).
Definition set_market_data (v : dict MarketData.t) (s : State) : State :=
  mkState (heap s) (order_books s) (active_orders s) (orders_by_symbol s) (trades s) v.

(** The engine's own attributes, without the object store. *)
Definition same_engine (s s' : State) : Prop :=
  order_books s' = order_books s /\ active_orders s' = active_orders s /\
  orders_by_symbol s' = orders_by_symbol s /\ trades s' = trades s /\
  market_data s' = market_data s.

(** ** Computations: state and exceptions *)

Inductive Exn :=
| KeyError            (* d[k] on a plain dict without k *)
| TypeError           (* arithmetic or comparison on None *)
| ZeroDivisionError
| InvalidRef.         (* a reference outside the object store; not a Python
                         exception, it marks states Python cannot build *)

Inductive Res (A : Type) :=
| Ok (a : A)
| Raise (e : Exn).
Arguments Ok {A} a.
Arguments Raise {A} e.

Definition M (A : Type) : Type := State -> Res A * State.

Definition ret {A} (a : A) : M A := fun s => (Ok a, s).
Definition raise {A} (e : Exn) : M A := fun s => (Raise e, s).
Definition bind {A B} (m : M A) (k : A -> M B) : M B :=
  fun s => match m s with
           | (Ok a, s') => k a s'
           | (Raise e, s') => (Raise e, s')
           end.
Definition get : M State := fun s => (Ok s, s).
Definition modify (f : State -> State) : M unit := fun s => (Ok tt, f s).

Notation "'let*' x ':=' m 'in' k" := (bind m (fun x => k))
  (at level 10, x name, m at level 100, k at level 200).
Notation "'exec' m 'in' k" := (bind m (fun _ => k))
  (at level 10, m at level 100, k at level 200).

(** Reading an attribute of the object behind [r]. *)
Definition deref (r : ref) : M Order.t :=
  fun s => match heap s !! r with
           | Some o => (Ok o, s)
           | None => (Raise InvalidRef, s)
           end.

(** Assigning attributes of the object behind [r]. *)
Definition update (r : ref) (f : Order.t -> Order.t) : M unit :=
  let* o := deref r in modify (fun s => set_heap (<[r := f o]> (heap s)) s).

(** [self.orders_by_symbol[symbol]]: a [defaultdict], a missing key is
    inserted with two empty lists. *)
Definition symbol_orders (symbol : string) : M SymbolOrders :=
  fun s => match dict_get symbol (orders_by_symbol s) with
           | Some so => (Ok so, s)
           | None =>
               let so := mkSymbolOrders [] [] in
               (Ok so, set_orders_by_symbol (dict_set symbol so (orders_by_symbol s)) s)
           end.

(** [self.order_books[symbol]]: a plain dict. *)
Definition order_book (symbol : string) : M OrderBook.t :=
  fun s => match dict_get symbol (order_books s) with
           | Some ob => (Ok ob, s)
           | None => (Raise KeyError, s)
           end.

(** Reads the objects behind a list of references. *)
Fixpoint deref_all (rs : list ref) : M (list (ref * Order.t)) :=
  match rs with
  | [] => ret []
  | r :: rs' => let* o := deref r in let* os := deref_all rs' in ret ((r, o) :: os)
  end.

(** ** [sorted]: Python's stable sort *)

Section Sorting.
Context {A : Type} (ltb : A -> A -> bool).

(** Puts [x] in front of the first element that is not smaller than it. *)
Fixpoint insert_sorted (x : A) (l : list A) : list A :=
  match l with
  | [] => [x]
  | y :: l' => if ltb y x then y :: insert_sorted x l' else x :: l
  end.

(** [sorted(l)]: ascending for [ltb], elements that compare equal keep
    their order. *)
Fixpoint sorted (l : list A) : list A :=
  match l with
  | [] => []
  | x :: l' => insert_sorted x (sorted l')
  end.
End Sorting.

(** A float or [float('inf')]. *)
Inductive SortKey := Fin (q : Q) | Inf.

Definition Qlt_bool (a b : Q) : bool := negb (Qle_bool b a).

Definition SortKey_eqb (a b : SortKey) : bool :=
  match a, b with
  | Fin x, Fin y => Qeq_bool x y
  | Inf, Inf => true
  | _, _ => false
  end.

Definition SortKey_ltb (a b : SortKey) : bool :=
  match a, b with
  | Fin x, Fin y => Qlt_bool x y
  | Fin _, Inf => true
  | Inf, _ => false
  end.

(** [x.price or float('inf')] *)
Definition price_or_inf (p : option Q) : SortKey :=
  match p with
  | Some q => if Qeq_bool q 0 then Inf else Fin q
  | None => Inf
  end.

(** [-(x.price or 0)] *)
Definition neg_price_or_0 (p : option Q) : Q :=
  match p with
  | Some q => if Qeq_bool q 0 then (- 0)%Q else (- q)%Q
  | None => (- 0)%Q
  end.

(** [<] on the tuples [(x.price or float('inf'), x.created_at)]. *)
Definition buy_key_ltb (a b : ref * Order.t) : bool :=
  let ka := price_or_inf (Order.price (snd a)) in
  let kb := price_or_inf (Order.price (snd b)) in
  if SortKey_eqb ka kb
  then (Order.created_at (snd a) <? Order.created_at (snd b))%Z
  else SortKey_ltb ka kb.

(** [<] on the tuples [(-(x.price or 0), x.created_at)]. *)
Definition sell_key_ltb (a b : ref * Order.t) : bool :=
  let ka := neg_price_or_0 (Order.price (snd a)) in
  let kb := neg_price_or_0 (Order.price (snd b)) in
  if Qeq_bool ka kb
  then (Order.created_at (snd a) <? Order.created_at (snd b))%Z
  else Qlt_bool ka kb.

(** [<] on the items [(price, quantity)] of a levels dictionary. *)
Definition item_ltb (a b : Q * Q) : bool :=
  if Qeq_bool (fst a) (fst b) then Qlt_bool (snd a) (snd b)
  else Qlt_bool (fst a) (fst b).

(** [levels[price] += remaining] on a [defaultdict(float)]. *)
Fixpoint levels_add (p r : Q) (d : list (Q * Q)) : list (Q * Q) :=
  match d with
  | [] => [(p, (0 + r)%Q)]
  | (p', q) :: d' =>
      if Qeq_bool p p' then (p', (q + r)%Q) :: d' else (p', q) :: levels_add p r d'
  end.

(** ** The matching engine *)

(** [_validate_order] *)
Definition _validate_order (order : Order.t) : bool :=
  if Qle_bool (Order.quantity order) 0 then false
  else if OrderType_eqb (Order.order_type order) LIMIT &&
          (negb (truthy (Order.price order)) ||
           match Order.price order with
           | Some p => Qle_bool p 0
           | None => false
           end)
  then false
  else true.

(** [_price_matches] *)
Definition _price_matches (buy_order sell_order : Order.t) : bool :=
  if OrderType_eqb (Order.order_type buy_order) MARKET ||
     OrderType_eqb (Order.order_type sell_order) MARKET
  then true
  else if truthy (Order.price buy_order) && truthy (Order.price sell_order)
  then match Order.price buy_order, Order.price sell_order with
       | Some b, Some s => Qle_bool s b
       | _, _ => false
       end
  else false.

(** [_update_order_after_trade] *)
Definition _update_order_after_trade
    (order : ref) (trade_quantity : Q) (trade_price : option Q) (now : Z) : M unit :=
  exec update order (fun o =>
         Order.set_filled_quantity (Order.filled_quantity o + trade_quantity)%Q o) in
  let* o := deref order in
  exec match Order.average_price o with
       | None => update order (Order.set_average_price trade_price)
       | Some average_price =>
           let total_value :=
             ((Order.filled_quantity o - trade_quantity) * average_price)%Q in
           match trade_price with
           | None => raise TypeError
           | Some p =>
               let total_value := (total_value + trade_quantity * p)%Q in
               if Qeq_bool (Order.filled_quantity o) 0 then raise ZeroDivisionError
               else update order
                      (Order.set_average_price
                         (Some (total_value / Order.filled_quantity o)%Q))
           end
       end in
  exec update order (fun o =>
         if Qle_bool (Order.quantity o) (Order.filled_quantity o)
         then Order.set_status FILLED o
         else Order.set_status PARTIAL o) in
  update order (Order.set_updated_at now).

(** The price [_execute_trade] gives a trade between two orders. *)
Definition trade_price_of (buy_order sell_order : Order.t) : option Q :=
  if OrderType_eqb (Order.order_type buy_order) MARKET then Order.price sell_order
  else if OrderType_eqb (Order.order_type sell_order) MARKET then Order.price buy_order
  else if (Order.created_at buy_order <? Order.created_at sell_order)%Z
       then Order.price buy_order
       else Order.price sell_order.

(** [_execute_trade] *)
Definition _execute_trade (buy_order sell_order : ref) (now : Z) : M (option Trade.t) :=
  let* b := deref buy_order in
  let* s := deref sell_order in
  let buy_remaining := (Order.quantity b - Order.filled_quantity b)%Q in
  let sell_remaining := (Order.quantity s - Order.filled_quantity s)%Q in
  let trade_quantity := py_min buy_remaining sell_remaining in
  if Qle_bool trade_quantity 0 then ret None
  else
    let trade_price := trade_price_of b s in
    let trade :=
      Trade.mk (Order.symbol b) (Order.id b) (Order.id s)
               (Order.user_id b) (Order.user_id s) trade_quantity trade_price now in
    exec _update_order_after_trade buy_order trade_quantity trade_price now in
    exec _update_order_after_trade sell_order trade_quantity trade_price now in
    ret (Some trade).

(** [[o for o in orders if o.status == OrderStatus.PENDING]], each reference
    with the object it names. *)
Definition pending_of (orders : list ref) : M (list (ref * Order.t)) :=
  let* os := deref_all orders in
  ret (List.filter (fun ro => OrderStatus_eqb (Order.status (snd ro)) PENDING) os).

(** The [for sell_order in sell_orders] loop of [_match_buy_order]. *)
Fixpoint match_buy_loop (buy_order : ref) (sell_orders : list ref) (now : Z)
  : M (list Trade.t) :=
  match sell_orders with
  | [] => ret []
  | sell_order :: rest =>
      let* b := deref buy_order in
      if Qle_bool (Order.quantity b - Order.filled_quantity b) 0 then ret []
      else
        let* s := deref sell_order in
        if negb (_price_matches b s) then match_buy_loop buy_order rest now
        else
          let* trade := _execute_trade buy_order sell_order now in
          match trade with
          | Some t =>
              exec modify (fun st => set_trades (trades st ++ [t]) st) in
              let* ts := match_buy_loop buy_order rest now in
              ret (t :: ts)
          | None => match_buy_loop buy_order rest now
          end
  end.

(** The [for buy_order in buy_orders] loop of [_match_sell_order]. *)
Fixpoint match_sell_loop (sell_order : ref) (buy_orders : list ref) (now : Z)
  : M (list Trade.t) :=
  match buy_orders with
  | [] => ret []
  | buy_order :: rest =>
      let* s := deref sell_order in
      if Qle_bool (Order.quantity s - Order.filled_quantity s) 0 then ret []
      else
        let* b := deref buy_order in
        if negb (_price_matches b s) then match_sell_loop sell_order rest now
        else
          let* trade := _execute_trade buy_order sell_order now in
          match trade with
          | Some t =>
              exec modify (fun st => set_trades (trades st ++ [t]) st) in
              let* ts := match_sell_loop sell_order rest now in
              ret (t :: ts)
          | None => match_sell_loop sell_order rest now
          end
  end.

(** The sorted candidate list of [_match_buy_order]. *)
Definition buy_candidates (symbol : string) : M (list ref) :=
  let* symbol_orders := symbol_orders symbol in
  let* pending := pending_of (sell_orders symbol_orders) in
  ret (map fst (sorted buy_key_ltb pending)).

(** The sorted candidate list of [_match_sell_order]. *)
Definition sell_candidates (symbol : string) : M (list ref) :=
  let* symbol_orders := symbol_orders symbol in
  let* pending := pending_of (buy_orders symbol_orders) in
  ret (map fst (sorted sell_key_ltb pending)).

(** [_match_buy_order] *)
Definition _match_buy_order (buy_order : ref) (now : Z) : M (list Trade.t) :=
  let* b := deref buy_order in
  let* sell_orders := buy_candidates (Order.symbol b) in
  match_buy_loop buy_order sell_orders now.

(** [_match_sell_order] *)
Definition _match_sell_order (sell_order : ref) (now : Z) : M (list Trade.t) :=
  let* s := deref sell_order in
  let* buy_orders := sell_candidates (Order.symbol s) in
  match_sell_loop sell_order buy_orders now.

(** [_match_order] *)
Definition _match_order (new_order : ref) (now : Z) : M (list Trade.t) :=
  let* o := deref new_order in
  let* orderbook := order_book (Order.symbol o) in
  if OrderSide_eqb (Order.side o) BUY
  then _match_buy_order new_order now
  else _match_sell_order new_order now.

(** One side of [_update_orderbook_snapshot]: the [defaultdict(float)] of
    remaining quantity per price. *)
Fixpoint aggregate (orders : list (ref * Order.t)) (levels : list (Q * Q))
  : list (Q * Q) :=
  match orders with
  | [] => levels
  | (_, order) :: rest =>
      if OrderStatus_eqb (Order.status order) PENDING && truthy (Order.price order)
      then match Order.price order with
           | Some p =>
               let remaining := (Order.quantity order - Order.filled_quantity order)%Q in
               aggregate rest (levels_add p remaining levels)
           | None => aggregate rest levels
           end
      else aggregate rest levels
  end.

Definition to_levels (items : list (Q * Q)) : list Level.t :=
  map (fun it => Level.mk (fst it) (snd it)) items.

(** [_update_orderbook_snapshot] *)
Definition _update_orderbook_snapshot (symbol : string) (now : Z) : M unit :=
  let* symbol_orders := symbol_orders symbol in
  let* orderbook := order_book symbol in
  let* buys := deref_all (buy_orders symbol_orders) in
  let buy_levels := aggregate buys [] in
  let* sells := deref_all (sell_orders symbol_orders) in
  let sell_levels := aggregate sells [] in
  let bids := to_levels (sorted (fun a b => item_ltb b a) buy_levels) in
  let asks := to_levels (sorted item_ltb sell_levels) in
  modify (fun st =>
    set_order_books
      (dict_set symbol (OrderBook.mk (OrderBook.symbol orderbook) bids asks now)
                (order_books st)) st).

(** [_add_to_orderbook] *)
Definition _add_to_orderbook (order : ref) (now : Z) : M unit :=
  let* o := deref order in
  let* so := symbol_orders (Order.symbol o) in
  exec modify (fun st =>
         set_orders_by_symbol
           (dict_set (Order.symbol o)
              (if OrderSide_eqb (Order.side o) BUY
               then mkSymbolOrders (buy_orders so ++ [order]) (sell_orders so)
               else mkSymbolOrders (buy_orders so) (sell_orders so ++ [order]))
              (orders_by_symbol st)) st) in
  _update_orderbook_snapshot (Order.symbol o) now.

(** [[o for o in orders if o.id != order.id]] *)
Definition without_id (id : string) (orders : list ref) : M (list ref) :=
  let* os := deref_all orders in
  ret (map fst (List.filter (fun ro => negb (String.eqb (Order.id (snd ro)) id)) os)).

(** [_remove_from_orderbook] *)
Definition _remove_from_orderbook (order : ref) (now : Z) : M unit :=
  let* o := deref order in
  let* so := symbol_orders (Order.symbol o) in
  exec (if OrderSide_eqb (Order.side o) BUY
        then
          let* kept := without_id (Order.id o) (buy_orders so) in
          modify (fun st =>
            set_orders_by_symbol
              (dict_set (Order.symbol o) (mkSymbolOrders kept (sell_orders so))
                        (orders_by_symbol st)) st)
        else
          let* kept := without_id (Order.id o) (sell_orders so) in
          modify (fun st =>
            set_orders_by_symbol
              (dict_set (Order.symbol o) (mkSymbolOrders (buy_orders so) kept)
                        (orders_by_symbol st)) st)) in
  _update_orderbook_snapshot (Order.symbol o) now.

(** [market_data.<attr> = v] on [self.market_data[symbol]]. *)
Definition update_md (symbol : string) (f : MarketData.t -> MarketData.t) : M unit :=
  fun st => match dict_get symbol (market_data st) with
            | Some md => (Ok tt, set_market_data (dict_set symbol (f md) (market_data st)) st)
            | None => (Raise KeyError, st)
            end.

(** [_update_market_data] *)
Definition _update_market_data (symbol : string) (trade : Trade.t) (now : Z) : M unit :=
  exec modify (fun st =>
         if dict_mem symbol (market_data st) then st
         else set_market_data
                (dict_set symbol
                   (MarketData.mk symbol (Trade.price trade) 0 0 0 0 now)
                   (market_data st)) st) in
  let* st := get in
  match dict_get symbol (market_data st) with
  | None => raise KeyError
  | Some market_data =>
      let old_price := MarketData.last_price market_data in
      exec update_md symbol (MarketData.set_last_price (Trade.price trade)) in
      let* orderbook := order_book symbol in
      exec match OrderBook.bids orderbook with
           | top :: _ => update_md symbol (MarketData.set_bid (Level.price top))
           | [] => ret tt
           end in
      exec match OrderBook.asks orderbook with
           | top :: _ => update_md symbol (MarketData.set_ask (Level.price top))
           | [] => ret tt
           end in
      exec match old_price with
           | None => raise TypeError
           | Some old =>
               if Qpos_bool old
               then match Trade.price trade with
                    | None => raise TypeError
                    | Some p =>
                        update_md symbol
                          (MarketData.set_change_24h (((p - old) / old) * 100)%Q)
                    end
               else ret tt
           end in
      update_md symbol (MarketData.set_timestamp now)
  end.

(** [process_order] *)
Definition process_order (order : ref) (now : Z) : M (list Trade.t) :=
  let* o := deref order in
  if negb (_validate_order o)
  then exec update order (Order.set_status REJECTED) in ret []
  else
    exec modify (fun st =>
           if dict_mem (Order.symbol o) (order_books st) then st
           else set_order_books
                  (dict_set (Order.symbol o) (OrderBook.mk (Order.symbol o) [] [] now)
                            (order_books st)) st) in
    exec modify (fun st =>
           set_active_orders (dict_set (Order.id o) order (active_orders st)) st) in
    let* trades := _match_order order now in
    let* o' := deref order in
    exec (if negb (OrderStatus_eqb (Order.status o') FILLED)
          then _add_to_orderbook order now
          else ret tt) in
    exec match last trades with
         | Some t => _update_market_data (Order.symbol o) t now
         | None => ret tt
         end in
    ret trades.

(** [cancel_order] *)
Definition cancel_order (order_id user_id : string) (now : Z) : M bool :=
  let* st := get in
  match dict_get order_id (active_orders st) with
  | None => ret false
  | Some order =>
      let* o := deref order in
      if negb (String.eqb (Order.user_id o) user_id) then ret false
      else if negb (OrderStatus_eqb (Order.status o) PENDING ||
                    OrderStatus_eqb (Order.status o) PARTIAL)
      then ret false
      else
        exec update order (Order.set_status CANCELLED) in
        exec update order (Order.set_updated_at now) in
        exec _remove_from_orderbook order now in
        ret true
  end.

(** [get_orderbook] *)
Definition get_orderbook (symbol : string) (st : State) : option OrderBook.t :=
  dict_get symbol (order_books st).

(** [get_market_data] *)
Definition get_market_data (symbol : string) (st : State) : option MarketData.t :=
  dict_get symbol (market_data st).

(** [get_order] *)
Definition get_order (order_id : string) (st : State) : option Order.t :=
  match dict_get order_id (active_orders st) with
  | Some r => heap st !! r
  | None => None
  end.

(** [get_user_orders] *)
Definition get_user_orders (user_id : string) (st : State) : list Order.t :=
  List.filter (fun o => String.eqb (Order.user_id o) user_id)
    (omap (fun r => heap st !! r) (dict_values (active_orders st))).

(** ** Callers *)

(** A caller builds a new [Order] object and hands it to [process_order]
    (as [place_order] in [routes.py] does). *)
Definition submit (o : Order.t) (now : Z) : M (list Trade.t) :=
  let* st := get in
  let r := length (heap st) in
  exec modify (fun st => set_heap (heap st ++ [o]) st) in
  process_order r now.

Inductive Op :=
| Submit (o : Order.t) (now : Z)
| Cancel (order_id user_id : string) (now : Z).

Definition step (op : Op) (st : State) : State :=
  match op with
  | Submit o now => snd (submit o now st)
  | Cancel order_id user_id now => snd (cancel_order order_id user_id now st)
  end.

(** The state after a sequence of calls; a call that raises leaves the state
    it had reached. *)
Definition run (ops : list Op) (st : State) : State :=
  fold_left (fun st op => step op st) ops st.

Definition reachable (st : State) : Prop := exists ops, st = run ops init.

(** [Order(symbol=..., side=..., ...)] as a caller writes it: the remaining
    fields take the defaults of the model class. *)
Definition new_Order (id symbol : string) (side : OrderSide) (order_type : OrderType)
    (quantity : Q) (price : option Q) (created_at : Z) (user_id : string) : Order.t :=
  Order.mk id symbol side order_type quantity price None PENDING 0 None
           created_at created_at user_id "".

(** An order as the model class creates it: nothing filled yet. *)
Definition is_new (o : Order.t) : Prop :=
  Order.status o = PENDING /\ Order.filled_quantity o = 0%Q /\
  Order.average_price o = None.

(** Every submitted order is a new one. *)
Definition new_submissions (ops : list Op) : Prop :=
  Forall (fun op => match op with
                    | Submit o _ => is_new o
                    | Cancel _ _ _ => True
                    end) ops.

(** ** The callers in [app/routes.py]

    [user_balances] is a module-level dict of dicts, user id to currency to
    amount; the functions below take it as an argument and, where they
    assign to it, return it.  The exceptions are the [ValueError] of
    unpacking [symbol.split("/")] into two names, and those of the engine. *)

Inductive RouteExn :=
| ValueError
| Raised (e : Exn).

Inductive Outcome (A : Type) :=
| Returns (a : A)
| Raises (e : RouteExn).
Arguments Returns {A} a.
Arguments Raises {A} e.

Abbreviation Balances := (dict (dict Q)) (only parsing).

(** [s.split("/")] *)
Fixpoint split_slash (s : string) : list string :=
  match s with
  | EmptyString => [EmptyString]
  | String c rest =>
      if Ascii.eqb c "/" then EmptyString :: split_slash rest
      else match split_slash rest with
           | first :: others => String c first :: others
           | [] => [String c EmptyString]
           end
  end.

(** [d.get(k, 0)] *)
Definition get_or_0 (k : string) (d : dict Q) : Q :=
  match dict_get k d with
  | Some v => v
  | None => 0%Q
  end.

(** [get_user_balance] *)
Definition get_user_balance (user_id : string) (user_balances : Balances) : dict Q :=
  match dict_get user_id user_balances with
  | Some balance => balance
  | None => [("BTC", 0%Q); ("USDT", 0%Q)]
  end.

(** [check_balance] *)
Definition check_balance (user_id symbol side : string) (quantity price : Q)
    (user_balances : Balances) : Outcome bool :=
  let balance := get_user_balance user_id user_balances in
  if String.eqb side "buy"
  then match split_slash symbol with
       | [base_symbol; quote_symbol] =>
           let required_amount := (quantity * price)%Q in
           Returns (Qle_bool required_amount (get_or_0 quote_symbol balance))
       | _ => Raises ValueError
       end
  else match split_slash symbol with
       | [base_symbol; quote_symbol] =>
           Returns (Qle_bool quantity (get_or_0 base_symbol balance))
       | _ => Raises ValueError
       end.

(** [user_balances[user][currency] += delta] *)
Definition add_to_balance (user currency : string) (delta : Q) (user_balances : Balances)
  : Outcome unit * Balances :=
  match dict_get user user_balances with
  | None => (Raises (Raised KeyError), user_balances)
  | Some balance =>
      match dict_get currency balance with
      | None => (Raises (Raised KeyError), user_balances)
      | Some v =>
          (Returns tt,
           dict_set user (dict_set currency (v + delta)%Q balance) user_balances)
      end
  end.

(** Sequencing of two assignments to [user_balances]. *)
Definition and_then (r : Outcome unit * Balances)
    (k : Balances -> Outcome unit * Balances) : Outcome unit * Balances :=
  match r with
  | (Returns _, user_balances) => k user_balances
  | (Raises e, user_balances) => (Raises e, user_balances)
  end.

(** [update_balance_after_trade] *)
Definition update_balance_after_trade (trade : Trade.t) (user_balances : Balances)
  : Outcome unit * Balances :=
  match split_slash (Trade.symbol trade) with
  | [base_symbol; quote_symbol] =>
      match Trade.price trade with
      | None => (Raises (Raised TypeError), user_balances)
      | Some price =>
          let trade_value := (Trade.quantity trade * price)%Q in
          and_then
            (if dict_mem (Trade.buyer_id trade) user_balances
             then and_then
                    (add_to_balance (Trade.buyer_id trade) base_symbol
                       (Trade.quantity trade) user_balances)
                    (add_to_balance (Trade.buyer_id trade) quote_symbol (- trade_value)%Q)
             else (Returns tt, user_balances))
            (fun user_balances =>
               if dict_mem (Trade.seller_id trade) user_balances
               then and_then
                      (add_to_balance (Trade.seller_id trade) base_symbol
                         (- Trade.quantity trade)%Q user_balances)
                      (add_to_balance (Trade.seller_id trade) quote_symbol trade_value)
               else (Returns tt, user_balances))
      end
  | _ => (Raises ValueError, user_balances)
  end.

(** [l[:limit]] *)
Definition slice_to {A : Type} (limit : Z) (l : list A) : list A :=
  if (0 <=? limit)%Z then take (Z.to_nat limit) l
  else take (length l - Z.to_nat (- limit)) l.

(** [key=lambda x: x.timestamp, reverse=True]: later trades first, trades
    of one timestamp in the order of the history. *)
Definition newer (a b : Trade.t) : bool := (Trade.timestamp b <? Trade.timestamp a)%Z.

(** [get_trades] *)
Definition get_trades (symbol : string) (limit : Z) (st : State) : list Trade.t :=
  let trades :=
    List.filter (fun trade => String.eqb (Trade.symbol trade) symbol) (trades st) in
  slice_to limit (sorted newer trades).

(** [get_all_trades] *)
Definition get_all_trades (limit : Z) (st : State) : list Trade.t :=
  slice_to limit (sorted newer (trades st)).

(** ** The arithmetic of a trade on IEEE doubles

    A Python [float] is an IEEE 754 binary64 number.  Where a property
    depends on how it rounds, [_execute_trade] and
    [_update_order_after_trade] are read once more with the floats as
    doubles ([spec_float] at precision 53), operation by operation as the
    source has them.  The object store is the only part of the engine the
    two functions touch. *)

Module Doubles.

Definition float : Type := spec_float.
Definition prec : Z := 53.
Definition emax : Z := 1024.

(** [a + b], [a - b], [a * b], and [a / b] for a divisor that is not zero:
    the exact result rounded to the nearest double, ties to even. *)
Definition add : float -> float -> float := SFadd prec emax.
Definition sub : float -> float -> float := SFsub prec emax.
Definition mul : float -> float -> float := SFmul prec emax.
Definition div : float -> float -> float := SFdiv prec emax.

(** [a <= b], [a < b], [a == b]: false when an operand is a NaN. *)
Definition leb : float -> float -> bool := SFleb.
Definition ltb : float -> float -> bool := SFltb.
Definition eqb : float -> float -> bool := SFeqb.

(** The double of an integer literal. *)
Definition of_Z (z : Z) : float := binary_normalize prec emax z 0 false.


(** Python's [min(a, b)]: the first argument unless the second is smaller. *)
Definition py_min (a b : float) : float := if ltb b a then b else a.

Module Order.
Record t := mk {
  id : string;
  symbol : string;
  side : OrderSide;
  order_type : OrderType;
  quantity : float;
  price : option float;
  stop_price : option float;
  status : OrderStatus;
  filled_quantity : float;
  average_price : option float;
  created_at : Z;
  updated_at : Z;
  user_id : string;
  client_order_id : string
}.

Definition set_status (v : OrderStatus) (o : t) : t :=
  mk (id o) (symbol o) (side o) (order_type o) (quantity o) (price o)
     (stop_price o) v (filled_quantity o) (average_price o)
     (created_at o) (updated_at o) (user_id o) (client_order_id o).

Definition set_filled_quantity (v : float) (o : t) : t :=
  mk (id o) (symbol o) (side o) (order_type o) (quantity o) (price o)
     (stop_price o) (status o) v (average_price o)
     (created_at o) (updated_at o) (user_id o) (client_order_id o).

Definition set_average_price (v : option float) (o : t) : t :=
  mk (id o) (symbol o) (side o) (order_type o) (quantity o) (price o)
     (stop_price o) (status o) (filled_quantity o) v
     (created_at o) (updated_at o) (user_id o) (client_order_id o).

Definition set_updated_at (v : Z) (o : t) : t :=
  mk (id o) (symbol o) (side o) (order_type o) (quantity o) (price o)
     (stop_price o) (status o) (filled_quantity o) (average_price o)
     (created_at o) v (user_id o) (client_order_id o).
End Order.

Module Trade.
Record t := mk {
  symbol : string;
  buy_order_id : string;
  sell_order_id : string;
  buyer_id : string;
  seller_id : string;
  quantity : float;
  price : option float;
  timestamp : Z
}.
End Trade.

(** Computations on the object store, with exceptions. *)
Definition M (A : Type) : Type := list Order.t -> Res A * list Order.t.

Definition ret {A} (a : A) : M A := fun h => (Ok a, h).
Definition raise {A} (e : Exn) : M A := fun h => (Raise e, h).
Definition bind {A B} (m : M A) (k : A -> M B) : M B :=
  fun h => match m h with
           | (Ok a, h') => k a h'
           | (Raise e, h') => (Raise e, h')
           end.

Definition deref (r : nat) : M Order.t :=
  fun h => match h !! r with
           | Some o => (Ok o, h)
           | None => (Raise InvalidRef, h)
           end.

Definition update (r : nat) (f : Order.t -> Order.t) : M unit :=
  bind (deref r) (fun o h => (Ok tt, <[r := f o]> h)).

(** [_update_order_after_trade] *)
Definition _update_order_after_trade
    (order : nat) (trade_quantity : float) (trade_price : option float) (now : Z) : M unit :=
  bind (update order (fun o =>
          Order.set_filled_quantity (add (Order.filled_quantity o) trade_quantity) o))
    (fun _ =>
  bind (deref order) (fun o =>
  bind (match Order.average_price o with
        | None => update order (Order.set_average_price trade_price)
        | Some average_price =>
            let total_value :=
              mul (sub (Order.filled_quantity o) trade_quantity) average_price in
            match trade_price with
            | None => raise TypeError
            | Some p =>
                let total_value := add total_value (mul trade_quantity p) in
                if eqb (Order.filled_quantity o) (of_Z 0) then raise ZeroDivisionError
                else update order
                       (Order.set_average_price
                          (Some (div total_value (Order.filled_quantity o))))
            end
        end)
    (fun _ =>
  bind (update order (fun o =>
          if leb (Order.quantity o) (Order.filled_quantity o)
          then Order.set_status FILLED o
          else Order.set_status PARTIAL o))
    (fun _ =>
  update order (Order.set_updated_at now))))).

(** The price [_execute_trade] gives a trade between two orders. *)
Definition trade_price_of (buy_order sell_order : Order.t) : option float :=
  if OrderType_eqb (Order.order_type buy_order) MARKET then Order.price sell_order
  else if OrderType_eqb (Order.order_type sell_order) MARKET then Order.price buy_order
  else if (Order.created_at buy_order <? Order.created_at sell_order)%Z
       then Order.price buy_order
       else Order.price sell_order.

(** [_execute_trade] *)
Definition _execute_trade (buy_order sell_order : nat) (now : Z) : M (option Trade.t) :=
  bind (deref buy_order) (fun b =>
  bind (deref sell_order) (fun s =>
  let buy_remaining := sub (Order.quantity b) (Order.filled_quantity b) in
  let sell_remaining := sub (Order.quantity s) (Order.filled_quantity s) in
  let trade_quantity := py_min buy_remaining sell_remaining in
  if leb trade_quantity (of_Z 0) then ret None
  else
    let trade_price := trade_price_of b s in
    let trade :=
      Trade.mk (Order.symbol b) (Order.id b) (Order.id s)
               (Order.user_id b) (Order.user_id s) trade_quantity trade_price now in
    bind (_update_order_after_trade buy_order trade_quantity trade_price now) (fun _ =>
    bind (_update_order_after_trade sell_order trade_quantity trade_price now) (fun _ =>
    ret (Some trade))))).

(** [Order(symbol=..., side=..., ...)] as a caller writes it. *)
Definition new_Order (id symbol : string) (side : OrderSide) (order_type : OrderType)
    (quantity : float) (price : option float) (created_at : Z) (user_id : string) : Order.t :=
  Order.mk id symbol side order_type quantity price None PENDING (of_Z 0) None
           created_at created_at user_id "".

End Doubles.

(** * Vocabulary of the specification and of the proofs *)

(** ** Sentences of the specification *)

(** What the specification calls a malformed order. *)
Definition malformed_as_stated (o : Order.t) : Prop :=
  (Order.quantity o <= 0)%Q \/
  ((Order.order_type o = LIMIT \/ Order.order_type o = STOP) /\
   (Order.price o = None \/ exists p, Order.price o = Some p /\ (p <= 0)%Q)).

(** What [_validate_order] turns down. *)
Definition malformed (o : Order.t) : Prop :=
  (Order.quantity o <= 0)%Q \/
  (Order.order_type o = LIMIT /\
   (Order.price o = None \/ exists p, Order.price o = Some p /\ (p <= 0)%Q)).

(** The sentence of the specification, read on [submit]. *)
Definition validation_fails_closed_as_stated : Prop :=
  forall s o now, malformed_as_stated o ->
    fst (submit o now s) = Ok [] /\
    same_engine s (snd (submit o now s)) /\
    (exists o', heap (snd (submit o now s)) !! length (heap s) = Some o' /\
                Order.status o' = REJECTED).

(** The objects behind a list of references. *)
Definition objects_of (h : list Order.t) (rs : list ref) : list (ref * Order.t) :=
  omap (fun r => match h !! r with Some o => Some (r, o) | None => None end) rs.

(** The objects in the resting list of one side of a symbol. *)
Definition resting (side : OrderSide) (symbol : string) (s : State) : list (ref * Order.t) :=
  match dict_get symbol (orders_by_symbol s) with
  | Some so =>
      objects_of (heap s) (match side with BUY => buy_orders so | SELL => sell_orders so end)
  | None => []
  end.

(** Status [Pending] or [Partial]. *)
Definition is_live (o : Order.t) : bool :=
  OrderStatus_eqb (Order.status o) PENDING || OrderStatus_eqb (Order.status o) PARTIAL.

(** The candidate set as the specification words it: the resting orders of
    the opposite side whose status is [Pending] or [Partial]. *)
Definition candidates_as_stated (incoming : OrderSide) (symbol : string) (s : State)
  : list ref :=
  map fst (List.filter (fun ro => is_live (snd ro))
             (resting (match incoming with BUY => SELL | SELL => BUY end) symbol s)).

(** The level quantity as the specification words it: the sum of
    [requested - filled] over the [Pending]/[Partial] resting orders of a
    side at exactly that price. *)
Definition level_quantity_as_stated (side : OrderSide) (symbol : string) (p : Q) (s : State)
  : Q :=
  fold_right Qplus 0%Q
    (map (fun ro => Order.remaining (snd ro))
       (List.filter (fun ro => is_live (snd ro) &&
                               match Order.price (snd ro) with
                               | Some q => Qeq_bool q p
                               | None => false
                               end)
          (resting side symbol s))).

(** ** The code in closed form *)

(** The trade [_execute_trade] builds for two orders. *)
Definition trade_of (b s : Order.t) (now : Z) : Trade.t :=
  Trade.mk (Order.symbol b) (Order.id b) (Order.id s) (Order.user_id b) (Order.user_id s)
           (py_min (Order.remaining b) (Order.remaining s)) (trade_price_of b s) now.

(** ** Objects over time *)

(** The attributes the engine never assigns. *)
Definition static (o : Order.t) :=
  (Order.id o, Order.symbol o, Order.side o, Order.order_type o,
   Order.quantity o, Order.price o, Order.created_at o, Order.user_id o).

(** [o'] is a later state of the object [o]: the same identity, still within
    its quantity if it was, and [Rejected] only if it already was. *)
Record order_evolves (o o' : Order.t) : Prop := {
  oe_static : static o' = static o;
  oe_filled : (Order.filled_quantity o <= Order.quantity o)%Q ->
              (Order.filled_quantity o' <= Order.quantity o')%Q;
  oe_status : Order.status o' = REJECTED -> Order.status o = REJECTED
}.

(** The last two assignments of [_update_order_after_trade]: status and
    [updated_at]. *)
Definition finish (now : Z) (o : Order.t) : Order.t :=
  Order.set_updated_at now
    (if Qle_bool (Order.quantity o) (Order.filled_quantity o)
     then Order.set_status FILLED o
     else Order.set_status PARTIAL o).

(** [_update_order_after_trade] on the object itself: the outcome, and the
    object as the call leaves it (also when it raises). *)
Definition after_trade (q : Q) (p : option Q) (now : Z) (o : Order.t)
  : Res unit * Order.t :=
  let o1 := Order.set_filled_quantity (Order.filled_quantity o + q)%Q o in
  match Order.average_price o with
  | None => (Ok tt, finish now (Order.set_average_price p o1))
  | Some avg =>
      match p with
      | None => (Raise TypeError, o1)
      | Some pq =>
          if Qeq_bool (Order.filled_quantity o1) 0 then (Raise ZeroDivisionError, o1)
          else (Ok tt,
                finish now
                  (Order.set_average_price
                     (Some ((((Order.filled_quantity o1 - q) * avg) + q * pq)
                            / Order.filled_quantity o1)%Q) o1))
      end
  end.

(** [_execute_trade] on two different objects, in closed form. *)
Definition executed (b sl : Order.t) (now : Z) : Res (option Trade.t) * Order.t * Order.t :=
  let q := py_min (Order.remaining b) (Order.remaining sl) in
  let p := trade_price_of b sl in
  if Qle_bool q 0 then (Ok None, b, sl)
  else match after_trade q p now b with
       | (Raise e, b') => (Raise e, b', sl)
       | (Ok _, b') =>
           match after_trade q p now sl with
           | (Raise e, sl') => (Raise e, b', sl')
           | (Ok _, sl') => (Ok (Some (trade_of b sl now)), b', sl')
           end
       end.

(** ** Invariants and steps *)

(** The resting lists hold references to existing objects. *)
Definition refs_ok (s : State) : Prop :=
  forall sym so, dict_get sym (orders_by_symbol s) = Some so ->
    (forall r, In r (buy_orders so) -> (r < length (heap s))%nat) /\
    (forall r, In r (sell_orders so) -> (r < length (heap s))%nat).

(** [t] is the trade of the buy order [b] and the sell order [sl]; all the
    attributes involved are ones the engine never assigns. *)
Record made_from (b sl : Order.t) (t : Trade.t) : Prop := {
  mf_symbol : Trade.symbol t = Order.symbol b;
  mf_buy : Trade.buy_order_id t = Order.id b;
  mf_sell : Trade.sell_order_id t = Order.id sl;
  mf_buyer : Trade.buyer_id t = Order.user_id b;
  mf_seller : Trade.seller_id t = Order.user_id sl;
  mf_price : Trade.price t = trade_price_of b sl;
  mf_match : _price_matches b sl = true
}.

(** [t] was made from two objects of the store. *)
Definition has_legs (h : list Order.t) (t : Trade.t) : Prop :=
  exists rb rs b sl, h !! rb = Some b /\ h !! rs = Some sl /\ made_from b sl t.

(** Every trade of the history was made from two objects of the store. *)
Definition trades_ok (s : State) : Prop := Forall (has_legs (heap s)) (trades s).

(** The same objects, each in a later state. *)
Definition heap_evolves (h h' : list Order.t) : Prop :=
  length h' = length h /\
  forall r o, h !! r = Some o -> exists o', h' !! r = Some o' /\ order_evolves o o'.

(** What every piece of the engine, once an order is stored, does to the
    state: objects evolve, the order store stays, books are not dropped, and
    the two invariants above are kept. *)
Record engine_step (s s' : State) : Prop := {
  es_heap : heap_evolves (heap s) (heap s');
  es_active : active_orders s' = active_orders s;
  es_books : forall sym, dict_mem sym (order_books s) = true ->
                         dict_mem sym (order_books s') = true;
  es_refs : refs_ok s -> refs_ok s';
  es_trades : trades_ok s -> trades_ok s'
}.

(** [a] may stand before [b] in a list sorted for [ltb]: [b] is not smaller. *)
Definition not_after {A : Type} (ltb : A -> A -> bool) (a b : A) : Prop := ltb b a = false.

(** [o.status == OrderStatus.PENDING] *)
Definition is_pending (ro : ref * Order.t) : bool :=
  OrderStatus_eqb (Order.status (snd ro)) PENDING.

(** The object behind [r] rests in no list. *)
Definition not_resting (r : ref) (s : State) : Prop :=
  forall sym so, dict_get sym (orders_by_symbol s) = Some so ->
    ~ In r (buy_orders so) /\ ~ In r (sell_orders so).

(** [process_order]: the book of the symbol is created if it is missing. *)
Definition with_book (symbol : string) (now : Z) (s : State) : State :=
  if dict_mem symbol (order_books s) then s
  else set_order_books
         (dict_set symbol (OrderBook.mk symbol [] [] now) (order_books s)) s.

(** [process_order] up to and including [self.active_orders[order.id] = order]. *)
Definition stored (r : ref) (o : Order.t) (now : Z) (s : State) : State :=
  set_active_orders
    (dict_set (Order.id o) r (active_orders (with_book (Order.symbol o) now s)))
    (with_book (Order.symbol o) now s).

(** [process_order] from [trades = await self._match_order(order)] on. *)
Definition after_store (r : ref) (symbol : string) (now : Z) : M (list Trade.t) :=
  let* trades := _match_order r now in
  let* o' := deref r in
  exec (if negb (OrderStatus_eqb (Order.status o') FILLED)
        then _add_to_orderbook r now
        else ret tt) in
  exec match last trades with
       | Some t => _update_market_data symbol t now
       | None => ret tt
       end in
  ret trades.

(** Every stored order is an existing object that carries the key as its id,
    passed validation, and has a book for its symbol. *)
Definition active_ok (s : State) : Prop :=
  forall id r, In (id, r) (active_orders s) ->
    exists o, heap s !! r = Some o /\ Order.id o = id /\ _validate_order o = true /\
              dict_mem (Order.symbol o) (order_books s) = true.

(** The invariant of every state the engine reaches. *)
Definition wf (s : State) : Prop := refs_ok s /\ active_ok s /\ trades_ok s.

(** Every object that passed validation is filled at most to its quantity and
    is not [Rejected]. *)
Definition accounted (s : State) : Prop :=
  forall r o, heap s !! r = Some o -> _validate_order o = true ->
    (Order.filled_quantity o <= Order.quantity o)%Q /\ Order.status o <> REJECTED.

(** The state in which [submit] calls [process_order]. *)
Definition allocated (o : Order.t) (s : State) : State := set_heap (heap s ++ [o]) s.

(** The computation [m] leaves the part [proj] of the state as it was. *)
Definition keeps {X A : Type} (proj : State -> X) (m : M A) : Prop :=
  forall s, proj (snd (m s)) = proj s.

(** No later accepted submission reuses the id. *)
Definition later_ids_differ (id : string) (ops : list Op) : Prop :=
  Forall (fun op => match op with
                    | Submit o _ => _validate_order o = true -> Order.id o <> id
                    | Cancel _ _ _ => True
                    end) ops.

(** [[o for o in orders if o.id != id]] on existing objects. *)
Definition kept_refs (id : string) (h : list Order.t) (rs : list ref) : list ref :=
  map fst (List.filter (fun ro => negb (String.eqb (Order.id (snd ro)) id))
             (objects_of h rs)).

(** The book [_update_orderbook_snapshot] builds from the objects of the two
    resting lists. *)
Definition snapshot (old : OrderBook.t) (buys sells : list (ref * Order.t)) (now : Z)
  : OrderBook.t :=
  OrderBook.mk (OrderBook.symbol old)
    (to_levels (sorted (fun a b => item_ltb b a) (aggregate buys [])))
    (to_levels (sorted item_ltb (aggregate sells [])))
    now.

(** The order as [cancel_order] leaves it. *)
Definition cancelled (now : Z) (o : Order.t) : Order.t :=
  Order.set_updated_at now (Order.set_status CANCELLED o).

(** The resting lists of a symbol, empty when the symbol has none yet. *)
Definition lists_of (symbol : string) (s : State) : SymbolOrders :=
  match dict_get symbol (orders_by_symbol s) with
  | Some so => so
  | None => mkSymbolOrders [] []
  end.

(** The resting lists after [_remove_from_orderbook]. *)
Definition remove_id (side : OrderSide) (id : string) (h : list Order.t) (so : SymbolOrders)
  : SymbolOrders :=
  match side with
  | BUY => mkSymbolOrders (kept_refs id h (buy_orders so)) (sell_orders so)
  | SELL => mkSymbolOrders (buy_orders so) (kept_refs id h (sell_orders so))
  end.

(** The resting list of the side of an order. *)
Definition side_list (side : OrderSide) (so : SymbolOrders) : list ref :=
  match side with BUY => buy_orders so | SELL => sell_orders so end.

(** The record [_update_market_data] leaves for a symbol: [md] is the record
    it found (or just created), [ob] the symbol's book, [price] the trade's
    price. *)
Definition refreshed (md : MarketData.t) (ob : OrderBook.t) (price : option Q) (now : Z)
  : MarketData.t :=
  MarketData.mk (MarketData.symbol md) price
    (match OrderBook.bids ob with top :: _ => Level.price top | [] => MarketData.bid md end)
    (match OrderBook.asks ob with top :: _ => Level.price top | [] => MarketData.ask md end)
    (MarketData.volume_24h md)
    (match MarketData.last_price md, price with
     | Some old, Some p =>
         if Qpos_bool old then (((p - old) / old) * 100)%Q else MarketData.change_24h md
     | _, _ => MarketData.change_24h md
     end)
    now.

(** The record the engine starts from: the stored one, or the one it creates
    from the trade. *)
Definition previous_md (sym : string) (t : Trade.t) (now : Z) (s : State) : MarketData.t :=
  match dict_get sym (market_data s) with
  | Some md => md
  | None => MarketData.mk sym (Trade.price t) 0 0 0 0 now
  end.

(** ** Priority among candidates *)

(** [<] and [==] on floats extended with [float('inf')]. *)
Definition SortKey_lt (a b : SortKey) : Prop :=
  match a, b with
  | Fin x, Fin y => (x < y)%Q
  | Fin _, Inf => True
  | Inf, _ => False
  end.

Definition SortKey_eq (a b : SortKey) : Prop :=
  match a, b with
  | Fin x, Fin y => (x == y)%Q
  | Inf, Inf => True
  | _, _ => False
  end.

(** [x.price or 0] *)
Definition price_or_0 (p : option Q) : Q :=
  match p with
  | Some q => q
  | None => 0%Q
  end.

(** Among resting sells [o1] goes before [o2]: a lower price, or the same
    price and not created later.  An order without a price counts as
    infinitely expensive. *)
Definition ask_priority (o1 o2 : Order.t) : Prop :=
  SortKey_lt (price_or_inf (Order.price o1)) (price_or_inf (Order.price o2)) \/
  (SortKey_eq (price_or_inf (Order.price o1)) (price_or_inf (Order.price o2)) /\
   (Order.created_at o1 <= Order.created_at o2)%Z).

(** Among resting buys [o1] goes before [o2]: a higher price, or the same
    price and not created later.  An order without a price counts as priced
    at 0. *)
Definition bid_priority (o1 o2 : Order.t) : Prop :=
  (price_or_0 (Order.price o2) < price_or_0 (Order.price o1))%Q \/
  ((price_or_0 (Order.price o1) == price_or_0 (Order.price o2))%Q /\
   (Order.created_at o1 <= Order.created_at o2)%Z).

(** The candidates of an incoming buy (sell): the pending orders of the
    opposite resting list. *)
Definition pending_refs (incoming : OrderSide) (symbol : string) (s : State) : list ref :=
  map fst (List.filter is_pending
             (resting (match incoming with BUY => SELL | SELL => BUY end) symbol s)).

(** The object behind [c1] has priority over the one behind [c2]. *)
Definition goes_before (priority : Order.t -> Order.t -> Prop) (h : list Order.t)
    (c1 c2 : ref) : Prop :=
  exists o1 o2, h !! c1 = Some o1 /\ h !! c2 = Some o2 /\ priority o1 o2.

(** [t] is the trade of the objects behind [rb] and [rs]. *)
Definition trade_between (h : list Order.t) (rb rs : ref) (t : Trade.t) : Prop :=
  exists b sl, h !! rb = Some b /\ h !! rs = Some sl /\ made_from b sl t.

(** ** Invariants and frames of the engine and of the routes *)

(** Every trade of the list has a positive quantity. *)
Definition positive_quantities (ts : list Trade.t) : Prop :=
  Forall (fun t => (0 < Trade.quantity t)%Q) ts.

(** The computation [m] appends to the trade history, and what it appends
    is the list it returns. *)
Definition appends_result (m : M (list Trade.t)) : Prop :=
  forall s, exists ts,
    trades (snd (m s)) = trades s ++ ts /\ positive_quantities ts /\
    (forall ts', fst (m s) = Ok ts' -> ts' = ts).

(** The order counts for the level at price [p] of a snapshot: its status is
    [Pending] and its price is a non-zero float equal to [p]. *)
Definition on_level (p : Q) (ro : ref * Order.t) : bool :=
  is_pending ro && truthy (Order.price (snd ro)) &&
  match Order.price (snd ro) with
  | Some q => Qeq_bool q p
  | None => false
  end.

(** The sum of [quantity - filled_quantity] over the orders that count for
    the level at price [p]. *)
Definition level_quantity (p : Q) (os : list (ref * Order.t)) : Q :=
  fold_right Qplus 0%Q
    (map (fun ro => Order.remaining (snd ro)) (List.filter (on_level p) os)).

(** The levels of one side of a book are those of the orders [os]: every
    level carries the sum over the orders that count for its price, at least
    one order counts for it, and every order that counts for some price has
    a level. *)
Definition levels_of_orders (levels : list Level.t) (os : list (ref * Order.t)) : Prop :=
  (forall l, In l levels ->
     (Level.quantity l == level_quantity (Level.price l) os)%Q /\
     exists ro, In ro os /\ on_level (Level.price l) ro = true) /\
  (forall ro p, In ro os -> on_level p ro = true ->
     exists l, In l levels /\ (Level.price l == p)%Q).

(** [levels[p]] on a [defaultdict(float)] that is only read. *)
Fixpoint level_get (p : Q) (d : list (Q * Q)) : Q :=
  match d with
  | [] => 0%Q
  | (k, q) :: d' => if Qeq_bool k p then q else level_get p d'
  end.

(** Any two elements of the list are related, the earlier to the later. *)
Fixpoint pairwise {A : Type} (R : A -> A -> Prop) (l : list A) : Prop :=
  match l with
  | [] => True
  | x :: l' => Forall (R x) l' /\ pairwise R l'
  end.

(** Two items of a levels dictionary have different keys. *)
Definition keys_differ (a b : Q * Q) : Prop := ~ (fst a == fst b)%Q.

(** The computation [m] assigns to no object but those behind [rs]. *)
Definition touches {A : Type} (rs : list ref) (m : M A) : Prop :=
  forall s x, ~ In x rs -> heap (snd (m s)) !! x = heap s !! x.

(** A status the engine never leaves: [Filled], [Cancelled] or [Rejected]. *)
Definition is_final (o : Order.t) : Prop :=
  Order.status o = FILLED \/ Order.status o = CANCELLED \/ Order.status o = REJECTED.

(** The object behind [r] is an order of the given side and symbol that
    passed validation. *)
Definition rests_on (side : OrderSide) (sym : string) (h : list Order.t) (r : ref) : Prop :=
  exists o, h !! r = Some o /\ Order.side o = side /\ Order.symbol o = sym /\
            _validate_order o = true.

(** Every resting list holds orders of its own side and symbol that passed
    validation. *)
Definition lists_ok (s : State) : Prop :=
  forall sym,
    Forall (rests_on BUY sym (heap s)) (buy_orders (lists_of sym s)) /\
    Forall (rests_on SELL sym (heap s)) (sell_orders (lists_of sym s)).

(** The resting lists after [r] was appended to the list of its side. *)
Definition rested (side : OrderSide) (r : ref) (so : SymbolOrders) : SymbolOrders :=
  match side with
  | BUY => mkSymbolOrders (buy_orders so ++ [r]) (sell_orders so)
  | SELL => mkSymbolOrders (buy_orders so) (sell_orders so ++ [r])
  end.

(** [t] was made from two different objects of the store: a buy order and a
    sell order of the same symbol. *)
Definition sided (h : list Order.t) (t : Trade.t) : Prop :=
  exists rb rs b sl,
    rb <> rs /\ h !! rb = Some b /\ h !! rs = Some sl /\ made_from b sl t /\
    Order.side b = BUY /\ Order.side sl = SELL /\ Order.symbol sl = Order.symbol b.

(** Every trade of the history was made from a buy order and a sell order
    of one symbol. *)
Definition trades_sided (s : State) : Prop := Forall (sided (heap s)) (trades s).

(** What the engine keeps for one symbol: resting lists, book and market
    data. *)
Definition symbol_view (sym : string) (s : State)
  : SymbolOrders * option OrderBook.t * option MarketData.t :=
  (lists_of sym s, get_orderbook sym s, get_market_data sym s).

(** The order carries a price. *)
Definition has_price (o : Order.t) : Prop := exists p, Order.price o = Some p.

(** The status of an order says how far it is filled: nothing while it is
    [Pending], a part while it is [Partial], all of it once it is [Filled];
    an order that was filled at all has an average price. *)
Definition status_reflects_fills (o : Order.t) : Prop :=
  match Order.status o with
  | PENDING => (Order.filled_quantity o == 0)%Q /\ Order.average_price o = None
  | PARTIAL =>
      (0 < Order.filled_quantity o)%Q /\ (Order.filled_quantity o < Order.quantity o)%Q /\
      Order.average_price o <> None
  | FILLED =>
      (0 < Order.filled_quantity o)%Q /\ (Order.filled_quantity o == Order.quantity o)%Q /\
      Order.average_price o <> None
  | CANCELLED | REJECTED => True
  end.

(** What holds of every order object when every submitted order is new and
    carries a price. *)
Definition healthy (o : Order.t) : Prop :=
  has_price o /\ (0 <= Order.filled_quantity o)%Q /\ status_reflects_fills o.

Definition all_healthy (s : State) : Prop :=
  forall r o, heap s !! r = Some o -> healthy o.

(** Every market data record has a last price. *)
Definition md_ok (s : State) : Prop :=
  forall sym md, dict_get sym (market_data s) = Some md ->
    exists p, MarketData.last_price md = Some p.

(** The invariant of the states reached by submitting new orders that carry
    a price. *)
Definition sound (s : State) : Prop := wf s /\ all_healthy s /\ md_ok s.

(** Every submitted order is new and carries a price. *)
Definition priced_submissions (ops : list Op) : Prop :=
  Forall (fun op => match op with
                    | Submit o _ => is_new o /\ has_price o
                    | Cancel _ _ _ => True
                    end) ops.

(** The trade carries a price. *)
Definition trade_has_price (t : Trade.t) : Prop := exists p, Trade.price t = Some p.

(** The incoming order [o] and the resting order [oc] of the opposite side
    do not match in price. *)
Definition unmatched (o oc : Order.t) : Prop :=
  match Order.side o with
  | BUY => _price_matches o oc = false
  | SELL => _price_matches oc o = false
  end.

(** What a matching pass leaves [Pending]: an order that is [Pending] in
    [s'] is the same object in [s]; and if the incoming order [r] is still
    [Pending], no candidate with something left matched it in price. *)
Definition pending_kept (r : ref) (o : Order.t) (s s' : State) : Prop :=
  (forall x o', heap s' !! x = Some o' -> Order.status o' = PENDING ->
                heap s !! x = Some o') /\
  (forall o', heap s' !! r = Some o' -> Order.status o' = PENDING ->
     (0 < Order.remaining o)%Q ->
     forall c oc, In c (pending_refs (Order.side o) (Order.symbol o) s) ->
                  heap s !! c = Some oc -> (0 < Order.remaining oc)%Q ->
                  unmatched o oc).

(** The string holds no ["/"]. *)
Fixpoint no_slash (s : string) : Prop :=
  match s with
  | EmptyString => True
  | String c rest => Ascii.eqb c "/" = false /\ no_slash rest
  end.

(** ["/".join(parts)] *)
Fixpoint join_slash (parts : list string) : string :=
  match parts with
  | [] => EmptyString
  | [p] => p
  | p :: rest => p ++ "/" ++ join_slash rest
  end.

(** The [n] newest of the trades [all], newest first: [shown] has at most
    [n] elements, all of them from [all], in descending order of time, and
    no trade left out is later than one that is shown. *)
Definition newest_first (n : nat) (all shown : list Trade.t) : Prop :=
  length shown = Nat.min n (length all) /\
  (exists rest, Permutation (shown ++ rest) all /\
     forall t t', In t shown -> In t' rest ->
       (Trade.timestamp t' <= Trade.timestamp t)%Z) /\
  StronglySorted (fun a b => (Trade.timestamp b <= Trade.timestamp a)%Z) shown.

(** No resting buy order and resting sell order of one symbol that are both
    [Pending] match in price. *)
Definition uncrossed (s : State) : Prop :=
  forall sym rb rs b sl,
    In (rb, b) (resting BUY sym s) -> In (rs, sl) (resting SELL sym s) ->
    Order.status b = PENDING -> Order.status sl = PENDING ->
    _price_matches b sl = false.

(** What a trade adds to the filled quantity of the order with the given id:
    its quantity for each leg that carries the id. *)
Definition fill_of (id : string) (t : Trade.t) : Q :=
  ((if String.eqb (Trade.buy_order_id t) id then Trade.quantity t else 0) +
   (if String.eqb (Trade.sell_order_id t) id then Trade.quantity t else 0))%Q.

(** The quantity the order with the given id has traded, by the history. *)
Definition traded (id : string) (ts : list Trade.t) : Q :=
  fold_right Qplus 0%Q (map (fill_of id) ts).

(** The order objects have different ids, and each is filled to what the
    history says its id has traded. *)
Definition backed (s : State) : Prop :=
  NoDup (map Order.id (heap s)) /\
  forall r o, heap s !! r = Some o ->
    (Order.filled_quantity o == traded (Order.id o) (trades s))%Q.

(** The ids of the submitted orders, in the order of submission. *)
Definition submitted_ids (ops : list Op) : list string :=
  flat_map (fun op => match op with
                      | Submit o _ => [Order.id o]
                      | Cancel _ _ _ => []
                      end) ops.

(** The keys of the entries of a dict, in the order of insertion. *)
Definition dict_keys {V : Type} (d : dict V) : list string := map fst d.



(** What a user holds of a currency, as [check_balance] reads it. *)
Definition held (user currency : string) (user_balances : Balances) : Q :=
  get_or_0 currency (get_user_balance user user_balances).

(** * Proofs *)

(** ** Dictionaries *)

Section DictFacts.
Context {V : Type}.
Implicit Types (d : dict V) (v : V).

Lemma dict_get_set_eq k v d : dict_get k (dict_set k v d) = Some v.
Proof.
  induction d as [|[k' v'] d IH]; simpl.
  - by rewrite String.eqb_refl.
  - destruct (String.eqb k k') eqn:E; simpl; rewrite ?String.eqb_refl, ?E; auto.
Qed.

Lemma dict_get_set_ne k k' v d : k <> k' -> dict_get k' (dict_set k v d) = dict_get k' d.
Proof.
  intros Hne. induction d as [|[k0 v0] d IH]; simpl.
  - destruct (String.eqb k' k) eqn:E; auto.
    apply String.eqb_eq in E. congruence.
  - destruct (String.eqb k k0) eqn:E; simpl.
    + apply String.eqb_eq in E. subst k0.
      destruct (String.eqb k' k) eqn:E'; auto.
      apply String.eqb_eq in E'. congruence.
    + destruct (String.eqb k' k0); auto.
Qed.

Lemma dict_get_set k k' v d :
  dict_get k' (dict_set k v d) = if String.eqb k' k then Some v else dict_get k' d.
Proof.
  destruct (String.eqb k' k) eqn:E.
  - apply String.eqb_eq in E. subst. apply dict_get_set_eq.
  - apply dict_get_set_ne. intros ->. by rewrite String.eqb_refl in E.
Qed.

Lemma dict_values_set_In k v d x :
  In x (dict_values (dict_set k v d)) -> x = v \/ In x (dict_values d).
Proof.
  unfold dict_values. induction d as [|[k' v'] d IH]; simpl.
  - intros [<-|[]]. by left.
  - destruct (String.eqb k k'); simpl; intros [<-|H]; auto.
    destruct (IH H); auto.
Qed.

Lemma dict_get_In_values k v d : dict_get k d = Some v -> In v (dict_values d).
Proof.
  unfold dict_values. induction d as [|[k' v'] d IH]; simpl; [done|].
  destruct (String.eqb k k'); [intros [= ->]; by left | auto].
Qed.

Lemma dict_get_In k v d : dict_get k d = Some v -> In (k, v) d.
Proof.
induction d as [|[k' v'] d IH]; simpl; [done|].
destruct (String.eqb k k') eqn:E; [|auto].
apply String.eqb_eq in E. intros [= ->]. left. by subst.
Qed.

Lemma dict_set_In k v k' v' d :
  In (k', v') (dict_set k v d) -> (k', v') = (k, v) \/ In (k', v') d.
Proof.
induction d as [|[k0 v0] d IH]; simpl.
- intros [<-|[]]. by left.
- destruct (String.eqb k k0); simpl; intros [<-|H]; auto.
  destruct (IH H); auto.
Qed.

Lemma dict_In_values_get v d : In v (dict_values d) -> exists k, In (k, v) d.
Proof.
  unfold dict_values. intros H. apply in_map_iff in H as [[k v'] [E H]].
  simpl in E. subst. eauto.
Qed.
End DictFacts.

(** ** Elementary facts *)

Lemma OrderType_eqb_eq a b : OrderType_eqb a b = true <-> a = b.
Proof. destruct a, b; simpl; split; congruence. Qed.

Lemma OrderSide_eqb_eq a b : OrderSide_eqb a b = true <-> a = b.
Proof. destruct a, b; simpl; split; congruence. Qed.

Lemma OrderStatus_eqb_eq a b : OrderStatus_eqb a b = true <-> a = b.
Proof. destruct a, b; simpl; split; congruence. Qed.

Lemma Qlt_bool_iff a b : Qlt_bool a b = true <-> (a < b)%Q.
Proof.
  unfold Qlt_bool. rewrite negb_true_iff. split.
  - intros H. apply Qnot_le_lt. intros Hle. apply Qle_bool_iff in Hle. congruence.
  - intros H. destruct (Qle_bool b a) eqn:E; [|done].
    apply Qle_bool_iff in E. exfalso. eapply Qlt_not_le; eauto.
Qed.

Lemma Qle_bool_false a b : Qle_bool a b = false <-> (b < a)%Q.
Proof.
  rewrite <- Qlt_bool_iff. unfold Qlt_bool. by rewrite negb_true_iff.
Qed.

Lemma py_min_spec a b :
  (py_min a b <= a)%Q /\ (py_min a b <= b)%Q /\ (py_min a b = a \/ py_min a b = b).
Proof.
  unfold py_min. destruct (Qle_bool a b) eqn:E; simpl.
  - apply Qle_bool_iff in E. repeat split; auto. apply Qle_refl.
  - apply Qle_bool_false in E. repeat split; auto.
    + by apply Qlt_le_weak.
    + apply Qle_refl.
Qed.


Lemma bind_eq {A B} (m : M A) (k : A -> M B) s :
  bind m k s = match m s with
               | (Ok a, s') => k a s'
               | (Raise e, s') => (Raise e, s')
               end.
Proof. reflexivity. Qed.

Lemma deref_Some r o s : heap s !! r = Some o -> deref r s = (Ok o, s).
Proof. intros H. unfold deref. by rewrite H. Qed.

Lemma deref_None r s : heap s !! r = None -> deref r s = (Raise InvalidRef, s).
Proof. intros H. unfold deref. by rewrite H. Qed.

Lemma update_Some r f o s :
  heap s !! r = Some o ->
  update r f s = (Ok tt, set_heap (<[r := f o]> (heap s)) s).
Proof. intros H. unfold update. rewrite bind_eq, (deref_Some _ _ _ H). reflexivity. Qed.

Lemma update_None r f s : heap s !! r = None -> update r f s = (Raise InvalidRef, s).
Proof. intros H. unfold update. rewrite bind_eq, (deref_None _ _ H). reflexivity. Qed.

Lemma heap_insert_lookup r o x (s : State) :
  heap s !! r = Some o -> heap (set_heap (<[r := x]> (heap s)) s) !! r = Some x.
Proof.
  intros H. simpl. apply list_lookup_insert_eq. by eapply lookup_lt_Some.
Qed.

Lemma set_heap_set_heap h h' s : set_heap h (set_heap h' s) = set_heap h s.
Proof. reflexivity. Qed.

Lemma set_heap_id s : set_heap (heap s) s = s.
Proof. by destruct s. Qed.

(** ** C5: validation *)

Lemma validate_false_iff o : _validate_order o = false <-> malformed o.
Proof.
  unfold _validate_order, malformed. split.
  - destruct (Qle_bool (Order.quantity o) 0) eqn:Eq.
    + intros _. left. by apply Qle_bool_iff.
    + destruct (OrderType_eqb (Order.order_type o) LIMIT) eqn:Et; simpl; [|done].
      apply OrderType_eqb_eq in Et. intros H. right. split; [done|].
      destruct (Order.price o) as [p|]; [|by left]. right. exists p. split; [done|].
      simpl in H. destruct (Qeq_bool p 0) eqn:E0; simpl in H.
      * apply Qeq_bool_iff in E0. rewrite E0. apply Qle_refl.
      * destruct (Qle_bool p 0) eqn:Ep; [by apply Qle_bool_iff | done].
  - intros [Hq|[Ht Hp]].
    + apply Qle_bool_iff in Hq. by rewrite Hq.
    + destruct (Qle_bool (Order.quantity o) 0); [done|].
      rewrite Ht. simpl. destruct Hp as [->|[p [-> Hp]]]; [done|].
      simpl. apply Qle_bool_iff in Hp. rewrite Hp. by rewrite orb_true_r.
Qed.

Lemma process_order_rejects s r o now :
  heap s !! r = Some o -> _validate_order o = false ->
  process_order r now s =
    (Ok [], set_heap (<[r := Order.set_status REJECTED o]> (heap s)) s).
Proof.
  intros Hr Hv. unfold process_order.
  rewrite bind_eq, (deref_Some _ _ _ Hr), Hv. simpl.
  rewrite bind_eq, (update_Some _ _ _ _ Hr). reflexivity.
Qed.

Lemma submit_eq o now s :
  submit o now s = process_order (length (heap s)) now (set_heap (heap s ++ [o]) s).
Proof. reflexivity. Qed.

Lemma lookup_snoc {A} (l : list A) x : (l ++ [x]) !! length l = Some x.
Proof. rewrite lookup_app_r by lia. by rewrite Nat.sub_diag. Qed.

Lemma insert_snoc {A} (l : list A) x y : <[length l := y]> (l ++ [x]) = l ++ [y].
Proof.
  rewrite insert_app_r_alt by lia. by rewrite Nat.sub_diag.
Qed.

(** C5, counterexample: a stop order without a price is not rejected; it is
    stored and rests in the book. *)
Lemma C5_stop_order_without_price_is_accepted :
  ~ validation_fails_closed_as_stated.
Proof.
  intros H.
  destruct (H init (new_Order "s" "X/Y" BUY STOP 1 None 1 "A") 1) as (_ & Heng & _).
  - right. split; [by right | by left].
  - destruct Heng as (_ & Hact & _). vm_compute in Hact. discriminate.
Qed.

Lemma submit_rejects o now s :
  _validate_order o = false ->
  submit o now s = (Ok [], set_heap (heap s ++ [Order.set_status REJECTED o]) s).
Proof.
  intros Hv.
  rewrite submit_eq, (process_order_rejects _ _ o); simpl; auto using lookup_snoc.
  by rewrite insert_snoc.
Qed.

(** C5 (amended): an order with quantity <= 0, or a limit order without a
    positive price, is rejected: [process_order] returns the empty list
    without raising, the order's status becomes [REJECTED], and nothing else
    changes, neither the engine's containers nor any other object. *)
Theorem C5_validation_fails_closed s r o now :
  heap s !! r = Some o -> malformed o ->
  process_order r now s =
    (Ok [], set_heap (<[r := Order.set_status REJECTED o]> (heap s)) s) /\
  same_engine s (snd (process_order r now s)) /\
  heap (snd (process_order r now s)) !! r = Some (Order.set_status REJECTED o) /\
  (forall r', r' <> r -> heap (snd (process_order r now s)) !! r' = heap s !! r').
Proof.
  intros Hr Hm. apply validate_false_iff in Hm.
  rewrite (process_order_rejects _ _ _ _ Hr Hm). split; [done|]. simpl.
  split; [by repeat split|]. split.
  - apply list_lookup_insert_eq. by eapply lookup_lt_Some.
  - intros r' Hne. by apply list_lookup_insert_ne.
Qed.

Lemma C5_validation_fails_closed_witness :
  let o := new_Order "z" "X/Y" BUY LIMIT 1 None 1 "A" in
  let s := set_heap [o] init in
  process_order 0%nat 1 s = (Ok [], set_heap [Order.set_status REJECTED o] s).
Proof.
  intros o s.
  refine (proj1 (C5_validation_fails_closed s 0%nat o 1 _ _)).
  - reflexivity.
  - right. split; [reflexivity | left; reflexivity].
Defined.

(** ** C3: execution price *)

Lemma execute_trade_no_trade s rb rs now b sl :
  heap s !! rb = Some b -> heap s !! rs = Some sl ->
  Qle_bool (py_min (Order.remaining b) (Order.remaining sl)) 0 = true ->
  _execute_trade rb rs now s = (Ok None, s).
Proof.
  intros Hb Hs Hq. unfold _execute_trade.
  rewrite bind_eq, (deref_Some _ _ _ Hb), bind_eq, (deref_Some _ _ _ Hs).
  unfold Order.remaining in Hq. by rewrite Hq.
Qed.

Lemma execute_trade_result s rb rs now b sl t s' :
  heap s !! rb = Some b -> heap s !! rs = Some sl ->
  _execute_trade rb rs now s = (Ok (Some t), s') ->
  t = trade_of b sl now /\
  Qle_bool (py_min (Order.remaining b) (Order.remaining sl)) 0 = false.
Proof.
  intros Hb Hs. unfold _execute_trade.
  rewrite bind_eq, (deref_Some _ _ _ Hb), bind_eq, (deref_Some _ _ _ Hs).
  fold (Order.remaining b). fold (Order.remaining sl).
  destruct (Qle_bool _ 0) eqn:Eq; [discriminate|].
  rewrite bind_eq. destruct (_update_order_after_trade rb _ _ _ s) as [[[]|e] s1];
    [|discriminate].
  rewrite bind_eq. destruct (_update_order_after_trade rs _ _ _ s1) as [[[]|e] s2];
    [|discriminate].
  unfold ret. intros [= <- <-]. by split.
Qed.

(** C3, counterexample: a market buy that carries a price, met by a resting
    market sell that carries another price, trades at the sell order's
    price, not at the price of the order opposite to the market sell. *)
Lemma C3_two_market_orders_take_the_sell_price :
  let sell := new_Order "a" "X/Y" SELL MARKET 1 (Some 7%Q) 1 "A" in
  let buy := new_Order "c" "X/Y" BUY MARKET 1 (Some 5%Q) 2 "C" in
  exists t, fst (submit buy 2 (run [Submit sell 1] init)) = Ok [t] /\
            Order.order_type sell = MARKET /\
            Trade.price t = Order.price sell /\
            Trade.price t <> Order.price buy.
Proof.
  eexists. split; [vm_compute; reflexivity|]. repeat split. discriminate.
Qed.

(** C3 (amended): the price of a trade is the sell order's price when the buy
    order is a market order (also when both are); else the buy order's price
    when the sell order is a market order; else the price of the buy order
    when it was created strictly before the sell order, and the price of the
    sell order otherwise. *)
Theorem C3_execution_price s rb rs now b sl t s' :
  heap s !! rb = Some b -> heap s !! rs = Some sl ->
  _execute_trade rb rs now s = (Ok (Some t), s') ->
  (Order.order_type b = MARKET -> Trade.price t = Order.price sl) /\
  (Order.order_type b <> MARKET -> Order.order_type sl = MARKET ->
   Trade.price t = Order.price b) /\
  (Order.order_type b <> MARKET -> Order.order_type sl <> MARKET ->
   (Order.created_at b < Order.created_at sl)%Z -> Trade.price t = Order.price b) /\
  (Order.order_type b <> MARKET -> Order.order_type sl <> MARKET ->
   (Order.created_at sl <= Order.created_at b)%Z -> Trade.price t = Order.price sl).
Proof.
  intros Hb Hs He. destruct (execute_trade_result _ _ _ _ _ _ _ _ Hb Hs He) as [-> _].
  simpl. unfold trade_price_of.
  destruct (OrderType_eqb (Order.order_type b) MARKET) eqn:Eb.
  { apply OrderType_eqb_eq in Eb. repeat split; intros; congruence. }
  destruct (OrderType_eqb (Order.order_type sl) MARKET) eqn:Es.
  { apply OrderType_eqb_eq in Es. repeat split; intros; try congruence.
    apply OrderType_eqb_eq in H. congruence. }
  split. { intros H. apply OrderType_eqb_eq in H. congruence. }
  split. { intros _ H. apply OrderType_eqb_eq in H. congruence. }
  split; intros _ _ Hlt.
  - apply Z.ltb_lt in Hlt. by rewrite Hlt.
  - apply Z.ltb_ge in Hlt. by rewrite Hlt.
Qed.

Lemma C3_execution_price_witness :
  let sell := new_Order "a" "X/Y" SELL LIMIT 1 (Some 100%Q) 1 "A" in
  let buy := new_Order "c" "X/Y" BUY LIMIT 1 (Some 101%Q) 2 "C" in
  match _execute_trade 1%nat 0%nat 2 (set_heap [sell; buy] init) with
  | (Ok (Some t), _) => Trade.price t = Some 100%Q
  | _ => False
  end.
Proof.
  intros sell buy.
  destruct (_execute_trade 1%nat 0%nat 2 (set_heap [sell; buy] init))
    as [[[t|]|e] s'] eqn:He.
  - refine (proj2 (proj2 (proj2 (C3_execution_price (set_heap [sell; buy] init)
              1%nat 0%nat 2 buy sell t s' _ _ He))) _ _ _).
    + reflexivity.
    + reflexivity.
    + simpl. discriminate.
    + simpl. discriminate.
    + simpl. lia.
  - vm_compute in He. discriminate.
  - vm_compute in He. discriminate.
Defined.

(** ** C1, C2 and C4: the resting set seen by the matcher and by the book *)

(** C1, the code at the failing input: a sell of 1 at 100 is hit by a buy of
    0.8 at 100 and rests, [Partial], with 0.2 left.  The specification's
    candidate set for a later buy holds it; the matcher's is empty, and a buy
    of 0.2 at 100 trades nothing. *)
Theorem C1_partial_resting_order_is_not_a_candidate :
  let s := run [Submit (new_Order "a" "X/Y" SELL LIMIT 1 (Some 100%Q) 1 "A") 1;
                Submit (new_Order "b" "X/Y" BUY LIMIT (8 # 10) (Some 100%Q) 2 "B") 2] init in
  (exists o, heap s !! 0%nat = Some o /\ Order.status o = PARTIAL /\
             (Order.remaining o == 2 # 10)%Q) /\
  candidates_as_stated BUY "X/Y" s = [0%nat] /\
  fst (buy_candidates "X/Y" s) = Ok [] /\
  fst (submit (new_Order "c" "X/Y" BUY LIMIT (2 # 10) (Some 100%Q) 3 "C") 3 s) = Ok [].
Proof.
  intros s. split.
  - eexists. split; [vm_compute; reflexivity|]. split; reflexivity.
  - repeat split; vm_compute; reflexivity.
Qed.

(** C2, the code at the failing inputs.  First: a sell of 1 at 100 is filled
    by a buy of 1 at 100; the buy is [Filled], so [process_order] does not
    refresh the snapshot, and the book still shows 1 at 100 although nothing
    [Pending] or [Partial] rests there.  Second: after the partial fill of
    the scenario of C1 and one more resting order, the refreshed book has no
    ask level although 0.2 rests, [Partial], at 100. *)
Theorem C2_book_differs_from_resting_set :
  let s1 := run [Submit (new_Order "a" "X/Y" SELL LIMIT 1 (Some 100%Q) 1 "A") 1;
                 Submit (new_Order "b" "X/Y" BUY LIMIT 1 (Some 100%Q) 2 "B") 2] init in
  let s2 := run [Submit (new_Order "a" "X/Y" SELL LIMIT 1 (Some 100%Q) 1 "A") 1;
                 Submit (new_Order "b" "X/Y" BUY LIMIT (8 # 10) (Some 100%Q) 2 "B") 2;
                 Submit (new_Order "c" "X/Y" BUY LIMIT 1 (Some 99%Q) 3 "C") 3] init in
  (option_map OrderBook.asks (get_orderbook "X/Y" s1) = Some [Level.mk 100 1] /\
   (level_quantity_as_stated SELL "X/Y" 100 s1 == 0)%Q) /\
  (option_map OrderBook.asks (get_orderbook "X/Y" s2) = Some [] /\
   (level_quantity_as_stated SELL "X/Y" 100 s2 == 2 # 10)%Q).
Proof.
  intros s1 s2. repeat split; vm_compute; reflexivity.
Qed.

(** C4, the code at the failing input: asks of 1 at 100 (created at 1), 1 at
    100 (created at 2) and 1 at 101 (created at 3) rest, and a buy of 0.5 at
    100 takes half of the first, which rests on, [Partial], first in price
    and time.  The specification's candidates for a later buy are the three
    asks; the matcher's are the second and the third.  A buy of 1.5 at 101
    trades 1 with the second ask and 0.5 with the ask at 101, and the first
    ask keeps its 0.5: the earlier of the two asks at 100 is passed over and
    the ask at 101 is touched. *)
Theorem C4_partial_ask_loses_its_priority :
  let s := run [Submit (new_Order "s1" "X/Y" SELL LIMIT 1 (Some 100%Q) 1 "A") 1;
                Submit (new_Order "s2" "X/Y" SELL LIMIT 1 (Some 100%Q) 2 "B") 2;
                Submit (new_Order "s3" "X/Y" SELL LIMIT 1 (Some 101%Q) 3 "C") 3;
                Submit (new_Order "b1" "X/Y" BUY LIMIT (1 # 2) (Some 100%Q) 4 "D") 4] init in
  let call := submit (new_Order "b2" "X/Y" BUY LIMIT (3 # 2) (Some 101%Q) 5 "E") 5 s in
  (exists o, heap s !! 0%nat = Some o /\ Order.id o = "s1" /\
             Order.status o = PARTIAL /\ (Order.remaining o == 1 # 2)%Q) /\
  candidates_as_stated BUY "X/Y" s = [0; 1; 2]%nat /\
  fst (buy_candidates "X/Y" s) = Ok [1; 2]%nat /\
  fst call =
    Ok [Trade.mk "X/Y" "b2" "s2" "E" "B" 1 (Some 100%Q) 5;
        Trade.mk "X/Y" "b2" "s3" "E" "C" (1 # 2) (Some 101%Q) 5] /\
  heap (snd call) !! 0%nat = heap s !! 0%nat.
Proof.
  intros s call. split.
  - eexists. split; [vm_compute; reflexivity|]. repeat split.
  - repeat split; vm_compute; reflexivity.
Qed.

(** ** How an order object changes over time *)

Lemma order_evolves_refl o : order_evolves o o.
Proof. by split. Qed.

Lemma order_evolves_trans o1 o2 o3 :
  order_evolves o1 o2 -> order_evolves o2 o3 -> order_evolves o1 o3.
Proof.
  intros [S1 F1 R1] [S2 F2 R2]. split; [congruence | auto | auto].
Qed.

Lemma static_validate o o' : static o' = static o -> _validate_order o' = _validate_order o.
Proof.
  unfold static, _validate_order. intros [= _ _ _ Ht Hq Hp _ _]. by rewrite Ht, Hq, Hp.
Qed.

Lemma static_price_matches b b' s s' :
  static b' = static b -> static s' = static s ->
  _price_matches b' s' = _price_matches b s.
Proof.
  unfold static, _price_matches.
  intros [= _ _ _ Ht Hq Hp _ _] [= _ _ _ Ht' Hq' Hp' _ _].
  by rewrite Ht, Hp, Ht', Hp'.
Qed.

Lemma update_order_after_trade_eq r q p now o s :
  heap s !! r = Some o ->
  _update_order_after_trade r q p now s =
    (fst (after_trade q p now o),
     set_heap (<[r := snd (after_trade q p now o)]> (heap s)) s).
Proof.
  intros Hr. unfold _update_order_after_trade, after_trade.
  rewrite bind_eq, (update_Some _ _ _ _ Hr).
  set (o1 := Order.set_filled_quantity _ o).
  assert (H1 : heap (set_heap (<[r:=o1]> (heap s)) s) !! r = Some o1)
    by by eapply heap_insert_lookup.
  rewrite bind_eq, (deref_Some _ _ _ H1). rewrite bind_eq.
  change (Order.average_price o1) with (Order.average_price o).
  destruct (Order.average_price o) as [avg|].
  - destruct p as [pq|]; [|reflexivity].
    destruct (Qeq_bool (Order.filled_quantity o1) 0); [reflexivity|].
    rewrite (update_Some _ _ _ _ H1). rewrite set_heap_set_heap.
    simpl heap. rewrite list_insert_insert_eq.
    match goal with |- context [<[r:=?x]> (heap s)] => set (o2 := x) end.
    assert (H2 : heap (set_heap (<[r:=o2]> (heap s)) s) !! r = Some o2)
      by by eapply heap_insert_lookup.
    rewrite bind_eq, (update_Some _ _ _ _ H2), set_heap_set_heap.
    simpl heap. rewrite list_insert_insert_eq.
    match goal with |- context [<[r:=?x]> (heap s)] => set (o3 := x) end.
    assert (H3 : heap (set_heap (<[r:=o3]> (heap s)) s) !! r = Some o3)
      by by eapply heap_insert_lookup.
    rewrite (update_Some _ _ _ _ H3), set_heap_set_heap.
    simpl heap. rewrite list_insert_insert_eq. reflexivity.
  - rewrite (update_Some _ _ _ _ H1). rewrite set_heap_set_heap.
    simpl heap. rewrite list_insert_insert_eq.
    match goal with |- context [<[r:=?x]> (heap s)] => set (o2 := x) end.
    assert (H2 : heap (set_heap (<[r:=o2]> (heap s)) s) !! r = Some o2)
      by by eapply heap_insert_lookup.
    rewrite bind_eq, (update_Some _ _ _ _ H2), set_heap_set_heap.
    simpl heap. rewrite list_insert_insert_eq.
    match goal with |- context [<[r:=?x]> (heap s)] => set (o3 := x) end.
    assert (H3 : heap (set_heap (<[r:=o3]> (heap s)) s) !! r = Some o3)
      by by eapply heap_insert_lookup.
    rewrite (update_Some _ _ _ _ H3), set_heap_set_heap.
    simpl heap. rewrite list_insert_insert_eq. reflexivity.
Qed.

Lemma after_trade_static q p now o : static (snd (after_trade q p now o)) = static o.
Proof.
  unfold after_trade, finish.
  destruct (Order.average_price o); [destruct p|]; simpl;
    repeat match goal with |- context [if ?c then _ else _] => destruct c end;
    reflexivity.
Qed.

Lemma after_trade_filled q p now o :
  Order.filled_quantity (snd (after_trade q p now o)) = (Order.filled_quantity o + q)%Q.
Proof.
  unfold after_trade, finish.
  destruct (Order.average_price o); [destruct p|]; simpl;
    repeat match goal with |- context [if ?c then _ else _] => destruct c end;
    reflexivity.
Qed.

Lemma after_trade_status q p now o :
  Order.status (snd (after_trade q p now o)) = REJECTED -> Order.status o = REJECTED.
Proof.
  unfold after_trade, finish.
  destruct (Order.average_price o); [destruct p|]; simpl;
    repeat match goal with |- context [if ?c then _ else _] => destruct c end;
    simpl; congruence.
Qed.

(** After a call that returns, the status says whether the order is full. *)
Lemma after_trade_Ok_status q p now o o' :
  after_trade q p now o = (Ok tt, o') ->
  Order.status o' =
    if Qle_bool (Order.quantity o) (Order.filled_quantity o + q) then FILLED else PARTIAL.
Proof.
  unfold after_trade, finish.
  destruct (Order.average_price o); [destruct p|]; simpl;
    repeat match goal with |- context [if ?c then _ else _] => destruct c eqn:? end;
    simpl; intros [= <-]; simpl; congruence.
Qed.

Lemma after_trade_evolves q p now o :
  (q <= Order.remaining o)%Q -> order_evolves o (snd (after_trade q p now o)).
Proof.
  intros Hq. split.
  - apply after_trade_static.
  - intros _. rewrite after_trade_filled.
    pose proof (after_trade_static q p now o) as Hs. unfold static in Hs.
    injection Hs as _ _ _ _ Hqty _ _ _. rewrite Hqty.
    unfold Order.remaining in Hq. clear Hqty. lra.
  - apply after_trade_status.
Qed.

Lemma execute_trade_eq s rb rs now b sl :
  heap s !! rb = Some b -> heap s !! rs = Some sl -> rb <> rs ->
  _execute_trade rb rs now s =
    (fst (fst (executed b sl now)),
     set_heap (<[rs := snd (executed b sl now)]>
                 (<[rb := snd (fst (executed b sl now))]> (heap s))) s).
Proof.
  intros Hb Hs Hne. unfold executed.
  destruct (Qle_bool (py_min _ _) 0) eqn:Eq.
  { rewrite (execute_trade_no_trade _ _ _ _ _ _ Hb Hs Eq). cbn [fst snd].
    rewrite (list_insert_id _ rb b Hb), (list_insert_id _ rs sl Hs).
    by rewrite set_heap_id. }
  unfold _execute_trade.
  rewrite bind_eq, (deref_Some _ _ _ Hb), bind_eq, (deref_Some _ _ _ Hs).
  fold (Order.remaining b). fold (Order.remaining sl). rewrite Eq.
  rewrite bind_eq, (update_order_after_trade_eq _ _ _ _ _ _ Hb).
  destruct (after_trade _ _ now b) as [[[]|e] b'] eqn:Eb; cbn [fst snd].
  2:{ rewrite (list_insert_id (<[rb:=b']> (heap s)) rs sl); [done|].
      by rewrite list_lookup_insert_ne. }
  assert (Hs' : heap (set_heap (<[rb:=b']> (heap s)) s) !! rs = Some sl).
  { cbn [heap set_heap]. by rewrite list_lookup_insert_ne. }
  rewrite bind_eq, (update_order_after_trade_eq _ _ _ _ _ _ Hs').
  destruct (after_trade _ _ now sl) as [[[]|e] sl'] eqn:Es; reflexivity.
Qed.

(** ** What every step of the engine preserves *)

Lemma static_trade_price_of b b' s s' :
  static b' = static b -> static s' = static s ->
  trade_price_of b' s' = trade_price_of b s.
Proof.
  unfold static, trade_price_of.
  intros [= _ _ _ Ht _ Hp Hc _] [= _ _ _ Ht' _ Hp' Hc' _].
  by rewrite Ht, Hp, Hc, Ht', Hp', Hc'.
Qed.

Lemma made_from_static b b' sl sl' t :
  static b' = static b -> static sl' = static sl ->
  made_from b sl t -> made_from b' sl' t.
Proof.
  intros Hb Hs [H1 H2 H3 H4 H5 H6 H7].
  pose proof (static_trade_price_of _ _ _ _ Hb Hs) as Hp.
  pose proof (static_price_matches _ _ _ _ Hb Hs) as Hm.
  unfold static in Hb, Hs.
  injection Hb as Hid Hsym _ _ _ _ _ Hu. injection Hs as Hid' _ _ _ _ _ _ Hu'.
  split; congruence.
Qed.

Lemma heap_evolves_refl h : heap_evolves h h.
Proof. split; [done|]. intros r o H. exists o. split; [done | apply order_evolves_refl]. Qed.

Lemma heap_evolves_trans h1 h2 h3 :
  heap_evolves h1 h2 -> heap_evolves h2 h3 -> heap_evolves h1 h3.
Proof.
  intros [L1 O1] [L2 O2]. split; [congruence|].
  intros r o H. destruct (O1 _ _ H) as (o' & H' & E1).
  destruct (O2 _ _ H') as (o'' & H'' & E2).
  exists o''. split; [done | by eapply order_evolves_trans].
Qed.

Lemma heap_evolves_insert h r o x :
  h !! r = Some o -> order_evolves o x -> heap_evolves h (<[r := x]> h).
Proof.
  intros Hr He. split; [apply length_insert|].
  intros r' o' H'. destruct (decide (r = r')) as [<-|Hne].
  - exists x. rewrite list_lookup_insert_eq by by eapply lookup_lt_Some.
    split; [done|]. congruence.
  - exists o'. rewrite list_lookup_insert_ne by done.
    split; [done | apply order_evolves_refl].
Qed.

Lemma has_legs_evolves h h' t : heap_evolves h h' -> has_legs h t -> has_legs h' t.
Proof.
  intros [_ Ho] (rb & rs & b & sl & Hb & Hs & Hm).
  destruct (Ho _ _ Hb) as (b' & Hb' & [Sb _ _]).
  destruct (Ho _ _ Hs) as (sl' & Hs' & [Ss _ _]).
  exists rb, rs, b', sl'. split; [done|]. split; [done|].
  by eapply made_from_static.
Qed.

Lemma engine_step_refl s : engine_step s s.
Proof. split; auto using heap_evolves_refl. Qed.

Lemma engine_step_trans s1 s2 s3 :
  engine_step s1 s2 -> engine_step s2 s3 -> engine_step s1 s3.
Proof.
  intros [H1 A1 B1 R1 T1] [H2 A2 B2 R2 T2].
  split; eauto using heap_evolves_trans. congruence.
Qed.

(** Steps that touch one container. *)

Lemma step_set_heap s h' :
  heap_evolves (heap s) h' -> engine_step s (set_heap h' s).
Proof.
  intros Hh. split; simpl; auto.
  - intros Hr sym so Hso. destruct Hh as [Hl _]. cbn [heap set_heap].
    rewrite Hl. exact (Hr sym so Hso).
  - unfold trades_ok. simpl. intros Hts. eapply Forall_impl; [exact Hts|].
    intros t. by apply has_legs_evolves.
Qed.

Lemma step_set_order_books s d' :
  (forall sym, dict_mem sym (order_books s) = true -> dict_mem sym d' = true) ->
  engine_step s (set_order_books d' s).
Proof. intros H. split; simpl; auto using heap_evolves_refl. Qed.

Lemma step_set_orders_by_symbol s d' :
  (refs_ok s -> refs_ok (set_orders_by_symbol d' s)) ->
  engine_step s (set_orders_by_symbol d' s).
Proof. intros H. split; simpl; auto using heap_evolves_refl. Qed.

Lemma step_set_market_data s d' : engine_step s (set_market_data d' s).
Proof. split; simpl; auto using heap_evolves_refl. Qed.

Lemma step_append_trade s t :
  has_legs (heap s) t -> engine_step s (set_trades (trades s ++ [t]) s).
Proof.
  intros H. split; simpl; auto using heap_evolves_refl.
  unfold trades_ok. simpl. intros Hts. apply Forall_app. split; [done|].
  by apply Forall_cons.
Qed.

(** Sequencing. *)

Lemma step_bind {A B} (m : M A) (k : A -> M B) s :
  engine_step s (snd (m s)) ->
  (forall a s1, m s = (Ok a, s1) -> engine_step s1 (snd (k a s1))) ->
  engine_step s (snd (bind m k s)).
Proof.
  intros Hm Hk. rewrite bind_eq. destruct (m s) as [[a|e] s1] eqn:E; simpl in *.
  - eapply engine_step_trans; [exact Hm | by apply Hk].
  - exact Hm.
Qed.

Lemma step_ret {A} (a : A) s : engine_step s (snd (ret a s)).
Proof. apply engine_step_refl. Qed.

Lemma step_raise {A} e s : engine_step s (snd (raise (A := A) e s)).
Proof. apply engine_step_refl. Qed.

Lemma step_get s : engine_step s (snd (get s)).
Proof. apply engine_step_refl. Qed.

Lemma deref_inv r s o s' : deref r s = (Ok o, s') -> s' = s /\ heap s !! r = Some o.
Proof.
  unfold deref. destruct (heap s !! r); intros [= <- <-]; auto.
Qed.

Lemma deref_state r s : snd (deref r s) = s.
Proof. unfold deref. by destruct (heap s !! r). Qed.

Lemma step_deref r s : engine_step s (snd (deref r s)).
Proof. rewrite deref_state. apply engine_step_refl. Qed.

Lemma step_update r f s :
  (forall o, order_evolves o (f o)) -> engine_step s (snd (update r f s)).
Proof.
  intros Hf. destruct (heap s !! r) as [o|] eqn:Hr.
  - rewrite (update_Some _ _ _ _ Hr). simpl.
    apply step_set_heap. eapply heap_evolves_insert; [exact Hr | apply Hf].
  - rewrite (update_None _ _ _ Hr). apply engine_step_refl.
Qed.

Lemma symbol_orders_inv sym s so s' :
  symbol_orders sym s = (Ok so, s') ->
  dict_get sym (orders_by_symbol s') = Some so /\
  ((s' = s) \/
   (dict_get sym (orders_by_symbol s) = None /\ so = mkSymbolOrders [] [] /\
    s' = set_orders_by_symbol (dict_set sym so (orders_by_symbol s)) s)).
Proof.
  unfold symbol_orders. destruct (dict_get sym (orders_by_symbol s)) eqn:E.
  - intros [= <- <-]. auto.
  - intros [= <- <-]. simpl. rewrite dict_get_set_eq. split; [done|]. right. auto.
Qed.

Lemma symbol_orders_Ok sym s : exists so, fst (symbol_orders sym s) = Ok so.
Proof.
  unfold symbol_orders. destruct (dict_get sym (orders_by_symbol s)); simpl; eauto.
Qed.

Lemma refs_ok_default sym s :
  refs_ok s ->
  refs_ok (set_orders_by_symbol
             (dict_set sym (mkSymbolOrders [] []) (orders_by_symbol s)) s).
Proof.
  intros Hr sym' so. simpl. rewrite dict_get_set.
  destruct (String.eqb sym' sym).
  - intros [= <-]. simpl. split; intros r [].
  - apply Hr.
Qed.

Lemma step_symbol_orders sym s : engine_step s (snd (symbol_orders sym s)).
Proof.
  unfold symbol_orders. destruct (dict_get sym (orders_by_symbol s)); simpl.
  - apply engine_step_refl.
  - apply step_set_orders_by_symbol. apply refs_ok_default.
Qed.

Lemma order_book_inv sym s ob s' :
  order_book sym s = (Ok ob, s') -> s' = s /\ dict_get sym (order_books s) = Some ob.
Proof.
  unfold order_book. destruct (dict_get sym (order_books s)); intros [= <- <-]; auto.
Qed.

Lemma step_order_book sym s : engine_step s (snd (order_book sym s)).
Proof.
  unfold order_book. destruct (dict_get sym (order_books s)); apply engine_step_refl.
Qed.

Lemma deref_all_state rs s : snd (deref_all rs s) = s.
Proof.
  induction rs as [|r rs IH]; simpl; [done|].
  rewrite bind_eq. destruct (deref r s) as [[o|e] s1] eqn:E.
  - apply deref_inv in E as [-> _]. rewrite bind_eq.
    destruct (deref_all rs s) as [[os|e] s2] eqn:E'; simpl in *; by subst.
  - pose proof (deref_state r s) as H. rewrite E in H. done.
Qed.

Lemma deref_all_Ok rs s os s' :
  deref_all rs s = (Ok os, s') ->
  s' = s /\ map fst os = rs /\ Forall (fun ro => heap s !! fst ro = Some (snd ro)) os.
Proof.
  revert os s'. induction rs as [|r rs IH]; simpl; intros os s'.
  - intros [= <- <-]. auto.
  - rewrite bind_eq. destruct (deref r s) as [[o|e] s1] eqn:E; [|discriminate].
    apply deref_inv in E as [-> Ho]. rewrite bind_eq.
    destruct (deref_all rs s) as [[os'|e] s2]; [|discriminate].
    destruct (IH _ _ eq_refl) as (-> & Hm & Hf). intros [= <- <-].
    simpl. rewrite Hm. repeat split; auto.
Qed.

Lemma deref_all_valid rs s :
  Forall (fun r => (r < length (heap s))%nat) rs ->
  exists os, deref_all rs s = (Ok os, s).
Proof.
  induction 1 as [|r rs Hr _ IH]; simpl; [by eexists|].
  apply lookup_lt_is_Some_2 in Hr as [o Ho].
  destruct IH as [os Hos]. exists ((r, o) :: os).
  by rewrite bind_eq, (deref_Some _ _ _ Ho), bind_eq, Hos.
Qed.

Lemma step_deref_all rs s : engine_step s (snd (deref_all rs s)).
Proof. rewrite deref_all_state. apply engine_step_refl. Qed.

(** ** [sorted] permutes and orders *)

Section SortingFacts.
Context {A : Type} (ltb : A -> A -> bool).

Lemma insert_sorted_perm x l : Permutation (insert_sorted ltb x l) (x :: l).
Proof.
  induction l as [|y l IH]; simpl; [done|].
  destruct (ltb y x); [|done].
  rewrite IH. apply perm_swap.
Qed.

Lemma sorted_perm l : Permutation (sorted ltb l) l.
Proof.
  induction l as [|x l IH]; simpl; [done|].
  rewrite insert_sorted_perm. by constructor.
Qed.

Hypothesis ltb_asym : forall a b, ltb a b = true -> ltb b a = false.
Hypothesis ltb_ntrans : forall a b c, not_after ltb a b -> not_after ltb b c -> not_after ltb a c.

Lemma insert_sorted_sorted x l :
  StronglySorted (not_after ltb) l -> StronglySorted (not_after ltb) (insert_sorted ltb x l).
Proof using ltb_asym ltb_ntrans.
  induction 1 as [|y l Hs IH Hy]; simpl.
  - repeat constructor.
  - destruct (ltb y x) eqn:E.
    + constructor; [done|].
      rewrite insert_sorted_perm. constructor; [|done]. by apply ltb_asym.
    + constructor; [by constructor|]. constructor; [done|].
      eapply Forall_impl; [exact Hy|]. intros z Hz. by eapply ltb_ntrans.
Qed.

Lemma sorted_sorted l : StronglySorted (not_after ltb) (sorted ltb l).
Proof using ltb_asym ltb_ntrans.
  induction l as [|x l IH]; simpl; [constructor | by apply insert_sorted_sorted].
Qed.
End SortingFacts.

Lemma StronglySorted_impl {A} (R R' : A -> A -> Prop) l :
  (forall a b, R a b -> R' a b) -> StronglySorted R l -> StronglySorted R' l.
Proof.
  intros HR. induction 1 as [|a l Hs IH Ha]; constructor; [done|].
  eapply Forall_impl; [exact Ha | apply HR].
Qed.

Lemma StronglySorted_map_fst {A B} (R : A * B -> A * B -> Prop) (R' : A -> A -> Prop)
    (P : A * B -> Prop) (l : list (A * B)) :
  (forall a b, P a -> P b -> R a b -> R' (fst a) (fst b)) ->
  Forall P l -> StronglySorted R l -> StronglySorted R' (map fst l).
Proof.
  intros HR HP Hs. induction Hs as [|a l Hs IH Ha]; simpl; [constructor|].
  apply Forall_cons in HP as [Pa Pl]. constructor; [by apply IH|].
  apply Forall_map. rewrite Forall_forall in *. intros b Hb.
  apply HR; auto.
Qed.

(** ** [_execute_trade] and the matching loops as engine steps *)

Lemma executed_evolves b sl now :
  order_evolves b (snd (fst (executed b sl now))) /\
  order_evolves sl (snd (executed b sl now)).
Proof.
  unfold executed. destruct (py_min_spec (Order.remaining b) (Order.remaining sl))
    as (Hb & Hs & _).
  destruct (Qle_bool _ 0); simpl; [split; apply order_evolves_refl|].
  pose proof (after_trade_evolves _ (trade_price_of b sl) now b Hb) as Eb.
  pose proof (after_trade_evolves _ (trade_price_of b sl) now sl Hs) as Es.
  destruct (after_trade _ _ now b) as [[[]|e] b']; simpl in *.
  - destruct (after_trade _ _ now sl) as [[[]|e] sl']; simpl in *; by split.
  - split; [done | apply order_evolves_refl].
Qed.

Lemma execute_trade_step rb rs now s :
  rb <> rs -> engine_step s (snd (_execute_trade rb rs now s)).
Proof.
  intros Hne. destruct (heap s !! rb) as [b|] eqn:Hb.
  2:{ unfold _execute_trade. rewrite bind_eq, (deref_None _ _ Hb).
      apply engine_step_refl. }
  destruct (heap s !! rs) as [sl|] eqn:Hs.
  2:{ unfold _execute_trade.
      rewrite bind_eq, (deref_Some _ _ _ Hb), bind_eq, (deref_None _ _ Hs).
      apply engine_step_refl. }
  rewrite (execute_trade_eq _ _ _ _ _ _ Hb Hs Hne). cbn [snd].
  destruct (executed_evolves b sl now) as [Eb Es].
  apply step_set_heap. eapply heap_evolves_trans.
  - eapply heap_evolves_insert; [exact Hb | exact Eb].
  - eapply heap_evolves_insert; [|exact Es]. by rewrite list_lookup_insert_ne.
Qed.

Lemma trade_of_made_from b sl now :
  _price_matches b sl = true -> made_from b sl (trade_of b sl now).
Proof. intros H. by split. Qed.

Lemma execute_trade_legs s rb rs now b sl t s1 :
  heap s !! rb = Some b -> heap s !! rs = Some sl -> rb <> rs ->
  _price_matches b sl = true ->
  _execute_trade rb rs now s = (Ok (Some t), s1) ->
  has_legs (heap s1) t.
Proof.
  intros Hb Hs Hne Hm He.
  destruct (execute_trade_result _ _ _ _ _ _ _ _ Hb Hs He) as [-> _].
  pose proof (execute_trade_step rb rs now s Hne) as St. rewrite He in St.
  eapply has_legs_evolves; [apply St|].
  exists rb, rs, b, sl. auto using trade_of_made_from.
Qed.

Lemma step_modify f s : engine_step s (f s) -> engine_step s (snd (modify f s)).
Proof. done. Qed.

Lemma match_buy_loop_step r cs now s :
  ~ In r cs -> engine_step s (snd (match_buy_loop r cs now s)).
Proof.
  revert s. induction cs as [|c cs IH]; intros s Hnin; cbn [match_buy_loop].
  { apply engine_step_refl. }
  assert (Hne : r <> c) by (intros ->; apply Hnin; by left).
  assert (Hnin' : ~ In r cs) by (intros H; apply Hnin; by right).
  apply step_bind; [apply step_deref|]. intros b s1 E. apply deref_inv in E as [-> Hb].
  destruct (Qle_bool _ 0); [apply step_ret|].
  apply step_bind; [apply step_deref|]. intros sl s1 E. apply deref_inv in E as [-> Hs].
  destruct (_price_matches b sl) eqn:Hm; cbn [negb]; [|by apply IH].
  apply step_bind; [by apply execute_trade_step|]. intros [t|] s1 E; [|by apply IH].
  apply step_bind.
  { apply step_modify, step_append_trade.
    exact (execute_trade_legs _ _ _ _ _ _ _ _ Hb Hs Hne Hm E). }
  intros [] s2 _. apply step_bind; [by apply IH|]. intros; apply step_ret.
Qed.

Lemma match_sell_loop_step r cs now s :
  ~ In r cs -> engine_step s (snd (match_sell_loop r cs now s)).
Proof.
  revert s. induction cs as [|c cs IH]; intros s Hnin; cbn [match_sell_loop].
  { apply engine_step_refl. }
  assert (Hne : c <> r) by (intros ->; apply Hnin; by left).
  assert (Hnin' : ~ In r cs) by (intros H; apply Hnin; by right).
  apply step_bind; [apply step_deref|]. intros sl s1 E. apply deref_inv in E as [-> Hs].
  destruct (Qle_bool _ 0); [apply step_ret|].
  apply step_bind; [apply step_deref|]. intros b s1 E. apply deref_inv in E as [-> Hb].
  destruct (_price_matches b sl) eqn:Hm; cbn [negb]; [|by apply IH].
  apply step_bind; [by apply execute_trade_step|]. intros [t|] s1 E; [|by apply IH].
  apply step_bind.
  { apply step_modify, step_append_trade.
    exact (execute_trade_legs _ _ _ _ _ _ _ _ Hb Hs Hne Hm E). }
  intros [] s2 _. apply step_bind; [by apply IH|]. intros; apply step_ret.
Qed.

(** ** Candidate lists *)

Lemma pending_of_state rs s : snd (pending_of rs s) = s.
Proof.
  unfold pending_of. rewrite bind_eq.
  pose proof (deref_all_state rs s) as H.
  destruct (deref_all rs s) as [[os|e] s1]; simpl in *; by subst.
Qed.

Lemma pending_of_Ok rs s ps s' :
  pending_of rs s = (Ok ps, s') ->
  s' = s /\ exists os, deref_all rs s = (Ok os, s) /\ ps = List.filter is_pending os.
Proof.
  unfold pending_of. rewrite bind_eq.
  destruct (deref_all rs s) as [[os|e] s1] eqn:E; [|discriminate].
  destruct (deref_all_Ok _ _ _ _ E) as (-> & _ & _).
  intros [= <- <-]. split; [done|]. by exists os.
Qed.

Lemma buy_candidates_inv sym s cs s' :
  buy_candidates sym s = (Ok cs, s') ->
  exists so os,
    symbol_orders sym s = (Ok so, s') /\
    deref_all (sell_orders so) s' = (Ok os, s') /\
    cs = map fst (sorted buy_key_ltb (List.filter is_pending os)).
Proof.
  unfold buy_candidates. rewrite bind_eq.
  destruct (symbol_orders sym s) as [[so|e] s1] eqn:E; [|discriminate].
  rewrite bind_eq. destruct (pending_of _ s1) as [[ps|e] s2] eqn:E'; [|discriminate].
  apply pending_of_Ok in E' as (-> & os & Hos & ->).
  intros [= <- <-]. by exists so, os.
Qed.

Lemma sell_candidates_inv sym s cs s' :
  sell_candidates sym s = (Ok cs, s') ->
  exists so os,
    symbol_orders sym s = (Ok so, s') /\
    deref_all (buy_orders so) s' = (Ok os, s') /\
    cs = map fst (sorted sell_key_ltb (List.filter is_pending os)).
Proof.
  unfold sell_candidates. rewrite bind_eq.
  destruct (symbol_orders sym s) as [[so|e] s1] eqn:E; [|discriminate].
  rewrite bind_eq. destruct (pending_of _ s1) as [[ps|e] s2] eqn:E'; [|discriminate].
  apply pending_of_Ok in E' as (-> & os & Hos & ->).
  intros [= <- <-]. by exists so, os.
Qed.

Lemma In_sorted_filter {A} (ltb : A * Order.t -> A * Order.t -> bool) f
    (os : list (A * Order.t)) c :
  In c (map fst (sorted ltb (List.filter f os))) -> In c (map fst os).
Proof.
  intros H. apply in_map_iff in H as (x & <- & Hx).
  apply (Permutation_in _ (sorted_perm ltb _)) in Hx.
  apply filter_In in Hx as [Hx _]. by apply in_map.
Qed.

Lemma step_buy_candidates sym s : engine_step s (snd (buy_candidates sym s)).
Proof.
  unfold buy_candidates. apply step_bind; [apply step_symbol_orders|].
  intros so s1 _. apply step_bind.
  - rewrite pending_of_state. apply engine_step_refl.
  - intros; apply step_ret.
Qed.

Lemma step_sell_candidates sym s : engine_step s (snd (sell_candidates sym s)).
Proof.
  unfold sell_candidates. apply step_bind; [apply step_symbol_orders|].
  intros so s1 _. apply step_bind.
  - rewrite pending_of_state. apply engine_step_refl.
  - intros; apply step_ret.
Qed.

Lemma symbol_orders_not_resting r sym s so s' :
  not_resting r s -> symbol_orders sym s = (Ok so, s') ->
  ~ In r (buy_orders so) /\ ~ In r (sell_orders so).
Proof.
  intros Hn H. apply symbol_orders_inv in H as [Hso [->|(_ & -> & _)]].
  - by apply (Hn sym).
  - simpl. tauto.
Qed.

Lemma match_buy_order_step r now s :
  not_resting r s -> engine_step s (snd (_match_buy_order r now s)).
Proof.
  intros Hn. unfold _match_buy_order.
  apply step_bind; [apply step_deref|]. intros b s1 E. apply deref_inv in E as [-> Hb].
  apply step_bind; [apply step_buy_candidates|]. intros cs s1 E.
  apply buy_candidates_inv in E as (so & os & Hso & Hos & ->).
  destruct (symbol_orders_not_resting _ _ _ _ _ Hn Hso) as [_ Hs].
  apply match_buy_loop_step. intros Hin. apply Hs.
  apply In_sorted_filter in Hin.
  destruct (deref_all_Ok _ _ _ _ Hos) as (_ & <- & _). done.
Qed.

Lemma match_sell_order_step r now s :
  not_resting r s -> engine_step s (snd (_match_sell_order r now s)).
Proof.
  intros Hn. unfold _match_sell_order.
  apply step_bind; [apply step_deref|]. intros b s1 E. apply deref_inv in E as [-> Hb].
  apply step_bind; [apply step_sell_candidates|]. intros cs s1 E.
  apply sell_candidates_inv in E as (so & os & Hso & Hos & ->).
  destruct (symbol_orders_not_resting _ _ _ _ _ Hn Hso) as [Hs _].
  apply match_sell_loop_step. intros Hin. apply Hs.
  apply In_sorted_filter in Hin.
  destruct (deref_all_Ok _ _ _ _ Hos) as (_ & <- & _). done.
Qed.

Lemma match_order_step r now s :
  not_resting r s -> engine_step s (snd (_match_order r now s)).
Proof.
  intros Hn. unfold _match_order.
  apply step_bind; [apply step_deref|]. intros o s1 E. apply deref_inv in E as [-> Ho].
  apply step_bind; [apply step_order_book|]. intros ob s1 E.
  apply order_book_inv in E as [-> _].
  destruct (OrderSide_eqb _ BUY);
    [by apply match_buy_order_step | by apply match_sell_order_step].
Qed.

(** ** Book maintenance and market data as engine steps *)

Lemma dict_mem_set {V} k k' (v : V) d :
  dict_mem k d = true -> dict_mem k (dict_set k' v d) = true.
Proof.
  unfold dict_mem. rewrite dict_get_set. by destruct (String.eqb k k').
Qed.

Lemma dict_mem_set_eq {V} k (v : V) d : dict_mem k (dict_set k v d) = true.
Proof. unfold dict_mem. by rewrite dict_get_set_eq. Qed.

Lemma update_orderbook_snapshot_step sym now s :
  engine_step s (snd (_update_orderbook_snapshot sym now s)).
Proof.
  unfold _update_orderbook_snapshot.
  apply step_bind; [apply step_symbol_orders|]. intros so s1 _.
  apply step_bind; [apply step_order_book|]. intros ob s2 _.
  apply step_bind; [apply step_deref_all|]. intros buys s3 _.
  apply step_bind; [apply step_deref_all|]. intros sells s4 _.
  apply step_modify, step_set_order_books. intros k. apply dict_mem_set.
Qed.

Lemma refs_ok_set sym so s :
  (forall r, In r (buy_orders so) -> (r < length (heap s))%nat) ->
  (forall r, In r (sell_orders so) -> (r < length (heap s))%nat) ->
  refs_ok s ->
  refs_ok (set_orders_by_symbol (dict_set sym so (orders_by_symbol s)) s).
Proof.
  intros Hb Hs Hr sym' so'. simpl. rewrite dict_get_set.
  destruct (String.eqb sym' sym); [intros [= <-]; auto | apply Hr].
Qed.

Lemma add_to_orderbook_step r now s :
  engine_step s (snd (_add_to_orderbook r now s)).
Proof.
  unfold _add_to_orderbook.
  apply step_bind; [apply step_deref|]. intros o s1 E. apply deref_inv in E as [-> Ho].
  apply step_bind; [apply step_symbol_orders|]. intros so s1 E.
  apply step_bind; [|intros; apply update_orderbook_snapshot_step].
  apply step_modify, step_set_orders_by_symbol. intros Hr.
  assert (Hlt : (r < length (heap s1))%nat).
  { pose proof (step_symbol_orders (Order.symbol o) s) as St. rewrite E in St.
    destruct St as [[Hl _] _ _ _ _]. simpl in Hl. rewrite Hl.
    by eapply lookup_lt_Some. }
  apply symbol_orders_inv in E as [Hso _].
  destruct (Hr _ _ Hso) as [Hb Hs].
  destruct (OrderSide_eqb _ BUY); apply refs_ok_set; simpl; auto;
    intros r' Hin; apply in_app_or in Hin as [Hin|[<-|[]]]; auto.
Qed.

Lemma without_id_state id rs s : snd (without_id id rs s) = s.
Proof.
  unfold without_id. rewrite bind_eq.
  pose proof (deref_all_state rs s) as H.
  destruct (deref_all rs s) as [[os|e] s1]; simpl in *; by subst.
Qed.

Lemma without_id_Ok id rs s kept s' :
  without_id id rs s = (Ok kept, s') ->
  s' = s /\ exists os, deref_all rs s = (Ok os, s) /\
    kept = map fst (List.filter (fun ro => negb (String.eqb (Order.id (snd ro)) id)) os).
Proof.
  unfold without_id. rewrite bind_eq.
  destruct (deref_all rs s) as [[os|e] s1] eqn:E; [|discriminate].
  destruct (deref_all_Ok _ _ _ _ E) as (-> & _ & _).
  intros [= <- <-]. split; [done|]. by exists os.
Qed.

Lemma without_id_In id rs s kept s' r :
  without_id id rs s = (Ok kept, s') -> In r kept -> In r rs.
Proof.
  intros H Hin. apply without_id_Ok in H as (-> & os & Hos & ->).
  destruct (deref_all_Ok _ _ _ _ Hos) as (_ & <- & _).
  apply in_map_iff in Hin as (x & <- & Hx). apply filter_In in Hx as [Hx _].
  by apply in_map.
Qed.

Lemma remove_from_orderbook_step r now s :
  engine_step s (snd (_remove_from_orderbook r now s)).
Proof.
  unfold _remove_from_orderbook.
  apply step_bind; [apply step_deref|]. intros o s1 E. apply deref_inv in E as [-> Ho].
  apply step_bind; [apply step_symbol_orders|]. intros so s1 E.
  apply symbol_orders_inv in E as [Hso _].
  apply step_bind; [|intros; apply update_orderbook_snapshot_step].
  destruct (OrderSide_eqb _ BUY).
  - apply step_bind; [rewrite without_id_state; apply engine_step_refl|].
    intros kept s2 E. pose proof (fun r' => without_id_In _ _ _ _ _ r' E) as Hin.
    apply without_id_Ok in E as (-> & _).
    apply step_modify, step_set_orders_by_symbol. intros Hr.
    destruct (Hr _ _ Hso) as [Hb Hs]. apply refs_ok_set; simpl; auto.
  - apply step_bind; [rewrite without_id_state; apply engine_step_refl|].
    intros kept s2 E. pose proof (fun r' => without_id_In _ _ _ _ _ r' E) as Hin.
    apply without_id_Ok in E as (-> & _).
    apply step_modify, step_set_orders_by_symbol. intros Hr.
    destruct (Hr _ _ Hso) as [Hb Hs]. apply refs_ok_set; simpl; auto.
Qed.

Lemma step_update_md sym f s : engine_step s (snd (update_md sym f s)).
Proof.
  unfold update_md. destruct (dict_get sym (market_data s)); simpl.
  - apply step_set_market_data.
  - apply engine_step_refl.
Qed.

Lemma update_market_data_step sym t now s :
  engine_step s (snd (_update_market_data sym t now s)).
Proof.
  unfold _update_market_data. apply step_bind.
  { apply step_modify. destruct (dict_mem sym (market_data s));
      [apply engine_step_refl | apply step_set_market_data]. }
  intros [] s1 _. apply step_bind; [apply step_get|]. intros st s2 _.
  destruct (dict_get sym (market_data st)) as [md|]; [|apply step_raise].
  apply step_bind; [apply step_update_md|]. intros [] s3 _.
  apply step_bind; [apply step_order_book|]. intros ob s4 _.
  apply step_bind.
  { destruct (OrderBook.bids ob); [apply step_ret | apply step_update_md]. }
  intros [] s5 _. apply step_bind.
  { destruct (OrderBook.asks ob); [apply step_ret | apply step_update_md]. }
  intros [] s6 _. apply step_bind; [|intros; apply step_update_md].
  destruct (MarketData.last_price md) as [old|]; [|apply step_raise].
  destruct (Qpos_bool old); [|apply step_ret].
  destruct (Trade.price t); [apply step_update_md | apply step_raise].
Qed.

(** ** The two entry points *)

Lemma process_order_accepts s r o now :
  heap s !! r = Some o -> _validate_order o = true ->
  process_order r now s = after_store r (Order.symbol o) now (stored r o now s).
Proof.
  intros Hr Hv. unfold process_order.
  rewrite bind_eq, (deref_Some _ _ _ Hr), Hv. reflexivity.
Qed.

Lemma after_store_step r sym now s :
  not_resting r s -> engine_step s (snd (after_store r sym now s)).
Proof.
  intros Hn. unfold after_store.
  apply step_bind; [by apply match_order_step|]. intros ts s1 _.
  apply step_bind; [apply step_deref|]. intros o' s2 _.
  apply step_bind.
  { destruct (negb _); [apply add_to_orderbook_step | apply step_ret]. }
  intros [] s3 _. apply step_bind; [|intros; apply step_ret].
  destruct (last ts); [apply update_market_data_step | apply step_ret].
Qed.

Lemma set_status_evolves v o : v <> REJECTED -> order_evolves o (Order.set_status v o).
Proof. intros Hv. split; simpl; auto. congruence. Qed.

Lemma set_updated_at_evolves v o : order_evolves o (Order.set_updated_at v o).
Proof. by split. Qed.

Lemma cancel_order_step order_id user_id now s :
  engine_step s (snd (cancel_order order_id user_id now s)).
Proof.
  unfold cancel_order. apply step_bind; [apply step_get|]. intros st s1 _.
  destruct (dict_get order_id (active_orders st)) as [r|]; [|apply step_ret].
  apply step_bind; [apply step_deref|]. intros o s2 _.
  destruct (negb (String.eqb _ _)); [apply step_ret|].
  destruct (negb (_ || _)); [apply step_ret|].
  apply step_bind. { apply step_update. intros x. by apply set_status_evolves. }
  intros [] s3 _. apply step_bind.
  { apply step_update. intros x. apply set_updated_at_evolves. }
  intros [] s4 _. apply step_bind; [apply remove_from_orderbook_step|].
  intros; apply step_ret.
Qed.

(** ** Invariants of the engine *)

Lemma engine_step_wf s s' : engine_step s s' -> wf s -> wf s'.
Proof.
  intros [[Hl Ho] Ha Hb Hr Ht] (R & A & T). split; [auto|]. split; [|auto].
  intros id r Hid. rewrite Ha in Hid. destruct (A _ _ Hid) as (o & Hr' & Hi & Hv & Hm).
  destruct (Ho _ _ Hr') as (o' & Hr'' & [Hs _ _]).
  exists o'. split; [done|]. rewrite (static_validate _ _ Hs).
  unfold static in Hs. injection Hs as Hid' Hsym _ _ _ _ _ _.
  rewrite Hid', Hsym. auto.
Qed.

Lemma heap_evolves_inv h h' r o' :
  heap_evolves h h' -> h' !! r = Some o' ->
  exists o, h !! r = Some o /\ order_evolves o o'.
Proof.
  intros [Hl Ho] Hr. assert (Hlt : (r < length h)%nat).
  { rewrite <- Hl. by eapply lookup_lt_Some. }
  apply lookup_lt_is_Some_2 in Hlt as [o Hr0]. exists o. split; [done|].
  destruct (Ho _ _ Hr0) as (o'' & Hr' & He). congruence.
Qed.

Lemma engine_step_accounted s s' : engine_step s s' -> accounted s -> accounted s'.
Proof.
  intros [Hh _ _ _ _] Hacc r o' Hr Hv.
  destruct (heap_evolves_inv _ _ _ _ Hh Hr) as (o & Hr0 & [Hs Hf Hst]).
  rewrite (static_validate _ _ Hs) in Hv. destruct (Hacc _ _ Hr0 Hv) as [Hq Hn].
  split; auto.
Qed.

Lemma allocated_lookup o s r x :
  heap s !! r = Some x -> heap (allocated o s) !! r = Some x.
Proof.
  intros H. simpl. rewrite lookup_app_l; [done | by eapply lookup_lt_Some].
Qed.

Lemma has_legs_app h l t : has_legs h t -> has_legs (h ++ l) t.
Proof.
  intros (rb & rs & b & sl & Hb & Hs & Hm). exists rb, rs, b, sl.
  split; [|split; [|done]]; (rewrite lookup_app_l; [done | by eapply lookup_lt_Some]).
Qed.

Lemma wf_allocated o s : wf s -> wf (allocated o s).
Proof.
  intros (R & A & T). split; [|split].
  - intros sym so Hso. destruct (R _ _ Hso) as [Hb Hs]. simpl.
    rewrite length_app. split; intros r Hr; [apply Hb in Hr | apply Hs in Hr]; lia.
  - intros id r Hid. destruct (A _ _ Hid) as (x & Hx & H). exists x.
    split; [by apply allocated_lookup | done].
  - unfold trades_ok in *. simpl. eapply Forall_impl; [exact T|].
    intros t. apply has_legs_app.
Qed.

Lemma not_resting_fresh s : refs_ok s -> not_resting (length (heap s)) s.
Proof.
  intros R sym so Hso. destruct (R _ _ Hso) as [Hb Hs].
  split; intros Hin; [apply Hb in Hin | apply Hs in Hin]; lia.
Qed.

Lemma with_book_mem sym now s : dict_mem sym (order_books (with_book sym now s)) = true.
Proof.
  unfold with_book. destruct (dict_mem sym (order_books s)) eqn:E; [done|].
  simpl. apply dict_mem_set_eq.
Qed.

Lemma with_book_mono sym now s k :
  dict_mem k (order_books s) = true -> dict_mem k (order_books (with_book sym now s)) = true.
Proof.
  unfold with_book. destruct (dict_mem sym (order_books s)); [done|].
  simpl. apply dict_mem_set.
Qed.

Lemma with_book_other sym now s :
  heap (with_book sym now s) = heap s /\
  active_orders (with_book sym now s) = active_orders s /\
  orders_by_symbol (with_book sym now s) = orders_by_symbol s /\
  trades (with_book sym now s) = trades s /\
  market_data (with_book sym now s) = market_data s.
Proof. unfold with_book. by destruct (dict_mem sym (order_books s)). Qed.

Lemma wf_stored r o now s :
  heap s !! r = Some o -> _validate_order o = true -> wf s -> wf (stored r o now s).
Proof.
  intros Hr Hv (R & A & T).
  destruct (with_book_other (Order.symbol o) now s) as (Hh & Ha & Ho & Ht & _).
  split; [|split].
  - intros sym so. unfold stored. simpl. rewrite Ho, Hh. apply R.
  - intros id r'. unfold stored. simpl. rewrite Hh, Ha. intros Hin.
    apply dict_set_In in Hin as [[= -> ->]|Hid].
    + exists o. repeat split; auto using with_book_mem.
    + destruct (A _ _ Hid) as (x & Hx & Hi & Hvx & Hm).
      exists x. repeat split; auto using with_book_mono.
  - unfold trades_ok, stored. simpl. by rewrite Ht, Hh.
Qed.

Lemma not_resting_stored r r' o now s : not_resting r s -> not_resting r (stored r' o now s).
Proof.
  intros Hn sym so. unfold stored. simpl.
  destruct (with_book_other (Order.symbol o) now s) as (_ & _ & -> & _). apply Hn.
Qed.

Lemma submit_cases o now s :
  (_validate_order o = false /\
   submit o now s = (Ok [], set_heap (heap s ++ [Order.set_status REJECTED o]) s)) \/
  (_validate_order o = true /\
   submit o now s =
     after_store (length (heap s)) (Order.symbol o) now
       (stored (length (heap s)) o now (allocated o s))).
Proof.
  destruct (_validate_order o) eqn:Hv; [right | left]; split; auto.
  - rewrite submit_eq. apply process_order_accepts; [apply lookup_snoc | done].
  - by apply submit_rejects.
Qed.

Lemma wf_submit o now s : wf s -> wf (snd (submit o now s)).
Proof.
  intros Hwf. destruct (submit_cases o now s) as [[Hv ->]|[Hv ->]].
  - apply (wf_allocated (Order.set_status REJECTED o)) in Hwf. exact Hwf.
  - eapply engine_step_wf.
    + apply after_store_step. apply not_resting_stored.
      destruct Hwf as (R & _ & _).
      intros sym so Hso. exact (not_resting_fresh s R sym so Hso).
    + apply wf_stored; [apply lookup_snoc | done | by apply wf_allocated].
Qed.

Lemma wf_cancel order_id user_id now s : wf s -> wf (snd (cancel_order order_id user_id now s)).
Proof. apply engine_step_wf, cancel_order_step. Qed.

Lemma wf_init : wf init.
Proof.
  split; [|split].
  - intros sym so H. discriminate.
  - intros id r [].
  - constructor.
Qed.

Lemma run_snoc ops op s : run (ops ++ [op]) s = step op (run ops s).
Proof. unfold run. by rewrite fold_left_app. Qed.

Lemma wf_step op s : wf s -> wf (step op s).
Proof. destruct op; simpl; [apply wf_submit | apply wf_cancel]. Qed.

Lemma wf_run ops s : wf s -> wf (run ops s).
Proof.
  revert s. induction ops as [|op ops IH]; intros s H; simpl; [done|].
  apply IH. by apply wf_step.
Qed.

Lemma reachable_wf s : reachable s -> wf s.
Proof. intros [ops ->]. apply wf_run, wf_init. Qed.

Lemma validate_true_quantity o : _validate_order o = true -> (0 < Order.quantity o)%Q.
Proof.
  unfold _validate_order. destruct (Qle_bool (Order.quantity o) 0) eqn:E; [done|].
  intros _. by apply Qle_bool_false.
Qed.

Lemma accounted_snoc o s :
  accounted s ->
  (_validate_order o = true ->
   (Order.filled_quantity o <= Order.quantity o)%Q /\ Order.status o <> REJECTED) ->
  accounted (allocated o s).
Proof.
  intros Hacc Ho r x. simpl. intros Hr Hv.
  apply lookup_app_Some in Hr as [Hr|[_ Hr]]; [by eapply Hacc|].
  destruct (r - length (heap s))%nat; simpl in Hr; [|done].
  injection Hr as <-. auto.
Qed.

Lemma accounted_stored r o now s : accounted s -> accounted (stored r o now s).
Proof.
  intros Hacc r' x. unfold stored. simpl.
  destruct (with_book_other (Order.symbol o) now s) as (-> & _). apply Hacc.
Qed.

Lemma accounted_submit o now s :
  is_new o -> wf s -> accounted s -> accounted (snd (submit o now s)).
Proof.
  intros (Hst & Hf & _) Hwf Hacc. destruct (submit_cases o now s) as [[Hv ->]|[Hv ->]].
  - apply (accounted_snoc (Order.set_status REJECTED o)); [done|].
    rewrite (static_validate o (Order.set_status REJECTED o)) by done. congruence.
  - eapply engine_step_accounted.
    + apply after_store_step. apply not_resting_stored.
      destruct Hwf as (R & _ & _).
      intros sym so Hso. exact (not_resting_fresh s R sym so Hso).
    + apply accounted_stored, accounted_snoc; [done|]. intros _.
      rewrite Hf, Hst. split; [|done].
      apply Qlt_le_weak. by apply validate_true_quantity.
Qed.

Lemma accounted_run ops s :
  new_submissions ops -> wf s -> accounted s -> accounted (run ops s).
Proof.
  revert s. induction ops as [|op ops IH]; intros s Hn Hwf Hacc; simpl; [done|].
  apply Forall_cons in Hn as [Hop Hn].
  apply IH; [done | by apply wf_step |].
  destruct op as [o now|oid uid now]; simpl.
  - by apply accounted_submit.
  - eapply engine_step_accounted; [apply cancel_order_step | done].
Qed.

Lemma accounted_init : accounted init.
Proof. intros r o H. discriminate. Qed.

(** ** C9: no trade crosses the limits *)

Lemma price_matches_limits b sl :
  _price_matches b sl = true ->
  Order.order_type b = LIMIT -> Order.order_type sl = LIMIT ->
  exists pb ps, Order.price b = Some pb /\ Order.price sl = Some ps /\ (ps <= pb)%Q.
Proof.
  unfold _price_matches. intros H Hb Hs. rewrite Hb, Hs in H. simpl in H.
  destruct (truthy (Order.price b) && truthy (Order.price sl)); [|done].
  destruct (Order.price b) as [pb|], (Order.price sl) as [ps|]; try done.
  exists pb, ps. repeat split. by apply Qle_bool_iff.
Qed.

(** C9: in every state the engine reaches, by any sequence of submissions
    and cancellations, every trade of the history was made from a buy order
    and a sell order, both still objects of the engine, which are not two
    limit orders with the buy price below the sell price. *)
Theorem C9_no_trade_crosses_limits ops t :
  In t (trades (run ops init)) ->
  exists rb rs b sl,
    heap (run ops init) !! rb = Some b /\ heap (run ops init) !! rs = Some sl /\
    Trade.buy_order_id t = Order.id b /\ Trade.sell_order_id t = Order.id sl /\
    Trade.buyer_id t = Order.user_id b /\ Trade.seller_id t = Order.user_id sl /\
    Trade.symbol t = Order.symbol b /\
    _price_matches b sl = true /\
    ~ (Order.order_type b = LIMIT /\ Order.order_type sl = LIMIT /\
       exists pb ps, Order.price b = Some pb /\ Order.price sl = Some ps /\ (pb < ps)%Q).
Proof.
  intros Hin. pose proof (wf_run ops init wf_init) as (_ & _ & T).
  unfold trades_ok in T. rewrite Forall_forall in T.
  destruct (T t) as (rb & rs & b & sl & Hb & Hs & [H1 H2 H3 H4 H5 H6 H7]).
  { by apply list_elem_of_In. }
  exists rb, rs, b, sl. repeat (split; [done|]).
  intros (Tb & Ts & pb & ps & Pb & Ps & Hlt).
  destruct (price_matches_limits _ _ H7 Tb Ts) as (pb' & ps' & Pb' & Ps' & Hle).
  rewrite Pb in Pb'. rewrite Ps in Ps'. injection Pb' as <-. injection Ps' as <-.
  lra.
Qed.

Lemma C9_no_trade_crosses_limits_witness :
  let ops := [Submit (new_Order "a" "X/Y" SELL LIMIT 1 (Some 100%Q) 1 "A") 1;
              Submit (new_Order "b" "X/Y" BUY LIMIT (8 # 10) (Some 100%Q) 2 "B") 2] in
  let t := Trade.mk "X/Y" "b" "a" "B" "A" (8 # 10) (Some 100%Q) 2 in
  In t (trades (run ops init)) /\
  exists rb rs b sl,
    heap (run ops init) !! rb = Some b /\ heap (run ops init) !! rs = Some sl /\
    Trade.buy_order_id t = Order.id b /\ Trade.sell_order_id t = Order.id sl.
Proof.
  intros ops t.
  assert (Hin : In t (trades (run ops init))) by (vm_compute; by left).
  split; [exact Hin|].
  destruct (C9_no_trade_crosses_limits ops t Hin)
    as (rb & rs & b & sl & Hb & Hs & H1 & H2 & _).
  exists rb, rs, b, sl. auto.
Defined.

(** ** Frames: what a step leaves untouched *)

Section Frame.
Context {X : Type} (proj : State -> X).

Lemma keeps_bind {A B} (m : M A) (k : A -> M B) :
  keeps proj m -> (forall a, keeps proj (k a)) -> keeps proj (bind m k).
Proof.
  intros Hm Hk s. rewrite bind_eq. specialize (Hm s).
  destruct (m s) as [[a|e] s1]; simpl in *; [|done]. by rewrite Hk.
Qed.

Lemma keeps_ret {A} (a : A) : keeps proj (ret a).
Proof. by intros s. Qed.

Lemma keeps_raise {A} e : keeps proj (raise (A := A) e).
Proof. by intros s. Qed.

Lemma keeps_get : keeps proj get.
Proof. by intros s. Qed.

Lemma keeps_deref r : keeps proj (deref r).
Proof. intros s. by rewrite deref_state. Qed.

Lemma keeps_deref_all rs : keeps proj (deref_all rs).
Proof. intros s. by rewrite deref_all_state. Qed.

Lemma keeps_pending_of rs : keeps proj (pending_of rs).
Proof. intros s. by rewrite pending_of_state. Qed.

Lemma keeps_without_id id rs : keeps proj (without_id id rs).
Proof. intros s. by rewrite without_id_state. Qed.

Lemma keeps_order_book sym : keeps proj (order_book sym).
Proof. intros s. unfold order_book. by destruct (dict_get sym (order_books s)). Qed.

Lemma keeps_modify f : (forall s, proj (f s) = proj s) -> keeps proj (modify f).
Proof. intros H s. apply H. Qed.

Hypothesis proj_heap : forall h s, proj (set_heap h s) = proj s.
Hypothesis proj_obs : forall d s, proj (set_orders_by_symbol d s) = proj s.

Lemma keeps_update r f : keeps proj (update r f).
Proof using proj_heap.
  intros s. destruct (heap s !! r) as [o|] eqn:Hr.
  - rewrite (update_Some _ _ _ _ Hr). apply proj_heap.
  - by rewrite (update_None _ _ _ Hr).
Qed.

Lemma keeps_symbol_orders sym : keeps proj (symbol_orders sym).
Proof using proj_obs.
  intros s. unfold symbol_orders.
  destruct (dict_get sym (orders_by_symbol s)); [done | apply proj_obs].
Qed.

Lemma keeps_update_order_after_trade r q p now :
  keeps proj (_update_order_after_trade r q p now).
Proof using proj_heap.
  unfold _update_order_after_trade.
  apply keeps_bind; [apply keeps_update|]. intros _.
  apply keeps_bind; [apply keeps_deref|]. intros o.
  apply keeps_bind.
  { destruct (Order.average_price o); [|apply keeps_update].
    destruct p; [|apply keeps_raise].
    destruct (Qeq_bool _ 0); [apply keeps_raise | apply keeps_update]. }
  intros _. apply keeps_bind; [apply keeps_update|]. intros _. apply keeps_update.
Qed.

Lemma keeps_execute_trade rb rs now : keeps proj (_execute_trade rb rs now).
Proof using proj_heap.
  unfold _execute_trade.
  apply keeps_bind; [apply keeps_deref|]. intros b.
  apply keeps_bind; [apply keeps_deref|]. intros sl.
  destruct (Qle_bool _ 0); [apply keeps_ret|].
  apply keeps_bind; [apply keeps_update_order_after_trade|]. intros _.
  apply keeps_bind; [apply keeps_update_order_after_trade|]. intros _.
  apply keeps_ret.
Qed.

Lemma keeps_buy_candidates sym : keeps proj (buy_candidates sym).
Proof using proj_obs.
  unfold buy_candidates. apply keeps_bind; [apply keeps_symbol_orders|]. intros so.
  apply keeps_bind; [apply keeps_pending_of|]. intros; apply keeps_ret.
Qed.

Lemma keeps_sell_candidates sym : keeps proj (sell_candidates sym).
Proof using proj_obs.
  unfold sell_candidates. apply keeps_bind; [apply keeps_symbol_orders|]. intros so.
  apply keeps_bind; [apply keeps_pending_of|]. intros; apply keeps_ret.
Qed.

Section NoTrades.
Hypothesis proj_trades : forall t s, proj (set_trades t s) = proj s.

Lemma keeps_match_buy_loop r cs now : keeps proj (match_buy_loop r cs now).
Proof using proj_heap proj_trades.
  induction cs as [|c cs IH]; cbn [match_buy_loop]; [apply keeps_ret|].
  apply keeps_bind; [apply keeps_deref|]. intros b.
  destruct (Qle_bool _ 0); [apply keeps_ret|].
  apply keeps_bind; [apply keeps_deref|]. intros sl.
  destruct (negb _); [done|].
  apply keeps_bind; [apply keeps_execute_trade|]. intros [t|]; [|done].
  apply keeps_bind; [by apply keeps_modify|]. intros _.
  apply keeps_bind; [done|]. intros; apply keeps_ret.
Qed.

Lemma keeps_match_sell_loop r cs now : keeps proj (match_sell_loop r cs now).
Proof using proj_heap proj_trades.
  induction cs as [|c cs IH]; cbn [match_sell_loop]; [apply keeps_ret|].
  apply keeps_bind; [apply keeps_deref|]. intros b.
  destruct (Qle_bool _ 0); [apply keeps_ret|].
  apply keeps_bind; [apply keeps_deref|]. intros sl.
  destruct (negb _); [done|].
  apply keeps_bind; [apply keeps_execute_trade|]. intros [t|]; [|done].
  apply keeps_bind; [by apply keeps_modify|]. intros _.
  apply keeps_bind; [done|]. intros; apply keeps_ret.
Qed.

Lemma keeps_match_order r now : keeps proj (_match_order r now).
Proof using proj_heap proj_obs proj_trades.
  unfold _match_order. apply keeps_bind; [apply keeps_deref|]. intros o.
  apply keeps_bind; [apply keeps_order_book|]. intros ob.
  destruct (OrderSide_eqb _ BUY).
  - unfold _match_buy_order. apply keeps_bind; [apply keeps_deref|]. intros b.
    apply keeps_bind; [apply keeps_buy_candidates|]. intros cs.
    apply keeps_match_buy_loop.
  - unfold _match_sell_order. apply keeps_bind; [apply keeps_deref|]. intros b.
    apply keeps_bind; [apply keeps_sell_candidates|]. intros cs.
    apply keeps_match_sell_loop.
Qed.
End NoTrades.

Section NoBooks.
Hypothesis proj_books : forall d s, proj (set_order_books d s) = proj s.

Lemma keeps_update_orderbook_snapshot sym now : keeps proj (_update_orderbook_snapshot sym now).
Proof using proj_obs proj_books.
  unfold _update_orderbook_snapshot.
  apply keeps_bind; [apply keeps_symbol_orders|]. intros so.
  apply keeps_bind; [apply keeps_order_book|]. intros ob.
  apply keeps_bind; [apply keeps_deref_all|]. intros buys.
  apply keeps_bind; [apply keeps_deref_all|]. intros sells.
  by apply keeps_modify.
Qed.

Lemma keeps_add_to_orderbook r now : keeps proj (_add_to_orderbook r now).
Proof using proj_obs proj_books.
  unfold _add_to_orderbook. apply keeps_bind; [apply keeps_deref|]. intros o.
  apply keeps_bind; [apply keeps_symbol_orders|]. intros so.
  apply keeps_bind; [by apply keeps_modify|]. intros _.
  apply keeps_update_orderbook_snapshot.
Qed.

Lemma keeps_remove_from_orderbook r now : keeps proj (_remove_from_orderbook r now).
Proof using proj_obs proj_books.
  unfold _remove_from_orderbook. apply keeps_bind; [apply keeps_deref|]. intros o.
  apply keeps_bind; [apply keeps_symbol_orders|]. intros so.
  apply keeps_bind; [|intros; apply keeps_update_orderbook_snapshot].
  destruct (OrderSide_eqb _ BUY);
    (apply keeps_bind; [apply keeps_without_id|]; intros kept; by apply keeps_modify).
Qed.

Lemma keeps_cancel_order order_id user_id now : keeps proj (cancel_order order_id user_id now).
Proof using proj_heap proj_obs proj_books.
  unfold cancel_order. apply keeps_bind; [apply keeps_get|]. intros st.
  destruct (dict_get order_id (active_orders st)); [|apply keeps_ret].
  apply keeps_bind; [apply keeps_deref|]. intros o.
  destruct (negb (String.eqb _ _)); [apply keeps_ret|].
  destruct (negb (_ || _)); [apply keeps_ret|].
  apply keeps_bind; [apply keeps_update|]. intros _.
  apply keeps_bind; [apply keeps_update|]. intros _.
  apply keeps_bind; [apply keeps_remove_from_orderbook|]. intros; apply keeps_ret.
Qed.
End NoBooks.
End Frame.

Lemma keeps_update_md_books sym f : keeps order_books (update_md sym f).
Proof.
  intros s. unfold update_md. by destruct (dict_get sym (market_data s)).
Qed.

Lemma keeps_update_market_data_books sym t now :
  keeps order_books (_update_market_data sym t now).
Proof.
  unfold _update_market_data. apply keeps_bind.
  { apply keeps_modify. intros s. by destruct (dict_mem sym (market_data s)). }
  intros _. apply keeps_bind; [apply keeps_get|]. intros st.
  destruct (dict_get sym (market_data st)) as [md|]; [|apply keeps_raise].
  apply keeps_bind; [apply keeps_update_md_books|]. intros _.
  apply keeps_bind; [apply keeps_order_book|]. intros ob.
  apply keeps_bind.
  { destruct (OrderBook.bids ob); [apply keeps_ret | apply keeps_update_md_books]. }
  intros _. apply keeps_bind.
  { destruct (OrderBook.asks ob); [apply keeps_ret | apply keeps_update_md_books]. }
  intros _. apply keeps_bind; [|intros; apply keeps_update_md_books].
  destruct (MarketData.last_price md) as [old|]; [|apply keeps_raise].
  destruct (Qpos_bool old); [|apply keeps_ret].
  destruct (Trade.price t); [apply keeps_update_md_books | apply keeps_raise].
Qed.

(** ** C10: the order store *)

Lemma submit_effect o now s :
  wf s ->
  (forall r x, heap s !! r = Some x ->
     exists x', heap (snd (submit o now s)) !! r = Some x' /\ order_evolves x x') /\
  active_orders (snd (submit o now s)) =
    (if _validate_order o
     then dict_set (Order.id o) (length (heap s)) (active_orders s)
     else active_orders s) /\
  (_validate_order o = true ->
   exists o', heap (snd (submit o now s)) !! length (heap s) = Some o' /\
              order_evolves o o').
Proof.
  intros Hwf. destruct (submit_cases o now s) as [[Hv ->]|[Hv ->]]; rewrite Hv.
  - split; [|split; [done | discriminate]].
    intros r x Hr. exists x. split; [|apply order_evolves_refl].
    simpl. rewrite lookup_app_l; [done | by eapply lookup_lt_Some].
  - assert (St : engine_step (stored (length (heap s)) o now (allocated o s))
                   (snd (after_store (length (heap s)) (Order.symbol o) now
                           (stored (length (heap s)) o now (allocated o s))))).
    { apply after_store_step, not_resting_stored. destruct Hwf as (R & _ & _).
      intros sym so Hso. exact (not_resting_fresh s R sym so Hso). }
    destruct St as [[_ Ho] Ha _ _ _].
    assert (Hh : heap (stored (length (heap s)) o now (allocated o s)) = heap s ++ [o]).
    { unfold stored. simpl.
      by destruct (with_book_other (Order.symbol o) now (allocated o s)) as (-> & _). }
    rewrite Hh in Ho. split; [|split].
    + intros r x Hr. apply Ho. rewrite lookup_app_l; [done | by eapply lookup_lt_Some].
    + rewrite Ha. unfold stored. simpl.
      by destruct (with_book_other (Order.symbol o) now (allocated o s)) as (_ & -> & _).
    + intros _. apply Ho. apply lookup_snoc.
Qed.

Lemma cancel_effect order_id user_id now s :
  (forall r x, heap s !! r = Some x ->
     exists x', heap (snd (cancel_order order_id user_id now s)) !! r = Some x' /\
                order_evolves x x') /\
  active_orders (snd (cancel_order order_id user_id now s)) = active_orders s.
Proof.
  destruct (cancel_order_step order_id user_id now s) as [[_ Ho] Ha _ _ _]. auto.
Qed.

Lemma stays_stored id r o ops s :
  wf s -> dict_get id (active_orders s) = Some r -> heap s !! r = Some o ->
  later_ids_differ id ops ->
  dict_get id (active_orders (run ops s)) = Some r /\
  exists o', heap (run ops s) !! r = Some o' /\ static o' = static o.
Proof.
  revert s o. induction ops as [|op ops IH]; intros s o Hwf Hid Hr Hl; simpl.
  { split; [done|]. by exists o. }
  apply Forall_cons in Hl as [Hop Hl].
  assert (Hstep : dict_get id (active_orders (step op s)) = Some r /\
                  exists o1, heap (step op s) !! r = Some o1 /\ static o1 = static o).
  { destruct op as [x now|oid uid now]; simpl.
    - destruct (submit_effect x now s Hwf) as (Hp & Ha & _).
      destruct (Hp _ _ Hr) as (o1 & Hr1 & [Hs _ _]). split; [|by exists o1].
      rewrite Ha. destruct (_validate_order x) eqn:Hv; [|done].
      rewrite dict_get_set_ne; [done | by apply Hop].
    - destruct (cancel_effect oid uid now s) as (Hp & Ha).
      destruct (Hp _ _ Hr) as (o1 & Hr1 & [Hs _ _]). split; [|by exists o1].
      by rewrite Ha. }
  destruct Hstep as (Hid1 & o1 & Hr1 & Hs1).
  destruct (IH (step op s) o1) as (Hid2 & o2 & Hr2 & Hs2); auto using wf_step.
  split; [done|]. exists o2. split; [done | congruence].
Qed.

Lemma omap_lookup_app (h : list Order.t) x (rs : list ref) :
  (forall r, In r rs -> (r < length h)%nat) ->
  omap (fun r => (h ++ [x]) !! r) rs = omap (fun r => h !! r) rs.
Proof.
  induction rs as [|r rs IH]; intros H; simpl; [done|].
  rewrite lookup_app_l by (apply H; by left).
  change (list_omap nat Order.t) with (@omap list _ nat Order.t).
  rewrite IH; [done|]. intros r' Hr'. apply H. by right.
Qed.

Lemma active_refs_valid s r :
  active_ok s -> In r (dict_values (active_orders s)) -> (r < length (heap s))%nat.
Proof.
  intros A Hin. apply dict_In_values_get in Hin as [k Hk].
  destruct (A _ _ Hk) as (o & Ho & _). by eapply lookup_lt_Some.
Qed.

Lemma In_get_user_orders id r o s :
  dict_get id (active_orders s) = Some r -> heap s !! r = Some o ->
  In o (get_user_orders (Order.user_id o) s).
Proof.
  intros Hid Hr. unfold get_user_orders. apply filter_In. split.
  - apply list_elem_of_In, list_elem_of_omap. exists r. split; [|done].
    apply list_elem_of_In. by eapply dict_get_In_values.
  - apply String.eqb_refl.
Qed.

(** C10: in a state reached by submitting new orders and cancelling,
    [get_order] returns only orders that passed validation and are not
    [Rejected]; submitting an order that fails validation leaves
    [active_orders], [get_order] and [get_user_orders] as they were; and an
    order that passes validation is returned by [get_order] under its id,
    and listed by [get_user_orders] for its user, after the submission and
    after any further calls, whatever its status becomes, as long as no
    later accepted order carries the same id. *)
Theorem C10_order_store ops :
  new_submissions ops ->
  (forall id o, get_order id (run ops init) = Some o ->
     Order.id o = id /\ _validate_order o = true /\ Order.status o <> REJECTED) /\
  (forall o now, _validate_order o = false ->
     active_orders (step (Submit o now) (run ops init)) = active_orders (run ops init) /\
     (forall id, get_order id (step (Submit o now) (run ops init)) =
                 get_order id (run ops init)) /\
     (forall u, get_user_orders u (step (Submit o now) (run ops init)) =
                get_user_orders u (run ops init))) /\
  (forall o now ops', _validate_order o = true -> later_ids_differ (Order.id o) ops' ->
     exists o', get_order (Order.id o) (run ops' (step (Submit o now) (run ops init)))
                  = Some o' /\
                static o' = static o /\
                In o' (get_user_orders (Order.user_id o)
                         (run ops' (step (Submit o now) (run ops init))))).
Proof.
  intros Hn. set (s := run ops init).
  assert (Hwf : wf s) by apply wf_run, wf_init.
  assert (Hacc : accounted s) by (apply accounted_run; auto using wf_init, accounted_init).
  split; [|split].
  - intros id o. unfold get_order.
    destruct (dict_get id (active_orders s)) as [r|] eqn:E; [|done]. intros Hr.
    destruct Hwf as (_ & A & _).
    destruct (A _ _ (dict_get_In _ _ _ E)) as (o' & Hr' & Hi & Hv & _).
    assert (o' = o) as -> by congruence.
    split; [done|]. split; [done|]. by apply (Hacc r o).
  - intros o now Hv. simpl. rewrite (submit_rejects o now s Hv). simpl.
    destruct Hwf as (_ & A & _). split; [done|]. split.
    + intros id. unfold get_order. simpl.
      destruct (dict_get id (active_orders s)) as [r|] eqn:E; [|done].
      destruct (A _ _ (dict_get_In _ _ _ E)) as (o' & Hr' & _).
      rewrite lookup_app_l; [done | by eapply lookup_lt_Some].
    + intros u. unfold get_user_orders. simpl.
      rewrite omap_lookup_app; [done|]. intros r. by apply active_refs_valid.
  - intros o now ops' Hv Hl.
    destruct (submit_effect o now s Hwf) as (_ & Ha & Hnew).
    destruct (Hnew Hv) as (o1 & Hr1 & [Hs1 _ _]). rewrite Hv in Ha.
    set (s1 := step (Submit o now) s).
    assert (Hid : dict_get (Order.id o) (active_orders s1) = Some (length (heap s))).
    { unfold s1. simpl. rewrite Ha. apply dict_get_set_eq. }
    destruct (stays_stored (Order.id o) (length (heap s)) o1 ops' s1)
      as (Hid2 & o2 & Hr2 & Hs2); auto.
    { apply (wf_step (Submit o now)), Hwf. }
    exists o2. split; [|split].
    + unfold get_order. by rewrite Hid2.
    + congruence.
    + assert (Hu : Order.user_id o2 = Order.user_id o).
      { assert (Hs : static o2 = static o) by congruence.
        unfold static in Hs. by injection Hs. }
      rewrite <- Hu. by eapply In_get_user_orders.
Qed.

Lemma C10_order_store_witness :
  let before := [Submit (new_Order "z" "X/Y" BUY LIMIT 1 (Some 99%Q) 0 "Z") 0] in
  let o := new_Order "a" "X/Y" SELL LIMIT 1 (Some 100%Q) 1 "A" in
  let later := [Submit (new_Order "b" "X/Y" BUY LIMIT 1 (Some 100%Q) 2 "B") 2;
                Cancel "a" "A" 3] in
  new_submissions before /\
  exists o', get_order "a" (run later (step (Submit o 1) (run before init))) = Some o' /\
             static o' = static o.
Proof.
  intros before o later.
  assert (Hn : new_submissions before) by (repeat constructor).
  split; [exact Hn|].
  destruct (proj2 (proj2 (C10_order_store before Hn)) o 1 later)
    as (o' & Hg & Hs & _).
  - reflexivity.
  - repeat constructor; simpl; intros _; discriminate.
  - exists o'. by split.
Defined.

(** ** C7: cancellation *)

Lemma deref_all_objects rs s :
  (forall r, In r rs -> (r < length (heap s))%nat) ->
  deref_all rs s = (Ok (objects_of (heap s) rs), s).
Proof.
  induction rs as [|r rs IH]; intros H; [done|].
  assert (Hr : (r < length (heap s))%nat) by (apply H; by left).
  apply lookup_lt_is_Some_2 in Hr as [o Ho].
  cbn [deref_all]. rewrite bind_eq, (deref_Some _ _ _ Ho), bind_eq, IH.
  - unfold objects_of. simpl. by rewrite Ho.
  - intros r' Hr'. apply H. by right.
Qed.

Lemma objects_of_In h rs r o :
  In (r, o) (objects_of h rs) <-> In r rs /\ h !! r = Some o.
Proof.
  unfold objects_of. rewrite <- !list_elem_of_In, list_elem_of_omap. split.
  - intros (r' & Hr' & H). destruct (h !! r') as [o'|] eqn:E; [|done].
    injection H as <- <-. by split.
  - intros [Hr Ho]. exists r. split; [done|]. by rewrite Ho.
Qed.

Lemma kept_refs_In id h rs r :
  In r (kept_refs id h rs) <->
  In r rs /\ exists o, h !! r = Some o /\ Order.id o <> id.
Proof.
  unfold kept_refs. rewrite in_map_iff. split.
  - intros ([r' o] & <- & H). apply filter_In in H as [H Hid].
    apply objects_of_In in H as [Hr Ho]. split; [done|]. exists o. split; [done|].
    simpl in Hid. apply negb_true_iff in Hid. intros <-.
    by rewrite String.eqb_refl in Hid.
  - intros (Hr & o & Ho & Hid). exists (r, o). split; [done|].
    apply filter_In. split; [by apply objects_of_In|]. simpl.
    apply negb_true_iff. destruct (String.eqb (Order.id o) id) eqn:E; [|done].
    by apply String.eqb_eq in E.
Qed.

Lemma without_id_valid id rs s :
  (forall r, In r rs -> (r < length (heap s))%nat) ->
  without_id id rs s = (Ok (kept_refs id (heap s) rs), s).
Proof.
  intros H. unfold without_id. by rewrite bind_eq, (deref_all_objects _ _ H).
Qed.

Lemma update_orderbook_snapshot_eq sym now s so ob :
  dict_get sym (orders_by_symbol s) = Some so ->
  dict_get sym (order_books s) = Some ob ->
  refs_ok s ->
  _update_orderbook_snapshot sym now s =
    (Ok tt,
     set_order_books
       (dict_set sym (snapshot ob (resting BUY sym s) (resting SELL sym s) now)
                 (order_books s)) s).
Proof.
  intros Hso Hob R. destruct (R _ _ Hso) as [Hb Hs].
  unfold _update_orderbook_snapshot, resting, snapshot, symbol_orders, order_book.
  rewrite bind_eq, Hso, bind_eq, Hob.
  rewrite bind_eq, (deref_all_objects _ _ Hb), bind_eq, (deref_all_objects _ _ Hs).
  reflexivity.
Qed.

Lemma symbol_orders_eq sym s :
  exists s1, symbol_orders sym s = (Ok (lists_of sym s), s1) /\
             heap s1 = heap s /\ order_books s1 = order_books s /\
             dict_get sym (orders_by_symbol s1) = Some (lists_of sym s) /\
             (forall sym', sym' <> sym ->
                dict_get sym' (orders_by_symbol s1) = dict_get sym' (orders_by_symbol s)) /\
             (refs_ok s -> refs_ok s1).
Proof.
  unfold symbol_orders, lists_of.
  destruct (dict_get sym (orders_by_symbol s)) as [so|] eqn:E.
  - exists s. do 4 (split; [done|]). split; auto.
  - eexists. split; [reflexivity|]. simpl. rewrite dict_get_set_eq.
    do 3 (split; [done|]). split; [|apply refs_ok_default].
    intros sym' Hne. by rewrite dict_get_set_ne.
Qed.

Lemma remove_from_orderbook_eq r now s o ob :
  heap s !! r = Some o -> refs_ok s ->
  dict_get (Order.symbol o) (order_books s) = Some ob ->
  exists s',
    _remove_from_orderbook r now s = (Ok tt, s') /\
    heap s' = heap s /\
    dict_get (Order.symbol o) (orders_by_symbol s') =
      Some (remove_id (Order.side o) (Order.id o) (heap s) (lists_of (Order.symbol o) s)) /\
    dict_get (Order.symbol o) (order_books s') =
      Some (snapshot ob (resting BUY (Order.symbol o) s')
                     (resting SELL (Order.symbol o) s') now) /\
    (forall sym', sym' <> Order.symbol o ->
       dict_get sym' (orders_by_symbol s') = dict_get sym' (orders_by_symbol s) /\
       dict_get sym' (order_books s') = dict_get sym' (order_books s)).
Proof.
  intros Hr R Hob. unfold _remove_from_orderbook.
  rewrite bind_eq, (deref_Some _ _ _ Hr), bind_eq.
  destruct (symbol_orders_eq (Order.symbol o) s) as (s1 & -> & Hh1 & Hb1 & Hso1 & Hot1 & R1).
  rewrite bind_eq. specialize (R1 R). destruct (R1 _ _ Hso1) as [Vb Vs].
  set (so := lists_of (Order.symbol o) s) in *.
  set (so' := remove_id (Order.side o) (Order.id o) (heap s) so).
  set (s2 := set_orders_by_symbol (dict_set (Order.symbol o) so' (orders_by_symbol s1)) s1).
  assert (E : (if OrderSide_eqb (Order.side o) BUY
               then let* kept := without_id (Order.id o) (buy_orders so) in
                    modify (fun st => set_orders_by_symbol
                              (dict_set (Order.symbol o)
                                 (mkSymbolOrders kept (sell_orders so))
                                 (orders_by_symbol st)) st)
               else let* kept := without_id (Order.id o) (sell_orders so) in
                    modify (fun st => set_orders_by_symbol
                              (dict_set (Order.symbol o)
                                 (mkSymbolOrders (buy_orders so) kept)
                                 (orders_by_symbol st)) st)) s1 = (Ok tt, s2)).
  { unfold s2, so', remove_id. rewrite <- Hh1.
    destruct (Order.side o); simpl;
      rewrite bind_eq, without_id_valid by done; reflexivity. }
  rewrite E. clear E.
  assert (Hso2 : dict_get (Order.symbol o) (orders_by_symbol s2) = Some so').
  { unfold s2. simpl. apply dict_get_set_eq. }
  assert (R2 : refs_ok s2).
  { unfold s2. apply refs_ok_set; auto; unfold so', remove_id;
      destruct (Order.side o); simpl; auto;
      intros r' Hin; apply kept_refs_In in Hin as [Hin _]; auto. }
  assert (Hob2 : dict_get (Order.symbol o) (order_books s2) = Some ob).
  { unfold s2. simpl. by rewrite Hb1. }
  rewrite (update_orderbook_snapshot_eq _ _ _ _ _ Hso2 Hob2 R2).
  eexists. split; [reflexivity|].
  split; [exact Hh1|].
  split; [exact Hso2|].
  split. { cbn [order_books set_order_books]. apply dict_get_set_eq. }
  intros sym' Hne. cbn [order_books set_order_books orders_by_symbol].
  unfold s2. cbn [order_books set_orders_by_symbol orders_by_symbol].
  rewrite !dict_get_set_ne by congruence. rewrite Hb1. auto.
Qed.

Lemma cancel_order_unknown order_id user_id now s :
  dict_get order_id (active_orders s) = None ->
  cancel_order order_id user_id now s = (Ok false, s).
Proof. intros H. unfold cancel_order. rewrite bind_eq. simpl. by rewrite H. Qed.

Lemma cancel_order_refused order_id user_id now s r o :
  dict_get order_id (active_orders s) = Some r -> heap s !! r = Some o ->
  Order.user_id o <> user_id \/ is_live o = false ->
  cancel_order order_id user_id now s = (Ok false, s).
Proof.
  intros Hid Hr H. unfold cancel_order. rewrite bind_eq. simpl. rewrite Hid.
  rewrite bind_eq, (deref_Some _ _ _ Hr).
  destruct (String.eqb (Order.user_id o) user_id) eqn:Eu; simpl; [|done].
  destruct H as [H|H]; [by apply String.eqb_eq in Eu|].
  unfold is_live in H. by rewrite H.
Qed.

Lemma cancel_order_done order_id user_id now s r o :
  wf s ->
  dict_get order_id (active_orders s) = Some r -> heap s !! r = Some o ->
  Order.user_id o = user_id -> is_live o = true ->
  exists s' ob,
    cancel_order order_id user_id now s = (Ok true, s') /\
    heap s' = <[r := cancelled now o]> (heap s) /\
    active_orders s' = active_orders s /\ trades s' = trades s /\
    market_data s' = market_data s /\
    dict_get (Order.symbol o) (orders_by_symbol s') =
      Some (remove_id (Order.side o) (Order.id o) (heap s')
                      (lists_of (Order.symbol o) s)) /\
    ~ In r (side_list (Order.side o)
              (remove_id (Order.side o) (Order.id o) (heap s')
                         (lists_of (Order.symbol o) s))) /\
    dict_get (Order.symbol o) (order_books s) = Some ob /\
    dict_get (Order.symbol o) (order_books s') =
      Some (snapshot ob (resting BUY (Order.symbol o) s')
                     (resting SELL (Order.symbol o) s') now) /\
    (forall sym', sym' <> Order.symbol o ->
       dict_get sym' (orders_by_symbol s') = dict_get sym' (orders_by_symbol s) /\
       dict_get sym' (order_books s') = dict_get sym' (order_books s)).
Proof.
  intros (R & A & _) Hid Hr Hu Hl.
  destruct (A _ _ (dict_get_In _ _ _ Hid)) as (o' & Hr' & _ & _ & Hm).
  assert (o' = o) as -> by congruence.
  unfold dict_mem in Hm.
  destruct (dict_get (Order.symbol o) (order_books s)) as [ob|] eqn:Hob; [|done].
  set (s0 := set_heap (<[r:=Order.set_status CANCELLED o]> (heap s)) s).
  assert (H0 : heap s0 !! r = Some (Order.set_status CANCELLED o))
    by by eapply heap_insert_lookup.
  set (s1 := set_heap (<[r:=cancelled now o]> (heap s)) s).
  assert (H1 : heap s1 !! r = Some (cancelled now o)) by by eapply heap_insert_lookup.
  assert (R1 : refs_ok s1).
  { intros sym so Hso. unfold s1. cbn [heap set_heap]. rewrite length_insert.
    exact (R sym so Hso). }
  destruct (remove_from_orderbook_eq r now s1 (cancelled now o) ob H1 R1 Hob)
    as (s' & E & Hh & Hso & Hbk & Hothers).
  assert (Hc : cancel_order order_id user_id now s = (Ok true, s')).
  { unfold cancel_order. rewrite bind_eq. simpl. rewrite Hid.
    rewrite bind_eq, (deref_Some _ _ _ Hr).
    apply String.eqb_eq in Hu. rewrite Hu. unfold is_live in Hl. rewrite Hl. simpl.
    rewrite bind_eq, (update_Some _ _ _ _ Hr). fold s0.
    rewrite bind_eq, (update_Some _ _ _ _ H0).
    replace (set_heap _ s0) with s1.
    2:{ unfold s1, s0, cancelled. rewrite set_heap_set_heap. cbn [heap set_heap].
        by rewrite list_insert_insert_eq. }
    by rewrite bind_eq, E. }
  pose proof (keeps_cancel_order active_orders (fun _ _ => eq_refl) (fun _ _ => eq_refl)
                (fun _ _ => eq_refl) order_id user_id now s) as Ka.
  pose proof (keeps_cancel_order trades (fun _ _ => eq_refl) (fun _ _ => eq_refl)
                (fun _ _ => eq_refl) order_id user_id now s) as Kt.
  pose proof (keeps_cancel_order market_data (fun _ _ => eq_refl) (fun _ _ => eq_refl)
                (fun _ _ => eq_refl) order_id user_id now s) as Km.
  rewrite Hc in Ka, Kt, Km. simpl in Ka, Kt, Km.
  exists s', ob. split; [done|]. split; [done|].
  do 3 (split; [done|]). rewrite Hh. split; [exact Hso|]. split.
  - unfold remove_id, side_list. simpl.
    destruct (Order.side o); simpl; intros Hin;
      apply kept_refs_In in Hin as (_ & x & Hx & Hne);
      assert (x = cancelled now o) as -> by (unfold s1 in *; simpl in *; congruence);
      by apply Hne.
  - split; [done|]. split; [exact Hbk | exact Hothers].
Qed.



(** ** C8: market data *)

Lemma dict_set_set {V} k (v v' : V) d : dict_set k v (dict_set k v' d) = dict_set k v d.
Proof.
  induction d as [|[k0 v0] d IH]; simpl.
  - by rewrite String.eqb_refl.
  - destruct (String.eqb k k0) eqn:E; simpl.
    + by rewrite String.eqb_refl.
    + by rewrite E, IH.
Qed.

Lemma update_md_Some sym f md s :
  dict_get sym (market_data s) = Some md ->
  update_md sym f s = (Ok tt, set_market_data (dict_set sym (f md) (market_data s)) s).
Proof. intros H. unfold update_md. by rewrite H. Qed.

Lemma update_market_data_Ok sym t now s s' ob :
  dict_get sym (order_books s) = Some ob ->
  _update_market_data sym t now s = (Ok tt, s') ->
  s' = set_market_data
         (dict_set sym (refreshed (previous_md sym t now s) ob (Trade.price t) now)
                   (market_data s)) s /\
  exists old, MarketData.last_price (previous_md sym t now s) = Some old /\
              (Qpos_bool old = true -> exists p, Trade.price t = Some p).
Proof.
  intros Hob. unfold _update_market_data. rewrite bind_eq. cbn [modify].
  set (md := previous_md sym t now s).
  set (s0 := if dict_mem sym (market_data s) then s else _).
  assert (Hmd : dict_get sym (market_data s0) = Some md).
  { unfold s0, md, previous_md, dict_mem.
    destruct (dict_get sym (market_data s)) eqn:E; [done|].
    simpl. apply dict_get_set_eq. }
  assert (Hset : forall v, dict_set sym v (market_data s0) = dict_set sym v (market_data s)).
  { intros v. unfold s0. destruct (dict_mem sym (market_data s)); [done|].
    simpl. apply dict_set_set. }
  assert (Hrest : forall d, set_market_data d s0 = set_market_data d s).
  { intros d. unfold s0. by destruct (dict_mem sym (market_data s)). }
  assert (Hob0 : dict_get sym (order_books s0) = Some ob).
  { unfold s0. by destruct (dict_mem sym (market_data s)). }
  rewrite bind_eq. cbn [get]. rewrite Hmd.
  rewrite bind_eq, (update_md_Some _ _ _ _ Hmd), Hset, Hrest.
  set (m1 := MarketData.set_last_price (Trade.price t) md).
  set (s1 := set_market_data (dict_set sym m1 (market_data s)) s).
  assert (H1 : dict_get sym (market_data s1) = Some m1) by apply dict_get_set_eq.
  assert (Hs1 : forall v, set_market_data (dict_set sym v (market_data s1)) s1 =
                          set_market_data (dict_set sym v (market_data s)) s).
  { intros v. unfold s1. simpl. by rewrite dict_set_set. }
  rewrite bind_eq. unfold order_book at 1. cbn [order_books set_market_data s1].
  rewrite Hob. fold s1.
  set (m2 := match OrderBook.bids ob with
             | top :: _ => MarketData.set_bid (Level.price top) m1
             | [] => m1
             end).
  set (s2 := set_market_data (dict_set sym m2 (market_data s)) s).
  assert (E2 : (match OrderBook.bids ob with
                | top :: _ => update_md sym (MarketData.set_bid (Level.price top))
                | [] => ret tt
                end) s1 = (Ok tt, s2)).
  { unfold s2, m2. destruct (OrderBook.bids ob).
    - unfold ret, s1. simpl. reflexivity.
    - by rewrite (update_md_Some _ _ _ _ H1), Hs1. }
  rewrite bind_eq, E2.
  assert (H2 : dict_get sym (market_data s2) = Some m2) by apply dict_get_set_eq.
  assert (Hs2 : forall v, set_market_data (dict_set sym v (market_data s2)) s2 =
                          set_market_data (dict_set sym v (market_data s)) s).
  { intros v. unfold s2. simpl. by rewrite dict_set_set. }
  set (m3 := match OrderBook.asks ob with
             | top :: _ => MarketData.set_ask (Level.price top) m2
             | [] => m2
             end).
  set (s3 := set_market_data (dict_set sym m3 (market_data s)) s).
  assert (E3 : (match OrderBook.asks ob with
                | top :: _ => update_md sym (MarketData.set_ask (Level.price top))
                | [] => ret tt
                end) s2 = (Ok tt, s3)).
  { unfold s3, m3. destruct (OrderBook.asks ob).
    - unfold ret, s2. simpl. reflexivity.
    - by rewrite (update_md_Some _ _ _ _ H2), Hs2. }
  rewrite bind_eq, E3.
  assert (H3 : dict_get sym (market_data s3) = Some m3) by apply dict_get_set_eq.
  assert (Hs3 : forall v, set_market_data (dict_set sym v (market_data s3)) s3 =
                          set_market_data (dict_set sym v (market_data s)) s).
  { intros v. unfold s3. simpl. by rewrite dict_set_set. }
  rewrite bind_eq.
  destruct (MarketData.last_price md) as [old|] eqn:Eold;
    [|unfold raise; cbn; intros [=]].
  destruct (Qpos_bool old) eqn:Epos.
  - destruct (Trade.price t) as [p|] eqn:Ep; [|unfold raise; cbn; intros [=]].
    rewrite (update_md_Some _ _ _ _ H3), Hs3.
    match goal with |- context [dict_set sym ?m (market_data s)] => set (m4 := m) end.
    set (s4 := set_market_data (dict_set sym m4 (market_data s)) s).
    assert (H4 : dict_get sym (market_data s4) = Some m4) by apply dict_get_set_eq.
    rewrite (update_md_Some _ _ _ _ H4). unfold s4. simpl. rewrite dict_set_set.
    intros [= <-]. split; [|by eauto].
    unfold refreshed. rewrite Eold, Epos.
    unfold m4, m3, m2, m1.
    by destruct (OrderBook.bids ob), (OrderBook.asks ob).
  - unfold ret at 1. rewrite (update_md_Some _ _ _ _ H3), Hs3.
    intros [= <-]. split; [|exists old; split; [done | intros; congruence]].
    unfold refreshed. rewrite Eold, Epos.
    unfold m3, m2, m1.
    by destruct (Trade.price t), (OrderBook.bids ob), (OrderBook.asks ob).
Qed.

Lemma after_store_market_data r sym now s ts s' :
  dict_mem sym (order_books s) = true ->
  after_store r sym now s = (Ok ts, s') ->
  match last ts with
  | None => market_data s' = market_data s
  | Some t =>
      exists ob, dict_get sym (order_books s') = Some ob /\
        market_data s' =
          dict_set sym (refreshed (previous_md sym t now s) ob (Trade.price t) now)
                   (market_data s) /\
        exists old, MarketData.last_price (previous_md sym t now s) = Some old /\
                    (Qpos_bool old = true -> exists p, Trade.price t = Some p)
  end.
Proof.
  intros Hm. unfold after_store. rewrite bind_eq.
  pose proof (keeps_match_order market_data (fun _ _ => eq_refl) (fun _ _ => eq_refl)
                (fun _ _ => eq_refl) r now s) as Kmd.
  pose proof (keeps_match_order order_books (fun _ _ => eq_refl) (fun _ _ => eq_refl)
                (fun _ _ => eq_refl) r now s) as Kob.
  destruct (_match_order r now s) as [[ts0|e] s1]; [|discriminate]. simpl in Kmd, Kob.
  rewrite bind_eq. destruct (deref r s1) as [[o'|e] s2] eqn:E2; [|discriminate].
  apply deref_inv in E2 as [-> _]. rewrite bind_eq.
  set (m := if negb _ then _ else _).
  assert (Kmd2 : market_data (snd (m s1)) = market_data s1).
  { unfold m. destruct (negb _); [|done].
    apply (keeps_add_to_orderbook market_data); reflexivity. }
  assert (Kob2 : dict_mem sym (order_books (snd (m s1))) = true).
  { unfold m. destruct (negb _); [|simpl; congruence].
    apply add_to_orderbook_step. congruence. }
  destruct (m s1) as [[[]|e] s3]; [|discriminate]. simpl in Kmd2, Kob2.
  rewrite bind_eq. destruct (last ts0) as [t|] eqn:El.
  - pose proof (keeps_update_market_data_books sym t now s3) as Kob3.
    destruct (_update_market_data sym t now s3) as [[[]|e] s4] eqn:E4; [|discriminate].
    simpl in Kob3. intros [= <- <-]. rewrite El.
    unfold dict_mem in Kob2.
    destruct (dict_get sym (order_books s3)) as [ob|] eqn:Hob; [|done].
    destruct (update_market_data_Ok _ _ _ _ _ _ Hob E4) as (-> & old & Hold & Hp).
    exists ob. simpl. unfold previous_md in *. rewrite Kmd2, Kmd in *.
    split; [done|]. split; [done|]. by exists old.
  - intros [= <- <-]. rewrite El. congruence.
Qed.

Lemma refreshed_other sym sym' v (s : State) :
  sym' <> sym ->
  dict_get sym' (dict_set sym v (market_data s)) = dict_get sym' (market_data s).
Proof. intros H. apply dict_get_set_ne. congruence. Qed.

(** C8, the code at the failing input: a sell of 1 at 80 is filled by a buy
    of 1 at 80.  The buy is [Filled], so [process_order] does not refresh
    the snapshot before [_update_market_data] reads it: both orders are
    [Filled] and a snapshot taken now has no ask, but the stored book still
    shows 1 at 80, and the market data gives 80 as the best ask. *)
Theorem C8_best_ask_of_a_stale_book :
  let s := run [Submit (new_Order "a" "X/Y" SELL LIMIT 1 (Some 80%Q) 1 "A") 1;
                Submit (new_Order "b" "X/Y" BUY LIMIT 1 (Some 80%Q) 2 "B") 2] init in
  map Order.status (heap s) = [FILLED; FILLED] /\
  option_map OrderBook.asks
    (get_orderbook "X/Y" (snd (_update_orderbook_snapshot "X/Y" 2 s))) = Some [] /\
  option_map OrderBook.asks (get_orderbook "X/Y" s) = Some [Level.mk 80 1] /\
  option_map MarketData.last_price (get_market_data "X/Y" s) = Some (Some 80%Q) /\
  option_map MarketData.ask (get_market_data "X/Y" s) = Some 80%Q.
Proof.
  intros s. repeat split; vm_compute; reflexivity.
Qed.

(** X21: market data after a call.  A call of [process_order] that returns
    no trade leaves the market data as it was.  A call that returns trades
    refreshes the record of the order's symbol once, from the last trade of
    the call, and leaves the other symbols alone: the last price is that
    trade's price; bid and ask are the top prices of the symbol's book as it
    is stored at the end of the call, whether or not that book is current,
    and keep their value (0 in a new record) when that side of the book is
    empty; the change is [(price - old) / old * 100] when the previously
    recorded price [old] is positive, and keeps its value when it is not; a
    new record starts from the trade's own price, so that its change is
    zero. *)
Theorem X21_market_data_after_a_call s r o now ts s' :
  heap s !! r = Some o -> process_order r now s = (Ok ts, s') ->
  (forall sym', sym' <> Order.symbol o ->
     get_market_data sym' s' = get_market_data sym' s) /\
  match last ts with
  | None => market_data s' = market_data s
  | Some t =>
      exists ob md',
        get_orderbook (Order.symbol o) s' = Some ob /\
        get_market_data (Order.symbol o) s' = Some md' /\
        MarketData.last_price md' = Trade.price t /\
        MarketData.bid md' =
          match OrderBook.bids ob with
          | top :: _ => Level.price top
          | [] => match get_market_data (Order.symbol o) s with
                  | Some md => MarketData.bid md
                  | None => 0%Q
                  end
          end /\
        MarketData.ask md' =
          match OrderBook.asks ob with
          | top :: _ => Level.price top
          | [] => match get_market_data (Order.symbol o) s with
                  | Some md => MarketData.ask md
                  | None => 0%Q
                  end
          end /\
        MarketData.timestamp md' = now /\
        match get_market_data (Order.symbol o) s with
        | Some md =>
            exists old, MarketData.last_price md = Some old /\
              ((0 < old)%Q ->
               exists p, Trade.price t = Some p /\
                         MarketData.change_24h md' = (((p - old) / old) * 100)%Q) /\
              ((old <= 0)%Q -> MarketData.change_24h md' = MarketData.change_24h md)
        | None => (MarketData.change_24h md' == 0)%Q
        end
  end.
Proof.
  intros Hr. destruct (_validate_order o) eqn:Hv.
  2:{ rewrite (process_order_rejects _ _ _ _ Hr Hv). intros [= <- <-]. by split. }
  rewrite (process_order_accepts _ _ _ _ Hr Hv). intros E.
  apply after_store_market_data in E.
  2:{ unfold stored. simpl. apply with_book_mem. }
  assert (Hmd : market_data (stored r o now s) = market_data s).
  { unfold stored. simpl.
    by destruct (with_book_other (Order.symbol o) now s) as (_ & _ & _ & _ & ->). }
  unfold previous_md in E. rewrite Hmd in E. unfold get_market_data, get_orderbook.
  destruct (last ts) as [t|].
  2:{ split; [|done]. intros sym' _. by rewrite E. }
  destruct E as (ob & Hob & -> & old & Hold & Hp). split.
  { intros sym' Hne. by apply refreshed_other. }
  exists ob. eexists. split; [done|]. split; [apply dict_get_set_eq|].
  unfold refreshed. cbn [MarketData.last_price MarketData.bid MarketData.ask
                         MarketData.timestamp MarketData.change_24h].
  split; [done|].
  destruct (dict_get (Order.symbol o) (market_data s)) as [md|] eqn:Emd; simpl in *.
  - do 3 (split; [done|]). rewrite Hold. exists old. split; [done|]. split.
    + intros Hpos. assert (Qpos_bool old = true) as Hb.
      { unfold Qpos_bool. apply negb_true_iff. by apply Qle_bool_false. }
      destruct (Hp Hb) as [p ->]. exists p. by rewrite Hb.
    + intros Hle. assert (Qpos_bool old = false) as Hb.
      { unfold Qpos_bool. apply negb_false_iff. by apply Qle_bool_iff. }
      rewrite Hb. by destruct (Trade.price t).
  - do 3 (split; [done|]). rewrite Hold.
    destruct (Qpos_bool old) eqn:Hb; [|reflexivity].
    assert (Hpos : ~ (old == 0)%Q).
    { unfold Qpos_bool in Hb. apply negb_true_iff, Qle_bool_false in Hb. lra. }
    field. exact Hpos.
Qed.

Lemma X21_market_data_after_a_call_witness :
  let s := run [Submit (new_Order "a" "X/Y" SELL LIMIT 1 (Some 90%Q) 1 "A") 1;
                Submit (new_Order "b" "X/Y" BUY LIMIT 1 (Some 90%Q) 2 "B") 2;
                Submit (new_Order "c" "X/Y" SELL LIMIT 1 (Some 100%Q) 3 "A") 3] init in
  let o := new_Order "e" "X/Y" BUY LIMIT 1 (Some 101%Q) 5 "C" in
  match process_order 3%nat 5 (allocated o s) with
  | (Ok ts, s') =>
      match last ts with
      | Some t => exists md', get_market_data "X/Y" s' = Some md' /\
                              MarketData.last_price md' = Trade.price t
      | None => False
      end
  | (Raise _, _) => False
  end.
Proof.
  intros s o.
  destruct (process_order 3%nat 5 (allocated o s)) as [[ts|e] s'] eqn:E.
  - pose proof (X21_market_data_after_a_call (allocated o s) 3%nat o 5 ts s' eq_refl E) as [_ H].
    destruct (last ts) as [t|] eqn:El.
    + destruct H as (ob & md' & _ & Hmd & Hl & _). exists md'. by split.
    + vm_compute in E. injection E as <- <-. discriminate El.
  - vm_compute in E. discriminate.
Defined.

(** ** Priority among the candidates *)

Lemma Qeq_bool_false a b : Qeq_bool a b = false <-> ~ (a == b)%Q.
Proof.
  split; [apply Qeq_bool_neq|]. intros H. destruct (Qeq_bool a b) eqn:E; [|done].
  by apply Qeq_bool_iff in E.
Qed.

Lemma Qlt_bool_false a b : Qlt_bool a b = false <-> (b <= a)%Q.
Proof. unfold Qlt_bool. rewrite negb_false_iff. apply Qle_bool_iff. Qed.

Ltac key_cases :=
  repeat match goal with
    | H : context [if Qeq_bool ?a ?b then _ else _] |- _ =>
        destruct (Qeq_bool a b) eqn:?
    | |- context [if Qeq_bool ?a ?b then _ else _] => destruct (Qeq_bool a b) eqn:?
    end;
  repeat match goal with
    | H : Qeq_bool _ _ = true |- _ => apply Qeq_bool_iff in H
    | H : Qeq_bool _ _ = false |- _ => apply Qeq_bool_false in H
    | H : Qlt_bool _ _ = true |- _ => apply Qlt_bool_iff in H
    | H : Qlt_bool _ _ = false |- _ => apply Qlt_bool_false in H
    | H : (_ <? _)%Z = true |- _ => apply Z.ltb_lt in H
    | H : (_ <? _)%Z = false |- _ => apply Z.ltb_ge in H
    | H : true = false |- _ => discriminate H
    | H : false = true |- _ => discriminate H
    end.

Lemma buy_key_ltb_false a b :
  buy_key_ltb b a = false <-> ask_priority (snd a) (snd b).
Proof.
  unfold buy_key_ltb, ask_priority.
  destruct (price_or_inf (Order.price (snd a))) as [x|],
           (price_or_inf (Order.price (snd b))) as [y|]; simpl; split.
  - intros H. key_cases; [right; split; [lra | lia] | left; lra].
  - intros [H|[H1 H2]]; key_cases; try lra;
      first [by apply Z.ltb_ge | apply Qlt_bool_false; lra].
  - intros _. by left.
  - done.
  - intros H; discriminate H.
  - intros [[]|[[] _]].
  - intros H. right. split; [done|]. by apply Z.ltb_ge.
  - intros [[]|[_ H]]. by apply Z.ltb_ge.
Qed.

Lemma neg_price_or_0_eq p : (neg_price_or_0 p == - price_or_0 p)%Q.
Proof.
  unfold neg_price_or_0, price_or_0. destruct p as [q|]; [|reflexivity].
  destruct (Qeq_bool q 0) eqn:E; [|reflexivity].
  apply Qeq_bool_iff in E. rewrite E. reflexivity.
Qed.

Lemma sell_key_ltb_false a b :
  sell_key_ltb b a = false <-> bid_priority (snd a) (snd b).
Proof.
  unfold sell_key_ltb, bid_priority.
  pose proof (neg_price_or_0_eq (Order.price (snd a))) as Ea.
  pose proof (neg_price_or_0_eq (Order.price (snd b))) as Eb.
  set (ka := neg_price_or_0 _) in *. set (kb := neg_price_or_0 _) in *.
  set (pa := price_or_0 _) in *. set (pb := price_or_0 _) in *. split.
  - intros H. key_cases; [right; split; [lra | lia] | left; lra].
  - intros [H|[H1 H2]]; key_cases; try lra;
      first [by apply Z.ltb_ge | apply Qlt_bool_false; lra].
Qed.

Lemma ask_priority_total a b : ~ ask_priority a b -> ask_priority b a.
Proof.
  unfold ask_priority.
  destruct (price_or_inf (Order.price a)) as [x|],
           (price_or_inf (Order.price b)) as [y|]; simpl; intros H.
  - destruct (Qlt_le_dec y x) as [Hlt|Hle]; [by left|].
    destruct (Qlt_le_dec x y) as [Hlt'|Hle']; [exfalso; apply H; by left|].
    right. split; [lra|].
    destruct (Z_le_gt_dec (Order.created_at b) (Order.created_at a)); [done|].
    exfalso. apply H. right. split; [lra | lia].
  - exfalso. apply H. by left.
  - by left.
  - right. split; [done|].
    destruct (Z_le_gt_dec (Order.created_at b) (Order.created_at a)); [done|].
    exfalso. apply H. right. split; [done | lia].
Qed.

Lemma ask_priority_trans a b c : ask_priority a b -> ask_priority b c -> ask_priority a c.
Proof.
  unfold ask_priority.
  destruct (price_or_inf (Order.price a)) as [x|],
           (price_or_inf (Order.price b)) as [y|],
           (price_or_inf (Order.price c)) as [z|]; simpl;
    intros [H1|[H1 T1]] [H2|[H2 T2]]; try done; try (by left);
    first [left; lra | right; split; [lra | lia] | right; split; [done | lia]].
Qed.

Lemma bid_priority_total a b : ~ bid_priority a b -> bid_priority b a.
Proof.
  unfold bid_priority. intros H.
  destruct (Qlt_le_dec (price_or_0 (Order.price a)) (price_or_0 (Order.price b)))
    as [Hlt|Hle]; [by left|].
  destruct (Qlt_le_dec (price_or_0 (Order.price b)) (price_or_0 (Order.price a)))
    as [Hlt'|Hle']; [exfalso; apply H; by left|].
  right. split; [lra|].
  destruct (Z_le_gt_dec (Order.created_at b) (Order.created_at a)); [done|].
  exfalso. apply H. right. split; [lra | lia].
Qed.

Lemma bid_priority_trans a b c : bid_priority a b -> bid_priority b c -> bid_priority a c.
Proof.
  unfold bid_priority.
  intros [H1|[H1 T1]] [H2|[H2 T2]];
    first [left; lra | right; split; [lra | lia]].
Qed.

Lemma buy_key_ltb_asym a b : buy_key_ltb a b = true -> buy_key_ltb b a = false.
Proof.
  intros H. apply buy_key_ltb_false. apply ask_priority_total.
  intros Hn. apply buy_key_ltb_false in Hn. congruence.
Qed.

Lemma sell_key_ltb_asym a b : sell_key_ltb a b = true -> sell_key_ltb b a = false.
Proof.
  intros H. apply sell_key_ltb_false. apply bid_priority_total.
  intros Hn. apply sell_key_ltb_false in Hn. congruence.
Qed.

Lemma buy_key_sorted l :
  StronglySorted (fun a b => ask_priority (snd a) (snd b)) (sorted buy_key_ltb l).
Proof.
  eapply StronglySorted_impl; [|apply (sorted_sorted buy_key_ltb)].
  - intros a b H. by apply buy_key_ltb_false.
  - apply buy_key_ltb_asym.
  - intros a b c H1 H2. apply buy_key_ltb_false.
    eapply ask_priority_trans; by apply buy_key_ltb_false.
Qed.

Lemma sell_key_sorted l :
  StronglySorted (fun a b => bid_priority (snd a) (snd b)) (sorted sell_key_ltb l).
Proof.
  eapply StronglySorted_impl; [|apply (sorted_sorted sell_key_ltb)].
  - intros a b H. by apply sell_key_ltb_false.
  - apply sell_key_ltb_asym.
  - intros a b c H1 H2. apply sell_key_ltb_false.
    eapply bid_priority_trans; by apply sell_key_ltb_false.
Qed.

Lemma objects_of_pairs h (os : list (ref * Order.t)) :
  Forall (fun ro => h !! fst ro = Some (snd ro)) os -> objects_of h (map fst os) = os.
Proof.
  induction 1 as [|[r o] os Hr _ IH]; [done|].
  unfold objects_of in *. simpl in *. rewrite Hr. f_equal. exact IH.
Qed.

Lemma candidates_sorted (ltb : ref * Order.t -> ref * Order.t -> bool)
    (priority : Order.t -> Order.t -> Prop) h (os : list (ref * Order.t)) :
  (forall l, StronglySorted (fun a b => priority (snd a) (snd b)) (sorted ltb l)) ->
  Forall (fun ro => h !! fst ro = Some (snd ro)) os ->
  Permutation (map fst (sorted ltb (List.filter is_pending os)))
              (map fst (List.filter is_pending os)) /\
  StronglySorted (goes_before priority h)
                 (map fst (sorted ltb (List.filter is_pending os))).
Proof.
  intros Hsorted Hos. split; [apply Permutation_map, sorted_perm|].
  eapply StronglySorted_map_fst with
    (P := fun ro => h !! fst ro = Some (snd ro)); [| |apply Hsorted].
  - intros a b Ha Hb Hp. by exists (snd a), (snd b).
  - rewrite Forall_forall in *. intros x Hx. apply Hos.
    apply list_elem_of_In in Hx. apply list_elem_of_In.
    apply (Permutation_in _ (sorted_perm ltb _)) in Hx.
    by apply filter_In in Hx as [Hx _].
Qed.

Lemma symbol_orders_resting side sym s so s' os :
  symbol_orders sym s = (Ok so, s') ->
  deref_all (side_list side so) s' = (Ok os, s') ->
  heap s' = heap s /\ resting side sym s = os /\
  Forall (fun ro => heap s !! fst ro = Some (snd ro)) os.
Proof.
  intros Hso Hos. destruct (deref_all_Ok _ _ _ _ Hos) as (_ & Hm & Hf).
  apply symbol_orders_inv in Hso as [Hget [->|(Hnone & -> & ->)]].
  - split; [done|]. split; [|done]. unfold resting. rewrite Hget.
    unfold side_list in Hm. destruct side; rewrite <- Hm; by apply objects_of_pairs.
  - simpl in *. split; [done|]. split; [|done]. unfold resting. rewrite Hnone.
    destruct side, os; simpl in Hm; congruence.
Qed.

Lemma buy_candidates_sorted sym s cs s' :
  buy_candidates sym s = (Ok cs, s') ->
  heap s' = heap s /\
  Permutation cs (pending_refs BUY sym s) /\
  StronglySorted (goes_before ask_priority (heap s)) cs.
Proof.
  intros H. apply buy_candidates_inv in H as (so & os & Hso & Hos & ->).
  destruct (symbol_orders_resting SELL _ _ _ _ _ Hso Hos) as (Hh & Hre & Hf).
  split; [done|]. unfold pending_refs. rewrite Hre.
  by apply candidates_sorted; [apply buy_key_sorted|].
Qed.

Lemma sell_candidates_sorted sym s cs s' :
  sell_candidates sym s = (Ok cs, s') ->
  heap s' = heap s /\
  Permutation cs (pending_refs SELL sym s) /\
  StronglySorted (goes_before bid_priority (heap s)) cs.
Proof.
  intros H. apply sell_candidates_inv in H as (so & os & Hso & Hos & ->).
  destruct (symbol_orders_resting BUY _ _ _ _ _ Hso Hos) as (Hh & Hre & Hf).
  split; [done|]. unfold pending_refs. rewrite Hre.
  by apply candidates_sorted; [apply sell_key_sorted|].
Qed.

Lemma trade_between_back h h' rb rs t :
  heap_evolves h h' -> trade_between h' rb rs t -> trade_between h rb rs t.
Proof.
  intros Hh (b' & sl' & Hb' & Hs' & Hm).
  destruct (heap_evolves_inv _ _ _ _ Hh Hb') as (b & Hb & [Sb _ _]).
  destruct (heap_evolves_inv _ _ _ _ Hh Hs') as (sl & Hs & [Ss _ _]).
  exists b, sl. split; [done|]. split; [done|].
  eapply made_from_static; [symmetry; exact Sb | symmetry; exact Ss | exact Hm].
Qed.

Lemma match_buy_loop_order r cs now s ts s' :
  ~ In r cs -> match_buy_loop r cs now s = (Ok ts, s') ->
  exists used, sublist used cs /\
               Forall2 (fun t c => trade_between (heap s) r c t) ts used.
Proof.
  revert s ts. induction cs as [|c cs IH]; intros s ts Hnin; cbn [match_buy_loop].
  { intros [= <- <-]. exists []. split; constructor. }
  assert (Hne : r <> c) by (intros ->; apply Hnin; by left).
  assert (Hnin' : ~ In r cs) by (intros H; apply Hnin; by right).
  rewrite bind_eq. destruct (deref r s) as [[b|e] s1] eqn:E; [|discriminate].
  apply deref_inv in E as [-> Hb].
  destruct (Qle_bool _ 0).
  { intros [= <- <-]. exists []. split; [apply sublist_nil_l | constructor]. }
  rewrite bind_eq. destruct (deref c s) as [[sl|e] s1] eqn:E; [|discriminate].
  apply deref_inv in E as [-> Hs].
  destruct (_price_matches b sl) eqn:Hm; cbn [negb].
  2:{ intros H. destruct (IH _ _ Hnin' H) as (used & Hsub & Hf).
      exists used. split; [by apply sublist_cons_r; left | done]. }
  rewrite bind_eq.
  pose proof (execute_trade_step r c now s Hne) as St.
  destruct (_execute_trade r c now s) as [[[t|]|e] s1] eqn:E; [| |discriminate].
  - rewrite bind_eq. cbn [modify]. rewrite bind_eq.
    destruct (match_buy_loop r cs now _) as [[ts'|e] s2] eqn:E'; [|discriminate].
    intros [= <- <-]. destruct (IH _ _ Hnin' E') as (used & Hsub & Hf).
    exists (c :: used). split; [by apply sublist_skip|]. constructor.
    + destruct (execute_trade_result _ _ _ _ _ _ _ _ Hb Hs E) as [-> _].
      exists b, sl. auto using trade_of_made_from.
    + eapply Forall2_impl; [exact Hf|]. intros t' c'. cbn [heap set_trades].
      apply trade_between_back, St.
  - intros H. destruct (IH _ _ Hnin' H) as (used & Hsub & Hf).
    exists used. split; [by apply sublist_cons_r; left|].
    eapply Forall2_impl; [exact Hf|]. intros t' c'. apply trade_between_back, St.
Qed.

Lemma match_sell_loop_order r cs now s ts s' :
  ~ In r cs -> match_sell_loop r cs now s = (Ok ts, s') ->
  exists used, sublist used cs /\
               Forall2 (fun t c => trade_between (heap s) c r t) ts used.
Proof.
  revert s ts. induction cs as [|c cs IH]; intros s ts Hnin; cbn [match_sell_loop].
  { intros [= <- <-]. exists []. split; constructor. }
  assert (Hne : c <> r) by (intros ->; apply Hnin; by left).
  assert (Hnin' : ~ In r cs) by (intros H; apply Hnin; by right).
  rewrite bind_eq. destruct (deref r s) as [[sl|e] s1] eqn:E; [|discriminate].
  apply deref_inv in E as [-> Hs].
  destruct (Qle_bool _ 0).
  { intros [= <- <-]. exists []. split; [apply sublist_nil_l | constructor]. }
  rewrite bind_eq. destruct (deref c s) as [[b|e] s1] eqn:E; [|discriminate].
  apply deref_inv in E as [-> Hb].
  destruct (_price_matches b sl) eqn:Hm; cbn [negb].
  2:{ intros H. destruct (IH _ _ Hnin' H) as (used & Hsub & Hf).
      exists used. split; [by apply sublist_cons_r; left | done]. }
  rewrite bind_eq.
  pose proof (execute_trade_step c r now s Hne) as St.
  destruct (_execute_trade c r now s) as [[[t|]|e] s1] eqn:E; [| |discriminate].
  - rewrite bind_eq. cbn [modify]. rewrite bind_eq.
    destruct (match_sell_loop r cs now _) as [[ts'|e] s2] eqn:E'; [|discriminate].
    intros [= <- <-]. destruct (IH _ _ Hnin' E') as (used & Hsub & Hf).
    exists (c :: used). split; [by apply sublist_skip|]. constructor.
    + destruct (execute_trade_result _ _ _ _ _ _ _ _ Hb Hs E) as [-> _].
      exists b, sl. auto using trade_of_made_from.
    + eapply Forall2_impl; [exact Hf|]. intros t' c'. cbn [heap set_trades].
      apply trade_between_back, St.
  - intros H. destruct (IH _ _ Hnin' H) as (used & Hsub & Hf).
    exists used. split; [by apply sublist_cons_r; left|].
    eapply Forall2_impl; [exact Hf|]. intros t' c'. apply trade_between_back, St.
Qed.

Lemma match_buy_loop_stops r cs now s b :
  heap s !! r = Some b -> (Order.remaining b <= 0)%Q ->
  match_buy_loop r cs now s = (Ok [], s).
Proof.
  intros Hb Hrem. destruct cs as [|c cs]; [done|]. cbn [match_buy_loop].
  rewrite bind_eq, (deref_Some _ _ _ Hb).
  apply Qle_bool_iff in Hrem. unfold Order.remaining in Hrem. by rewrite Hrem.
Qed.

Lemma match_sell_loop_stops r cs now s sl :
  heap s !! r = Some sl -> (Order.remaining sl <= 0)%Q ->
  match_sell_loop r cs now s = (Ok [], s).
Proof.
  intros Hs Hrem. destruct cs as [|c cs]; [done|]. cbn [match_sell_loop].
  rewrite bind_eq, (deref_Some _ _ _ Hs).
  apply Qle_bool_iff in Hrem. unfold Order.remaining in Hrem. by rewrite Hrem.
Qed.

Lemma pending_refs_resting incoming sym s c :
  In c (pending_refs incoming sym s) ->
  exists so, dict_get sym (orders_by_symbol s) = Some so /\
             In c (side_list (match incoming with BUY => SELL | SELL => BUY end) so).
Proof.
  unfold pending_refs, resting. intros H. apply in_map_iff in H as ([c' o] & <- & H).
  apply filter_In in H as [H _].
  destruct (dict_get sym (orders_by_symbol s)) as [so|]; [|done].
  exists so. split; [done|]. apply objects_of_In in H as [H _].
  by destruct incoming.
Qed.

Lemma match_buy_order_priority s r b now ts s' :
  heap s !! r = Some b -> not_resting r s ->
  _match_buy_order r now s = (Ok ts, s') ->
  exists cs used,
    Permutation cs (pending_refs BUY (Order.symbol b) s) /\
    StronglySorted (goes_before ask_priority (heap s)) cs /\
    sublist used cs /\
    Forall2 (fun t c => trade_between (heap s) r c t) ts used.
Proof.
  intros Hb Hn. unfold _match_buy_order. rewrite bind_eq, (deref_Some _ _ _ Hb).
  rewrite bind_eq.
  destruct (buy_candidates (Order.symbol b) s) as [[cs|e] s1] eqn:E; [|discriminate].
  destruct (buy_candidates_sorted _ _ _ _ E) as (Hh & Hperm & Hsort).
  intros Hloop. apply match_buy_loop_order in Hloop as (used & Hsub & Hf).
  - exists cs, used. rewrite Hh in Hf. auto.
  - intros Hin. apply (Permutation_in _ Hperm) in Hin.
    apply pending_refs_resting in Hin as (so & Hso & Hin).
    destruct (Hn _ _ Hso) as [H1 H2]. simpl in Hin. tauto.
Qed.

Lemma match_sell_order_priority s r sl now ts s' :
  heap s !! r = Some sl -> not_resting r s ->
  _match_sell_order r now s = (Ok ts, s') ->
  exists cs used,
    Permutation cs (pending_refs SELL (Order.symbol sl) s) /\
    StronglySorted (goes_before bid_priority (heap s)) cs /\
    sublist used cs /\
    Forall2 (fun t c => trade_between (heap s) c r t) ts used.
Proof.
  intros Hs Hn. unfold _match_sell_order. rewrite bind_eq, (deref_Some _ _ _ Hs).
  rewrite bind_eq.
  destruct (sell_candidates (Order.symbol sl) s) as [[cs|e] s1] eqn:E; [|discriminate].
  destruct (sell_candidates_sorted _ _ _ _ E) as (Hh & Hperm & Hsort).
  intros Hloop. apply match_sell_loop_order in Hloop as (used & Hsub & Hf).
  - exists cs, used. rewrite Hh in Hf. auto.
  - intros Hin. apply (Permutation_in _ Hperm) in Hin.
    apply pending_refs_resting in Hin as (so & Hso & Hin).
    destruct (Hn _ _ Hso) as [H1 H2]. simpl in Hin. tauto.
Qed.

(** ** Limit protection *)

Lemma trade_price_within_limits b sl :
  _price_matches b sl = true ->
  (Order.order_type b <> MARKET -> forall pb, Order.price b = Some pb ->
   exists pt, trade_price_of b sl = Some pt /\ (pt <= pb)%Q) /\
  (Order.order_type sl <> MARKET -> forall ps, Order.price sl = Some ps ->
   exists pt, trade_price_of b sl = Some pt /\ (ps <= pt)%Q).
Proof.
  unfold _price_matches, trade_price_of. intros Hm.
  destruct (OrderType_eqb (Order.order_type b) MARKET) eqn:Eb.
  { apply OrderType_eqb_eq in Eb. split; [congruence|].
    intros _ ps Hps. exists ps. split; [done | apply Qle_refl]. }
  destruct (OrderType_eqb (Order.order_type sl) MARKET) eqn:Es.
  { apply OrderType_eqb_eq in Es. split; [|congruence].
    intros _ pb Hpb. exists pb. split; [done | apply Qle_refl]. }
  simpl in Hm.
  destruct (truthy (Order.price b) && truthy (Order.price sl)); [|done].
  destruct (Order.price b) as [pb|], (Order.price sl) as [ps|]; try done.
  apply Qle_bool_iff in Hm.
  split; intros _ p [= <-];
    destruct (Order.created_at b <? Order.created_at sl)%Z;
    eexists; (split; [reflexivity|]); first [apply Qle_refl | done].
Qed.

(** X1: no order trades at a price worse than the price it carries: in every
    state the engine reaches, every trade of the history was made from a buy
    order and a sell order such that, if the buy order is not a market order
    and carries a price, the trade price is at most that price, and if the
    sell order is not a market order and carries a price, the trade price is
    at least that price. *)
Theorem X1_limit_protection ops t :
  In t (trades (run ops init)) ->
  exists rb rs b sl,
    heap (run ops init) !! rb = Some b /\ heap (run ops init) !! rs = Some sl /\
    Trade.buy_order_id t = Order.id b /\ Trade.sell_order_id t = Order.id sl /\
    (Order.order_type b <> MARKET -> forall pb, Order.price b = Some pb ->
     exists pt, Trade.price t = Some pt /\ (pt <= pb)%Q) /\
    (Order.order_type sl <> MARKET -> forall ps, Order.price sl = Some ps ->
     exists pt, Trade.price t = Some pt /\ (ps <= pt)%Q).
Proof.
  intros Hin. pose proof (wf_run ops init wf_init) as (_ & _ & T).
  unfold trades_ok in T. rewrite Forall_forall in T.
  destruct (T t) as (rb & rs & b & sl & Hb & Hs & [H1 H2 H3 H4 H5 H6 H7]).
  { by apply list_elem_of_In. }
  exists rb, rs, b, sl. do 4 (split; [done|]). rewrite H6.
  by apply trade_price_within_limits.
Qed.

Lemma X1_limit_protection_witness :
  let ops := [Submit (new_Order "a" "X/Y" SELL LIMIT 1 (Some 100%Q) 1 "A") 1;
              Submit (new_Order "b" "X/Y" BUY LIMIT (8 # 10) (Some 105%Q) 2 "B") 2] in
  let t := Trade.mk "X/Y" "b" "a" "B" "A" (8 # 10) (Some 100%Q) 2 in
  In t (trades (run ops init)) /\
  exists rb rs b sl,
    heap (run ops init) !! rb = Some b /\ heap (run ops init) !! rs = Some sl /\
    Trade.buy_order_id t = Order.id b /\ Trade.sell_order_id t = Order.id sl.
Proof.
  intros ops t.
  assert (Hin : In t (trades (run ops init))) by (vm_compute; by left).
  split; [exact Hin|].
  destruct (X1_limit_protection ops t Hin) as (rb & rs & b & sl & Hb & Hs & H1 & H2 & _).
  exists rb, rs, b, sl. auto.
Defined.

(** ** The trade history *)

Section FrameMarketData.
Context {X : Type} (proj : State -> X).
Hypothesis proj_md : forall d s, proj (set_market_data d s) = proj s.

Lemma keeps_update_md sym f : keeps proj (update_md sym f).
Proof using proj_md.
  intros s. unfold update_md. destruct (dict_get sym (market_data s)); [apply proj_md | done].
Qed.

Lemma keeps_update_market_data sym t now : keeps proj (_update_market_data sym t now).
Proof using proj_md.
  unfold _update_market_data. apply keeps_bind.
  { apply keeps_modify. intros s. destruct (dict_mem sym (market_data s)); [done | apply proj_md]. }
  intros _. apply keeps_bind; [apply keeps_get|]. intros st.
  destruct (dict_get sym (market_data st)) as [md|]; [|apply keeps_raise].
  apply keeps_bind; [apply keeps_update_md|]. intros _.
  apply keeps_bind; [apply keeps_order_book|]. intros ob.
  apply keeps_bind.
  { destruct (OrderBook.bids ob); [apply keeps_ret | apply keeps_update_md]. }
  intros _. apply keeps_bind.
  { destruct (OrderBook.asks ob); [apply keeps_ret | apply keeps_update_md]. }
  intros _. apply keeps_bind; [|intros; apply keeps_update_md].
  destruct (MarketData.last_price md) as [old|]; [|apply keeps_raise].
  destruct (Qpos_bool old); [|apply keeps_ret].
  destruct (Trade.price t); [apply keeps_update_md | apply keeps_raise].
Qed.
End FrameMarketData.

Lemma appends_nothing (m : M (list Trade.t)) s :
  trades (snd (m s)) = trades s -> (forall ts, fst (m s) = Ok ts -> ts = []) ->
  exists ts, trades (snd (m s)) = trades s ++ ts /\ positive_quantities ts /\
             (forall ts', fst (m s) = Ok ts' -> ts' = ts).
Proof.
  intros H1 H2. exists []. rewrite app_nil_r. repeat split; [done | constructor | done].
Qed.

Lemma appends_bind {A} (m : M A) (k : A -> M (list Trade.t)) :
  keeps trades m -> (forall a, appends_result (k a)) -> appends_result (bind m k).
Proof.
  intros Hm Hk s. rewrite bind_eq. specialize (Hm s).
  destruct (m s) as [[a|e] s1]; simpl in *.
  - rewrite <- Hm. apply Hk.
  - exists []. rewrite app_nil_r. repeat split; [done | constructor | done].
Qed.

Lemma appends_ret_nil : appends_result (ret []).
Proof.
  intros s. exists []. simpl. rewrite app_nil_r.
  repeat split; [constructor | by intros ts' [= <-]].
Qed.

Lemma trade_of_positive b sl now :
  Qle_bool (py_min (Order.remaining b) (Order.remaining sl)) 0 = false ->
  (0 < Trade.quantity (trade_of b sl now))%Q.
Proof. intros H. by apply Qle_bool_false in H. Qed.

Lemma appends_traded (execute : M (option Trade.t)) (rest : M (list Trade.t)) :
  keeps trades execute ->
  (forall s t, fst (execute s) = Ok (Some t) -> (0 < Trade.quantity t)%Q) ->
  appends_result rest ->
  appends_result
    (let* trade := execute in
     match trade with
     | Some t =>
         exec modify (fun st => set_trades (trades st ++ [t]) st) in
         let* ts := rest in
         ret (t :: ts)
     | None => rest
     end).
Proof.
  intros Hk Hq Hrest s. rewrite bind_eq. specialize (Hk s). specialize (Hq s).
  destruct (execute s) as [[[t|]|e] s1]; simpl in *.
  - rewrite bind_eq. cbn [modify]. rewrite bind_eq.
    destruct (Hrest (set_trades (trades s1 ++ [t]) s1)) as (ts & Ht & Hp & Hr).
    destruct (rest (set_trades (trades s1 ++ [t]) s1)) as [[ts'|e] s2]; cbn in *.
    + exists (t :: ts). rewrite Ht, Hk, <- app_assoc. split; [done|].
      split; [constructor; [by apply Hq | done]|].
      intros ? [= <-]. by rewrite (Hr ts').
    + exists (t :: ts). rewrite Ht, Hk, <- app_assoc. split; [done|].
      split; [constructor; [by apply Hq | done] | done].
  - rewrite <- Hk. apply Hrest.
  - exists []. rewrite app_nil_r. repeat split; [done | constructor | done].
Qed.

Lemma execute_trade_positive rb rs now s t :
  fst (_execute_trade rb rs now s) = Ok (Some t) -> (0 < Trade.quantity t)%Q.
Proof.
  intros H. destruct (_execute_trade rb rs now s) as [res s'] eqn:E. simpl in H. subst res.
  destruct (heap s !! rb) as [b|] eqn:Hb.
  2: { unfold _execute_trade in E. rewrite bind_eq, (deref_None _ _ Hb) in E. discriminate. }
  destruct (heap s !! rs) as [sl|] eqn:Hs.
  2: { unfold _execute_trade in E.
       rewrite bind_eq, (deref_Some _ _ _ Hb), bind_eq, (deref_None _ _ Hs) in E.
       discriminate. }
  destruct (execute_trade_result _ _ _ _ _ _ _ _ Hb Hs E) as [-> Hq].
  by apply trade_of_positive.
Qed.

Lemma match_buy_loop_appends r cs now : appends_result (match_buy_loop r cs now).
Proof.
  induction cs as [|c cs IH]; cbn [match_buy_loop]; [apply appends_ret_nil|].
  apply appends_bind; [apply keeps_deref|]. intros b.
  destruct (Qle_bool _ 0); [apply appends_ret_nil|].
  apply appends_bind; [apply keeps_deref|]. intros sl.
  destruct (negb _); [done|].
  apply appends_traded; [by apply keeps_execute_trade | apply execute_trade_positive | done].
Qed.

Lemma match_sell_loop_appends r cs now : appends_result (match_sell_loop r cs now).
Proof.
  induction cs as [|c cs IH]; cbn [match_sell_loop]; [apply appends_ret_nil|].
  apply appends_bind; [apply keeps_deref|]. intros b.
  destruct (Qle_bool _ 0); [apply appends_ret_nil|].
  apply appends_bind; [apply keeps_deref|]. intros sl.
  destruct (negb _); [done|].
  apply appends_traded; [by apply keeps_execute_trade | apply execute_trade_positive | done].
Qed.

Lemma match_order_appends r now : appends_result (_match_order r now).
Proof.
  unfold _match_order. apply appends_bind; [apply keeps_deref|]. intros o.
  apply appends_bind; [apply keeps_order_book|]. intros ob.
  destruct (OrderSide_eqb _ BUY).
  - unfold _match_buy_order. apply appends_bind; [apply keeps_deref|]. intros b.
    apply appends_bind; [by apply keeps_buy_candidates|]. intros cs.
    apply match_buy_loop_appends.
  - unfold _match_sell_order. apply appends_bind; [apply keeps_deref|]. intros b.
    apply appends_bind; [by apply keeps_sell_candidates|]. intros cs.
    apply match_sell_loop_appends.
Qed.

Lemma appends_then {A} (m : M (list Trade.t)) (k : list Trade.t -> M A) :
  appends_result m -> (forall ts, keeps trades (k ts)) ->
  appends_result (let* ts := m in exec k ts in ret ts).
Proof.
  intros Hm Hk s. rewrite bind_eq. destruct (Hm s) as (ts & Ht & Hp & Hr).
  destruct (m s) as [[ts'|e] s1]; simpl in *.
  - rewrite bind_eq. specialize (Hk ts' s1).
    exists ts. destruct (k ts' s1) as [[a|e] s2]; simpl in *.
    + rewrite Hk. split; [done|]. split; [done|]. intros ? [= <-]. by apply Hr.
    + rewrite Hk. by repeat split.
  - exists ts. by repeat split.
Qed.

Lemma process_order_appends r now : appends_result (process_order r now).
Proof.
  unfold process_order. apply appends_bind; [apply keeps_deref|]. intros o.
  destruct (negb (_validate_order o)).
  { apply appends_bind; [by apply keeps_update|]. intros _. apply appends_ret_nil. }
  apply appends_bind.
  { apply keeps_modify. intros s. by destruct (dict_mem _ _). }
  intros _. apply appends_bind; [by apply keeps_modify|]. intros _.
  intros s.
  pose proof (appends_then (_match_order r now)
    (fun trades =>
       let* o' := deref r in
       exec (if negb (OrderStatus_eqb (Order.status o') FILLED)
             then _add_to_orderbook r now else ret tt) in
       match last trades with
       | Some t => _update_market_data (Order.symbol o) t now
       | None => ret tt
       end) (match_order_appends r now)) as H.
  assert (Hk : forall ts, keeps trades
    (let* o' := deref r in
     exec (if negb (OrderStatus_eqb (Order.status o') FILLED)
           then _add_to_orderbook r now else ret tt) in
     match last ts with
     | Some t => _update_market_data (Order.symbol o) t now
     | None => ret tt
     end)).
  { intros ts. apply keeps_bind; [apply keeps_deref|]. intros o'.
    apply keeps_bind.
    { destruct (negb _); [by apply keeps_add_to_orderbook | apply keeps_ret]. }
    intros _. destruct (last ts); [by apply keeps_update_market_data | apply keeps_ret]. }
  specialize (H Hk s). clear Hk.
  match goal with
  | H : exists ts, trades (snd (?m1 s)) = _ /\ _ |- exists ts, trades (snd (?m2 s)) = _ /\ _ =>
      replace (m2 s) with (m1 s); [exact H|]
  end.
  rewrite !bind_eq. destruct (_match_order r now s) as [[ts|e] s1]; [|done].
  rewrite !bind_eq. destruct (deref r s1) as [[o'|e] s2]; [|done].
  rewrite !bind_eq.
  destruct ((if negb (OrderStatus_eqb (Order.status o') FILLED)
             then _add_to_orderbook r now else ret tt) s2) as [[[]|e] s3]; [|done].
  rewrite !bind_eq.
  by destruct ((match last ts with
             | Some t => _update_market_data (Order.symbol o) t now
             | None => ret tt
             end) s3) as [[[]|e] s4].
Qed.

Lemma submit_appends o now : appends_result (submit o now).
Proof.
  intros s. rewrite submit_eq.
  apply (process_order_appends (length (heap s)) now (set_heap (heap s ++ [o]) s)).
Qed.

Lemma step_trades op s :
  exists ts, trades (step op s) = trades s ++ ts /\ positive_quantities ts.
Proof.
  destruct op as [o now|id u now]; simpl.
  - destruct (submit_appends o now s) as (ts & H1 & H2 & _). by exists ts.
  - exists []. rewrite app_nil_r. split; [|constructor].
    by apply (keeps_cancel_order trades).
Qed.

Lemma run_trades ops s :
  exists ts, trades (run ops s) = trades s ++ ts /\ positive_quantities ts.
Proof.
  induction ops as [|op ops IH] using rev_ind.
  - exists []. simpl. rewrite app_nil_r. split; [done | constructor].
  - rewrite run_snoc. destruct IH as (ts & H1 & H2).
    destruct (step_trades op (run ops s)) as (ts' & H3 & H4).
    exists (ts ++ ts'). rewrite H3, H1, <- app_assoc. split; [done|].
    by apply Forall_app.
Qed.

(** X2: the trade history is append-only, and [process_order] returns exactly
    what it appended: whatever state the engine is in, a call of
    [process_order] leaves the history it found followed by a list of trades
    with positive quantities, and if the call returns, that list is the
    returned one; [cancel_order] leaves the history as it was; so the history
    before any sequence of calls is a prefix of the history after it. *)
Theorem X2_trade_history_append_only :
  (forall r now s, exists ts,
     trades (snd (process_order r now s)) = trades s ++ ts /\
     Forall (fun t => (0 < Trade.quantity t)%Q) ts /\
     (forall ts', fst (process_order r now s) = Ok ts' -> ts' = ts)) /\
  (forall order_id user_id now s,
     trades (snd (cancel_order order_id user_id now s)) = trades s) /\
  (forall ops s, exists ts, trades (run ops s) = trades s ++ ts).
Proof.
  split; [|split].
  - intros r now s. apply process_order_appends.
  - intros. by apply (keeps_cancel_order trades).
  - intros ops s. destruct (run_trades ops s) as (ts & H & _). by exists ts.
Qed.

(** ** Fills of an order *)

(** X3: a fill with a price.  A call of [_update_order_after_trade] with a
    positive quantity [q] and a price [p], on an order filled so far to a
    non-negative quantity, returns.  It sets the filled quantity to
    [filled + q], the status to [Filled] when that is at least the quantity
    and to [Partial] when it is not, and [updated_at] to the current time;
    the first fill sets the average price to [p], a later one to
    [((filled + q - q) * average + q * p) / (filled + q)]; it assigns no
    other attribute and no other object. *)
Theorem X3_fill_with_a_price r q p now s o :
  heap s !! r = Some o -> (0 < q)%Q -> (0 <= Order.filled_quantity o)%Q ->
  exists o',
    _update_order_after_trade r q (Some p) now s =
      (Ok tt, set_heap (<[r := o']> (heap s)) s) /\
    static o' = static o /\
    Order.stop_price o' = Order.stop_price o /\
    Order.client_order_id o' = Order.client_order_id o /\
    Order.filled_quantity o' = (Order.filled_quantity o + q)%Q /\
    Order.status o' =
      (if Qle_bool (Order.quantity o) (Order.filled_quantity o + q)
       then FILLED else PARTIAL) /\
    Order.updated_at o' = now /\
    Order.average_price o' =
      match Order.average_price o with
      | None => Some p
      | Some a =>
          Some (((Order.filled_quantity o + q - q) * a + q * p)
                / (Order.filled_quantity o + q))%Q
      end.
Proof.
  intros Hr Hq Hf. exists (snd (after_trade q (Some p) now o)).
  rewrite (update_order_after_trade_eq _ _ _ _ _ _ Hr).
  assert (Hnz : Qeq_bool (Order.filled_quantity o + q) 0 = false).
  { apply Qeq_bool_false. lra. }
  unfold after_trade, finish.
  cbn [Order.filled_quantity Order.set_filled_quantity].
  destruct (Order.average_price o) as [a|]; rewrite ?Hnz; cbn [fst snd];
    destruct (Qle_bool (Order.quantity o) (Order.filled_quantity o + q)) eqn:E;
    cbn [Order.quantity Order.filled_quantity Order.set_filled_quantity
         Order.set_average_price]; rewrite ?E; repeat split.
Qed.

Lemma X3_fill_with_a_price_witness :
  let o := Order.mk "a" "X/Y" BUY LIMIT 2 (Some 100%Q) None PARTIAL 1 (Some 100%Q) 1 2 "A" "" in
  let s := set_heap [o] init in
  exists o',
    _update_order_after_trade 0%nat (1 # 2) (Some 97%Q) 3 s = (Ok tt, set_heap [o'] s) /\
    Order.status o' = PARTIAL /\ (Order.filled_quantity o' == 3 # 2)%Q.
Proof.
  intros o s.
  destruct (X3_fill_with_a_price 0%nat (1 # 2) 97 3 s o)
    as (o' & H1 & _ & _ & _ & H2 & H3 & _);
    [reflexivity | reflexivity | by compute |].
  exists o'. split; [exact H1|]. split; [exact H3|]. by rewrite H2.
Defined.

(** X4: [_update_order_after_trade] is not all-or-nothing.  The filled
    quantity is assigned first; when the order already carries an average
    price and the trade price is [None], the call raises [TypeError], and
    when the new filled quantity is zero it raises [ZeroDivisionError]: in
    both cases the order keeps the new filled quantity while its status,
    average price and [updated_at] keep their old values. *)
Theorem X4_update_order_after_trade_raises r q p now s o a :
  heap s !! r = Some o -> Order.average_price o = Some a ->
  p = None \/ (Order.filled_quantity o + q == 0)%Q ->
  exists e,
    _update_order_after_trade r q p now s =
      (Raise e,
       set_heap (<[r := Order.set_filled_quantity (Order.filled_quantity o + q)%Q o]>
                   (heap s)) s) /\
    (p = None -> e = TypeError) /\ (p <> None -> e = ZeroDivisionError).
Proof.
  intros Hr Ha Hp. rewrite (update_order_after_trade_eq _ _ _ _ _ _ Hr).
  unfold after_trade. rewrite Ha. destruct p as [pq|].
  - destruct Hp as [|Hz]; [done|].
    cbn [Order.filled_quantity Order.set_filled_quantity].
    apply Qeq_bool_iff in Hz. rewrite Hz. exists ZeroDivisionError. by repeat split.
  - exists TypeError. by repeat split.
Qed.

Lemma X4_update_order_after_trade_raises_witness :
  let o := Order.mk "a" "X/Y" SELL MARKET 2 None None PARTIAL 1 (Some 100%Q) 1 2 "A" "" in
  let s := set_heap [o] init in
  _update_order_after_trade 0%nat 1 None 3 s =
    (Raise TypeError, set_heap [Order.set_filled_quantity (1 + 1)%Q o] s).
Proof.
  intros o s.
  destruct (X4_update_order_after_trade_raises 0%nat 1 None 3 s o 100)
    as (e & H & He & _); [reflexivity | reflexivity | by left |].
  rewrite (He eq_refl) in H. exact H.
Defined.

(** ** The order book snapshot *)

Section StrictSort.
Context {A : Type} (ltb : A -> A -> bool) (differ lt : A -> A -> Prop).
Hypothesis ltb_true : forall x y, differ x y -> ltb y x = true -> lt y x.
Hypothesis ltb_false : forall x y, differ x y -> ltb y x = false -> lt x y.
Hypothesis lt_trans : forall x y z, lt x y -> lt y z -> lt x z.

Lemma insert_sorted_strict x l :
  Forall (differ x) l -> StronglySorted lt l -> StronglySorted lt (insert_sorted ltb x l).
Proof using ltb_true ltb_false lt_trans.
  induction l as [|y l IH]; intros Hd Hs; cbn [insert_sorted].
  { repeat constructor. }
  apply Forall_cons in Hd as [Hxy Hd]. apply StronglySorted_inv in Hs as [Hs Hy].
  destruct (ltb y x) eqn:E.
  - constructor; [by apply IH|]. apply List.Forall_forall. intros z Hz.
    apply (Permutation_in _ (insert_sorted_perm ltb x l)) in Hz as [<-|Hz].
    + by apply ltb_true.
    + rewrite List.Forall_forall in Hy. by apply Hy.
  - constructor; [by constructor|]. constructor; [by apply ltb_false|].
    eapply List.Forall_impl; [|exact Hy]. intros z Hz. eapply lt_trans; [|exact Hz].
    by apply ltb_false.
Qed.

Lemma sorted_strict l : pairwise differ l -> StronglySorted lt (sorted ltb l).
Proof using ltb_true ltb_false lt_trans.
  induction l as [|x l IH]; cbn [sorted pairwise]; [constructor|].
  intros [Hx Hl]. apply insert_sorted_strict; [|by apply IH].
  apply List.Forall_forall. intros z Hz.
  apply (Permutation_in _ (sorted_perm ltb l)) in Hz.
  rewrite List.Forall_forall in Hx. by apply Hx.
Qed.
End StrictSort.

Lemma asks_sorted d :
  pairwise keys_differ d ->
  StronglySorted (fun a b => (fst a < fst b)%Q) (sorted item_ltb d).
Proof.
  apply sorted_strict; unfold keys_differ, item_ltb.
  - intros x y Hd. destruct (Qeq_bool (fst y) (fst x)) eqn:E.
    + apply Qeq_bool_iff in E. exfalso. apply Hd. by symmetry.
    + apply Qlt_bool_iff.
  - intros x y Hd. destruct (Qeq_bool (fst y) (fst x)) eqn:E.
    + apply Qeq_bool_iff in E. exfalso. apply Hd. by symmetry.
    + intros H. apply Qlt_bool_false in H. apply Qeq_bool_false in E. lra.
  - intros x y z. apply Qlt_trans.
Qed.

Lemma bids_sorted d :
  pairwise keys_differ d ->
  StronglySorted (fun a b => (fst b < fst a)%Q) (sorted (fun a b => item_ltb b a) d).
Proof.
  apply sorted_strict; unfold keys_differ, item_ltb.
  - intros x y Hd. destruct (Qeq_bool (fst x) (fst y)) eqn:E.
    + apply Qeq_bool_iff in E. by exfalso.
    + apply Qlt_bool_iff.
  - intros x y Hd. destruct (Qeq_bool (fst x) (fst y)) eqn:E.
    + apply Qeq_bool_iff in E. by exfalso.
    + intros H. apply Qlt_bool_false in H. apply Qeq_bool_false in E. lra.
  - intros x y z H1 H2. eapply Qlt_trans; [exact H2 | exact H1].
Qed.

Lemma StronglySorted_map {A B} (f : A -> B) (R : B -> B -> Prop) l :
  StronglySorted (fun a b => R (f a) (f b)) l -> StronglySorted R (map f l).
Proof.
  induction 1 as [|x l Hs IH Hx]; cbn [map]; constructor; [done|].
  apply List.Forall_forall. intros y Hy. apply in_map_iff in Hy as (z & <- & Hz).
  rewrite List.Forall_forall in Hx. by apply Hx.
Qed.

Lemma levels_add_get p r d p' :
  (level_get p' (levels_add p r d) ==
   level_get p' d + (if Qeq_bool p p' then r else 0))%Q.
Proof.
  induction d as [|[k q] d IH]; cbn [levels_add level_get].
  { destruct (Qeq_bool p p'); lra. }
  destruct (Qeq_bool p k) eqn:Epk; cbn [level_get].
  - apply Qeq_bool_iff in Epk.
    destruct (Qeq_bool k p') eqn:Ek, (Qeq_bool p p') eqn:Ep; try lra.
    + apply Qeq_bool_iff in Ek. apply Qeq_bool_false in Ep. exfalso. apply Ep.
      by rewrite Epk.
    + apply Qeq_bool_iff in Ep. apply Qeq_bool_false in Ek. exfalso. apply Ek.
      by rewrite <- Epk.
  - destruct (Qeq_bool k p') eqn:Ek; [|exact IH].
    destruct (Qeq_bool p p') eqn:Ep; [|lra].
    apply Qeq_bool_iff in Ek, Ep. apply Qeq_bool_false in Epk. exfalso. apply Epk.
    by rewrite Ek.
Qed.

Lemma levels_add_In k q p r d :
  In (k, q) (levels_add p r d) -> (exists q', In (k, q') d) \/ k = p.
Proof.
  induction d as [|[k' q'] d IH]; cbn [levels_add].
  { intros [ [= <- <-] | [] ]. by right. }
  destruct (Qeq_bool p k').
  - intros [ [= <- <-] | H]; left; eexists; [by left | right; exact H].
  - intros [ [= <- <-] | H]; [left; eexists; by left|].
    destruct (IH H) as [ [q'' H'] | -> ]; [left; eexists; right; exact H' | by right].
Qed.

Lemma levels_add_keeps k q p r d :
  In (k, q) d -> exists q', In (k, q') (levels_add p r d).
Proof.
  induction d as [|[k' q'] d IH]; cbn [levels_add]; [done|].
  intros [ [= -> ->] | H].
  - destruct (Qeq_bool p k); eexists; by left.
  - destruct (IH H) as [q'' H']. destruct (Qeq_bool p k'); eexists; right; [exact H | exact H'].
Qed.

Lemma levels_add_has p r d : exists k q, In (k, q) (levels_add p r d) /\ (k == p)%Q.
Proof.
  induction d as [|[k' q'] d IH]; cbn [levels_add].
  { exists p, (0 + r)%Q. split; [by left | reflexivity]. }
  destruct (Qeq_bool p k') eqn:E.
  - apply Qeq_bool_iff in E. exists k', (q' + r)%Q. split; [by left | by symmetry].
  - destruct IH as (k & q & H & Hk). exists k, q. split; [by right | done].
Qed.

Lemma levels_add_differ x p r d :
  ~ (fst x == p)%Q -> Forall (keys_differ x) d -> Forall (keys_differ x) (levels_add p r d).
Proof.
  intros Hx. induction d as [|[k q] d IH]; cbn [levels_add]; intros Hd.
  { by repeat constructor. }
  apply Forall_cons in Hd as [Hk Hd]. destruct (Qeq_bool p k); constructor; auto.
Qed.

Lemma levels_add_pairwise p r d :
  pairwise keys_differ d -> pairwise keys_differ (levels_add p r d).
Proof.
  induction d as [|[k q] d IH]; cbn [levels_add pairwise].
  { intros _. split; constructor. }
  intros [Hk Hd]. destruct (Qeq_bool p k) eqn:E; cbn [pairwise].
  - done.
  - split; [|by apply IH]. apply levels_add_differ; [|done].
    apply Qeq_bool_false in E. cbn [fst]. intros H. apply E. by symmetry.
Qed.

Lemma level_get_In k q d : pairwise keys_differ d -> In (k, q) d -> level_get k d = q.
Proof.
  induction d as [|[k' q'] d IH]; cbn [pairwise level_get]; [done|].
  intros [Hk Hd] [ [= -> ->] | H].
  - by rewrite Qeq_bool_refl.
  - destruct (Qeq_bool k' k) eqn:E; [|by apply IH].
    apply Qeq_bool_iff in E. rewrite List.Forall_forall in Hk.
    destruct (Hk _ H E).
Qed.

(** The items [aggregate] treats: pending, with a price that is not zero. *)
Lemma aggregate_cons r o rest acc :
  aggregate ((r, o) :: rest) acc =
    match Order.price o with
    | Some p =>
        if is_pending (r, o) && truthy (Order.price o)
        then aggregate rest (levels_add p (Order.remaining o) acc)
        else aggregate rest acc
    | None => aggregate rest acc
    end.
Proof.
  cbn [aggregate]. unfold is_pending. cbn [snd].
  destruct (Order.price o); [done|]. by destruct (_ && _).
Qed.

Lemma on_level_cons p r o :
  on_level p (r, o) =
    match Order.price o with
    | Some q => is_pending (r, o) && truthy (Order.price o) && Qeq_bool q p
    | None => false
    end.
Proof.
  unfold on_level. cbn [snd]. destruct (Order.price o); [done|]. apply andb_false_r.
Qed.

Lemma level_quantity_cons p ro os :
  level_quantity p (ro :: os) =
    if on_level p ro then (Order.remaining (snd ro) + level_quantity p os)%Q
    else level_quantity p os.
Proof. unfold level_quantity. cbn [List.filter]. by destruct (on_level p ro). Qed.

Lemma aggregate_get p os acc :
  (level_get p (aggregate os acc) == level_get p acc + level_quantity p os)%Q.
Proof.
  revert acc. induction os as [|[r o] os IH]; intros acc.
  { cbn. lra. }
  rewrite aggregate_cons, level_quantity_cons, on_level_cons. cbn [snd].
  destruct (Order.price o) as [q|]; [|apply IH].
  destruct (is_pending (r, o) && truthy (Some q)); cbn [andb]; [|apply IH].
  rewrite IH, levels_add_get. destruct (Qeq_bool q p); lra.
Qed.

Lemma aggregate_pairwise os acc :
  pairwise keys_differ acc -> pairwise keys_differ (aggregate os acc).
Proof.
  revert acc. induction os as [|[r o] os IH]; intros acc Hacc; [done|].
  rewrite aggregate_cons. destruct (Order.price o) as [q|]; [|by apply IH].
  destruct (_ && _); apply IH; [by apply levels_add_pairwise | done].
Qed.

Lemma aggregate_In k q os acc :
  In (k, q) (aggregate os acc) ->
  (exists q', In (k, q') acc) \/ exists ro, In ro os /\ on_level k ro = true.
Proof.
  revert acc. induction os as [|[r o] os IH]; intros acc; [left; by eexists|].
  rewrite aggregate_cons. intros H.
  assert (Hrest : (exists q', In (k, q') acc) \/ (exists ro, In ro os /\ on_level k ro = true)
                  -> (exists q', In (k, q') acc) \/
                     exists ro, In ro ((r, o) :: os) /\ on_level k ro = true).
  { intros [?|(ro & ? & ?)]; [by left | right; exists ro; split; [by right | done]]. }
  destruct (Order.price o) as [p|] eqn:Ep; [|by apply Hrest, IH].
  destruct (is_pending (r, o) && truthy (Some p)) eqn:E; [|by apply Hrest, IH].
  destruct (IH _ H) as [[q' Hq']|Hro]; [|by apply Hrest; right].
  apply levels_add_In in Hq' as [?| ->]; [by left|].
  right. exists (r, o). split; [by left|]. rewrite on_level_cons, Ep, E.
  by rewrite Qeq_bool_refl.
Qed.

Lemma aggregate_keeps k q os acc :
  In (k, q) acc -> exists q', In (k, q') (aggregate os acc).
Proof.
  revert q acc. induction os as [|[r o] os IH]; intros q acc H; [by eexists|].
  rewrite aggregate_cons. destruct (Order.price o) as [p|]; [|by eapply IH].
  destruct (_ && _); [|by eapply IH].
  destruct (levels_add_keeps _ _ p (Order.remaining o) _ H) as [q' H']. by eapply IH.
Qed.

Lemma aggregate_covers ro p os acc :
  In ro os -> on_level p ro = true ->
  exists k q, In (k, q) (aggregate os acc) /\ (k == p)%Q.
Proof.
  revert acc. induction os as [|[r o] os IH]; intros acc; [done|].
  intros [<-|Hin] Hon; rewrite aggregate_cons.
  - rewrite on_level_cons in Hon. destruct (Order.price o) as [q|]; [|done].
    apply andb_true_iff in Hon as [-> Hq]. apply Qeq_bool_iff in Hq.
    destruct (levels_add_has q (Order.remaining o) acc) as (k & q' & H & Hk).
    destruct (aggregate_keeps _ _ os _ H) as [q'' H'].
    exists k, q''. split; [done|]. by rewrite Hk.
  - destruct (Order.price o) as [q|]; [|by apply IH].
    destruct (_ && _); by apply IH.
Qed.

Lemma aggregate_levels ltb os :
  levels_of_orders (to_levels (sorted ltb (aggregate os []))) os.
Proof.
  split.
  - intros l Hl. apply in_map_iff in Hl as ([k q] & <- & Hl). cbn [fst snd Level.price Level.quantity].
    apply (Permutation_in _ (sorted_perm ltb _)) in Hl.
    split.
    + pose proof (aggregate_get k os []) as Hg.
      rewrite (level_get_In k q) in Hg; [|by apply aggregate_pairwise|done].
      cbn [level_get] in Hg. lra.
    + apply aggregate_In in Hl as [[q' []]|H]. exact H.
  - intros ro p Hin Hon.
    destruct (aggregate_covers ro p os [] Hin Hon) as (k & q & H & Hk).
    exists (Level.mk k q). split; [|done].
    apply in_map_iff. exists (k, q). split; [done|].
    apply (Permutation_in _ (Permutation_sym (sorted_perm ltb _))), H.
Qed.

Lemma resting_frame side sym s s' :
  heap s' = heap s ->
  lists_of sym s' = lists_of sym s ->
  resting side sym s' = resting side sym s.
Proof.
  unfold resting, lists_of. intros -> H.
  destruct (dict_get sym (orders_by_symbol s')) as [so'|],
           (dict_get sym (orders_by_symbol s)) as [so|]; subst; try done.
  - by destruct side.
  - by destruct side.
Qed.

Lemma symbol_orders_lists sym sym' s : lists_of sym' (snd (symbol_orders sym s)) = lists_of sym' s.
Proof.
  unfold symbol_orders, lists_of.
  destruct (dict_get sym (orders_by_symbol s)) as [so|] eqn:E; [done|].
  cbn [snd orders_by_symbol set_orders_by_symbol]. rewrite dict_get_set.
  destruct (String.eqb sym' sym) eqn:E'; [|done].
  apply String.eqb_eq in E' as ->. by rewrite E.
Qed.

Lemma update_orderbook_snapshot_inv sym now s s' :
  _update_orderbook_snapshot sym now s = (Ok tt, s') ->
  exists ob,
    dict_get sym (order_books s) = Some ob /\
    s' = set_order_books
           (dict_set sym (snapshot ob (resting BUY sym s) (resting SELL sym s) now)
                     (order_books s))
           (snd (symbol_orders sym s)).
Proof.
  unfold _update_orderbook_snapshot. rewrite bind_eq.
  destruct (symbol_orders sym s) as [[so|e] s1] eqn:Eso; [|discriminate].
  assert (Hb1 : order_books s1 = order_books s).
  { pose proof (keeps_symbol_orders order_books (fun _ _ => eq_refl) sym s) as H.
    by rewrite Eso in H. }
  rewrite bind_eq. destruct (order_book sym s1) as [[ob|e] s2] eqn:Eob; [|discriminate].
  apply order_book_inv in Eob as [-> Hob].
  rewrite bind_eq. destruct (deref_all (buy_orders so) s1) as [[buys|e] s2] eqn:Eb; [|discriminate].
  pose proof (deref_all_Ok _ _ _ _ Eb) as [-> _].
  rewrite bind_eq. destruct (deref_all (sell_orders so) s1) as [[sells|e] s2] eqn:Es; [|discriminate].
  pose proof (deref_all_Ok _ _ _ _ Es) as [-> _].
  destruct (symbol_orders_resting BUY _ _ _ _ _ Eso Eb) as (_ & <- & _).
  destruct (symbol_orders_resting SELL _ _ _ _ _ Eso Es) as (_ & <- & _).
  cbn [modify]. intros [= <-]. exists ob. rewrite <- Hb1. by split.
Qed.

Lemma snapshot_book_sorted ob buys sells now :
  StronglySorted (fun a b => (Level.price b < Level.price a)%Q)
                 (OrderBook.bids (snapshot ob buys sells now)) /\
  StronglySorted (fun a b => (Level.price a < Level.price b)%Q)
                 (OrderBook.asks (snapshot ob buys sells now)).
Proof.
  unfold snapshot, to_levels. cbn [OrderBook.bids OrderBook.asks]. split.
  - apply StronglySorted_map. cbn [Level.price].
    apply bids_sorted, aggregate_pairwise. exact I.
  - apply StronglySorted_map. cbn [Level.price].
    apply asks_sorted, aggregate_pairwise. exact I.
Qed.

(** X5: the book [_update_orderbook_snapshot] stores.  When the call returns,
    the symbol's book carries the given time; its bids are in strictly
    descending, its asks in strictly ascending price order, so no price
    occurs twice on a side; each level's quantity is the sum of
    [quantity - filled_quantity] over the resting orders of that side whose
    status is [Pending] and whose price is non-zero and equal to the level's
    price, there is at least one such order, and every such order has its
    level; the resting lists, the order objects and the books of the other
    symbols are as before. *)
Theorem X5_snapshot_levels sym now s s' :
  _update_orderbook_snapshot sym now s = (Ok tt, s') ->
  (exists ob,
     get_orderbook sym s' = Some ob /\
     OrderBook.last_updated ob = now /\
     StronglySorted (fun a b => (Level.price b < Level.price a)%Q) (OrderBook.bids ob) /\
     StronglySorted (fun a b => (Level.price a < Level.price b)%Q) (OrderBook.asks ob) /\
     levels_of_orders (OrderBook.bids ob) (resting BUY sym s') /\
     levels_of_orders (OrderBook.asks ob) (resting SELL sym s')) /\
  heap s' = heap s /\
  (forall sym', lists_of sym' s' = lists_of sym' s) /\
  (forall sym', sym' <> sym -> get_orderbook sym' s' = get_orderbook sym' s).
Proof.
  intros H. apply update_orderbook_snapshot_inv in H as (ob & Hob & ->).
  assert (Hh : heap (snd (symbol_orders sym s)) = heap s)
    by apply (keeps_symbol_orders heap (fun _ _ => eq_refl)).
  assert (Hl : forall sym', lists_of sym' (snd (symbol_orders sym s)) = lists_of sym' s)
    by (intros; apply symbol_orders_lists).
  assert (Hr : forall side,
             resting side sym
               (set_order_books
                  (dict_set sym (snapshot ob (resting BUY sym s) (resting SELL sym s) now)
                            (order_books s)) (snd (symbol_orders sym s)))
             = resting side sym s).
  { intros side. apply resting_frame; [exact Hh | apply Hl]. }
  split; [|split; [exact Hh | split; [exact Hl|]]].
  - eexists. unfold get_orderbook. cbn [order_books set_order_books].
    split; [apply dict_get_set_eq|]. split; [done|].
    split; [apply snapshot_book_sorted|]. split; [apply snapshot_book_sorted|].
    rewrite !Hr. split; apply aggregate_levels.
  - intros sym' Hne. unfold get_orderbook. cbn [order_books set_order_books].
    by rewrite dict_get_set_ne.
Qed.

Lemma X5_snapshot_levels_witness :
  let s := run [Submit (new_Order "a" "X/Y" SELL LIMIT 1 (Some 100%Q) 1 "A") 1;
                Submit (new_Order "b" "X/Y" SELL LIMIT 2 (Some 100%Q) 2 "B") 2;
                Submit (new_Order "c" "X/Y" SELL LIMIT 1 (Some 99%Q) 3 "C") 3] init in
  match _update_orderbook_snapshot "X/Y" 4 s with
  | (Ok _, s') =>
      exists ob, get_orderbook "X/Y" s' = Some ob /\
                 levels_of_orders (OrderBook.asks ob) (resting SELL "X/Y" s')
  | (Raise _, _) => False
  end.
Proof.
  intros s. destruct (_update_orderbook_snapshot "X/Y" 4 s) as [[[]|e] s'] eqn:E.
  - destruct (X5_snapshot_levels "X/Y" 4 s s' E) as ((ob & H1 & _ & _ & _ & _ & H2) & _).
    exists ob. by split.
  - vm_compute in E. discriminate.
Defined.

(** X6: refreshing a snapshot twice is refreshing it once.  After a call of
    [_update_orderbook_snapshot] that returned, a second call for the same
    symbol gives the state a single call at the second time gives from the
    original state; at the same time it changes nothing. *)
Theorem X6_snapshot_idempotent sym now now' s s' :
  _update_orderbook_snapshot sym now s = (Ok tt, s') ->
  _update_orderbook_snapshot sym now' s' = _update_orderbook_snapshot sym now' s /\
  _update_orderbook_snapshot sym now s' = (Ok tt, s').
Proof.
  intros H.
  assert (G : forall t, _update_orderbook_snapshot sym t s' = _update_orderbook_snapshot sym t s).
  { intros t. unfold _update_orderbook_snapshot in *. rewrite bind_eq in H. rewrite !bind_eq.
    unfold symbol_orders at 1.
    destruct (symbol_orders sym s) as [[so|e] s1] eqn:Eso; [|discriminate].
    apply symbol_orders_inv in Eso as [Hget Hs1].
    rewrite bind_eq in H. rewrite !bind_eq.
    destruct (order_book sym s1) as [[ob|e] s2] eqn:Eob; [|discriminate].
    apply order_book_inv in Eob as [-> Hob].
    rewrite bind_eq in H |- *.
    destruct (deref_all (buy_orders so) s1) as [[buys|e] s2] eqn:Eb; [|discriminate].
    pose proof (deref_all_Ok _ _ _ _ Eb) as [-> _].
    rewrite bind_eq in H |- *.
    destruct (deref_all (sell_orders so) s1) as [[sells|e] s2] eqn:Es; [|discriminate].
    pose proof (deref_all_Ok _ _ _ _ Es) as [-> _].
    cbn [modify] in H. injection H as <-.
    cbn [orders_by_symbol set_order_books]. rewrite Hget.
    rewrite bind_eq. unfold order_book at 1. cbn [order_books set_order_books].
    rewrite dict_get_set_eq.
    assert (Hd : forall rs os, deref_all rs s1 = (Ok os, s1) ->
              forall d, deref_all rs (set_order_books d s1) = (Ok os, set_order_books d s1)).
    { clear. intros rs. induction rs as [|r rs IH]; intros os; cbn [deref_all].
      { by intros [= <-]. }
      rewrite bind_eq. unfold deref at 1. intros H d. rewrite bind_eq. unfold deref at 1.
      cbn [heap set_order_books]. destruct (heap s1 !! r) as [o|]; [|discriminate].
      rewrite bind_eq in H |- *.
      destruct (deref_all rs s1) as [[os'|e] s2] eqn:E; [|discriminate].
      pose proof (deref_all_Ok _ _ _ _ E) as [-> _].
      rewrite (IH _ eq_refl). exact (f_equal (fun x => (fst x, set_order_books d (snd x))) H). }
    rewrite bind_eq, (Hd _ _ Eb), bind_eq, (Hd _ _ Es). cbn [modify].
    unfold modify. cbn [order_books set_order_books]. by rewrite dict_set_set. }
  split; [apply G|]. by rewrite G.
Qed.

Lemma X6_snapshot_idempotent_witness :
  let s := run [Submit (new_Order "a" "X/Y" SELL LIMIT 1 (Some 100%Q) 1 "A") 1;
                Submit (new_Order "b" "X/Y" BUY LIMIT 2 (Some 99%Q) 2 "B") 2] init in
  match _update_orderbook_snapshot "X/Y" 4 s with
  | (Ok _, s') => _update_orderbook_snapshot "X/Y" 4 s' = (Ok tt, s')
  | (Raise _, _) => False
  end.
Proof.
  intros s. destruct (_update_orderbook_snapshot "X/Y" 4 s) as [[[]|e] s'] eqn:E.
  - apply (X6_snapshot_idempotent "X/Y" 4 4 s s' E).
  - vm_compute in E. discriminate.
Defined.

(** ** Which objects a call assigns to *)

Lemma touches_mono {A} rs rs' (m : M A) :
  (forall x, In x rs -> In x rs') -> touches rs m -> touches rs' m.
Proof. intros Hsub Hm s x Hx. apply Hm. auto. Qed.

Lemma touches_keeps {A} rs (m : M A) : keeps heap m -> touches rs m.
Proof. intros Hm s x _. by rewrite Hm. Qed.

Lemma touches_bind {A B} rs (m : M A) (k : A -> M B) :
  touches rs m -> (forall a, touches rs (k a)) -> touches rs (bind m k).
Proof.
  intros Hm Hk s x Hx. rewrite bind_eq. specialize (Hm s x Hx).
  destruct (m s) as [[a|e] s1]; simpl in *; [|done]. by rewrite Hk.
Qed.

Lemma touches_update rs r f : In r rs -> touches rs (update r f).
Proof.
  intros Hr s x Hx. destruct (heap s !! r) as [o|] eqn:E.
  - rewrite (update_Some _ _ _ _ E). cbn [snd heap set_heap].
    apply list_lookup_insert_ne. intros ->. by apply Hx.
  - by rewrite (update_None _ _ _ E).
Qed.

Lemma touches_update_order_after_trade rs r q p now :
  In r rs -> touches rs (_update_order_after_trade r q p now).
Proof.
  intros Hr. unfold _update_order_after_trade.
  apply touches_bind; [by apply touches_update|]. intros _.
  apply touches_bind; [apply touches_keeps, keeps_deref|]. intros o.
  apply touches_bind.
  { destruct (Order.average_price o); [|by apply touches_update].
    destruct p; [|apply touches_keeps, keeps_raise].
    destruct (Qeq_bool _ 0); [apply touches_keeps, keeps_raise | by apply touches_update]. }
  intros _. apply touches_bind; [by apply touches_update|]. intros _.
  by apply touches_update.
Qed.

Lemma touches_execute_trade rs rb rs' now :
  In rb rs -> In rs' rs -> touches rs (_execute_trade rb rs' now).
Proof.
  intros Hb Hs. unfold _execute_trade.
  apply touches_bind; [apply touches_keeps, keeps_deref|]. intros b.
  apply touches_bind; [apply touches_keeps, keeps_deref|]. intros sl.
  destruct (Qle_bool _ 0); [apply touches_keeps, keeps_ret|].
  apply touches_bind; [by apply touches_update_order_after_trade|]. intros _.
  apply touches_bind; [by apply touches_update_order_after_trade|]. intros _.
  apply touches_keeps, keeps_ret.
Qed.

Lemma touches_match_buy_loop rs r cs now :
  In r rs -> (forall c, In c cs -> In c rs) -> touches rs (match_buy_loop r cs now).
Proof.
  intros Hr. induction cs as [|c cs IH]; intros Hcs; cbn [match_buy_loop].
  { apply touches_keeps, keeps_ret. }
  assert (IH' : touches rs (match_buy_loop r cs now)).
  { apply IH. intros; apply Hcs. by right. }
  apply touches_bind; [apply touches_keeps, keeps_deref|]. intros b.
  destruct (Qle_bool _ 0); [apply touches_keeps, keeps_ret|].
  apply touches_bind; [apply touches_keeps, keeps_deref|]. intros sl.
  destruct (negb _); [done|].
  apply touches_bind.
  { apply touches_execute_trade; [done | apply Hcs; by left]. }
  intros [t|]; [|done].
  apply touches_bind; [by apply touches_keeps, keeps_modify|]. intros _.
  apply touches_bind; [done|]. intros; apply touches_keeps, keeps_ret.
Qed.

Lemma touches_match_sell_loop rs r cs now :
  In r rs -> (forall c, In c cs -> In c rs) -> touches rs (match_sell_loop r cs now).
Proof.
  intros Hr. induction cs as [|c cs IH]; intros Hcs; cbn [match_sell_loop].
  { apply touches_keeps, keeps_ret. }
  assert (IH' : touches rs (match_sell_loop r cs now)).
  { apply IH. intros; apply Hcs. by right. }
  apply touches_bind; [apply touches_keeps, keeps_deref|]. intros b.
  destruct (Qle_bool _ 0); [apply touches_keeps, keeps_ret|].
  apply touches_bind; [apply touches_keeps, keeps_deref|]. intros sl.
  destruct (negb _); [done|].
  apply touches_bind.
  { apply touches_execute_trade; [apply Hcs; by left | done]. }
  intros [t|]; [|done].
  apply touches_bind; [by apply touches_keeps, keeps_modify|]. intros _.
  apply touches_bind; [done|]. intros; apply touches_keeps, keeps_ret.
Qed.

Lemma match_order_frame r now s o x :
  heap s !! r = Some o -> x <> r ->
  ~ In x (pending_refs (Order.side o) (Order.symbol o) s) ->
  heap (snd (_match_order r now s)) !! x = heap s !! x.
Proof.
  intros Hr Hx Hp. unfold _match_order. rewrite bind_eq, (deref_Some _ _ _ Hr).
  rewrite bind_eq. pose proof (keeps_order_book heap (Order.symbol o) s) as Kob.
  destruct (order_book (Order.symbol o) s) as [[ob|e] s1] eqn:Eob; [|by rewrite <- Kob].
  clear Kob. apply order_book_inv in Eob as [-> _].
  destruct (OrderSide_eqb (Order.side o) BUY) eqn:Eside.
  - apply OrderSide_eqb_eq in Eside. rewrite Eside in Hp.
    unfold _match_buy_order. rewrite bind_eq, (deref_Some _ _ _ Hr), bind_eq.
    destruct (buy_candidates (Order.symbol o) s) as [[cs|e] s1] eqn:E.
    + destruct (buy_candidates_sorted _ _ _ _ E) as (Hh & Hperm & _).
      rewrite <- Hh. apply (touches_match_buy_loop (r :: cs)); [by left | by right|].
      intros [->|Hin]; [done|]. apply Hp. by apply (Permutation_in _ Hperm).
    + pose proof (keeps_buy_candidates heap (fun _ _ => eq_refl) (Order.symbol o) s) as K.
      rewrite E in K. cbn [snd] in *. by rewrite K.
  - assert (Order.side o = SELL) as Es.
    { destruct (Order.side o); [discriminate | done]. }
    rewrite Es in Hp.
    unfold _match_sell_order. rewrite bind_eq, (deref_Some _ _ _ Hr), bind_eq.
    destruct (sell_candidates (Order.symbol o) s) as [[cs|e] s1] eqn:E.
    + destruct (sell_candidates_sorted _ _ _ _ E) as (Hh & Hperm & _).
      rewrite <- Hh. apply (touches_match_sell_loop (r :: cs)); [by left | by right|].
      intros [->|Hin]; [done|]. apply Hp. by apply (Permutation_in _ Hperm).
    + pose proof (keeps_sell_candidates heap (fun _ _ => eq_refl) (Order.symbol o) s) as K.
      rewrite E in K. cbn [snd] in *. by rewrite K.
Qed.

Lemma keeps_update_md_heap sym f : keeps heap (update_md sym f).
Proof.
  intros s. unfold update_md. by destruct (dict_get sym (market_data s)).
Qed.

Lemma keeps_update_market_data_heap sym t now : keeps heap (_update_market_data sym t now).
Proof.
  unfold _update_market_data. apply keeps_bind.
  { apply keeps_modify. intros s. by destruct (dict_mem sym (market_data s)). }
  intros _. apply keeps_bind; [apply keeps_get|]. intros st.
  destruct (dict_get sym (market_data st)) as [md|]; [|apply keeps_raise].
  apply keeps_bind; [apply keeps_update_md_heap|]. intros _.
  apply keeps_bind; [apply keeps_order_book|]. intros ob.
  apply keeps_bind.
  { destruct (OrderBook.bids ob); [apply keeps_ret | apply keeps_update_md_heap]. }
  intros _. apply keeps_bind.
  { destruct (OrderBook.asks ob); [apply keeps_ret | apply keeps_update_md_heap]. }
  intros _. apply keeps_bind; [|intros; apply keeps_update_md_heap].
  destruct (MarketData.last_price md) as [old|]; [|apply keeps_raise].
  destruct (Qpos_bool old); [|apply keeps_ret].
  destruct (Trade.price t); [apply keeps_update_md_heap | apply keeps_raise].
Qed.

Lemma after_match_keeps_heap r sym now (ts : list Trade.t) :
  keeps heap
    (let* o' := deref r in
     exec (if negb (OrderStatus_eqb (Order.status o') FILLED)
           then _add_to_orderbook r now else ret tt) in
     exec match last ts with
          | Some t => _update_market_data sym t now
          | None => ret tt
          end in
     ret ts).
Proof.
  apply keeps_bind; [apply keeps_deref|]. intros o'.
  apply keeps_bind.
  { destruct (negb _); [by apply keeps_add_to_orderbook | apply keeps_ret]. }
  intros _. apply keeps_bind; [|intros; apply keeps_ret].
  destruct (last ts); [apply keeps_update_market_data_heap | apply keeps_ret].
Qed.

Lemma pending_refs_stored inc sym r o now s :
  pending_refs inc sym (stored r o now s) = pending_refs inc sym s.
Proof.
  unfold pending_refs, resting, stored, with_book.
  by destruct (dict_mem (Order.symbol o) (order_books s)).
Qed.

Lemma heap_stored r o now s : heap (stored r o now s) = heap s.
Proof.
  unfold stored, with_book. by destruct (dict_mem (Order.symbol o) (order_books s)).
Qed.

Lemma process_order_frame s r o now x :
  heap s !! r = Some o -> x <> r ->
  ~ In x (pending_refs (Order.side o) (Order.symbol o) s) ->
  heap (snd (process_order r now s)) !! x = heap s !! x.
Proof.
  intros Hr Hx Hp. destruct (_validate_order o) eqn:Ev.
  2:{ rewrite (process_order_rejects _ _ _ _ Hr Ev). cbn [snd heap set_heap].
      by apply list_lookup_insert_ne. }
  rewrite (process_order_accepts _ _ _ _ Hr Ev). unfold after_store.
  set (s0 := stored r o now s).
  assert (Hr0 : heap s0 !! r = Some o) by (unfold s0; by rewrite heap_stored).
  rewrite bind_eq.
  pose proof (match_order_frame r now s0 o x Hr0 Hx) as Hm.
  unfold s0 in Hm at 1. rewrite pending_refs_stored in Hm. specialize (Hm Hp).
  destruct (_match_order r now s0) as [[ts|e] s1]; cbn [snd] in *.
  - rewrite (after_match_keeps_heap r (Order.symbol o) now ts s1), Hm.
    unfold s0. by rewrite heap_stored.
  - rewrite Hm. unfold s0. by rewrite heap_stored.
Qed.

Lemma pending_refs_pending inc sym s x :
  In x (pending_refs inc sym s) -> exists o, heap s !! x = Some o /\ Order.status o = PENDING.
Proof.
  unfold pending_refs. intros H. apply in_map_iff in H as ([x' o] & <- & H).
  apply filter_In in H as [H Hp]. exists o. split.
  - unfold resting in H. destruct (dict_get sym (orders_by_symbol s)); [|done].
    by apply objects_of_In in H as [_ H].
  - by apply OrderStatus_eqb_eq.
Qed.

Lemma cancel_order_frame order_id user_id now s x :
  dict_get order_id (active_orders s) <> Some x ->
  heap (snd (cancel_order order_id user_id now s)) !! x = heap s !! x.
Proof.
  intros Hx. unfold cancel_order. rewrite bind_eq. cbn [get].
  destruct (dict_get order_id (active_orders s)) as [r|]; [|done].
  assert (Hne : ~ In x [r]) by (intros [->|[]]; by apply Hx).
  assert (T : touches [r]
    (let* o := deref r in
     if negb (String.eqb (Order.user_id o) user_id) then ret false
     else if negb (OrderStatus_eqb (Order.status o) PENDING ||
                   OrderStatus_eqb (Order.status o) PARTIAL)
     then ret false
     else
       exec update r (Order.set_status CANCELLED) in
       exec update r (Order.set_updated_at now) in
       exec _remove_from_orderbook r now in
       ret true)); [|exact (T s x Hne)].
  apply touches_bind; [apply touches_keeps, keeps_deref|]. intros o.
  destruct (negb (String.eqb _ _)); [apply touches_keeps, keeps_ret|].
  destruct (negb (_ || _)); [apply touches_keeps, keeps_ret|].
  apply touches_bind; [apply touches_update; by left|]. intros _.
  apply touches_bind; [apply touches_update; by left|]. intros _.
  apply touches_bind; [by apply touches_keeps, keeps_remove_from_orderbook|].
  intros; apply touches_keeps, keeps_ret.
Qed.

Lemma submit_settled o' now s x o :
  heap s !! x = Some o -> Order.status o <> PENDING ->
  heap (snd (submit o' now s)) !! x = Some o.
Proof.
  intros Hx Hst. rewrite submit_eq.
  assert (Hlt : (x < length (heap s))%nat) by by eapply lookup_lt_Some.
  assert (Hx' : heap (set_heap (heap s ++ [o']) s) !! x = Some o).
  { cbn [heap set_heap]. by rewrite lookup_app_l. }
  rewrite <- Hx'. apply (process_order_frame _ _ o').
  - cbn [heap set_heap]. apply lookup_snoc.
  - lia.
  - intros Hin. apply pending_refs_pending in Hin as (o'' & Ho'' & Hp). congruence.
Qed.

Lemma cancel_settled order_id user_id now s x o :
  heap s !! x = Some o -> is_live o = false ->
  heap (snd (cancel_order order_id user_id now s)) !! x = Some o.
Proof.
  intros Hx Hl. destruct (dict_get order_id (active_orders s)) as [r|] eqn:E.
  - destruct (decide (r = x)) as [->|Hne].
    + rewrite (cancel_order_refused _ _ _ _ _ _ E Hx); [done | by right].
    + rewrite cancel_order_frame; [done | congruence].
  - by rewrite cancel_order_unknown.
Qed.

(** X7: which order objects a call assigns to.  [process_order] assigns to no
    object other than the incoming order and the orders that rest, with
    status [Pending], on the opposite side of its symbol; [cancel_order]
    assigns to no object other than the one stored under the given id.  This
    holds whatever the call returns or raises. *)
Theorem X7_calls_touch_only_their_orders :
  (forall s r o now x,
     heap s !! r = Some o -> x <> r ->
     ~ In x (pending_refs (Order.side o) (Order.symbol o) s) ->
     heap (snd (process_order r now s)) !! x = heap s !! x) /\
  (forall s order_id user_id now x,
     dict_get order_id (active_orders s) <> Some x ->
     heap (snd (cancel_order order_id user_id now s)) !! x = heap s !! x).
Proof.
  split.
  - apply process_order_frame.
  - intros. by apply cancel_order_frame.
Qed.

(** X8: an order that is [Filled], [Cancelled] or [Rejected] is never assigned
    to again: whatever calls follow, the object stays as it is.  An order
    that is [Partial] is left as it is by every submission (only its
    cancellation changes it). *)
Theorem X8_settled_orders_stay s x o :
  heap s !! x = Some o ->
  (is_final o -> forall ops, heap (run ops s) !! x = Some o) /\
  (Order.status o = PARTIAL ->
   forall o' now, heap (step (Submit o' now) s) !! x = Some o).
Proof.
  intros Hx. split.
  - intros Hf ops. revert s Hx. induction ops as [|op ops IH]; intros s Hx; [done|].
    cbn [run fold_left]. apply IH. destruct op as [o' now|id u now]; cbn [step].
    + apply submit_settled; [done|]. destruct Hf as [H|[H|H]]; congruence.
    + apply cancel_settled; [done|]. unfold is_live.
      destruct Hf as [H|[H|H]]; by rewrite H.
  - intros Hp o' now. cbn [step]. apply submit_settled; [done | congruence].
Qed.

Lemma X8_settled_orders_stay_witness :
  let s := run [Submit (new_Order "a" "X/Y" SELL LIMIT 1 (Some 100%Q) 1 "A") 1;
                Submit (new_Order "b" "X/Y" BUY LIMIT 1 (Some 100%Q) 2 "B") 2] init in
  let ops := [Submit (new_Order "c" "X/Y" BUY LIMIT 1 (Some 100%Q) 3 "C") 3;
              Cancel "a" "A" 4] in
  option_map Order.status (heap s !! 0%nat) = Some FILLED /\
  heap (run ops s) !! 0%nat = heap s !! 0%nat.
Proof.
  intros s ops. split; [by vm_compute|].
  destruct (heap s !! 0%nat) as [o|] eqn:E; [|by vm_compute in E].
  assert (Hf : is_final o).
  { left. vm_compute in E. by injection E as <-. }
  destruct (X8_settled_orders_stay s 0%nat o E) as [H _]. exact (H Hf ops).
Defined.

(** X9: [cancel_order] never raises in a state the engine reaches, and a
    cancelled order cannot be cancelled again: after a call that returned
    [True], every further call for the same id returns [False] and changes
    nothing. *)
Theorem X9_cancel_order_returns s order_id user_id now :
  reachable s ->
  exists b s',
    cancel_order order_id user_id now s = (Ok b, s') /\
    (b = false -> s' = s) /\
    (b = true -> forall user_id' now',
       cancel_order order_id user_id' now' s' = (Ok false, s')).
Proof.
  intros Hreach. pose proof (reachable_wf _ Hreach) as W.
  destruct (dict_get order_id (active_orders s)) as [r|] eqn:E.
  2:{ exists false, s. split; [by apply cancel_order_unknown|]. by split. }
  destruct W as (R & A & T). destruct (A _ _ (dict_get_In _ _ _ E)) as (o & Ho & _).
  destruct (String.eqb (Order.user_id o) user_id) eqn:Eu.
  2:{ exists false, s. split; [|by split].
      eapply cancel_order_refused; [done | done |]. left.
      intros H. apply String.eqb_eq in H. congruence. }
  apply String.eqb_eq in Eu.
  destruct (is_live o) eqn:El.
  2:{ exists false, s. split; [|by split].
      eapply cancel_order_refused; [done | done | by right]. }
  destruct (cancel_order_done order_id user_id now s r o) as (s' & ob & Hc & Hh & Ha & _);
    [done..|].
  exists true, s'. split; [done|]. split; [done|]. intros _ u' now'.
  eapply cancel_order_refused.
  - rewrite Ha. exact E.
  - rewrite Hh. apply list_lookup_insert_eq. by eapply lookup_lt_Some.
  - by right.
Qed.

Lemma X9_cancel_order_returns_witness :
  let s := run [Submit (new_Order "a" "X/Y" SELL LIMIT 1 (Some 100%Q) 1 "A") 1] init in
  match cancel_order "a" "A" 2 s with
  | (Ok true, s') => cancel_order "a" "A" 3 s' = (Ok false, s')
  | _ => False
  end.
Proof.
  intros s.
  destruct (X9_cancel_order_returns s "a" "A" 2) as (b & s' & H1 & _ & H2).
  { by eexists. }
  rewrite H1. destruct b.
  - by apply H2.
  - vm_compute in H1. discriminate.
Defined.

(** ** The resting lists *)

Section FrameSymbolOrders.
Context {X : Type} (proj : State -> X).
Hypothesis proj_heap : forall h s, proj (set_heap h s) = proj s.
Hypothesis proj_trades : forall t s, proj (set_trades t s) = proj s.
Hypothesis proj_books : forall d s, proj (set_order_books d s) = proj s.
Hypothesis proj_sym : forall sym, keeps proj (symbol_orders sym).

Lemma keeps_so_buy_candidates sym : keeps proj (buy_candidates sym).
Proof using proj_sym.
  unfold buy_candidates. apply keeps_bind; [apply proj_sym|]. intros so.
  apply keeps_bind; [apply keeps_pending_of|]. intros; apply keeps_ret.
Qed.

Lemma keeps_so_sell_candidates sym : keeps proj (sell_candidates sym).
Proof using proj_sym.
  unfold sell_candidates. apply keeps_bind; [apply proj_sym|]. intros so.
  apply keeps_bind; [apply keeps_pending_of|]. intros; apply keeps_ret.
Qed.

Lemma keeps_so_match_order r now : keeps proj (_match_order r now).
Proof using proj_heap proj_trades proj_sym.
  unfold _match_order. apply keeps_bind; [apply keeps_deref|]. intros o.
  apply keeps_bind; [apply keeps_order_book|]. intros ob.
  destruct (OrderSide_eqb _ BUY).
  - unfold _match_buy_order. apply keeps_bind; [apply keeps_deref|]. intros b.
    apply keeps_bind; [apply keeps_so_buy_candidates|]. intros cs.
    by apply keeps_match_buy_loop.
  - unfold _match_sell_order. apply keeps_bind; [apply keeps_deref|]. intros b.
    apply keeps_bind; [apply keeps_so_sell_candidates|]. intros cs.
    by apply keeps_match_sell_loop.
Qed.

Lemma keeps_so_update_orderbook_snapshot sym now :
  keeps proj (_update_orderbook_snapshot sym now).
Proof using proj_books proj_sym.
  unfold _update_orderbook_snapshot.
  apply keeps_bind; [apply proj_sym|]. intros so.
  apply keeps_bind; [apply keeps_order_book|]. intros ob.
  apply keeps_bind; [apply keeps_deref_all|]. intros buys.
  apply keeps_bind; [apply keeps_deref_all|]. intros sells.
  by apply keeps_modify.
Qed.
End FrameSymbolOrders.

Lemma keeps_lists_symbol_orders sym' sym : keeps (lists_of sym') (symbol_orders sym).
Proof. intros s. apply symbol_orders_lists. Qed.

Lemma keeps_lists_match_order sym' r now : keeps (lists_of sym') (_match_order r now).
Proof. apply keeps_so_match_order; [done | done | apply keeps_lists_symbol_orders]. Qed.

Lemma keeps_lists_snapshot sym' sym now :
  keeps (lists_of sym') (_update_orderbook_snapshot sym now).
Proof. apply keeps_so_update_orderbook_snapshot; [done | apply keeps_lists_symbol_orders]. Qed.

Lemma add_to_orderbook_lists r now s o sym' :
  heap s !! r = Some o ->
  lists_of sym' (snd (_add_to_orderbook r now s)) =
    if String.eqb sym' (Order.symbol o) then rested (Order.side o) r (lists_of sym' s)
    else lists_of sym' s.
Proof.
  intros Hr. unfold _add_to_orderbook. rewrite bind_eq, (deref_Some _ _ _ Hr), bind_eq.
  destruct (symbol_orders_eq (Order.symbol o) s) as (s1 & -> & Hh & Hb & Hget & Hother & _).
  rewrite bind_eq. cbn [modify]. rewrite keeps_lists_snapshot.
  unfold lists_of at 1. cbn [orders_by_symbol set_orders_by_symbol].
  rewrite dict_get_set. destruct (String.eqb sym' (Order.symbol o)) eqn:E.
  - apply String.eqb_eq in E as ->. unfold rested. by destruct (Order.side o).
  - apply String.eqb_neq in E. unfold lists_of. by rewrite Hother.
Qed.

Lemma after_match_lists r sym now (ts : list Trade.t) s o sym' :
  heap s !! r = Some o ->
  lists_of sym'
    (snd ((let* o' := deref r in
           exec (if negb (OrderStatus_eqb (Order.status o') FILLED)
                 then _add_to_orderbook r now else ret tt) in
           exec match last ts with
                | Some t => _update_market_data sym t now
                | None => ret tt
                end in
           ret ts) s)) =
    if negb (OrderStatus_eqb (Order.status o) FILLED) && String.eqb sym' (Order.symbol o)
    then rested (Order.side o) r (lists_of sym' s)
    else lists_of sym' s.
Proof.
  intros Hr. rewrite bind_eq, (deref_Some _ _ _ Hr), bind_eq.
  assert (Hmd : forall s0,
    lists_of sym'
      (snd ((exec match last ts with
                  | Some t => _update_market_data sym t now
                  | None => ret tt
                  end in ret ts) s0)) = lists_of sym' s0).
  { apply keeps_bind; [|intros; apply keeps_ret].
    destruct (last ts); [by apply keeps_update_market_data | apply keeps_ret]. }
  destruct (negb (OrderStatus_eqb (Order.status o) FILLED)); cbn [andb].
  - rewrite <- (add_to_orderbook_lists r now s o sym' Hr).
    destruct (_add_to_orderbook r now s) as [[[]|e] s1]; [apply Hmd | done].
  - apply Hmd.
Qed.

Lemma after_store_lists r o now s sym' :
  heap s !! r = Some o -> not_resting r s ->
  match fst (_match_order r now s) with
  | Ok _ =>
      exists o', heap (snd (after_store r (Order.symbol o) now s)) !! r = Some o' /\
                 order_evolves o o' /\
                 lists_of sym' (snd (after_store r (Order.symbol o) now s)) =
                   if negb (OrderStatus_eqb (Order.status o') FILLED) &&
                      String.eqb sym' (Order.symbol o)
                   then rested (Order.side o) r (lists_of sym' s)
                   else lists_of sym' s
  | Raise _ =>
      lists_of sym' (snd (after_store r (Order.symbol o) now s)) = lists_of sym' s
  end.
Proof.
  intros Hr Hn. unfold after_store. rewrite bind_eq.
  pose proof (match_order_step r now s Hn) as St.
  pose proof (keeps_lists_match_order sym' r now s) as Kl.
  destruct (_match_order r now s) as [[ts|e] s1]; cbn [fst snd] in *; [|done].
  destruct (es_heap _ _ St) as [_ Hev]. destruct (Hev _ _ Hr) as (o' & Hr' & Ho').
  exists o'. split.
  { rewrite (after_match_keeps_heap r (Order.symbol o) now ts s1). exact Hr'. }
  split; [exact Ho'|].
  rewrite (after_match_lists r (Order.symbol o) now ts s1 o' sym' Hr'), Kl.
  destruct Ho' as [Hs _ _]. unfold static in Hs.
  injection Hs as _ Hsym Hside _ _ _ _ _. by rewrite Hsym, Hside.
Qed.

Lemma rests_on_evolves side sym h h' r :
  heap_evolves h h' -> rests_on side sym h r -> rests_on side sym h' r.
Proof.
  intros [_ Hev] (o & Ho & Hside & Hsym & Hv).
  destruct (Hev _ _ Ho) as (o' & Ho' & [Hs _ _]).
  exists o'. split; [done|]. rewrite (static_validate _ _ Hs). unfold static in Hs.
  injection Hs as _ Hsym' Hside' _ _ _ _ _. repeat split; congruence.
Qed.

Lemma lists_ok_next s s' :
  heap_evolves (heap s) (heap s') -> lists_ok s ->
  (forall sym r, In r (buy_orders (lists_of sym s')) ->
     In r (buy_orders (lists_of sym s)) \/ rests_on BUY sym (heap s') r) ->
  (forall sym r, In r (sell_orders (lists_of sym s')) ->
     In r (sell_orders (lists_of sym s)) \/ rests_on SELL sym (heap s') r) ->
  lists_ok s'.
Proof.
  intros Hev L Hb Hs sym. destruct (L sym) as [Lb Ls].
  rewrite List.Forall_forall in Lb, Ls. split; apply List.Forall_forall; intros r Hr.
  - destruct (Hb _ _ Hr) as [Hold|Hnew]; [|done].
    eapply rests_on_evolves; [exact Hev | by apply Lb].
  - destruct (Hs _ _ Hr) as [Hold|Hnew]; [|done].
    eapply rests_on_evolves; [exact Hev | by apply Ls].
Qed.

Lemma lists_ok_refs s : lists_ok s -> refs_ok s.
Proof.
  intros L sym so Hso. destruct (L sym) as [Lb Ls]. unfold lists_of in Lb, Ls.
  rewrite Hso in Lb, Ls. rewrite List.Forall_forall in Lb, Ls.
  split; intros r Hr; [apply Lb in Hr | apply Ls in Hr];
    destruct Hr as (o & Ho & _); by eapply lookup_lt_Some.
Qed.

Lemma lists_ok_allocated o s : lists_ok s -> lists_ok (allocated o s).
Proof.
  intros L sym. destruct (L sym) as [Lb Ls].
  split; (eapply List.Forall_impl; [|eassumption]);
    intros r (x & Hx & H); exists x; (split; [by apply allocated_lookup | done]).
Qed.

Lemma lists_of_stored sym r o now s : lists_of sym (stored r o now s) = lists_of sym s.
Proof.
  unfold lists_of, stored, with_book. by destruct (dict_mem (Order.symbol o) (order_books s)).
Qed.

Lemma lists_ok_stored r o now s : lists_ok s -> lists_ok (stored r o now s).
Proof.
  intros L sym. rewrite lists_of_stored, heap_stored. apply L.
Qed.

Lemma In_rested side side' r x so :
  In x (side_list side' (rested side r so)) ->
  In x (side_list side' so) \/ (x = r /\ side' = side).
Proof.
  destruct side, side'; cbn; rewrite ?in_app_iff; cbn; intuition.
Qed.

Lemma lists_ok_submit o now s : lists_ok s -> lists_ok (snd (submit o now s)).
Proof.
  intros L. destruct (submit_cases o now s) as [[Hv ->]|[Hv ->]].
  { apply (lists_ok_allocated (Order.set_status REJECTED o)) in L. exact L. }
  set (r := length (heap s)). set (s0 := stored r o now (allocated o s)).
  assert (L0 : lists_ok s0) by by apply lists_ok_stored, lists_ok_allocated.
  assert (Hr : heap s0 !! r = Some o).
  { unfold s0. rewrite heap_stored. apply lookup_snoc. }
  assert (Hn : not_resting r s0).
  { apply not_resting_stored. intros sym so Hso.
    exact (not_resting_fresh s (lists_ok_refs _ L) sym so Hso). }
  pose proof (after_store_step r (Order.symbol o) now s0 Hn) as St.
  assert (Hnew : forall sym side,
            forall x, In x (side_list side (lists_of sym (snd (after_store r (Order.symbol o) now s0)))) ->
            In x (side_list side (lists_of sym s0)) \/
            rests_on side sym (heap (snd (after_store r (Order.symbol o) now s0))) x).
  { intros sym side x Hx.
    pose proof (after_store_lists r o now s0 sym Hr Hn) as Hl.
    destruct (fst (_match_order r now s0)).
    2:{ left. by rewrite <- Hl. }
    destruct Hl as (o' & Hr' & [Hs _ _] & Hl). rewrite Hl in Hx.
    destruct (negb _ && String.eqb sym (Order.symbol o)) eqn:E; [|by left].
    apply andb_true_iff in E as [_ E]. apply String.eqb_eq in E.
    apply In_rested in Hx as [?|[-> ->]]; [by left|]. right.
    exists o'. split; [done|]. rewrite (static_validate _ _ Hs). unfold static in Hs.
    injection Hs as _ Hsym Hside _ _ _ _ _. repeat split; congruence. }
  eapply lists_ok_next; [apply (es_heap _ _ St) | exact L0 | |].
  - intros sym x. apply (Hnew sym BUY).
  - intros sym x. apply (Hnew sym SELL).
Qed.

Lemma lists_of_get sym s so : dict_get sym (orders_by_symbol s) = Some so -> lists_of sym s = so.
Proof. unfold lists_of. by intros ->. Qed.

Lemma lists_of_eq sym s s' :
  dict_get sym (orders_by_symbol s') = dict_get sym (orders_by_symbol s) ->
  lists_of sym s' = lists_of sym s.
Proof. unfold lists_of. by intros ->. Qed.

Lemma cancel_order_lists order_id user_id now s sym x side :
  wf s ->
  In x (side_list side (lists_of sym (snd (cancel_order order_id user_id now s)))) ->
  In x (side_list side (lists_of sym s)).
Proof.
  intros W. destruct (dict_get order_id (active_orders s)) as [r|] eqn:E.
  2:{ by rewrite cancel_order_unknown. }
  pose proof W as (R & A & T). destruct (A _ _ (dict_get_In _ _ _ E)) as (o & Ho & _).
  destruct (String.eqb (Order.user_id o) user_id) eqn:Eu.
  2:{ rewrite (cancel_order_refused _ _ _ _ _ _ E Ho); [done|]. left.
      intros H. apply String.eqb_eq in H. congruence. }
  apply String.eqb_eq in Eu.
  destruct (is_live o) eqn:El.
  2:{ rewrite (cancel_order_refused _ _ _ _ _ _ E Ho); [done | by right]. }
  destruct (cancel_order_done order_id user_id now s r o)
    as (s' & ob & -> & Hh & Ha & _ & _ & Hl & _ & _ & _ & Hother); [done..|].
  cbn [snd]. destruct (String.eqb sym (Order.symbol o)) eqn:Es.
  - apply String.eqb_eq in Es as ->. rewrite (lists_of_get _ _ _ Hl).
    unfold remove_id. destruct (Order.side o), side; cbn [side_list buy_orders sell_orders];
      try done; intros H; by apply kept_refs_In in H as [H _].
  - apply String.eqb_neq in Es. destruct (Hother _ Es) as [H _].
    by rewrite (lists_of_eq _ _ _ H).
Qed.

Lemma lists_ok_cancel order_id user_id now s :
  wf s -> lists_ok s -> lists_ok (snd (cancel_order order_id user_id now s)).
Proof.
  intros W L.
  eapply lists_ok_next; [apply (es_heap _ _ (cancel_order_step order_id user_id now s)) | exact L | |].
  - intros sym x Hx. left. exact (cancel_order_lists order_id user_id now s sym x BUY W Hx).
  - intros sym x Hx. left. exact (cancel_order_lists order_id user_id now s sym x SELL W Hx).
Qed.

Lemma lists_ok_init : lists_ok init.
Proof. intros sym. split; constructor. Qed.

Lemma lists_ok_run ops s : wf s -> lists_ok s -> lists_ok (run ops s).
Proof.
  induction ops as [|op ops IH] using rev_ind; [done|]. intros W L.
  rewrite run_snoc. destruct op; cbn [step].
  - apply lists_ok_submit. by apply IH.
  - apply lists_ok_cancel; [by apply wf_run | by apply IH].
Qed.

Lemma reachable_lists_ok s : reachable s -> lists_ok s.
Proof. intros [ops ->]. apply lists_ok_run; [apply wf_init | apply lists_ok_init]. Qed.

(** ** The two legs of a trade *)

Lemma match_buy_loop_new_trades r cs now s :
  ~ In r cs ->
  exists ts, trades (snd (match_buy_loop r cs now s)) = trades s ++ ts /\
             Forall (fun t => exists c, In c cs /\ trade_between (heap s) r c t) ts.
Proof.
  revert s. induction cs as [|c cs IH]; intros s Hnin; cbn [match_buy_loop].
  { exists []. by rewrite app_nil_r. }
  assert (Hne : r <> c) by (intros ->; apply Hnin; by left).
  assert (Hnin' : ~ In r cs) by (intros H; apply Hnin; by right).
  assert (Hnone : exists ts, trades s = trades s ++ ts /\
            Forall (fun t => exists c0, In c0 (c :: cs) /\ trade_between (heap s) r c0 t) ts).
  { exists []. by rewrite app_nil_r. }
  assert (Hrest : forall s1 pre, heap_evolves (heap s) (heap s1) ->
            trades s1 = trades s ++ pre ->
            Forall (fun t => exists c0, In c0 (c :: cs) /\ trade_between (heap s) r c0 t) pre ->
            exists ts, trades (snd (match_buy_loop r cs now s1)) = trades s ++ ts /\
              Forall (fun t => exists c0, In c0 (c :: cs) /\ trade_between (heap s) r c0 t) ts).
  { intros s1 pre Hev Ht Hpre. destruct (IH s1 Hnin') as (ts & H1 & H2). exists (pre ++ ts).
    rewrite H1, Ht, <- app_assoc. split; [done|]. apply Forall_app. split; [done|].
    eapply List.Forall_impl; [|exact H2].
    intros t (c0 & Hc0 & Hb). exists c0. split; [by right|].
    eapply trade_between_back; [exact Hev | exact Hb]. }
  rewrite bind_eq. pose proof (deref_state r s) as Hd.
  destruct (deref r s) as [[b|e] s1] eqn:E; cbn [snd] in Hd; subst s1; [|exact Hnone].
  apply deref_inv in E as [_ Hb].
  destruct (Qle_bool _ 0); [exact Hnone|].
  rewrite bind_eq. pose proof (deref_state c s) as Hd.
  destruct (deref c s) as [[sl|e] s1] eqn:E; cbn [snd] in Hd; subst s1; [|exact Hnone].
  apply deref_inv in E as [_ Hs].
  destruct (_price_matches b sl) eqn:Hm; cbn [negb].
  2:{ apply (Hrest s []); [apply heap_evolves_refl | by rewrite app_nil_r | constructor]. }
  rewrite bind_eq.
  pose proof (execute_trade_step r c now s Hne) as St.
  pose proof (keeps_execute_trade trades (fun _ _ => eq_refl) r c now s) as Kt.
  destruct (_execute_trade r c now s) as [[[t|]|e] s1] eqn:E; cbn [snd] in St, Kt.
  - rewrite bind_eq. cbn [modify]. rewrite bind_eq.
    destruct (Hrest (set_trades (trades s1 ++ [t]) s1) [t]) as (ts & H1 & H2).
    { apply (es_heap _ _ St). }
    { cbn [trades set_trades]. by rewrite Kt. }
    { constructor; [|constructor]. exists c. split; [by left|].
      destruct (execute_trade_result _ _ _ _ _ _ _ _ Hb Hs E) as [-> _].
      exists b, sl. auto using trade_of_made_from. }
    exists ts. split; [|done]. rewrite <- H1.
    by destruct (match_buy_loop r cs now _) as [[ts'|e] s2].
  - apply (Hrest s1 []); [apply (es_heap _ _ St) | by rewrite app_nil_r | constructor].
  - cbn [snd]. rewrite Kt. exact Hnone.
Qed.

Lemma match_sell_loop_new_trades r cs now s :
  ~ In r cs ->
  exists ts, trades (snd (match_sell_loop r cs now s)) = trades s ++ ts /\
             Forall (fun t => exists c, In c cs /\ trade_between (heap s) c r t) ts.
Proof.
  revert s. induction cs as [|c cs IH]; intros s Hnin; cbn [match_sell_loop].
  { exists []. by rewrite app_nil_r. }
  assert (Hne : c <> r) by (intros ->; apply Hnin; by left).
  assert (Hnin' : ~ In r cs) by (intros H; apply Hnin; by right).
  assert (Hnone : exists ts, trades s = trades s ++ ts /\
            Forall (fun t => exists c0, In c0 (c :: cs) /\ trade_between (heap s) c0 r t) ts).
  { exists []. by rewrite app_nil_r. }
  assert (Hrest : forall s1 pre, heap_evolves (heap s) (heap s1) ->
            trades s1 = trades s ++ pre ->
            Forall (fun t => exists c0, In c0 (c :: cs) /\ trade_between (heap s) c0 r t) pre ->
            exists ts, trades (snd (match_sell_loop r cs now s1)) = trades s ++ ts /\
              Forall (fun t => exists c0, In c0 (c :: cs) /\ trade_between (heap s) c0 r t) ts).
  { intros s1 pre Hev Ht Hpre. destruct (IH s1 Hnin') as (ts & H1 & H2). exists (pre ++ ts).
    rewrite H1, Ht, <- app_assoc. split; [done|]. apply Forall_app. split; [done|].
    eapply List.Forall_impl; [|exact H2].
    intros t (c0 & Hc0 & Hb). exists c0. split; [by right|].
    eapply trade_between_back; [exact Hev | exact Hb]. }
  rewrite bind_eq. pose proof (deref_state r s) as Hd.
  destruct (deref r s) as [[sl|e] s1] eqn:E; cbn [snd] in Hd; subst s1; [|exact Hnone].
  apply deref_inv in E as [_ Hs].
  destruct (Qle_bool _ 0); [exact Hnone|].
  rewrite bind_eq. pose proof (deref_state c s) as Hd.
  destruct (deref c s) as [[b|e] s1] eqn:E; cbn [snd] in Hd; subst s1; [|exact Hnone].
  apply deref_inv in E as [_ Hb].
  destruct (_price_matches b sl) eqn:Hm; cbn [negb].
  2:{ apply (Hrest s []); [apply heap_evolves_refl | by rewrite app_nil_r | constructor]. }
  rewrite bind_eq.
  pose proof (execute_trade_step c r now s Hne) as St.
  pose proof (keeps_execute_trade trades (fun _ _ => eq_refl) c r now s) as Kt.
  destruct (_execute_trade c r now s) as [[[t|]|e] s1] eqn:E; cbn [snd] in St, Kt.
  - rewrite bind_eq. cbn [modify]. rewrite bind_eq.
    destruct (Hrest (set_trades (trades s1 ++ [t]) s1) [t]) as (ts & H1 & H2).
    { apply (es_heap _ _ St). }
    { cbn [trades set_trades]. by rewrite Kt. }
    { constructor; [|constructor]. exists c. split; [by left|].
      destruct (execute_trade_result _ _ _ _ _ _ _ _ Hb Hs E) as [-> _].
      exists b, sl. auto using trade_of_made_from. }
    exists ts. split; [|done]. rewrite <- H1.
    by destruct (match_sell_loop r cs now _) as [[ts'|e] s2].
  - apply (Hrest s1 []); [apply (es_heap _ _ St) | by rewrite app_nil_r | constructor].
  - cbn [snd]. rewrite Kt. exact Hnone.
Qed.

Lemma pending_refs_rests_on inc sym s c :
  lists_ok s -> In c (pending_refs inc sym s) ->
  rests_on (match inc with BUY => SELL | SELL => BUY end) sym (heap s) c.
Proof.
  intros L Hin. apply pending_refs_resting in Hin as (so & Hso & Hin).
  destruct (L sym) as [Lb Ls]. rewrite (lists_of_get _ _ _ Hso) in Lb, Ls.
  rewrite List.Forall_forall in Lb, Ls. destruct inc; cbn [side_list] in Hin; auto.
Qed.

Lemma not_resting_pending r inc sym s : not_resting r s -> ~ In r (pending_refs inc sym s).
Proof.
  intros Hn Hin. apply pending_refs_resting in Hin as (so & Hso & Hin).
  destruct (Hn _ _ Hso) as [H1 H2]. destruct inc; cbn [side_list] in Hin; tauto.
Qed.

Lemma match_order_new_trades r o now s :
  heap s !! r = Some o -> not_resting r s -> lists_ok s ->
  exists ts, trades (snd (_match_order r now s)) = trades s ++ ts /\
             Forall (sided (heap s)) ts.
Proof.
  intros Hr Hn L.
  assert (Hnone : exists ts, trades s = trades s ++ ts /\ Forall (sided (heap s)) ts).
  { exists []. by rewrite app_nil_r. }
  unfold _match_order. rewrite bind_eq, (deref_Some _ _ _ Hr), bind_eq.
  pose proof (keeps_order_book trades (Order.symbol o) s) as Kob.
  destruct (order_book (Order.symbol o) s) as [[ob|e] s1] eqn:Eob; cbn [snd] in Kob.
  2:{ cbn [snd]. by rewrite Kob. }
  clear Kob. apply order_book_inv in Eob as [-> _].
  destruct (OrderSide_eqb (Order.side o) BUY) eqn:Eside.
  - apply OrderSide_eqb_eq in Eside.
    unfold _match_buy_order. rewrite bind_eq, (deref_Some _ _ _ Hr), bind_eq.
    pose proof (keeps_buy_candidates trades (fun _ _ => eq_refl) (Order.symbol o) s) as Kt.
    destruct (buy_candidates (Order.symbol o) s) as [[cs|e] s1] eqn:E; cbn [snd] in Kt.
    2:{ cbn [snd]. by rewrite Kt. }
    destruct (buy_candidates_sorted _ _ _ _ E) as (Hh & Hperm & _).
    destruct (match_buy_loop_new_trades r cs now s1) as (ts & H1 & H2).
    { intros Hin. apply (Permutation_in _ Hperm) in Hin.
      by apply not_resting_pending in Hin. }
    exists ts. rewrite H1, Kt. split; [done|].
    eapply List.Forall_impl; [|exact H2]. intros t (c & Hc & b & sl & Hb & Hs & Hm).
    rewrite Hh in Hb, Hs. apply (Permutation_in _ Hperm) in Hc.
    pose proof (not_resting_pending r BUY (Order.symbol o) s Hn) as Hrc.
    apply (pending_refs_rests_on _ _ _ _ L) in Hc as Hrest.
    destruct Hrest as (sl' & Hs' & Hside & Hsym & _).
    exists r, c, b, sl. split; [by intros ->|]. do 3 (split; [done|]).
    split; [congruence|]. split; congruence.
  - assert (Order.side o = SELL) as Es.
    { destruct (Order.side o); [discriminate | done]. }
    unfold _match_sell_order. rewrite bind_eq, (deref_Some _ _ _ Hr), bind_eq.
    pose proof (keeps_sell_candidates trades (fun _ _ => eq_refl) (Order.symbol o) s) as Kt.
    destruct (sell_candidates (Order.symbol o) s) as [[cs|e] s1] eqn:E; cbn [snd] in Kt.
    2:{ cbn [snd]. by rewrite Kt. }
    destruct (sell_candidates_sorted _ _ _ _ E) as (Hh & Hperm & _).
    destruct (match_sell_loop_new_trades r cs now s1) as (ts & H1 & H2).
    { intros Hin. apply (Permutation_in _ Hperm) in Hin.
      by apply not_resting_pending in Hin. }
    exists ts. rewrite H1, Kt. split; [done|].
    eapply List.Forall_impl; [|exact H2]. intros t (c & Hc & b & sl & Hb & Hs & Hm).
    rewrite Hh in Hb, Hs. apply (Permutation_in _ Hperm) in Hc.
    pose proof (not_resting_pending r SELL (Order.symbol o) s Hn) as Hrc.
    apply (pending_refs_rests_on _ _ _ _ L) in Hc as Hrest.
    destruct Hrest as (b' & Hb' & Hside & Hsym & _).
    exists c, r, b, sl. split; [by intros ->|]. do 3 (split; [done|]).
    split; [congruence|]. split; congruence.
Qed.

Lemma after_store_trades r sym now s :
  trades (snd (after_store r sym now s)) = trades (snd (_match_order r now s)).
Proof.
  unfold after_store. rewrite bind_eq.
  destruct (_match_order r now s) as [[ts|e] s1]; [|done]. cbn [snd].
  apply keeps_bind; [apply keeps_deref|]. intros o'.
  apply keeps_bind.
  { destruct (negb _); [by apply keeps_add_to_orderbook | apply keeps_ret]. }
  intros _. apply keeps_bind; [|intros; apply keeps_ret].
  destruct (last ts); [by apply keeps_update_market_data | apply keeps_ret].
Qed.

Lemma sided_evolves h h' t : heap_evolves h h' -> sided h t -> sided h' t.
Proof.
  intros [_ Hev] (rb & rs & b & sl & Hne & Hb & Hs & Hm & Hsb & Hss & Hsym).
  destruct (Hev _ _ Hb) as (b' & Hb' & [Sb _ _]).
  destruct (Hev _ _ Hs) as (sl' & Hs' & [Ss _ _]).
  exists rb, rs, b', sl'. do 3 (split; [done|]).
  split; [by eapply made_from_static|].
  unfold static in Sb, Ss.
  injection Sb as _ Hsymb Hsideb _ _ _ _ _. injection Ss as _ Hsyms Hsides _ _ _ _ _.
  split; [congruence|]. split; congruence.
Qed.

Lemma sided_app h l t : sided h t -> sided (h ++ l) t.
Proof.
  intros (rb & rs & b & sl & Hne & Hb & Hs & H). exists rb, rs, b, sl.
  split; [done|]. split; [by apply lookup_app_l_Some|]. split; [by apply lookup_app_l_Some|done].
Qed.

Lemma trades_sided_allocated o s : trades_sided s -> trades_sided (allocated o s).
Proof.
  unfold trades_sided, allocated. cbn [heap trades set_heap]. intros H.
  eapply List.Forall_impl; [|exact H]. intros t. apply sided_app.
Qed.

Lemma trades_sided_submit o now s :
  wf s -> lists_ok s -> trades_sided s -> trades_sided (snd (submit o now s)).
Proof.
  intros W L T. destruct (submit_cases o now s) as [[Hv ->]|[Hv ->]].
  { apply (trades_sided_allocated (Order.set_status REJECTED o)) in T. exact T. }
  set (r := length (heap s)). set (s0 := stored r o now (allocated o s)).
  assert (L0 : lists_ok s0) by by apply lists_ok_stored, lists_ok_allocated.
  assert (T0 : trades_sided s0).
  { unfold trades_sided, s0. rewrite heap_stored.
    replace (trades (stored r o now (allocated o s))) with (trades (allocated o s)).
    - by apply trades_sided_allocated.
    - unfold stored, with_book. by destruct (dict_mem _ _). }
  assert (Hr : heap s0 !! r = Some o).
  { unfold s0. rewrite heap_stored. apply lookup_snoc. }
  assert (Hn : not_resting r s0).
  { apply not_resting_stored. intros sym so Hso.
    exact (not_resting_fresh s (lists_ok_refs _ L) sym so Hso). }
  pose proof (after_store_step r (Order.symbol o) now s0 Hn) as St.
  destruct (match_order_new_trades r o now s0 Hr Hn L0) as (ts & Ht & Hts).
  unfold trades_sided. rewrite after_store_trades, Ht. apply Forall_app. split.
  - eapply List.Forall_impl; [|exact T0]. intros t. apply sided_evolves, (es_heap _ _ St).
  - eapply List.Forall_impl; [|exact Hts]. intros t. apply sided_evolves, (es_heap _ _ St).
Qed.

Lemma trades_sided_cancel order_id user_id now s :
  trades_sided s -> trades_sided (snd (cancel_order order_id user_id now s)).
Proof.
  intros T. unfold trades_sided.
  rewrite (keeps_cancel_order trades (fun _ _ => eq_refl) (fun _ _ => eq_refl)
             (fun _ _ => eq_refl)).
  eapply List.Forall_impl; [|exact T]. intros t.
  apply sided_evolves, (es_heap _ _ (cancel_order_step order_id user_id now s)).
Qed.

Lemma trades_sided_run ops : trades_sided (run ops init).
Proof.
  induction ops as [|op ops IH] using rev_ind; [constructor|].
  rewrite run_snoc. destruct op; cbn [step].
  - apply trades_sided_submit; [apply wf_run, wf_init | | done].
    apply lists_ok_run; [apply wf_init | apply lists_ok_init].
  - by apply trades_sided_cancel.
Qed.

(** X10: the two legs of a trade.  In every state the engine reaches, every
    trade of the history has a positive quantity and was made from two
    different order objects of the trade's symbol, the one a buy order and
    the other a sell order, whose ids the trade carries. *)
Theorem X10_trade_legs ops t :
  In t (trades (run ops init)) ->
  (0 < Trade.quantity t)%Q /\
  exists rb rs b sl,
    rb <> rs /\
    heap (run ops init) !! rb = Some b /\ heap (run ops init) !! rs = Some sl /\
    Trade.buy_order_id t = Order.id b /\ Trade.sell_order_id t = Order.id sl /\
    Order.side b = BUY /\ Order.side sl = SELL /\
    Order.symbol b = Trade.symbol t /\ Order.symbol sl = Trade.symbol t.
Proof.
  intros Hin. split.
  - destruct (run_trades ops init) as (ts & Ht & Hp). cbn [trades init] in Ht.
    rewrite Ht in Hin. unfold positive_quantities in Hp.
    rewrite List.Forall_forall in Hp. by apply Hp.
  - pose proof (trades_sided_run ops) as T. unfold trades_sided in T.
    rewrite List.Forall_forall in T.
    destruct (T t Hin) as (rb & rs & b & sl & Hne & Hb & Hs & [H1 H2 H3 _ _ _ _] & Hsb & Hss & Hsym).
    exists rb, rs, b, sl. do 7 (split; [done|]). split; congruence.
Qed.

Lemma X10_trade_legs_witness :
  let ops := [Submit (new_Order "a" "X/Y" SELL LIMIT 1 (Some 100%Q) 1 "A") 1;
              Submit (new_Order "b" "X/Y" BUY LIMIT (8 # 10) (Some 100%Q) 2 "B") 2] in
  let t := Trade.mk "X/Y" "b" "a" "B" "A" (8 # 10) (Some 100%Q) 2 in
  In t (trades (run ops init)) /\
  exists rb rs b sl,
    rb <> rs /\
    heap (run ops init) !! rb = Some b /\ heap (run ops init) !! rs = Some sl /\
    Order.side b = BUY /\ Order.side sl = SELL.
Proof.
  intros ops t.
  assert (Hin : In t (trades (run ops init))) by (vm_compute; by left).
  split; [exact Hin|].
  destruct (X10_trade_legs ops t Hin) as (_ & rb & rs & b & sl & H1 & H2 & H3 & _ & _ & H4 & H5 & _).
  exists rb, rs, b, sl. auto.
Defined.

(** ** One symbol at a time *)

Lemma keeps_book_snapshot sym sym' now :
  sym <> sym' ->
  keeps (get_orderbook sym') (_update_orderbook_snapshot sym now).
Proof.
  intros Hne. unfold _update_orderbook_snapshot.
  apply keeps_bind; [by apply keeps_symbol_orders|]. intros so.
  apply keeps_bind; [apply keeps_order_book|]. intros ob.
  apply keeps_bind; [apply keeps_deref_all|]. intros buys.
  apply keeps_bind; [apply keeps_deref_all|]. intros sells.
  apply keeps_modify. intros s. unfold get_orderbook. cbn [order_books set_order_books].
  by apply dict_get_set_ne.
Qed.

Lemma add_to_orderbook_book r now s o sym' :
  heap s !! r = Some o -> Order.symbol o <> sym' ->
  get_orderbook sym' (snd (_add_to_orderbook r now s)) = get_orderbook sym' s.
Proof.
  intros Hr Hne. unfold _add_to_orderbook. rewrite bind_eq, (deref_Some _ _ _ Hr).
  apply keeps_bind; [by apply keeps_symbol_orders|]. intros so.
  apply keeps_bind; [by apply keeps_modify|]. intros _.
  by apply keeps_book_snapshot.
Qed.

Lemma keeps_md_update_md sym sym' f :
  sym <> sym' -> keeps (get_market_data sym') (update_md sym f).
Proof.
  intros Hne s. unfold update_md, get_market_data.
  destruct (dict_get sym (market_data s)); [|done].
  cbn [snd market_data set_market_data]. by apply dict_get_set_ne.
Qed.

Lemma keeps_md_update_market_data sym sym' t now :
  sym <> sym' -> keeps (get_market_data sym') (_update_market_data sym t now).
Proof.
  intros Hne. unfold _update_market_data. apply keeps_bind.
  { apply keeps_modify. intros s. destruct (dict_mem sym (market_data s)); [done|].
    unfold get_market_data. cbn [market_data set_market_data]. by apply dict_get_set_ne. }
  intros _. apply keeps_bind; [apply keeps_get|]. intros st.
  destruct (dict_get sym (market_data st)) as [md|]; [|apply keeps_raise].
  apply keeps_bind; [by apply keeps_md_update_md|]. intros _.
  apply keeps_bind; [apply keeps_order_book|]. intros ob.
  apply keeps_bind.
  { destruct (OrderBook.bids ob); [apply keeps_ret | by apply keeps_md_update_md]. }
  intros _. apply keeps_bind.
  { destruct (OrderBook.asks ob); [apply keeps_ret | by apply keeps_md_update_md]. }
  intros _. apply keeps_bind; [|intros; by apply keeps_md_update_md].
  destruct (MarketData.last_price md) as [old|]; [|apply keeps_raise].
  destruct (Qpos_bool old); [|apply keeps_ret].
  destruct (Trade.price t); [by apply keeps_md_update_md | apply keeps_raise].
Qed.

Lemma after_match_other r sym now (ts : list Trade.t) s o sym' :
  heap s !! r = Some o -> Order.symbol o <> sym' -> sym <> sym' ->
  let s' := snd ((let* o' := deref r in
                  exec (if negb (OrderStatus_eqb (Order.status o') FILLED)
                        then _add_to_orderbook r now else ret tt) in
                  exec match last ts with
                       | Some t => _update_market_data sym t now
                       | None => ret tt
                       end in
                  ret ts) s) in
  get_orderbook sym' s' = get_orderbook sym' s /\
  get_market_data sym' s' = get_market_data sym' s.
Proof.
  intros Hr Ho Hne. cbn zeta. rewrite bind_eq, (deref_Some _ _ _ Hr), bind_eq.
  assert (Hmd : keeps (fun s => (get_orderbook sym' s, get_market_data sym' s))
            (exec match last ts with
                  | Some t => _update_market_data sym t now
                  | None => ret tt
                  end in ret ts)).
  { apply keeps_bind; [|intros; apply keeps_ret].
    destruct (last ts); [|apply keeps_ret]. intros s0. f_equal.
    - unfold get_orderbook. by rewrite keeps_update_market_data_books.
    - by apply keeps_md_update_market_data. }
  assert (Hadd : (get_orderbook sym' (snd (_add_to_orderbook r now s)),
                  get_market_data sym' (snd (_add_to_orderbook r now s))) =
                 (get_orderbook sym' s, get_market_data sym' s)).
  { f_equal; [by eapply add_to_orderbook_book|].
    by apply (keeps_add_to_orderbook (get_market_data sym')). }
  destruct (negb (OrderStatus_eqb (Order.status o) FILLED)).
  - destruct (_add_to_orderbook r now s) as [[[]|e] s1]; cbn [snd] in *.
    + specialize (Hmd s1). cbn beta in Hmd. rewrite Hadd in Hmd.
      by injection Hmd as -> ->.
    + by injection Hadd as -> ->.
  - change (ret tt s) with (Ok tt, s). cbn iota. specialize (Hmd s). cbn beta in Hmd. by injection Hmd as -> ->.
Qed.

Lemma after_store_other r o now s sym' :
  heap s !! r = Some o -> not_resting r s -> Order.symbol o <> sym' ->
  symbol_view sym' (snd (after_store r (Order.symbol o) now s)) = symbol_view sym' s.
Proof.
  intros Hr Hn Hne. unfold symbol_view. f_equal; [f_equal|].
  - pose proof (after_store_lists r o now s sym' Hr Hn) as Hl.
    destruct (fst (_match_order r now s)); [|done].
    destruct Hl as (o' & _ & _ & ->).
    replace (String.eqb sym' (Order.symbol o)) with false; [by rewrite andb_false_r|].
    symmetry. apply String.eqb_neq. congruence.
  - unfold after_store. rewrite bind_eq.
    pose proof (match_order_step r now s Hn) as St.
    pose proof (keeps_match_order (get_orderbook sym') (fun _ _ => eq_refl)
                  (fun _ _ => eq_refl) (fun _ _ => eq_refl) r now s) as K.
    destruct (_match_order r now s) as [[ts|e] s1]; cbn [snd] in *; [|done].
    destruct (es_heap _ _ St) as [_ Hev]. destruct (Hev _ _ Hr) as (o' & Hr' & [Hs _ _]).
    rewrite <- K. apply (after_match_other r (Order.symbol o) now ts s1 o'); [done | | done].
    unfold static in Hs. injection Hs as _ Hsym _ _ _ _ _ _. congruence.
  - unfold after_store. rewrite bind_eq.
    pose proof (match_order_step r now s Hn) as St.
    pose proof (keeps_match_order (get_market_data sym') (fun _ _ => eq_refl)
                  (fun _ _ => eq_refl) (fun _ _ => eq_refl) r now s) as K.
    destruct (_match_order r now s) as [[ts|e] s1]; cbn [snd] in *; [|done].
    destruct (es_heap _ _ St) as [_ Hev]. destruct (Hev _ _ Hr) as (o' & Hr' & [Hs _ _]).
    rewrite <- K. apply (after_match_other r (Order.symbol o) now ts s1 o'); [done | | done].
    unfold static in Hs. injection Hs as _ Hsym _ _ _ _ _ _. congruence.
Qed.

Lemma symbol_view_stored sym' r o now s :
  Order.symbol o <> sym' -> symbol_view sym' (stored r o now s) = symbol_view sym' s.
Proof.
  intros Hne. unfold symbol_view, stored, with_book, lists_of, get_orderbook, get_market_data.
  destruct (dict_mem (Order.symbol o) (order_books s)); [done|].
  cbn [orders_by_symbol order_books market_data set_active_orders set_order_books].
  by rewrite dict_get_set_ne.
Qed.

Lemma submit_other o now s sym' :
  refs_ok s -> Order.symbol o <> sym' ->
  symbol_view sym' (snd (submit o now s)) = symbol_view sym' s.
Proof.
  intros R Hne. destruct (submit_cases o now s) as [[Hv ->]|[Hv ->]]; [done|].
  rewrite after_store_other; [| | |done].
  - by rewrite symbol_view_stored.
  - rewrite heap_stored. apply lookup_snoc.
  - apply not_resting_stored. intros sym so Hso. exact (not_resting_fresh s R sym so Hso).
Qed.

Lemma submit_other_objects o now s x o' :
  lists_ok s -> heap s !! x = Some o' -> Order.symbol o' <> Order.symbol o ->
  heap (snd (submit o now s)) !! x = Some o'.
Proof.
  intros L Hx Hne. rewrite submit_eq.
  assert (Hlt : (x < length (heap s))%nat) by by eapply lookup_lt_Some.
  assert (Hx' : heap (allocated o s) !! x = Some o') by by apply allocated_lookup.
  fold (allocated o s). rewrite <- Hx'. apply (process_order_frame _ _ o).
  - apply lookup_snoc.
  - lia.
  - intros Hin. apply (pending_refs_rests_on _ _ _ _ (lists_ok_allocated o s L)) in Hin.
    destruct Hin as (o'' & Ho'' & _ & Hsym & _). congruence.
Qed.

Lemma cancel_other order_id user_id now s r o sym' :
  wf s -> dict_get order_id (active_orders s) = Some r -> heap s !! r = Some o ->
  Order.symbol o <> sym' ->
  symbol_view sym' (snd (cancel_order order_id user_id now s)) = symbol_view sym' s.
Proof.
  intros W E Ho Hne.
  destruct (String.eqb (Order.user_id o) user_id) eqn:Eu.
  2:{ rewrite (cancel_order_refused _ _ _ _ _ _ E Ho); [done|]. left.
      intros H. apply String.eqb_eq in H. congruence. }
  apply String.eqb_eq in Eu.
  destruct (is_live o) eqn:El.
  2:{ rewrite (cancel_order_refused _ _ _ _ _ _ E Ho); [done | by right]. }
  destruct (cancel_order_done order_id user_id now s r o)
    as (s' & ob & -> & Hh & Ha & _ & Hm & _ & _ & _ & _ & Hother); [done..|].
  cbn [snd]. destruct (Hother sym') as [H1 H2]; [congruence|].
  unfold symbol_view, get_orderbook, get_market_data.
  by rewrite (lists_of_eq _ _ _ H1), H2, Hm.
Qed.

(** X11: one symbol at a time.  In a state the engine reaches, a submission
    for one symbol leaves every other symbol as it is: its resting lists, its
    book, its market data and every order object of that symbol; so does the
    cancellation of an order of another symbol.  This holds whatever the call
    returns or raises. *)
Theorem X11_symbol_isolation s sym' :
  reachable s ->
  (forall o now,
     Order.symbol o <> sym' ->
     symbol_view sym' (snd (submit o now s)) = symbol_view sym' s /\
     forall x o', heap s !! x = Some o' -> Order.symbol o' = sym' ->
                  heap (snd (submit o now s)) !! x = Some o') /\
  (forall order_id user_id now r o,
     dict_get order_id (active_orders s) = Some r -> heap s !! r = Some o ->
     Order.symbol o <> sym' ->
     symbol_view sym' (snd (cancel_order order_id user_id now s)) = symbol_view sym' s /\
     forall x o', heap s !! x = Some o' -> Order.symbol o' = sym' ->
                  heap (snd (cancel_order order_id user_id now s)) !! x = Some o').
Proof.
  intros Hreach. pose proof (reachable_wf _ Hreach) as W.
  pose proof (reachable_lists_ok _ Hreach) as L. split.
  - intros o now Hne. split; [apply submit_other; [apply W | done]|].
    intros x o' Hx Hsym. apply submit_other_objects; [done | done | congruence].
  - intros order_id user_id now r o E Ho Hne. split; [by eapply cancel_other|].
    intros x o' Hx Hsym. rewrite cancel_order_frame; [done|].
    rewrite E. intros [= ->]. congruence.
Qed.

Lemma X11_symbol_isolation_witness :
  let s := run [Submit (new_Order "a" "X/Y" SELL LIMIT 1 (Some 100%Q) 1 "A") 1;
                Submit (new_Order "b" "U/V" SELL LIMIT 1 (Some 7%Q) 2 "B") 2] init in
  let o := new_Order "c" "U/V" BUY LIMIT 1 (Some 7%Q) 3 "C" in
  symbol_view "X/Y" (snd (submit o 3 s)) = symbol_view "X/Y" s.
Proof.
  intros s o.
  destruct (X11_symbol_isolation s "X/Y") as [H _]; [by eexists|].
  by apply H.
Defined.

Lemma submit_rests o now s ts s' :
  refs_ok s -> submit o now s = (Ok ts, s') -> _validate_order o = true ->
  exists o', heap s' !! length (heap s) = Some o' /\ order_evolves o o' /\
    lists_of (Order.symbol o) s' =
      if OrderStatus_eqb (Order.status o') FILLED then lists_of (Order.symbol o) s
      else rested (Order.side o) (length (heap s)) (lists_of (Order.symbol o) s).
Proof.
  intros R Hsub Hv. destruct (submit_cases o now s) as [[Hv' _]|[_ E]]; [congruence|].
  rewrite E in Hsub. set (r := length (heap s)) in *.
  set (s0 := stored r o now (allocated o s)) in *.
  assert (Hr : heap s0 !! r = Some o).
  { unfold s0. rewrite heap_stored. apply lookup_snoc. }
  assert (Hn : not_resting r s0).
  { apply not_resting_stored. intros sym so Hso. exact (not_resting_fresh s R sym so Hso). }
  pose proof (after_store_lists r o now s0 (Order.symbol o) Hr Hn) as Hl.
  rewrite Hsub in Hl. cbn [snd] in Hl.
  destruct (_match_order r now s0) as [[ts'|e] s1] eqn:Em; cbn [fst] in Hl.
  2:{ unfold after_store in Hsub. rewrite bind_eq, Em in Hsub. discriminate. }
  destruct Hl as (o' & Hr' & Hev & Hl). exists o'. split; [done|]. split; [done|].
  rewrite Hl. unfold s0. rewrite lists_of_stored. rewrite String.eqb_refl, andb_true_r.
  unfold lists_of, allocated. cbn [orders_by_symbol set_heap].
  by destruct (OrderStatus_eqb (Order.status o') FILLED).
Qed.

(** X12: [process_order] rests what is left.  In a state the engine reaches,
    when the submission of an order that passes validation returns, the
    order's reference has been appended to the resting list of its side and
    symbol unless its status is then [Filled], in which case the lists are as
    before; no other reference is added, moved or removed.  A submission that
    fails validation leaves the resting lists as they are. *)
Theorem X12_submit_rests_remainder s o now ts s' :
  reachable s -> submit o now s = (Ok ts, s') ->
  (_validate_order o = true ->
   exists o', heap s' !! length (heap s) = Some o' /\ static o' = static o /\
     lists_of (Order.symbol o) s' =
       if OrderStatus_eqb (Order.status o') FILLED then lists_of (Order.symbol o) s
       else rested (Order.side o) (length (heap s)) (lists_of (Order.symbol o) s)) /\
  (_validate_order o = false -> forall sym, lists_of sym s' = lists_of sym s) /\
  (forall sym, sym <> Order.symbol o -> lists_of sym s' = lists_of sym s).
Proof.
  intros Hreach Hsub. pose proof (reachable_wf _ Hreach) as (R & _ & _).
  split; [|split].
  - intros Hv. destruct (submit_rests o now s ts s' R Hsub Hv) as (o' & H1 & [H2 _ _] & H3).
    by exists o'.
  - intros Hv sym. rewrite (submit_rejects _ now s Hv) in Hsub. by injection Hsub as _ <-.
  - intros sym Hne.
    assert (H : symbol_view sym (snd (submit o now s)) = symbol_view sym s)
      by (apply submit_other; [done | congruence]).
    rewrite Hsub in H. unfold symbol_view in H. cbn [snd] in H. congruence.
Qed.

Lemma X12_submit_rests_remainder_witness :
  let s := run [Submit (new_Order "a" "X/Y" SELL LIMIT 1 (Some 100%Q) 1 "A") 1] init in
  let o := new_Order "b" "X/Y" BUY LIMIT 3 (Some 100%Q) 2 "B" in
  match submit o 2 s with
  | (Ok ts, s') => lists_of "X/Y" s' = mkSymbolOrders [1%nat] [0%nat]
  | (Raise _, _) => False
  end.
Proof.
  intros s o. destruct (submit o 2 s) as [[ts|e] s'] eqn:E.
  - destruct (X12_submit_rests_remainder s o 2 ts s') as [H _]; [by eexists | exact E |].
    destruct (H eq_refl) as (o' & Ho' & _ & Hl).
    change (Order.symbol o) with "X/Y" in Hl. rewrite Hl.
    replace (OrderStatus_eqb (Order.status o') FILLED) with false; [by vm_compute|].
    assert (Hs : heap s' = heap (snd (submit o 2 s))) by by rewrite E.
    rewrite Hs in Ho'. vm_compute in Ho'. by injection Ho' as <-.
  - vm_compute in E. discriminate.
Defined.

(** ** Calls that return *)

Lemma trade_price_of_priced b sl :
  has_price b -> has_price sl -> exists p, trade_price_of b sl = Some p.
Proof.
  intros [pb Hb] [ps Hs]. unfold trade_price_of. rewrite Hb, Hs.
  destruct (OrderType_eqb _ MARKET); [by eexists|].
  destruct (OrderType_eqb _ MARKET); [by eexists|].
  destruct (_ <? _)%Z; by eexists.
Qed.

Lemma after_trade_healthy q p now o :
  healthy o -> (0 < q)%Q -> (q <= Order.remaining o)%Q ->
  exists o', after_trade q (Some p) now o = (Ok tt, o') /\ healthy o'.
Proof.
  intros (Hp & Hf & Hst) Hq Hrem. unfold Order.remaining in Hrem.
  unfold after_trade. cbn [Order.filled_quantity Order.set_filled_quantity].
  assert (Hnz : Qeq_bool (Order.filled_quantity o + q) 0 = false).
  { apply Qeq_bool_false. lra. }
  assert (Hfin : forall avg,
    healthy (finish now (Order.set_average_price (Some avg)
               (Order.set_filled_quantity (Order.filled_quantity o + q)%Q o)))).
  { intros avg. unfold finish, healthy, has_price, status_reflects_fills.
    cbn [Order.quantity Order.filled_quantity Order.set_average_price
         Order.set_filled_quantity].
    destruct (Qle_bool (Order.quantity o) (Order.filled_quantity o + q)) eqn:E;
      cbn [Order.price Order.status Order.filled_quantity Order.quantity
           Order.average_price Order.set_status Order.set_updated_at
           Order.set_average_price Order.set_filled_quantity].
    - apply Qle_bool_iff in E. split; [done|]. split; [lra|]. split; [lra|].
      split; [lra | done].
    - apply Qle_bool_false in E. split; [done|]. split; [lra|]. split; [lra|].
      split; [lra | done]. }
  destruct (Order.average_price o) as [a|].
  - rewrite Hnz. eexists. split; [reflexivity | apply Hfin].
  - eexists. split; [reflexivity | apply Hfin].
Qed.

Lemma after_trade_not_pending q p now o o' :
  after_trade q p now o = (Ok tt, o') -> Order.status o' <> PENDING.
Proof.
  intros H. rewrite (after_trade_Ok_status _ _ _ _ _ H). by destruct (Qle_bool _ _).
Qed.

Lemma executed_healthy b sl now :
  healthy b -> healthy sl ->
  Qle_bool (py_min (Order.remaining b) (Order.remaining sl)) 0 = false ->
  exists t b' sl',
    executed b sl now = (Ok (Some t), b', sl') /\ healthy b' /\ healthy sl' /\
    trade_has_price t /\ Order.status b' <> PENDING /\ Order.status sl' <> PENDING.
Proof.
  intros Hb Hs Eq. unfold executed. rewrite Eq.
  apply Qle_bool_false in Eq.
  destruct (py_min_spec (Order.remaining b) (Order.remaining sl)) as (H1 & H2 & _).
  destruct (trade_price_of_priced b sl) as [p Hp]; [apply Hb | apply Hs|].
  rewrite Hp.
  destruct (after_trade_healthy _ p now b Hb Eq H1) as (b' & Eb & Hb').
  destruct (after_trade_healthy _ p now sl Hs Eq H2) as (sl' & Es & Hs').
  rewrite Eb, Es.
  exists (trade_of b sl now), b', sl'. do 3 (split; [done|]).
  split; [by exists p|]. split; by eapply after_trade_not_pending.
Qed.

Lemma execute_trade_trades rb rs now s b sl :
  rb <> rs -> heap s !! rb = Some b -> heap s !! rs = Some sl -> all_healthy s ->
  Qle_bool (py_min (Order.remaining b) (Order.remaining sl)) 0 = false ->
  exists t b' sl',
    executed b sl now = (Ok (Some t), b', sl') /\
    _execute_trade rb rs now s =
      (Ok (Some t), set_heap (<[rs := sl']> (<[rb := b']> (heap s))) s) /\
    healthy b' /\ healthy sl' /\ trade_has_price t /\
    Order.status b' <> PENDING /\ Order.status sl' <> PENDING.
Proof.
  intros Hne Hb Hs H Eq.
  rewrite (execute_trade_eq _ _ _ now _ _ Hb Hs Hne).
  destruct (executed_healthy b sl now) as (t & b' & sl' & E & Hrest);
    [by eapply H | by eapply H | done|].
  rewrite E. by exists t, b', sl'.
Qed.

Lemma all_healthy_insert2 rb rs b' sl' s :
  all_healthy s -> healthy b' -> healthy sl' ->
  all_healthy (set_heap (<[rs := sl']> (<[rb := b']> (heap s))) s).
Proof.
  intros H Hb Hs r o. cbn [heap set_heap]. intros Ho.
  apply list_lookup_insert_Some in Ho as [(-> & <- & _)|[_ Ho]]; [done|].
  apply list_lookup_insert_Some in Ho as [(-> & <- & _)|[_ Ho]]; [done | by eapply H].
Qed.

Lemma pending_after_insert2 (h : list Order.t) rb rs b' sl' x o' :
  Order.status b' <> PENDING -> Order.status sl' <> PENDING ->
  <[rs := sl']> (<[rb := b']> h) !! x = Some o' -> Order.status o' = PENDING ->
  h !! x = Some o' /\ x <> rb /\ x <> rs.
Proof.
  intros Hb Hs Ho Hp.
  apply list_lookup_insert_Some in Ho as [(-> & <- & _)|[Hx Ho]]; [done|].
  apply list_lookup_insert_Some in Ho as [(-> & <- & _)|[Hx' Ho]]; [done|].
  by repeat split.
Qed.

Lemma no_trade_no_remaining a b :
  Qle_bool (py_min a b) 0 = true -> (0 < a)%Q -> (0 < b)%Q -> False.
Proof.
  intros H Ha Hb. apply Qle_bool_iff in H.
  destruct (py_min_spec a b) as (_ & _ & [E|E]); rewrite E in H; lra.
Qed.

Section MatchingPass.
Context (Inv : State -> Prop).
Hypothesis Inv_traded : forall s rb rs b sl now t b' sl',
  Inv s -> all_healthy s -> rb <> rs ->
  heap s !! rb = Some b -> heap s !! rs = Some sl ->
  executed b sl now = (Ok (Some t), b', sl') ->
  Inv (set_trades (trades s ++ [t])
         (set_heap (<[rs := sl']> (<[rb := b']> (heap s))) s)).
Hypothesis Inv_frame : forall s s',
  heap s' = heap s -> trades s' = trades s -> Inv s -> Inv s'.

Lemma match_buy_loop_returns r cs now s :
  ~ In r cs -> (r < length (heap s))%nat ->
  (forall c, In c cs -> (c < length (heap s))%nat) -> all_healthy s -> Inv s ->
  exists ts s',
    match_buy_loop r cs now s = (Ok ts, s') /\ all_healthy s' /\ Inv s' /\
    Forall trade_has_price ts /\
    (forall x o', heap s' !! x = Some o' -> Order.status o' = PENDING ->
                  heap s !! x = Some o') /\
    (forall b o', heap s !! r = Some b -> (0 < Order.remaining b)%Q ->
       heap s' !! r = Some o' -> Order.status o' = PENDING ->
       forall c sl, In c cs -> heap s !! c = Some sl -> (0 < Order.remaining sl)%Q ->
                    _price_matches b sl = false).
Proof using Inv_traded.
  revert s. induction cs as [|c cs IH]; intros s Hnin Hr Hcs H HI; cbn [match_buy_loop].
  { exists [], s. do 3 (split; [done|]). split; [constructor|]. split; [done|].
    by intros b o' _ _ _ _ c sl []. }
  assert (Hne : r <> c) by (intros ->; apply Hnin; by left).
  assert (Hnin' : ~ In r cs) by (intros ?; apply Hnin; by right).
  assert (Hc : (c < length (heap s))%nat) by (apply Hcs; by left).
  assert (Hcs' : forall c', In c' cs -> (c' < length (heap s))%nat)
    by (intros; apply Hcs; by right).
  destruct (lookup_lt_is_Some_2 _ _ Hr) as [b Hb].
  destruct (lookup_lt_is_Some_2 _ _ Hc) as [sl Hs].
  rewrite bind_eq, (deref_Some _ _ _ Hb).
  destruct (Qle_bool (Order.quantity b - Order.filled_quantity b) 0) eqn:Eg.
  { exists [], s. do 3 (split; [done|]). split; [constructor|]. split; [done|].
    intros b0 o' Hb0 Hrem. rewrite Hb in Hb0. injection Hb0 as <-.
    apply Qle_bool_iff in Eg. unfold Order.remaining in Hrem. lra. }
  rewrite bind_eq, (deref_Some _ _ _ Hs).
  destruct (_price_matches b sl) eqn:Em; cbn [negb].
  2:{ destruct (IH s Hnin' Hr Hcs' H HI) as (ts & s' & E & H' & HI' & Hts & P1 & P2).
      exists ts, s'. do 5 (split; [done|]).
      intros b0 o' Hb0 Hrem Ho' Hp c0 sl0 [<-|Hc0] Hsl0 Hrem0.
      - congruence.
      - by eapply P2. }
  rewrite bind_eq.
  destruct (Qle_bool (py_min (Order.remaining b) (Order.remaining sl)) 0) eqn:Eq.
  - rewrite (execute_trade_no_trade _ _ _ _ _ _ Hb Hs Eq).
    destruct (IH s Hnin' Hr Hcs' H HI) as (ts & s' & E & H' & HI' & Hts & P1 & P2).
    exists ts, s'. do 5 (split; [done|]).
    intros b0 o' Hb0 Hrem Ho' Hp c0 sl0 [<-|Hc0] Hsl0 Hrem0.
    + exfalso. rewrite Hb in Hb0. rewrite Hs in Hsl0.
      injection Hb0 as <-. injection Hsl0 as <-.
      by eapply no_trade_no_remaining.
    + by eapply P2.
  - destruct (execute_trade_trades r c now s b sl Hne Hb Hs H Eq)
      as (t & b' & sl' & Ex & -> & Hb' & Hs' & Ht & Pb & Ps).
    set (s1 := set_heap (<[c := sl']> (<[r := b']> (heap s))) s).
    assert (Hl : length (heap s1) = length (heap s)).
    { unfold s1. cbn [heap set_heap]. by rewrite !length_insert. }
    rewrite bind_eq. cbn [modify]. rewrite bind_eq.
    destruct (IH (set_trades (trades s1 ++ [t]) s1) Hnin')
      as (ts & s' & E & H' & HI' & Hts & P1 & P2).
    { cbn [heap set_trades]. lia. }
    { intros c' Hc'. cbn [heap set_trades]. rewrite Hl. by apply Hcs'. }
    { by apply all_healthy_insert2. }
    { by apply (Inv_traded s r c b sl now). }
    rewrite E. exists (t :: ts), s'. do 3 (split; [done|]).
    split; [by constructor|]. split.
    + intros x o' Ho' Hp. specialize (P1 x o' Ho' Hp). cbn [heap set_trades] in P1.
      unfold s1 in P1. cbn [heap set_heap] in P1.
      by apply (pending_after_insert2 _ _ _ _ _ _ _ Pb Ps) in P1 as [P1 _].
    + intros b0 o' Hb0 Hrem Ho' Hp. exfalso.
      specialize (P1 r o' Ho' Hp). cbn [heap set_trades] in P1.
      unfold s1 in P1. cbn [heap set_heap] in P1.
      apply (pending_after_insert2 _ _ _ _ _ _ _ Pb Ps) in P1 as (_ & P1 & _); [done | done].
Qed.

Lemma match_sell_loop_returns r cs now s :
  ~ In r cs -> (r < length (heap s))%nat ->
  (forall c, In c cs -> (c < length (heap s))%nat) -> all_healthy s -> Inv s ->
  exists ts s',
    match_sell_loop r cs now s = (Ok ts, s') /\ all_healthy s' /\ Inv s' /\
    Forall trade_has_price ts /\
    (forall x o', heap s' !! x = Some o' -> Order.status o' = PENDING ->
                  heap s !! x = Some o') /\
    (forall sl o', heap s !! r = Some sl -> (0 < Order.remaining sl)%Q ->
       heap s' !! r = Some o' -> Order.status o' = PENDING ->
       forall c b, In c cs -> heap s !! c = Some b -> (0 < Order.remaining b)%Q ->
                   _price_matches b sl = false).
Proof using Inv_traded.
  revert s. induction cs as [|c cs IH]; intros s Hnin Hr Hcs H HI; cbn [match_sell_loop].
  { exists [], s. do 3 (split; [done|]). split; [constructor|]. split; [done|].
    by intros b o' _ _ _ _ c sl []. }
  assert (Hne : c <> r) by (intros ->; apply Hnin; by left).
  assert (Hnin' : ~ In r cs) by (intros ?; apply Hnin; by right).
  assert (Hc : (c < length (heap s))%nat) by (apply Hcs; by left).
  assert (Hcs' : forall c', In c' cs -> (c' < length (heap s))%nat)
    by (intros; apply Hcs; by right).
  destruct (lookup_lt_is_Some_2 _ _ Hr) as [sl Hs].
  destruct (lookup_lt_is_Some_2 _ _ Hc) as [b Hb].
  rewrite bind_eq, (deref_Some _ _ _ Hs).
  destruct (Qle_bool (Order.quantity sl - Order.filled_quantity sl) 0) eqn:Eg.
  { exists [], s. do 3 (split; [done|]). split; [constructor|]. split; [done|].
    intros sl0 o' Hsl0 Hrem. rewrite Hs in Hsl0. injection Hsl0 as <-.
    apply Qle_bool_iff in Eg. unfold Order.remaining in Hrem. lra. }
  rewrite bind_eq, (deref_Some _ _ _ Hb).
  destruct (_price_matches b sl) eqn:Em; cbn [negb].
  2:{ destruct (IH s Hnin' Hr Hcs' H HI) as (ts & s' & E & H' & HI' & Hts & P1 & P2).
      exists ts, s'. do 5 (split; [done|]).
      intros sl0 o' Hsl0 Hrem Ho' Hp c0 b0 [<-|Hc0] Hb0 Hrem0.
      - congruence.
      - by eapply P2. }
  rewrite bind_eq.
  destruct (Qle_bool (py_min (Order.remaining b) (Order.remaining sl)) 0) eqn:Eq.
  - rewrite (execute_trade_no_trade _ _ _ _ _ _ Hb Hs Eq).
    destruct (IH s Hnin' Hr Hcs' H HI) as (ts & s' & E & H' & HI' & Hts & P1 & P2).
    exists ts, s'. do 5 (split; [done|]).
    intros sl0 o' Hsl0 Hrem Ho' Hp c0 b0 [<-|Hc0] Hb0 Hrem0.
    + exfalso. rewrite Hb in Hb0. rewrite Hs in Hsl0.
      injection Hb0 as <-. injection Hsl0 as <-.
      by eapply no_trade_no_remaining.
    + by eapply P2.
  - destruct (execute_trade_trades c r now s b sl Hne Hb Hs H Eq)
      as (t & b' & sl' & Ex & -> & Hb' & Hs' & Ht & Pb & Ps).
    set (s1 := set_heap (<[r := sl']> (<[c := b']> (heap s))) s).
    assert (Hl : length (heap s1) = length (heap s)).
    { unfold s1. cbn [heap set_heap]. by rewrite !length_insert. }
    rewrite bind_eq. cbn [modify]. rewrite bind_eq.
    destruct (IH (set_trades (trades s1 ++ [t]) s1) Hnin')
      as (ts & s' & E & H' & HI' & Hts & P1 & P2).
    { cbn [heap set_trades]. lia. }
    { intros c' Hc'. cbn [heap set_trades]. rewrite Hl. by apply Hcs'. }
    { by apply all_healthy_insert2. }
    { by apply (Inv_traded s c r b sl now). }
    rewrite E. exists (t :: ts), s'. do 3 (split; [done|]).
    split; [by constructor|]. split.
    + intros x o' Ho' Hp. specialize (P1 x o' Ho' Hp). cbn [heap set_trades] in P1.
      unfold s1 in P1. cbn [heap set_heap] in P1.
      by apply (pending_after_insert2 _ _ _ _ _ _ _ Pb Ps) in P1 as [P1 _].
    + intros sl0 o' Hsl0 Hrem Ho' Hp. exfalso.
      specialize (P1 r o' Ho' Hp). cbn [heap set_trades] in P1.
      unfold s1 in P1. cbn [heap set_heap] in P1.
      apply (pending_after_insert2 _ _ _ _ _ _ _ Pb Ps) in P1 as (_ & _ & P1); [done | done].
Qed.

Lemma pending_refs_valid inc sym s c :
  In c (pending_refs inc sym s) -> (c < length (heap s))%nat.
Proof.
  intros H. apply pending_refs_pending in H as (o & Ho & _). by eapply lookup_lt_Some.
Qed.

Lemma buy_candidates_returns sym s :
  refs_ok s -> exists cs s', buy_candidates sym s = (Ok cs, s').
Proof.
  intros R. unfold buy_candidates. rewrite bind_eq.
  destruct (symbol_orders_eq sym s) as (s1 & -> & Hh & _ & Hget & _ & R1).
  destruct (R1 R _ _ Hget) as [_ Hs].
  unfold pending_of. rewrite !bind_eq, (deref_all_objects _ _ Hs). by eexists _, _.
Qed.

Lemma sell_candidates_returns sym s :
  refs_ok s -> exists cs s', sell_candidates sym s = (Ok cs, s').
Proof.
  intros R. unfold sell_candidates. rewrite bind_eq.
  destruct (symbol_orders_eq sym s) as (s1 & -> & Hh & _ & Hget & _ & R1).
  destruct (R1 R _ _ Hget) as [Hb _].
  unfold pending_of. rewrite !bind_eq, (deref_all_objects _ _ Hb). by eexists _, _.
Qed.

Lemma all_healthy_heap s s' : heap s' = heap s -> all_healthy s -> all_healthy s'.
Proof. intros E H r o. rewrite E. apply H. Qed.

Lemma match_order_returns r o now s :
  heap s !! r = Some o -> not_resting r s -> refs_ok s ->
  dict_mem (Order.symbol o) (order_books s) = true -> all_healthy s -> Inv s ->
  exists ts s',
    _match_order r now s = (Ok ts, s') /\ all_healthy s' /\ Inv s' /\
    Forall trade_has_price ts /\ pending_kept r o s s'.
Proof using Inv_traded Inv_frame.
  intros Hr Hn R Hbook H HI.
  assert (Hlt : (r < length (heap s))%nat) by by eapply lookup_lt_Some.
  unfold _match_order. rewrite bind_eq, (deref_Some _ _ _ Hr), bind_eq.
  unfold order_book at 1. unfold dict_mem in Hbook.
  destruct (dict_get (Order.symbol o) (order_books s)) as [ob|]; [|done].
  unfold pending_kept, unmatched.
  destruct (OrderSide_eqb (Order.side o) BUY) eqn:Eside.
  - apply OrderSide_eqb_eq in Eside. rewrite Eside.
    unfold _match_buy_order. rewrite bind_eq, (deref_Some _ _ _ Hr), bind_eq.
    destruct (buy_candidates_returns (Order.symbol o) s R) as (cs & s1 & E). rewrite E.
    destruct (buy_candidates_sorted _ _ _ _ E) as (Hh & Hperm & _).
    pose proof (keeps_buy_candidates trades (fun _ _ => eq_refl) (Order.symbol o) s) as Kt.
    rewrite E in Kt. cbn [snd] in Kt.
    destruct (match_buy_loop_returns r cs now s1)
      as (ts & s' & E' & H' & HI' & Hts & P1 & P2).
    + intros Hin. apply (Permutation_in _ Hperm) in Hin.
      by apply not_resting_pending in Hin.
    + by rewrite Hh.
    + intros c Hc. apply (Permutation_in _ Hperm) in Hc. rewrite Hh.
      by eapply pending_refs_valid.
    + by apply (all_healthy_heap s).
    + by apply (Inv_frame s).
    + rewrite Hh in P1, P2. exists ts, s'. do 4 (split; [done|]). split; [done|].
      intros o' Ho' Hp Hrem c oc Hc Hoc Hremc.
      eapply (P2 o o' Hr Hrem Ho' Hp c oc); [|done..].
      by apply (Permutation_in _ (Permutation_sym Hperm)).
  - assert (Order.side o = SELL) as Es.
    { destruct (Order.side o); [discriminate | done]. }
    rewrite Es.
    unfold _match_sell_order. rewrite bind_eq, (deref_Some _ _ _ Hr), bind_eq.
    destruct (sell_candidates_returns (Order.symbol o) s R) as (cs & s1 & E). rewrite E.
    destruct (sell_candidates_sorted _ _ _ _ E) as (Hh & Hperm & _).
    pose proof (keeps_sell_candidates trades (fun _ _ => eq_refl) (Order.symbol o) s) as Kt.
    rewrite E in Kt. cbn [snd] in Kt.
    destruct (match_sell_loop_returns r cs now s1)
      as (ts & s' & E' & H' & HI' & Hts & P1 & P2).
    + intros Hin. apply (Permutation_in _ Hperm) in Hin.
      by apply not_resting_pending in Hin.
    + by rewrite Hh.
    + intros c Hc. apply (Permutation_in _ Hperm) in Hc. rewrite Hh.
      by eapply pending_refs_valid.
    + by apply (all_healthy_heap s).
    + by apply (Inv_frame s).
    + rewrite Hh in P1, P2. exists ts, s'. do 4 (split; [done|]). split; [done|].
      intros o' Ho' Hp Hrem c oc Hc Hoc Hremc.
      eapply (P2 o o' Hr Hrem Ho' Hp c oc); [|done..].
      by apply (Permutation_in _ (Permutation_sym Hperm)).
Qed.

Lemma add_to_orderbook_returns r now s o :
  heap s !! r = Some o -> refs_ok s ->
  dict_mem (Order.symbol o) (order_books s) = true ->
  exists s', _add_to_orderbook r now s = (Ok tt, s').
Proof.
  intros Hr R Hbook.
  assert (Hlt : (r < length (heap s))%nat) by by eapply lookup_lt_Some.
  unfold _add_to_orderbook. rewrite bind_eq, (deref_Some _ _ _ Hr), bind_eq.
  destruct (symbol_orders_eq (Order.symbol o) s) as (s1 & -> & Hh & Hb & Hget & _ & R1).
  rewrite bind_eq. cbn [modify].
  set (so := if OrderSide_eqb (Order.side o) BUY then _ else _).
  set (s2 := set_orders_by_symbol _ s1).
  unfold dict_mem in Hbook.
  destruct (dict_get (Order.symbol o) (order_books s)) as [ob|] eqn:Hob; [|done].
  rewrite (update_orderbook_snapshot_eq (Order.symbol o) now s2 so ob).
  - by eexists.
  - unfold s2. cbn [orders_by_symbol set_orders_by_symbol]. apply dict_get_set_eq.
  - unfold s2. cbn [order_books set_orders_by_symbol]. by rewrite Hb.
  - destruct (R1 R _ _ Hget) as [Hvb Hvs].
    apply refs_ok_set; [| |by apply R1]; unfold so;
      destruct (OrderSide_eqb (Order.side o) BUY); cbn [buy_orders sell_orders];
      intros x Hx; rewrite ?in_app_iff in Hx; rewrite Hh;
      try (destruct Hx as [Hx|[<-|[]]]; [|done]); rewrite <- Hh; auto.
Qed.

Lemma update_md_returns sym f s :
  dict_mem sym (market_data s) = true ->
  exists s', update_md sym f s = (Ok tt, s') /\
             dict_mem sym (market_data s') = true /\ order_books s' = order_books s.
Proof.
  unfold update_md, dict_mem. intros H.
  destruct (dict_get sym (market_data s)) as [md|]; [|done].
  eexists. split; [reflexivity|]. cbn [market_data set_market_data order_books].
  by rewrite dict_get_set_eq.
Qed.

Lemma update_market_data_returns sym t now s :
  dict_mem sym (order_books s) = true -> md_ok s -> trade_has_price t ->
  exists s', _update_market_data sym t now s = (Ok tt, s').
Proof.
  intros Hbook Hmd [p Hp]. unfold _update_market_data. rewrite bind_eq. cbn [modify].
  set (s0 := if dict_mem sym (market_data s) then s else _).
  assert (H0 : exists md old, dict_get sym (market_data s0) = Some md /\
                              MarketData.last_price md = Some old).
  { unfold s0, dict_mem. destruct (dict_get sym (market_data s)) as [md|] eqn:E.
    - destruct (Hmd _ _ E) as [old Hold]. by exists md, old.
    - eexists _, p. cbn [market_data set_market_data]. rewrite dict_get_set_eq.
      split; [reflexivity|]. exact Hp. }
  assert (Hb0 : order_books s0 = order_books s).
  { unfold s0. by destruct (dict_mem sym (market_data s)). }
  destruct H0 as (md & old & Hget & Hold).
  rewrite bind_eq. cbn [get]. rewrite Hget.
  assert (Hm0 : dict_mem sym (market_data s0) = true) by (unfold dict_mem; by rewrite Hget).
  rewrite bind_eq.
  destruct (update_md_returns sym (MarketData.set_last_price (Trade.price t)) s0 Hm0)
    as (s1 & -> & Hm1 & Hb1).
  rewrite bind_eq. unfold order_book at 1. rewrite Hb1, Hb0. unfold dict_mem in Hbook.
  destruct (dict_get sym (order_books s)) as [ob|]; [|done].
  rewrite bind_eq.
  assert (E2 : exists s2,
    (match OrderBook.bids ob with
     | top :: _ => update_md sym (MarketData.set_bid (Level.price top))
     | [] => ret tt
     end) s1 = (Ok tt, s2) /\ dict_mem sym (market_data s2) = true).
  { destruct (OrderBook.bids ob) as [|top ?]; [by exists s1|].
    destruct (update_md_returns sym (MarketData.set_bid (Level.price top)) s1 Hm1)
      as (s2 & -> & Hm2 & _). by exists s2. }
  destruct E2 as (s2 & -> & Hm2). rewrite bind_eq.
  assert (E3 : exists s3,
    (match OrderBook.asks ob with
     | top :: _ => update_md sym (MarketData.set_ask (Level.price top))
     | [] => ret tt
     end) s2 = (Ok tt, s3) /\ dict_mem sym (market_data s3) = true).
  { destruct (OrderBook.asks ob) as [|top ?]; [by exists s2|].
    destruct (update_md_returns sym (MarketData.set_ask (Level.price top)) s2 Hm2)
      as (s3 & -> & Hm3 & _). by exists s3. }
  destruct E3 as (s3 & -> & Hm3). rewrite bind_eq, Hold, Hp.
  assert (E4 : exists s4,
    (if Qpos_bool old
     then update_md sym (MarketData.set_change_24h (((p - old) / old) * 100)%Q)
     else ret tt) s3 = (Ok tt, s4) /\ dict_mem sym (market_data s4) = true).
  { destruct (Qpos_bool old); [|by exists s3].
    destruct (update_md_returns sym (MarketData.set_change_24h (((p - old) / old) * 100)%Q)
                s3 Hm3) as (s4 & -> & Hm4 & _). by exists s4. }
  destruct E4 as (s4 & -> & Hm4).
  destruct (update_md_returns sym (MarketData.set_timestamp now) s4 Hm4) as (s5 & -> & _).
  by exists s5.
Qed.

Lemma update_market_data_md_ok sym t now s s' :
  dict_mem sym (order_books s) = true -> md_ok s -> trade_has_price t ->
  _update_market_data sym t now s = (Ok tt, s') -> md_ok s'.
Proof.
  intros Hbook Hmd [p Hp] E. unfold dict_mem in Hbook.
  destruct (dict_get sym (order_books s)) as [ob|] eqn:Hob; [|done].
  destruct (update_market_data_Ok _ _ _ _ _ _ Hob E) as [-> _].
  intros sym' md. cbn [market_data set_market_data]. rewrite dict_get_set.
  destruct (String.eqb sym' sym).
  - intros [= <-]. exists p. exact Hp.
  - apply Hmd.
Qed.

Lemma last_Forall {A} (P : A -> Prop) l x : Forall P l -> last l = Some x -> P x.
Proof.
  intros H Hl. rewrite List.Forall_forall in H. apply H.
  apply last_Some in Hl as [l' ->]. apply in_app_iff. right. by left.
Qed.

Lemma after_store_returns r o now s :
  heap s !! r = Some o -> not_resting r s -> refs_ok s ->
  dict_mem (Order.symbol o) (order_books s) = true -> all_healthy s -> Inv s -> md_ok s ->
  exists ts s',
    after_store r (Order.symbol o) now s = (Ok ts, s') /\ all_healthy s' /\ Inv s' /\
    md_ok s' /\ pending_kept r o s s'.
Proof using Inv_traded Inv_frame.
  intros Hr Hn R Hbook H HI Hmd. unfold after_store. rewrite bind_eq.
  destruct (match_order_returns r o now s Hr Hn R Hbook H HI)
    as (ts & s1 & E & H1 & HI1 & Hts & Pk).
  pose proof (match_order_step r now s Hn) as St. rewrite E in St |- *. cbn [snd] in St.
  pose proof (keeps_match_order market_data (fun _ _ => eq_refl) (fun _ _ => eq_refl)
                (fun _ _ => eq_refl) r now s) as Km. rewrite E in Km. cbn [snd] in Km.
  destruct (es_heap _ _ St) as [_ Hev]. destruct (Hev _ _ Hr) as (o' & Hr' & [Hs _ _]).
  assert (Hsym : Order.symbol o' = Order.symbol o).
  { unfold static in Hs. by injection Hs as _ ? _ _ _ _ _ _. }
  rewrite bind_eq, (deref_Some _ _ _ Hr'), bind_eq.
  assert (E2 : exists s2,
    (if negb (OrderStatus_eqb (Order.status o') FILLED)
     then _add_to_orderbook r now else ret tt) s1 = (Ok tt, s2) /\
    heap s2 = heap s1 /\ market_data s2 = market_data s1 /\
    dict_mem (Order.symbol o) (order_books s2) = true /\ trades s2 = trades s1).
  { destruct (negb _).
    - destruct (add_to_orderbook_returns r now s1 o') as [s2 E2].
      + done.
      + by apply (es_refs _ _ St).
      + rewrite Hsym. by apply (es_books _ _ St).
      + exists s2. split; [done|].
        pose proof (keeps_add_to_orderbook heap (fun _ _ => eq_refl) (fun _ _ => eq_refl)
                      r now s1) as K1.
        pose proof (keeps_add_to_orderbook market_data (fun _ _ => eq_refl)
                      (fun _ _ => eq_refl) r now s1) as K2.
        pose proof (keeps_add_to_orderbook trades (fun _ _ => eq_refl)
                      (fun _ _ => eq_refl) r now s1) as K3.
        pose proof (add_to_orderbook_step r now s1) as St2.
        rewrite E2 in K1, K2, K3, St2. cbn [snd] in K1, K2, K3, St2.
        do 2 (split; [done|]). split; [|done].
        apply (es_books _ _ St2), (es_books _ _ St), Hbook.
    - exists s1. do 3 (split; [done|]). split; [|done]. by apply (es_books _ _ St). }
  destruct E2 as (s2 & -> & Hh2 & Hm2 & Hb2 & Ht2). rewrite bind_eq.
  assert (HI2 : Inv s2) by by apply (Inv_frame s1).
  assert (Hmd2 : md_ok s2).
  { intros sym md. rewrite Hm2, Km. apply Hmd. }
  assert (H2 : all_healthy s2) by by apply (all_healthy_heap s1).
  destruct (last ts) as [t|] eqn:El.
  - assert (Ht : trade_has_price t) by by eapply last_Forall.
    destruct (update_market_data_returns (Order.symbol o) t now s2 Hb2 Hmd2 Ht) as [s3 E3].
    pose proof (keeps_update_market_data_heap (Order.symbol o) t now s2) as K.
    rewrite E3 in K. cbn [snd] in K.
    pose proof (keeps_update_market_data trades (fun _ _ => eq_refl)
                  (Order.symbol o) t now s2) as K'.
    rewrite E3 in K'. cbn [snd] in K'.
    rewrite E3. exists ts, s3. split; [done|]. split; [|split; [|split]].
    + by apply (all_healthy_heap s2).
    + by apply (Inv_frame s2).
    + by eapply update_market_data_md_ok.
    + unfold pending_kept. rewrite K, Hh2. exact Pk.
  - exists ts, s2. do 4 (split; [done|]). unfold pending_kept. rewrite Hh2. exact Pk.
Qed.
End MatchingPass.

Lemma new_healthy o : is_new o -> has_price o -> healthy o.
Proof.
  intros (Hs & Hf & Ha) Hp. split; [done|]. rewrite Hf. split; [done|].
  unfold status_reflects_fills. rewrite Hs, Hf. by split.
Qed.

Lemma all_healthy_snoc o s : all_healthy s -> healthy o -> all_healthy (allocated o s).
Proof.
  intros H Ho r x. unfold allocated. cbn [heap set_heap]. intros Hx.
  apply lookup_app_Some in Hx as [Hx|[_ Hx]]; [by eapply H|].
  apply list_lookup_singleton_Some in Hx as [_ <-]. exact Ho.
Qed.

Lemma submit_sound o now s :
  sound s -> is_new o -> has_price o ->
  exists ts s', submit o now s = (Ok ts, s') /\ sound s'.
Proof.
  intros (W & H & Hmd) Hnew Hp.
  pose proof (wf_submit o now s W) as W'.
  destruct (submit_cases o now s) as [[Hv E]|[Hv E]]; rewrite E in W' |- *.
  { eexists _, _. split; [reflexivity|]. split; [exact W'|]. split; [|done].
    apply (all_healthy_snoc (Order.set_status REJECTED o)); [done|].
    destruct (new_healthy o Hnew Hp) as (H1 & H2 & _). by repeat split. }
  set (r := length (heap s)) in *. set (s0 := stored r o now (allocated o s)) in *.
  destruct (after_store_returns (fun _ => True)
              (fun _ _ _ _ _ _ _ _ _ _ _ _ _ _ _ => I) (fun _ _ _ _ _ => I) r o now s0)
    as (ts & s' & E' & H' & _ & Hmd' & _).
  - unfold s0. rewrite heap_stored. apply lookup_snoc.
  - apply not_resting_stored. intros sym so Hso.
    exact (not_resting_fresh s (proj1 W) sym so Hso).
  - apply (wf_stored r o now (allocated o s)); [apply lookup_snoc | done|].
    by apply wf_allocated.
  - unfold s0, stored. cbn [order_books set_active_orders]. apply with_book_mem.
  - apply (all_healthy_heap (allocated o s)); [apply heap_stored|].
    apply all_healthy_snoc; [done | by apply new_healthy].
  - exact I.
  - intros sym md. unfold s0, stored, with_book.
    destruct (dict_mem (Order.symbol o) (order_books (allocated o s))); apply Hmd.
  - rewrite E' in W' |- *. by exists ts, s'.
Qed.

Lemma cancel_sound order_id user_id now s :
  sound s -> exists b s', cancel_order order_id user_id now s = (Ok b, s') /\ sound s'.
Proof.
  intros (W & H & Hmd).
  pose proof (wf_cancel order_id user_id now s W) as W'.
  destruct (dict_get order_id (active_orders s)) as [r|] eqn:E.
  2:{ rewrite (cancel_order_unknown _ _ _ _ E). by exists false, s. }
  pose proof W as (R & A & T). destruct (A _ _ (dict_get_In _ _ _ E)) as (o & Ho & _).
  destruct (String.eqb (Order.user_id o) user_id) eqn:Eu.
  2:{ rewrite (cancel_order_refused _ _ _ _ _ _ E Ho); [by exists false, s|]. left.
      intros Hu. apply String.eqb_eq in Hu. congruence. }
  apply String.eqb_eq in Eu.
  destruct (is_live o) eqn:El.
  2:{ rewrite (cancel_order_refused _ _ _ _ _ _ E Ho); [by exists false, s | by right]. }
  destruct (cancel_order_done order_id user_id now s r o)
    as (s' & ob & Hc & Hh & _ & _ & Hm & _); [done..|].
  rewrite Hc in W' |- *. exists true, s'. split; [done|]. split; [done|]. split.
  - intros x ox. rewrite Hh. intros Hx.
    apply list_lookup_insert_Some in Hx as [(-> & <- & _)|[_ Hx]]; [|by eapply H].
    destruct (H _ _ Ho) as (H1 & H2 & _). by repeat split.
  - intros sym md. rewrite Hm. apply Hmd.
Qed.

Lemma sound_init : sound init.
Proof. split; [apply wf_init|]. split; [by intros r o | by intros sym md]. Qed.

Lemma sound_run ops : priced_submissions ops -> sound (run ops init).
Proof.
  induction ops as [|op ops IH] using rev_ind; intros Hops; [apply sound_init|].
  apply Forall_app in Hops as [Hops Hop]. apply Forall_inv in Hop.
  specialize (IH Hops). rewrite run_snoc. destruct op as [o now|id u now]; cbn [step].
  - destruct Hop as [Hnew Hp].
    destruct (submit_sound o now _ IH Hnew Hp) as (ts & s' & -> & Hs). exact Hs.
  - destruct (cancel_sound id u now _ IH) as (b & s' & -> & Hs). exact Hs.
Qed.

(** X13: no call raises when every submitted order is new and carries a price.
    In a state reached by such submissions and by cancellations, the
    submission of one more new order that carries a price returns its list
    of trades, and every cancellation returns its verdict. *)
Theorem X13_priced_orders_never_raise ops :
  priced_submissions ops ->
  (forall o now, is_new o -> has_price o ->
     exists ts s', submit o now (run ops init) = (Ok ts, s')) /\
  (forall order_id user_id now,
     exists b s', cancel_order order_id user_id now (run ops init) = (Ok b, s')).
Proof.
  intros Hops. pose proof (sound_run ops Hops) as S. split.
  - intros o now Hnew Hp. destruct (submit_sound o now _ S Hnew Hp) as (ts & s' & E & _).
    by exists ts, s'.
  - intros id u now. destruct (cancel_sound id u now _ S) as (b & s' & E & _).
    by exists b, s'.
Qed.

Lemma X13_priced_orders_never_raise_witness :
  let ops := [Submit (new_Order "a" "X/Y" SELL LIMIT 1 (Some 100%Q) 1 "A") 1;
              Submit (new_Order "b" "X/Y" BUY MARKET (1 # 2) (Some 0%Q) 2 "B") 2;
              Cancel "a" "A" 3] in
  priced_submissions ops /\
  exists ts s',
    submit (new_Order "c" "X/Y" BUY STOP 1 (Some 100%Q) 4 "C") 4 (run ops init) = (Ok ts, s').
Proof.
  intros ops.
  assert (Hops : priced_submissions ops).
  { repeat constructor; by eexists. }
  split; [exact Hops|].
  destruct (X13_priced_orders_never_raise ops Hops) as [H _].
  apply H; [by repeat split | by eexists].
Defined.

(** X14: the status says how far an order is filled.  In a state reached by
    submitting new orders that carry a price and by cancelling, every order
    object has a non-negative filled quantity; a [Pending] order has filled
    nothing and has no average price; a [Partial] order has filled a positive
    quantity less than its quantity; a [Filled] order has filled its
    quantity at least; and [Partial] and [Filled] orders have an average
    price. *)
Theorem X14_status_reflects_fills ops r o :
  priced_submissions ops -> heap (run ops init) !! r = Some o ->
  (0 <= Order.filled_quantity o)%Q /\
  (Order.status o = PENDING ->
   (Order.filled_quantity o == 0)%Q /\ Order.average_price o = None) /\
  (Order.status o = PARTIAL ->
   (0 < Order.filled_quantity o)%Q /\ (Order.filled_quantity o < Order.quantity o)%Q /\
   Order.average_price o <> None) /\
  (Order.status o = FILLED ->
   (0 < Order.filled_quantity o)%Q /\ (Order.quantity o <= Order.filled_quantity o)%Q /\
   Order.average_price o <> None).
Proof.
  intros Hops Hr. destruct (sound_run ops Hops) as (_ & H & _).
  destruct (H _ _ Hr) as (_ & Hf & Hst). split; [done|].
  unfold status_reflects_fills in Hst.
  split; [|split]; intros E; rewrite E in Hst; [tauto | tauto|].
  destruct Hst as (H1 & H2 & H3). split; [done|]. split; [|done]. rewrite H2. apply Qle_refl.
Qed.

Lemma X14_status_reflects_fills_witness :
  let ops := [Submit (new_Order "a" "X/Y" SELL LIMIT 1 (Some 100%Q) 1 "A") 1;
              Submit (new_Order "b" "X/Y" BUY LIMIT (8 # 10) (Some 100%Q) 2 "B") 2] in
  match heap (run ops init) !! 0%nat with
  | Some o => Order.status o = PARTIAL /\ (Order.filled_quantity o < Order.quantity o)%Q
  | None => False
  end.
Proof.
  intros ops. destruct (heap (run ops init) !! 0%nat) as [o|] eqn:E; [|by vm_compute in E].
  assert (Hops : priced_submissions ops).
  { repeat constructor; by eexists. }
  destruct (X14_status_reflects_fills ops 0%nat o Hops E) as (_ & _ & H & _).
  assert (Hs : Order.status o = PARTIAL).
  { vm_compute in E. by injection E as <-. }
  split; [exact Hs|]. by apply H.
Defined.

(** ** C6: conservation *)














(** ** [routes.py]: balances and the trade listing *)

Lemma split_slash_nonempty s : split_slash s <> [].
Proof.
  destruct s as [|c s]; cbn [split_slash]; [done|].
  destruct (Ascii.eqb c "/"); [done|]. by destruct (split_slash s).
Qed.

Lemma split_slash_no_slash s : no_slash s -> split_slash s = [s].
Proof.
  induction s as [|c s IH]; cbn [split_slash no_slash]; [done|].
  intros [-> Hs]. by rewrite (IH Hs).
Qed.

Lemma split_slash_app a b :
  no_slash a -> split_slash (a ++ "/" ++ b) = a :: split_slash b.
Proof.
  induction a as [|c a IH]; cbn [no_slash]; [done|].
  intros [Hc Ha]. cbn [String.append split_slash]. rewrite Hc.
  cbn [String.append] in IH. by rewrite (IH Ha).
Qed.

Lemma split_slash_pair base quote :
  no_slash base -> no_slash quote -> split_slash (base ++ "/" ++ quote) = [base; quote].
Proof. intros Hb Hq. by rewrite split_slash_app, split_slash_no_slash. Qed.

Lemma split_slash_parts s : Forall no_slash (split_slash s).
Proof.
  induction s as [|c s IH]; cbn [split_slash]; [by repeat constructor|].
  destruct (Ascii.eqb c "/") eqn:E; [by constructor|].
  destruct (split_slash s) as [|first others]; [by repeat constructor|].
  apply Forall_cons in IH as [H1 H2]. by repeat constructor.
Qed.

Lemma join_split_slash s : join_slash (split_slash s) = s.
Proof.
  induction s as [|c s IH]; cbn [split_slash]; [done|].
  destruct (Ascii.eqb c "/") eqn:E.
  - apply Ascii.eqb_eq in E as ->.
    pose proof (split_slash_nonempty s) as Hne.
    destruct (split_slash s) as [|p rest]; [done|].
    change (join_slash ("" :: p :: rest)) with ("" ++ "/" ++ join_slash (p :: rest))%string.
    by rewrite IH.
  - pose proof (split_slash_nonempty s) as Hne.
    destruct (split_slash s) as [|p rest]; [done|].
    destruct rest as [|p' rest].
    + cbn [join_slash] in *. by rewrite IH.
    + change (join_slash (String c p :: p' :: rest))
        with (String c (p ++ "/" ++ join_slash (p' :: rest))%string).
      change (join_slash (p :: p' :: rest))
        with (p ++ "/" ++ join_slash (p' :: rest))%string in IH.
      by rewrite IH.
Qed.

Lemma get_or_0_unknown c : get_or_0 c [("BTC", 0%Q); ("USDT", 0%Q)] = 0%Q.
Proof.
  unfold get_or_0. cbn [dict_get].
  destruct (String.eqb c "BTC"); [done|]. by destruct (String.eqb c "USDT").
Qed.

(** X15: [check_balance] on a symbol [base/quote].  A buy is covered when the
    user's holding of the quote currency is at least [quantity * price], a
    sell (any side but ["buy"]) when the holding of the base currency is at
    least [quantity]; a currency the user has no entry for counts as 0, and
    so does every currency of a user without an account, who therefore
    passes exactly when the required amount is not positive.  A symbol
    without ["/"] raises [ValueError]. *)
Theorem X15_check_balance user_id base quote side quantity price user_balances :
  no_slash base -> no_slash quote ->
  check_balance user_id (base ++ "/" ++ quote) side quantity price user_balances =
    Returns (if String.eqb side "buy"
             then Qle_bool (quantity * price)
                    (get_or_0 quote (get_user_balance user_id user_balances))
             else Qle_bool quantity
                    (get_or_0 base (get_user_balance user_id user_balances))) /\
  (dict_get user_id user_balances = None ->
   check_balance user_id (base ++ "/" ++ quote) side quantity price user_balances =
     Returns (if String.eqb side "buy" then Qle_bool (quantity * price) 0
              else Qle_bool quantity 0)) /\
  check_balance user_id base side quantity price user_balances = Raises ValueError.
Proof.
  intros Hb Hq.
  assert (E : check_balance user_id (base ++ "/" ++ quote) side quantity price user_balances =
              Returns (if String.eqb side "buy"
                       then Qle_bool (quantity * price)
                              (get_or_0 quote (get_user_balance user_id user_balances))
                       else Qle_bool quantity
                              (get_or_0 base (get_user_balance user_id user_balances)))).
  { unfold check_balance. rewrite (split_slash_pair _ _ Hb Hq).
    by destruct (String.eqb side "buy"). }
  split; [exact E|]. split.
  - intros Hu. rewrite E. unfold get_user_balance. rewrite Hu.
    by rewrite !get_or_0_unknown.
  - unfold check_balance. rewrite (split_slash_no_slash _ Hb).
    by destruct (String.eqb side "buy").
Qed.

Lemma X15_check_balance_witness :
  let user_balances := [("user123", [("BTC", 10%Q); ("USDT", 100000%Q)])] in
  check_balance "user123" "BTC/USDT" "buy" 2 49000 user_balances = Returns true /\
  check_balance "nobody" "BTC/USDT" "sell" 1 49000 user_balances = Returns false.
Proof.
  intros ub.
  destruct (X15_check_balance "user123" "BTC" "USDT" "buy" 2 49000 ub) as (H1 & _ & _);
    [by repeat split | by repeat split|].
  destruct (X15_check_balance "nobody" "BTC" "USDT" "sell" 1 49000 ub) as (_ & H2 & _);
    [by repeat split | by repeat split|].
  split; [exact H1 | by apply H2].
Defined.

Lemma get_or_0_set c c' x d :
  get_or_0 c' (dict_set c x d) = if String.eqb c' c then x else get_or_0 c' d.
Proof. unfold get_or_0. rewrite dict_get_set. by destruct (String.eqb c' c). Qed.

Lemma and_then_inv r k ub' :
  and_then r k = (Returns tt, ub') ->
  exists ub1, r = (Returns tt, ub1) /\ k ub1 = (Returns tt, ub').
Proof.
  destruct r as [[[]|e] ub1]; cbn [and_then]; [|done]. intros H. by exists ub1.
Qed.

Lemma dict_keys_set_known {V} k (v v' : V) d :
  dict_get k d = Some v -> dict_keys (dict_set k v' d) = dict_keys d.
Proof.
  unfold dict_keys. induction d as [|[k0 v0] d IH]; cbn [dict_get dict_set map fst]; [done|].
  destruct (String.eqb k k0) eqn:E; cbn [map fst].
  - apply String.eqb_eq in E as ->. done.
  - intros H. by rewrite (IH H).
Qed.

Lemma add_to_balance_held user currency delta (ub ub' : Balances) :
  add_to_balance user currency delta ub = (Returns tt, ub') ->
  (forall u c, held u c ub' =
     if String.eqb u user && String.eqb c currency then (held u c ub + delta)%Q
     else held u c ub) /\
  (forall u, dict_mem u ub' = dict_mem u ub) /\
  dict_keys ub' = dict_keys ub.
Proof.
  unfold add_to_balance. destruct (dict_get user ub) as [bal|] eqn:Eu; [|done].
  destruct (dict_get currency bal) as [v|] eqn:Ec; [|done]. intros [= <-].
  split; [|split].
  - intros u c. unfold held, get_user_balance. rewrite dict_get_set.
    destruct (String.eqb u user) eqn:E; cbn [andb]; [|done].
    apply String.eqb_eq in E as ->. rewrite Eu, get_or_0_set.
    destruct (String.eqb c currency) eqn:E'; [|done].
    apply String.eqb_eq in E' as ->. unfold get_or_0. by rewrite Ec.
  - intros u. unfold dict_mem. rewrite dict_get_set.
    destruct (String.eqb u user) eqn:E; [|done].
    apply String.eqb_eq in E as ->. by rewrite Eu.
  - by eapply dict_keys_set_known.
Qed.

Lemma held_without_account u c (ub : Balances) : dict_mem u ub = false -> held u c ub = 0%Q.
Proof.
  unfold dict_mem, held, get_user_balance.
  destruct (dict_get u ub); [done|]. intros _. apply get_or_0_unknown.
Qed.

(** X16: settlement is a transfer between two accounts.  When
    [update_balance_after_trade] returns for a trade on a symbol
    [base/quote] between two different users, a buyer with an account holds
    [quantity] more of the base currency and [quantity * price] less of the
    quote currency, a seller with an account [quantity] less of the base
    currency and [quantity * price] more of the quote currency; a party
    without an account gets and gives nothing, every other holding of every
    user is as it was, and no account is added, dropped or moved. *)
Theorem X16_settlement_is_a_transfer trade base quote price user_balances user_balances' :
  split_slash (Trade.symbol trade) = [base; quote] -> base <> quote ->
  Trade.price trade = Some price ->
  Trade.buyer_id trade <> Trade.seller_id trade ->
  update_balance_after_trade trade user_balances = (Returns tt, user_balances') ->
  (dict_mem (Trade.buyer_id trade) user_balances = true ->
   held (Trade.buyer_id trade) base user_balances' =
     (held (Trade.buyer_id trade) base user_balances + Trade.quantity trade)%Q /\
   held (Trade.buyer_id trade) quote user_balances' =
     (held (Trade.buyer_id trade) quote user_balances - Trade.quantity trade * price)%Q) /\
  (dict_mem (Trade.seller_id trade) user_balances = true ->
   held (Trade.seller_id trade) base user_balances' =
     (held (Trade.seller_id trade) base user_balances - Trade.quantity trade)%Q /\
   held (Trade.seller_id trade) quote user_balances' =
     (held (Trade.seller_id trade) quote user_balances + Trade.quantity trade * price)%Q) /\
  (forall u c,
     (u <> Trade.buyer_id trade /\ u <> Trade.seller_id trade) \/
     (c <> base /\ c <> quote) \/ dict_mem u user_balances = false ->
     held u c user_balances' = held u c user_balances) /\
  dict_keys user_balances' = dict_keys user_balances.
Proof.
  intros Hsplit Hbq Hprice Hne. unfold update_balance_after_trade.
  rewrite Hsplit, Hprice.
  set (buyer := Trade.buyer_id trade) in *. set (seller := Trade.seller_id trade) in *.
  set (q := Trade.quantity trade).
  intros H. apply and_then_inv in H as (ub1 & H1 & H2).
  assert (B : (forall u c, held u c ub1 =
                 if dict_mem buyer user_balances && String.eqb u buyer
                 then (if String.eqb c base then (held u c user_balances + q)%Q
                       else if String.eqb c quote then (held u c user_balances - q * price)%Q
                       else held u c user_balances)
                 else held u c user_balances) /\
              (forall u, dict_mem u ub1 = dict_mem u user_balances) /\
              dict_keys ub1 = dict_keys user_balances).
  { destruct (dict_mem buyer user_balances) eqn:Hb; cbn [andb].
    2:{ injection H1 as <-. by repeat split. }
    apply and_then_inv in H1 as (ub0 & H0 & H1).
    destruct (add_to_balance_held _ _ _ _ _ H0) as (A0 & M0 & K0).
    destruct (add_to_balance_held _ _ _ _ _ H1) as (A1 & M1 & K1).
    split; [|split; [intros u; by rewrite M1, M0 | by rewrite K1, K0]].
    intros u c. rewrite A1, A0.
    destruct (String.eqb u buyer); cbn [andb]; [|done].
    destruct (String.eqb c base) eqn:Eb, (String.eqb c quote) eqn:Eq; try done.
    apply String.eqb_eq in Eb, Eq. congruence. }
  destruct B as (B & MB & KB).
  assert (S : (forall u c, held u c user_balances' =
                 if dict_mem seller user_balances && String.eqb u seller
                 then (if String.eqb c base then (held u c ub1 - q)%Q
                       else if String.eqb c quote then (held u c ub1 + q * price)%Q
                       else held u c ub1)
                 else held u c ub1) /\
              dict_keys user_balances' = dict_keys ub1).
  { rewrite MB in H2. destruct (dict_mem seller user_balances) eqn:Hs; cbn [andb].
    2:{ injection H2 as <-. by split. }
    apply and_then_inv in H2 as (ub2 & H2 & H3).
    destruct (add_to_balance_held _ _ _ _ _ H2) as (A2 & M2 & K2).
    destruct (add_to_balance_held _ _ _ _ _ H3) as (A3 & M3 & K3).
    split; [|by rewrite K3, K2].
    intros u c. rewrite A3, A2.
    destruct (String.eqb u seller); cbn [andb]; [|done].
    destruct (String.eqb c base) eqn:Eb, (String.eqb c quote) eqn:Eq; try done.
    apply String.eqb_eq in Eb, Eq. congruence. }
  destruct S as (S & KS).
  assert (Hbs : String.eqb buyer seller = false) by by apply String.eqb_neq.
  assert (Hsb : String.eqb seller buyer = false) by (apply String.eqb_neq; congruence).
  assert (Hqb : String.eqb quote base = false) by (apply String.eqb_neq; congruence).
  split; [|split; [|split]].
  - intros Hb. rewrite !S, !B, Hb, Hbs, !String.eqb_refl, andb_false_r. cbn [andb].
    by rewrite ?Hqb.
  - intros Hs. rewrite !S, !B, Hs, Hsb, !String.eqb_refl, andb_false_r. cbn [andb].
    by rewrite ?Hqb.
  - intros u c Hc. rewrite S, B.
    destruct Hc as [[Hu1 Hu2]|[[Hc1 Hc2]|Hm]].
    + apply String.eqb_neq in Hu1, Hu2. by rewrite Hu1, Hu2, !andb_false_r.
    + apply String.eqb_neq in Hc1, Hc2. rewrite Hc1, Hc2.
      by destruct (_ && _), (_ && _).
    + destruct (String.eqb u seller) eqn:Es.
      { apply String.eqb_eq in Es as ->. rewrite Hm, Hsb, andb_false_r. done. }
      rewrite andb_false_r.
      destruct (String.eqb u buyer) eqn:Eb; [|by rewrite andb_false_r].
      apply String.eqb_eq in Eb as ->. by rewrite Hm.
  - by rewrite KS, KB.
Qed.

Lemma X16_settlement_is_a_transfer_witness :
  let user_balances := [("user123", [("BTC", 10%Q); ("USDT", 100000%Q)]);
                        ("user456", [("BTC", 5%Q); ("USDT", 50000%Q)])] in
  let trade := Trade.mk "BTC/USDT" "b" "a" "user123" "user456" (1 # 2) (Some 49000%Q) 1 in
  match update_balance_after_trade trade user_balances with
  | (Returns _, user_balances') =>
      held "user123" "BTC" user_balances' = (10 + (1 # 2))%Q /\
      held "user456" "USDT" user_balances' = (50000 + (1 # 2) * 49000)%Q
  | (Raises _, _) => False
  end.
Proof.
  intros ub trade.
  destruct (update_balance_after_trade trade ub) as [[[]|e] ub'] eqn:E.
  - destruct (X16_settlement_is_a_transfer trade "BTC" "USDT" 49000 ub ub')
      as (H1 & H2 & _); [reflexivity | done | reflexivity | done | exact E|].
    split; [apply H1 | apply H2]; reflexivity.
  - vm_compute in E. discriminate.
Defined.

(** ** The trade listing *)

Lemma newer_asym a b : newer a b = true -> newer b a = false.
Proof. unfold newer. intros H. apply Z.ltb_lt in H. apply Z.ltb_ge. lia. Qed.

Lemma newer_ntrans a b c :
  not_after newer a b -> not_after newer b c -> not_after newer a c.
Proof.
  unfold not_after, newer. intros H1 H2. apply Z.ltb_ge in H1, H2. apply Z.ltb_ge. lia.
Qed.

Lemma sorted_newer l :
  StronglySorted (fun a b => (Trade.timestamp b <= Trade.timestamp a)%Z) (sorted newer l).
Proof.
  eapply StronglySorted_impl; [|apply (sorted_sorted newer newer_asym newer_ntrans)].
  intros a b. unfold not_after, newer. intros H. apply Z.ltb_ge in H. lia.
Qed.

Lemma StronglySorted_app_inv {A} (R : A -> A -> Prop) l1 l2 :
  StronglySorted R (l1 ++ l2) ->
  StronglySorted R l1 /\ forall a b, In a l1 -> In b l2 -> R a b.
Proof.
  induction l1 as [|x l1 IH]; cbn [app]; intros H.
  { split; [constructor | by intros a b []]. }
  apply StronglySorted_inv in H as [H Hx]. destruct (IH H) as [H1 H2]. split.
  - constructor; [done|]. rewrite List.Forall_forall in Hx |- *.
    intros y Hy. apply Hx. apply in_app_iff. by left.
  - intros a b [<-|Ha] Hb; [|by apply H2].
    rewrite List.Forall_forall in Hx. apply Hx. apply in_app_iff. by right.
Qed.

Lemma take_newest n l : newest_first n l (take n (sorted newer l)).
Proof.
  pose proof (sorted_newer l) as Hs. pose proof (sorted_perm newer l) as Hp.
  rewrite <- (take_drop n (sorted newer l)) in Hs, Hp.
  apply StronglySorted_app_inv in Hs as [Hs Hle]. split; [|split].
  - rewrite length_take. by rewrite (Permutation_length (sorted_perm newer l)).
  - exists (drop n (sorted newer l)). split; [exact Hp|].
    intros t t' Ht Ht'. by apply Hle.
  - exact Hs.
Qed.

(** X17: the trade listings show the newest trades first.  For a limit that
    is not negative, [get_trades] returns the [limit] newest trades of the
    symbol (all of them if there are fewer), in descending order of time:
    every returned trade is a trade of the history with that symbol, and no
    trade of the symbol that is left out is later than a returned one;
    [get_all_trades] does the same for the whole history. *)
Theorem X17_trade_listing symbol limit st :
  (0 <= limit)%Z ->
  newest_first (Z.to_nat limit)
    (List.filter (fun t => String.eqb (Trade.symbol t) symbol) (trades st))
    (get_trades symbol limit st) /\
  (forall t, In t (get_trades symbol limit st) ->
     In t (trades st) /\ Trade.symbol t = symbol) /\
  newest_first (Z.to_nat limit) (trades st) (get_all_trades limit st).
Proof.
  intros Hl. unfold get_trades, get_all_trades, slice_to.
  apply Z.leb_le in Hl. rewrite Hl. split; [apply take_newest|]. split; [|apply take_newest].
  intros t Ht.
  assert (Hin : In t (sorted newer
            (List.filter (fun t => String.eqb (Trade.symbol t) symbol) (trades st)))).
  { rewrite <- (take_drop (Z.to_nat limit)). apply in_app_iff. by left. }
  apply (Permutation_in _ (sorted_perm newer _)) in Hin.
  apply filter_In in Hin as [Hin Hs]. split; [done|]. by apply String.eqb_eq.
Qed.

Lemma X17_trade_listing_witness :
  let st := run [Submit (new_Order "a" "X/Y" SELL LIMIT 1 (Some 100%Q) 1 "A") 1;
                 Submit (new_Order "b" "X/Y" BUY LIMIT (1 # 2) (Some 100%Q) 2 "B") 2;
                 Submit (new_Order "c" "U/V" SELL LIMIT 1 (Some 7%Q) 3 "C") 3;
                 Submit (new_Order "d" "U/V" BUY LIMIT 1 (Some 7%Q) 4 "D") 4] init in
  length (get_trades "X/Y" 5 st) = 1%nat /\
  Forall (fun t => Trade.symbol t = "X/Y") (get_trades "X/Y" 5 st).
Proof.
  intros st. destruct (X17_trade_listing "X/Y" 5 st) as ((H1 & _) & H2 & _); [lia|].
  split.
  - rewrite H1. by vm_compute.
  - apply List.Forall_forall. intros t Ht. by apply H2.
Defined.

(** ** Pending orders do not cross *)

Lemma In_resting side sym s r o :
  In (r, o) (resting side sym s) <->
  In r (side_list side (lists_of sym s)) /\ heap s !! r = Some o.
Proof.
  unfold resting, lists_of.
  destruct (dict_get sym (orders_by_symbol s)) as [so|].
  - rewrite objects_of_In. by destruct side.
  - destruct side; cbn; tauto.
Qed.

Lemma pending_refs_In inc sym s c oc :
  In (c, oc) (resting (match inc with BUY => SELL | SELL => BUY end) sym s) ->
  Order.status oc = PENDING -> In c (pending_refs inc sym s).
Proof.
  intros Hin Hp. unfold pending_refs. apply in_map_iff. exists (c, oc). split; [done|].
  apply filter_In. split; [done|]. unfold is_pending. cbn [snd]. by rewrite Hp.
Qed.

Lemma uncrossed_allocated x s : lists_ok s -> uncrossed s -> uncrossed (allocated x s).
Proof.
  intros L U sym rb rs b sl Hb Hs. apply In_resting in Hb as [Hb1 Hb2].
  apply In_resting in Hs as [Hs1 Hs2].
  change (lists_of sym (allocated x s)) with (lists_of sym s) in Hb1, Hs1.
  destruct (L sym) as [Lb Ls]. rewrite List.Forall_forall in Lb, Ls.
  destruct (Lb _ Hb1) as (b0 & Hb0 & _). destruct (Ls _ Hs1) as (sl0 & Hsl0 & _).
  rewrite (allocated_lookup x s _ _ Hb0) in Hb2.
  rewrite (allocated_lookup x s _ _ Hsl0) in Hs2.
  injection Hb2 as <-. injection Hs2 as <-.
  apply (U sym rb rs); apply In_resting; by split.
Qed.

Lemma uncrossed_stored r o now s : uncrossed s -> uncrossed (stored r o now s).
Proof.
  intros U sym rb rs b sl.
  rewrite !(resting_frame _ sym s (stored r o now s));
    [apply U | apply heap_stored | apply lists_of_stored | apply heap_stored
     | apply lists_of_stored].
Qed.

Lemma after_store_lists_Ok r o now s ts s' sym' :
  heap s !! r = Some o -> not_resting r s ->
  after_store r (Order.symbol o) now s = (Ok ts, s') ->
  exists o', heap s' !! r = Some o' /\ order_evolves o o' /\
    lists_of sym' s' =
      if negb (OrderStatus_eqb (Order.status o') FILLED) && String.eqb sym' (Order.symbol o)
      then rested (Order.side o) r (lists_of sym' s)
      else lists_of sym' s.
Proof.
  intros Hr Hn E. pose proof (after_store_lists r o now s sym' Hr Hn) as Hl.
  rewrite E in Hl. cbn [snd] in Hl.
  destruct (_match_order r now s) as [[ts'|e] s1] eqn:Em; cbn [fst] in Hl; [done|].
  unfold after_store in E. rewrite bind_eq, Em in E. discriminate.
Qed.

Lemma pending_remaining o :
  healthy o -> _validate_order o = true -> Order.status o = PENDING ->
  (0 < Order.remaining o)%Q.
Proof.
  intros (_ & _ & Hst) Hv Hp. unfold status_reflects_fills in Hst. rewrite Hp in Hst.
  destruct Hst as [Hf _]. apply validate_true_quantity in Hv.
  unfold Order.remaining. lra.
Qed.

Lemma uncrossed_submit o now s :
  sound s -> lists_ok s -> uncrossed s -> is_new o -> has_price o ->
  uncrossed (snd (submit o now s)).
Proof.
  intros (W & H & Hmd) L U Hnew Hp.
  destruct (submit_cases o now s) as [[Hv E]|[Hv E]]; rewrite E.
  { by apply (uncrossed_allocated (Order.set_status REJECTED o)). }
  set (r := length (heap s)). set (s0 := stored r o now (allocated o s)).
  assert (Hr : heap s0 !! r = Some o).
  { unfold s0. rewrite heap_stored. apply lookup_snoc. }
  assert (Hn : not_resting r s0).
  { apply not_resting_stored. intros sym so Hso.
    exact (not_resting_fresh s (proj1 W) sym so Hso). }
  assert (L0 : lists_ok s0) by by apply lists_ok_stored, lists_ok_allocated.
  assert (U0 : uncrossed s0) by by apply uncrossed_stored, uncrossed_allocated.
  assert (H0 : all_healthy s0).
  { apply (all_healthy_heap (allocated o s)); [apply heap_stored|].
    apply all_healthy_snoc; [done | by apply new_healthy]. }
  destruct (after_store_returns (fun _ => True)
              (fun _ _ _ _ _ _ _ _ _ _ _ _ _ _ _ => I) (fun _ _ _ _ _ => I) r o now s0)
    as (ts & s' & E' & H' & _ & Hmd' & P1 & P2); [done | done | | | done | done | |].
  { apply (wf_stored r o now (allocated o s)); [apply lookup_snoc | done|].
    by apply wf_allocated. }
  { unfold s0, stored. cbn [order_books set_active_orders]. apply with_book_mem. }
  { intros sym md. unfold s0, stored, with_book.
    destruct (dict_mem (Order.symbol o) (order_books (allocated o s))); apply Hmd. }
  fold r s0. rewrite E'. cbn [snd].
  assert (Hrem : (0 < Order.remaining o)%Q).
  { apply pending_remaining; [by apply new_healthy | done | apply Hnew]. }
  intros sym rb rs b sl Hb Hs Hpb Hps.
  apply In_resting in Hb as [Hb1 Hb2]. apply In_resting in Hs as [Hs1 Hs2].
  pose proof (P1 _ _ Hb2 Hpb) as Hb0. pose proof (P1 _ _ Hs2 Hps) as Hs0.
  destruct (after_store_lists_Ok r o now s0 ts s' sym Hr Hn E') as (o' & Ho' & _ & Hl).
  rewrite Hl in Hb1, Hs1.
  assert (Hold : forall side x, In x (side_list side (lists_of sym s0)) -> x <> r).
  { intros side x Hx ->. unfold lists_of in Hx.
    destruct (dict_get sym (orders_by_symbol s0)) as [so|] eqn:Eso.
    - destruct (Hn _ _ Eso) as [N1 N2]. destruct side; cbn [side_list] in Hx; tauto.
    - by destruct side. }
  assert (Hcand : forall side x ox,
            In x (side_list side (lists_of sym s0)) -> heap s0 !! x = Some ox ->
            Order.status ox = PENDING ->
            (0 < Order.remaining ox)%Q).
  { intros side x ox Hx Hox Hpx. destruct (L0 sym) as [Lb Ls].
    rewrite List.Forall_forall in Lb, Ls.
    assert (Hv' : _validate_order ox = true).
    { destruct side; cbn [side_list] in Hx;
        [destruct (Lb _ Hx) as (y & Hy & _ & _ & Hvy)
        | destruct (Ls _ Hx) as (y & Hy & _ & _ & Hvy)]; congruence. }
    apply pending_remaining; [by eapply H0 | done | done]. }
  destruct (negb (OrderStatus_eqb (Order.status o') FILLED) &&
            String.eqb sym (Order.symbol o)) eqn:Ec.
  2:{ apply (U0 sym rb rs); [apply In_resting | apply In_resting | done | done]; by split. }
  apply andb_true_iff in Ec as [_ Ec]. apply String.eqb_eq in Ec. subst sym.
  apply (In_rested _ BUY) in Hb1. apply (In_rested _ SELL) in Hs1.
  destruct Hb1 as [Hb1|[-> Hside]], Hs1 as [Hs1|[-> Hside']].
  - apply (U0 (Order.symbol o) rb rs); [apply In_resting | apply In_resting | done | done];
      by split.
  - (* the incoming order is the sell *)
    rewrite Hr in Hs0. injection Hs0 as ->.
    assert (Hu : unmatched sl b).
    { apply (P2 sl Hs2 Hps Hrem rb b); [|done | by eapply Hcand].
      rewrite <- Hside'. apply (pending_refs_In SELL _ _ rb b); [|done].
      apply In_resting. by split. }
    unfold unmatched in Hu. by rewrite <- Hside' in Hu.
  - (* the incoming order is the buy *)
    rewrite Hr in Hb0. injection Hb0 as ->.
    assert (Hu : unmatched b sl).
    { apply (P2 b Hb2 Hpb Hrem rs sl); [|done | by eapply Hcand].
      rewrite <- Hside. apply (pending_refs_In BUY _ _ rs sl); [|done].
      apply In_resting. by split. }
    unfold unmatched in Hu. by rewrite <- Hside in Hu.
  - congruence.
Qed.

Lemma cancel_pending order_id user_id now s x o' :
  wf s -> heap (snd (cancel_order order_id user_id now s)) !! x = Some o' ->
  Order.status o' = PENDING -> heap s !! x = Some o'.
Proof.
  intros W. destruct (dict_get order_id (active_orders s)) as [r|] eqn:E.
  2:{ by rewrite cancel_order_unknown. }
  pose proof W as (R & A & T). destruct (A _ _ (dict_get_In _ _ _ E)) as (o & Ho & _).
  destruct (String.eqb (Order.user_id o) user_id) eqn:Eu.
  2:{ rewrite (cancel_order_refused _ _ _ _ _ _ E Ho); [done|]. left.
      intros Hu. apply String.eqb_eq in Hu. congruence. }
  apply String.eqb_eq in Eu.
  destruct (is_live o) eqn:El.
  2:{ rewrite (cancel_order_refused _ _ _ _ _ _ E Ho); [done | by right]. }
  destruct (cancel_order_done order_id user_id now s r o)
    as (s' & ob & -> & Hh & _); [done..|].
  cbn [snd]. rewrite Hh. intros Hx Hp.
  by apply list_lookup_insert_Some in Hx as [(-> & <- & _)|[_ Hx]].
Qed.

Lemma uncrossed_cancel order_id user_id now s :
  wf s -> uncrossed s -> uncrossed (snd (cancel_order order_id user_id now s)).
Proof.
  intros W U sym rb rs b sl Hb Hs Hpb Hps.
  apply In_resting in Hb as [Hb1 Hb2]. apply In_resting in Hs as [Hs1 Hs2].
  apply (cancel_order_lists _ _ _ _ _ _ _ W) in Hb1, Hs1.
  apply (cancel_pending _ _ _ _ _ _ W) in Hb2, Hs2; [|done..].
  apply (U sym rb rs); [apply In_resting | apply In_resting | done | done]; by split.
Qed.

Lemma uncrossed_run ops : priced_submissions ops -> uncrossed (run ops init).
Proof.
  induction ops as [|op ops IH] using rev_ind; intros Hops.
  { by intros sym rb rs b sl []. }
  apply Forall_app in Hops as [Hops Hop]. apply Forall_inv in Hop.
  specialize (IH Hops). rewrite run_snoc.
  pose proof (sound_run ops Hops) as S.
  destruct op as [o now|id u now]; cbn [step].
  - destruct Hop as [Hnew Hp]. apply uncrossed_submit; [done | | done..].
    apply lists_ok_run; [apply wf_init | apply lists_ok_init].
  - apply uncrossed_cancel; [apply S | done].
Qed.

(** X18: the pending orders of a book never cross.  In a state reached by
    submitting new orders that carry a price and by cancelling, no resting
    buy order and resting sell order of one symbol that are both [Pending]
    match in price: had they matched, the later of the two would have traded
    with the earlier when it came in. *)
Theorem X18_pending_orders_do_not_cross ops sym rb rs b sl :
  priced_submissions ops ->
  In (rb, b) (resting BUY sym (run ops init)) ->
  In (rs, sl) (resting SELL sym (run ops init)) ->
  Order.status b = PENDING -> Order.status sl = PENDING ->
  _price_matches b sl = false.
Proof. intros Hops. apply (uncrossed_run ops Hops). Qed.

Lemma X18_pending_orders_do_not_cross_witness :
  let ops := [Submit (new_Order "a" "X/Y" SELL LIMIT 1 (Some 100%Q) 1 "A") 1;
              Submit (new_Order "b" "X/Y" BUY LIMIT 1 (Some 99%Q) 2 "B") 2] in
  let b := new_Order "b" "X/Y" BUY LIMIT 1 (Some 99%Q) 2 "B" in
  let sl := new_Order "a" "X/Y" SELL LIMIT 1 (Some 100%Q) 1 "A" in
  In (1%nat, b) (resting BUY "X/Y" (run ops init)) /\
  In (0%nat, sl) (resting SELL "X/Y" (run ops init)) /\
  _price_matches b sl = false.
Proof.
  intros ops b sl.
  assert (Hb : In (1%nat, b) (resting BUY "X/Y" (run ops init))) by (vm_compute; by left).
  assert (Hs : In (0%nat, sl) (resting SELL "X/Y" (run ops init))) by (vm_compute; by left).
  split; [exact Hb|]. split; [exact Hs|].
  apply (X18_pending_orders_do_not_cross ops "X/Y" 1%nat 0%nat b sl); [|done..].
  repeat constructor; by eexists.
Defined.

(** ** Fills and the trade history *)

Lemma traded_snoc id ts t : (traded id (ts ++ [t]) == traded id ts + fill_of id t)%Q.
Proof.
  unfold traded. induction ts as [|t' ts IH]; cbn [app map fold_right]; [lra|].
  rewrite IH. lra.
Qed.

Lemma ids_lookup (h : list Order.t) r o : h !! r = Some o -> In (Order.id o) (map Order.id h).
Proof.
  intros H. apply in_map. apply list_elem_of_In. by eapply list_elem_of_lookup_2.
Qed.

Lemma ids_inj (h : list Order.t) i j a b :
  NoDup (map Order.id h) -> h !! i = Some a -> h !! j = Some b ->
  Order.id a = Order.id b -> i = j.
Proof.
  revert i j. induction h as [|x h IH]; intros i j Hnd Ha Hb E; [done|].
  cbn [map] in Hnd. apply NoDup_cons in Hnd as [Hx Hnd].
  destruct i as [|i], j as [|j]; cbn in Ha, Hb.
  - done.
  - injection Ha as ->. exfalso. apply Hx. rewrite E.
    apply list_elem_of_In. by eapply ids_lookup.
  - injection Hb as ->. exfalso. apply Hx. rewrite <- E.
    apply list_elem_of_In. by eapply ids_lookup.
  - f_equal. by eapply IH.
Qed.

Lemma ids_insert (h : list Order.t) r o x :
  h !! r = Some o -> Order.id x = Order.id o ->
  map Order.id (<[r := x]> h) = map Order.id h.
Proof.
  revert r. induction h as [|y h IH]; intros r Hr E; [done|].
  destruct r as [|r]; cbn in Hr |- *.
  - injection Hr as ->. by rewrite E.
  - f_equal. by apply IH.
Qed.

Lemma heap_evolves_ids h h' : heap_evolves h h' -> map Order.id h' = map Order.id h.
Proof.
  revert h'. induction h as [|x h IH]; intros h' [Hl Hev].
  { by destruct h'. }
  destruct h' as [|x' h']; [done|]. cbn [map]. f_equal.
  - destruct (Hev 0%nat x eq_refl) as (o' & Ho' & [Hs _ _]). cbn in Ho'.
    injection Ho' as ->. unfold static in Hs. by injection Hs as ? _ _ _ _ _ _ _.
  - apply IH. split; [cbn in Hl; lia|]. intros r o Hr. apply (Hev (S r) o Hr).
Qed.

Lemma executed_inv b sl now t b' sl' :
  executed b sl now = (Ok (Some t), b', sl') ->
  t = trade_of b sl now /\
  Order.id b' = Order.id b /\ Order.id sl' = Order.id sl /\
  Order.filled_quantity b' = (Order.filled_quantity b + Trade.quantity t)%Q /\
  Order.filled_quantity sl' = (Order.filled_quantity sl + Trade.quantity t)%Q.
Proof.
  unfold executed. destruct (Qle_bool _ 0); [done|].
  pose proof (after_trade_static (py_min (Order.remaining b) (Order.remaining sl))
                (trade_price_of b sl) now b) as Sb.
  pose proof (after_trade_filled (py_min (Order.remaining b) (Order.remaining sl))
                (trade_price_of b sl) now b) as Fb.
  pose proof (after_trade_static (py_min (Order.remaining b) (Order.remaining sl))
                (trade_price_of b sl) now sl) as Ss.
  pose proof (after_trade_filled (py_min (Order.remaining b) (Order.remaining sl))
                (trade_price_of b sl) now sl) as Fs.
  destruct (after_trade _ _ now b) as [[[]|e] b1]; [|done].
  destruct (after_trade _ _ now sl) as [[[]|e] sl1]; [|done].
  cbn [snd] in *. intros [= <- <- <-]. split; [done|].
  unfold static in Sb, Ss.
  injection Sb as Hb _ _ _ _ _ _ _. injection Ss as Hs _ _ _ _ _ _ _. by repeat split.
Qed.

Lemma backed_traded s rb rs b sl now t b' sl' :
  backed s -> all_healthy s -> rb <> rs ->
  heap s !! rb = Some b -> heap s !! rs = Some sl ->
  executed b sl now = (Ok (Some t), b', sl') ->
  backed (set_trades (trades s ++ [t])
            (set_heap (<[rs := sl']> (<[rb := b']> (heap s))) s)).
Proof.
  intros [Hnd Hacc] _ Hne Hb Hs E.
  apply executed_inv in E as (-> & Ib & Is & Fb & Fs).
  assert (Hs1 : <[rb := b']> (heap s) !! rs = Some sl) by by rewrite list_lookup_insert_ne.
  assert (Hids : map Order.id (<[rs := sl']> (<[rb := b']> (heap s))) = map Order.id (heap s)).
  { by rewrite (ids_insert _ _ _ _ Hs1 Is), (ids_insert _ _ _ _ Hb Ib). }
  assert (Hdiff : Order.id b <> Order.id sl).
  { intros Eid. apply Hne. by eapply ids_inj. }
  split; cbn [heap trades set_trades set_heap]; [by rewrite Hids|].
  intros x o Hx. rewrite traded_snoc. unfold fill_of.
  cbn [trade_of Trade.buy_order_id Trade.sell_order_id Trade.quantity] in *.
  apply list_lookup_insert_Some in Hx as [(-> & <- & _)|[Hxs Hx]].
  - rewrite Is, Fs, (Hacc _ _ Hs), String.eqb_refl.
    replace (String.eqb (Order.id b) (Order.id sl)) with false; [lra|].
    symmetry. by apply String.eqb_neq.
  - apply list_lookup_insert_Some in Hx as [(-> & <- & _)|[Hxb Hx]].
    + rewrite Ib, Fb, (Hacc _ _ Hb), String.eqb_refl.
      replace (String.eqb (Order.id sl) (Order.id b)) with false; [lra|].
      symmetry. apply String.eqb_neq. congruence.
    + rewrite (Hacc _ _ Hx).
      replace (String.eqb (Order.id b) (Order.id o)) with false.
      2:{ symmetry. apply String.eqb_neq. intros Eid. apply Hxb. by eapply ids_inj. }
      replace (String.eqb (Order.id sl) (Order.id o)) with false; [lra|].
      symmetry. apply String.eqb_neq. intros Eid. apply Hxs. by eapply ids_inj.
Qed.

Lemma backed_frame s s' : heap s' = heap s -> trades s' = trades s -> backed s -> backed s'.
Proof. unfold backed. by intros -> ->. Qed.

Lemma traded_fresh id s :
  trades_ok s -> ~ In id (map Order.id (heap s)) -> (traded id (trades s) == 0)%Q.
Proof.
  unfold trades_ok, traded. intros T Hid.
  induction (trades s) as [|t ts IH]; cbn [map fold_right]; [lra|].
  apply Forall_cons in T as [(rb & rs & b & sl & Hb & Hs & [_ H1 H2 _ _ _ _]) T].
  rewrite (IH T). unfold fill_of. rewrite H1, H2.
  replace (String.eqb (Order.id b) id) with false.
  2:{ symmetry. apply String.eqb_neq. intros <-. apply Hid. by eapply ids_lookup. }
  replace (String.eqb (Order.id sl) id) with false; [lra|].
  symmetry. apply String.eqb_neq. intros <-. apply Hid. by eapply ids_lookup.
Qed.

Lemma backed_allocated o s :
  wf s -> backed s -> (Order.filled_quantity o == 0)%Q ->
  ~ In (Order.id o) (map Order.id (heap s)) -> backed (allocated o s).
Proof.
  intros (_ & _ & T) [Hnd Hacc] Hf Hid. unfold allocated. split; cbn [heap trades set_heap].
  - rewrite map_app. cbn [map]. apply NoDup_app. split; [done|]. split.
    + intros x Hx [<-|[]]%list_elem_of_In. apply Hid. by apply list_elem_of_In.
    + apply NoDup_singleton.
  - intros r x Hx. apply lookup_app_Some in Hx as [Hx|[_ Hx]]; [by apply (Hacc r)|].
    apply list_lookup_singleton_Some in Hx as [_ <-].
    by rewrite Hf, (traded_fresh _ s T Hid).
Qed.

Lemma backed_submit o now s :
  sound s -> backed s -> is_new o -> has_price o ->
  ~ In (Order.id o) (map Order.id (heap s)) ->
  backed (snd (submit o now s)) /\
  map Order.id (heap (snd (submit o now s))) = map Order.id (heap s) ++ [Order.id o].
Proof.
  intros (W & H & Hmd) B Hnew Hp Hid.
  assert (Hf : (Order.filled_quantity o == 0)%Q).
  { destruct Hnew as (_ & -> & _). reflexivity. }
  destruct (submit_cases o now s) as [[Hv E]|[Hv E]]; rewrite E.
  { split.
    - by apply (backed_allocated (Order.set_status REJECTED o)).
    - cbn [snd heap set_heap]. by rewrite map_app. }
  set (r := length (heap s)). set (s0 := stored r o now (allocated o s)).
  assert (Hr : heap s0 !! r = Some o).
  { unfold s0. rewrite heap_stored. apply lookup_snoc. }
  assert (Hn : not_resting r s0).
  { apply not_resting_stored. intros sym so Hso.
    exact (not_resting_fresh s (proj1 W) sym so Hso). }
  assert (B0 : backed s0).
  { apply (backed_frame (allocated o s)); [apply heap_stored | | by apply backed_allocated].
    unfold s0, stored, with_book. by destruct (dict_mem _ _). }
  destruct (after_store_returns backed backed_traded backed_frame r o now s0)
    as (ts & s' & E' & _ & B' & _); [done | done | | | | done | |].
  { apply (wf_stored r o now (allocated o s)); [apply lookup_snoc | done|].
    by apply wf_allocated. }
  { unfold s0, stored. cbn [order_books set_active_orders]. apply with_book_mem. }
  { apply (all_healthy_heap (allocated o s)); [apply heap_stored|].
    apply all_healthy_snoc; [done | by apply new_healthy]. }
  { intros sym md. unfold s0, stored, with_book.
    destruct (dict_mem (Order.symbol o) (order_books (allocated o s))); apply Hmd. }
  pose proof (after_store_step r (Order.symbol o) now s0 Hn) as St.
  fold r s0 in St |- *. rewrite E' in St |- *. cbn [snd] in St |- *. split; [done|].
  rewrite (heap_evolves_ids _ _ (es_heap _ _ St)). unfold s0. rewrite heap_stored.
  unfold allocated. cbn [heap set_heap]. by rewrite map_app.
Qed.

Lemma backed_cancel order_id user_id now s :
  wf s -> backed s ->
  backed (snd (cancel_order order_id user_id now s)) /\
  map Order.id (heap (snd (cancel_order order_id user_id now s))) = map Order.id (heap s).
Proof.
  intros W [Hnd Hacc].
  pose proof (cancel_order_step order_id user_id now s) as St.
  pose proof (keeps_cancel_order trades (fun _ _ => eq_refl) (fun _ _ => eq_refl)
                (fun _ _ => eq_refl) order_id user_id now s) as Kt.
  pose proof (heap_evolves_ids _ _ (es_heap _ _ St)) as Hids.
  split; [|done]. split; [by rewrite Hids|].
  intros x o' Hx. rewrite Kt.
  destruct (dict_get order_id (active_orders s)) as [r|] eqn:E.
  2:{ rewrite cancel_order_unknown in Hx; [exact (Hacc _ _ Hx) | done]. }
  pose proof W as (R & A & T). destruct (A _ _ (dict_get_In _ _ _ E)) as (o & Ho & _).
  destruct (String.eqb (Order.user_id o) user_id) eqn:Eu.
  2:{ rewrite (cancel_order_refused _ _ _ _ _ _ E Ho) in Hx; [exact (Hacc _ _ Hx)|]. left.
      intros Hu. apply String.eqb_eq in Hu. congruence. }
  apply String.eqb_eq in Eu.
  destruct (is_live o) eqn:El.
  2:{ rewrite (cancel_order_refused _ _ _ _ _ _ E Ho) in Hx; [exact (Hacc _ _ Hx) | by right]. }
  destruct (cancel_order_done order_id user_id now s r o)
    as (s' & ob & Hc & Hh & _); [done..|].
  rewrite Hc in Hx. cbn [snd] in Hx. rewrite Hh in Hx.
  apply list_lookup_insert_Some in Hx as [(-> & <- & _)|[_ Hx]]; [|exact (Hacc _ _ Hx)].
  exact (Hacc _ _ Ho).
Qed.

Lemma submitted_ids_snoc ops op :
  submitted_ids (ops ++ [op]) =
    submitted_ids ops ++ match op with Submit o _ => [Order.id o] | Cancel _ _ _ => [] end.
Proof. unfold submitted_ids. rewrite flat_map_app. cbn. by rewrite app_nil_r. Qed.

Lemma backed_run ops :
  priced_submissions ops -> NoDup (submitted_ids ops) ->
  backed (run ops init) /\ map Order.id (heap (run ops init)) = submitted_ids ops.
Proof.
  induction ops as [|op ops IH] using rev_ind; intros Hops Hnd.
  { split; [|done]. split; [constructor | by intros r o]. }
  apply Forall_app in Hops as [Hops Hop]. apply Forall_inv in Hop.
  rewrite submitted_ids_snoc in Hnd |- *. apply NoDup_app in Hnd as (Hnd & Hfresh & _).
  destruct (IH Hops Hnd) as [B Hids]. pose proof (sound_run ops Hops) as S.
  rewrite run_snoc. destruct op as [o now|id u now]; cbn [step].
  - destruct Hop as [Hnew Hp].
    destruct (backed_submit o now (run ops init) S B Hnew Hp) as [B' Hids'].
    + rewrite Hids. intros Hin. apply list_elem_of_In in Hin.
      apply (Hfresh _ Hin). by left.
    + split; [done|]. by rewrite Hids', Hids.
  - destruct (backed_cancel id u now (run ops init) (proj1 S) B) as [B' Hids'].
    split; [done|]. by rewrite Hids', Hids, app_nil_r.
Qed.

(** X19: every fill is backed by the trade history.  In a state reached by
    submitting new orders that carry a price and have different ids, and by
    cancelling, the filled quantity of every order equals the sum of the
    quantities of the trades of the history that carry its id as buy or sell
    order id; and the order objects are those submitted, in the order of
    submission. *)
Theorem X19_fills_are_backed_by_trades ops :
  priced_submissions ops -> NoDup (submitted_ids ops) ->
  map Order.id (heap (run ops init)) = submitted_ids ops /\
  forall r o, heap (run ops init) !! r = Some o ->
    (Order.filled_quantity o == traded (Order.id o) (trades (run ops init)))%Q.
Proof.
  intros Hops Hnd. destruct (backed_run ops Hops Hnd) as [[_ B] Hids]. by split.
Qed.

Lemma X19_fills_are_backed_by_trades_witness :
  let ops := [Submit (new_Order "a" "X/Y" SELL LIMIT 1 (Some 100%Q) 1 "A") 1;
              Submit (new_Order "b" "X/Y" BUY LIMIT (8 # 10) (Some 100%Q) 2 "B") 2] in
  match heap (run ops init) !! 0%nat with
  | Some o => (Order.filled_quantity o == traded "a" (trades (run ops init)))%Q
  | None => False
  end.
Proof.
  intros ops. destruct (heap (run ops init) !! 0%nat) as [o|] eqn:E; [|by vm_compute in E].
  assert (Hops : priced_submissions ops).
  { repeat constructor; by eexists. }
  assert (Hnd : NoDup (submitted_ids ops)).
  { cbn. apply NoDup_cons. split; [|apply NoDup_singleton].
    intros Hin. apply list_elem_of_In in Hin as [Hin|[]]. discriminate. }
  destruct (X19_fills_are_backed_by_trades ops Hops Hnd) as [_ H].
  assert (Hid : Order.id o = "a").
  { vm_compute in E. by injection E as <-. }
  rewrite <- Hid. exact (H 0%nat o E).
Defined.

(** ** The order store and its listings *)

Lemma dict_keys_set {V} k (v : V) d :
  NoDup (dict_keys d) -> NoDup (dict_keys (dict_set k v d)) /\
  forall k', In k' (dict_keys (dict_set k v d)) -> k' = k \/ In k' (dict_keys d).
Proof.
  unfold dict_keys. induction d as [|[k0 v0] d IH]; cbn [dict_set map fst].
  - intros _. split; [apply NoDup_singleton|]. intros k' [<-|[]]. by left.
  - intros [Hk0 Hd]%NoDup_cons. destruct (IH Hd) as [IH1 IH2].
    destruct (String.eqb k k0) eqn:E; cbn [map fst].
    + apply String.eqb_eq in E as ->. split; [by apply NoDup_cons|]. intros k' H. by right.
    + split.
      * apply NoDup_cons. split; [|done]. intros Hin%list_elem_of_In.
        destruct (IH2 _ Hin) as [->|Hin'].
        -- by rewrite String.eqb_refl in E.
        -- by apply Hk0, list_elem_of_In.
      * intros k' [<-|Hin]; [right; by left|].
        destruct (IH2 _ Hin) as [->|Hin']; [by left | right; by right].
Qed.

Lemma dict_get_unique {V} k (v : V) d :
  NoDup (dict_keys d) -> In (k, v) d -> dict_get k d = Some v.
Proof.
  unfold dict_keys. induction d as [|[k0 v0] d IH]; cbn [dict_get map fst]; [done|].
  intros [Hk0 Hd]%NoDup_cons [[= -> ->]|Hin].
  - by rewrite String.eqb_refl.
  - destruct (String.eqb k k0) eqn:E; [|by apply IH].
    apply String.eqb_eq in E as ->. destruct Hk0.
    apply list_elem_of_In, in_map_iff. by exists (k0, v).
Qed.

Lemma active_keys_unique ops : NoDup (dict_keys (active_orders (run ops init))).
Proof.
  induction ops as [|op ops IH] using rev_ind; [constructor|].
  rewrite run_snoc. destruct op as [o now|id u now]; cbn [step].
  - destruct (submit_effect o now (run ops init)) as (_ & -> & _);
      [apply wf_run, wf_init|].
    destruct (_validate_order o); [|done]. by apply dict_keys_set.
  - by destruct (cancel_effect id u now (run ops init)) as [_ ->].
Qed.

Lemma active_ids (h : list Order.t) (d : dict nat) :
  (forall id r, In (id, r) d -> exists o, h !! r = Some o /\ Order.id o = id) ->
  map Order.id (omap (fun r => h !! r) (dict_values d)) = dict_keys d.
Proof.
  unfold dict_values, dict_keys. induction d as [|[k r] d IH]; intros H; [done|].
  destruct (H k r) as (o & Ho & Hid); [by left|].
  cbn [map fst snd]. change (omap (fun r => h !! r) (r :: map snd d))
    with (match h !! r with
          | Some y => y :: omap (fun r => h !! r) (map snd d)
          | None => omap (fun r => h !! r) (map snd d)
          end).
  rewrite Ho. cbn [map]. rewrite Hid, IH; [done|]. intros id r' Hin. apply H. by right.
Qed.

Lemma NoDup_map_filter {A B : Type} (f : A -> B) (p : A -> bool) (l : list A) :
  NoDup (map f l) -> NoDup (map f (List.filter p l)).
Proof.
  induction l as [|a l IH]; cbn [map List.filter]; [done|].
  intros [Ha Hl]%NoDup_cons. destruct (p a); [|by apply IH].
  cbn [map]. apply NoDup_cons. split; [|by apply IH].
  intros Hin%list_elem_of_In. apply Ha, list_elem_of_In.
  apply in_map_iff in Hin as (x & Hx & Hin). apply filter_In in Hin as [Hin _].
  apply in_map_iff. by exists x.
Qed.

(** X20: the listing of a user's orders.  In every state the engine reaches,
    [get_user_orders] lists, for a user, exactly the orders of that user
    that [get_order] returns under their own id, and no id twice. *)
Theorem X20_user_orders_listing ops u :
  (forall o, In o (get_user_orders u (run ops init)) <->
     Order.user_id o = u /\ get_order (Order.id o) (run ops init) = Some o) /\
  NoDup (map Order.id (get_user_orders u (run ops init))).
Proof.
  pose proof (wf_run ops init wf_init) as (_ & A & _).
  pose proof (active_keys_unique ops) as K.
  set (s := run ops init) in *. split.
  - intros o. split.
    + unfold get_user_orders. intros [Hin Hu]%filter_In.
      apply String.eqb_eq in Hu. split; [done|].
      apply list_elem_of_In, list_elem_of_omap in Hin as (r & Hr & Ho).
      apply list_elem_of_In, dict_In_values_get in Hr as [k Hk].
      destruct (A _ _ Hk) as (o' & Ho' & Hid & _).
      rewrite Ho in Ho'. injection Ho' as <-.
      unfold get_order. rewrite Hid. by rewrite (dict_get_unique _ _ _ K Hk).
    + intros [<- Hg]. unfold get_order in Hg.
      destruct (dict_get (Order.id o) (active_orders s)) as [r|] eqn:E; [|done].
      by apply (In_get_user_orders (Order.id o) r).
  - unfold get_user_orders. apply NoDup_map_filter. rewrite active_ids; [done|].
    intros id r Hin. destruct (A _ _ Hin) as (o & Ho & Hid & _). eauto.
Qed.
